(* ===== verification/_CoqProject ===== *)
-Q . S2P
Prelude.v
Names.v
Glob.v
FieldErrors.v
PCConfig.v
K8s.v
Common.v
V1beta1.v
V1beta1Spec.v
V1alpha1.v
Conversion.v
WebhookTypes.v
Encoding.v
Oci.v
GM.v
WebhookJSON.v
SigstoreKeys.v
Pem.v
Paths.v
Tuf.v
TufSpec.v
TrustedRoot.v
TrustRoot.v
TrustKeys.v
Cosign.v
ImagePolicies.v
CheckOpts.v
Results.v
Authority.v
Gather.v
Policies.v
PoliciesSpec.v
Workloads.v
Validator.v
Sha256.v
ConfigMaps.v
Lifecycle.v
Reconcile.v
ReconcileSpec.v
ToyText.v
Published.v
TrustRootReconcile.v
TrustRootSpec.v
TrustRootPublished.v
GenReconciler.v
ApiServer.v
GenReconcilerSpec.v
Convergence.v
ToyServer.v
Controllers.v
ControllersSpec.v
Resync.v
TrustRootResync.v
DeepCopy.v
DeepCopyV1alpha1.v
DeepCopyV1beta1.v
DeepCopyDuck.v
DeepCopySpec.v
Informers.v
RestClient.v
Azure.v
PolicyTester.v
PolicyTesterSpec.v
Webhook.v
Stores.v
Process.v
ProcessSpec.v
System.v
TrustSystem.v
Scheme.v
Tester.v
