(* ===== verification/Prelude.v ===== *)
(** * Policy Controller: a verification library

    Policy Controller admits to a Kubernetes cluster only container images that
    satisfy the cluster's policies. This library models the Go code of the
    repository, under src/, as executable Rocq definitions, and proves what its
    parts promise to each other and what the whole promises to its users.

    ** The program and the files that model it

    A user creates ClusterImagePolicies, in two API versions, and TrustRoots. One
    process (cmd/webhook) defaults, validates and converts them; reconciles each
    policy and trust root into an entry of a ConfigMap; and, when a workload is
    created or changed, resolves its images to digests and checks them against
    the policies that apply. The same checks run outside of a cluster in a
    library (pkg/policy) and a command (cmd/tester). The layers, bottom up:

    - the language and the libraries: Prelude (this file: pointers, errors and the
      package strings), Encoding (base64, hex, JSON values), Sha256, Pem
      (encoding/pem), Paths (path/filepath); FieldErrors (knative's errors of
      validation), K8s (API structs), Names (references of images), Oci and Cosign
      (signatures and their verification), Gather (goroutines and channels);
    - Common, Glob, PCConfig: pkg/apis/signaturealgo, pkg/apis/policy/common,
      pkg/apis/glob, pkg/config;
    - V1beta1, V1alpha1, Conversion: pkg/apis/policy, with the specification of a
      well-formed policy in V1beta1Spec; TrustRoot, TrustKeys: the TrustRoot
      resource and pkg/apis/config/sigstore_keys.go;
    - WebhookTypes, WebhookJSON: the webhook's form of a policy and its JSON
      (pkg/webhook/clusterimagepolicy); ImagePolicies, SigstoreKeys: reading the
      two ConfigMaps (pkg/apis/config) and which policies apply to an image;
    - GM: the verifier of SM2 signatures by an HSM and its cache (pkg/webhook/gm);
    - CheckOpts, Results, Authority, Policies, Workloads, Validator: the files of
      pkg/webhook, from the options of one verification to the handlers of
      admission requests; PoliciesSpec holds the theorems about Policies;
    - ConfigMaps, Lifecycle, Reconcile, ReconcileSpec, Published: the controller of
      policies (pkg/reconciler/clusterimagepolicy) and the ConfigMap it maintains;
    - Tuf, TufSpec, TrustedRoot: pkg/tuf, the last its cached trusted root;
      TrustRootReconcile, TrustRootSpec, TrustRootPublished: the controller of trust
      roots (pkg/reconciler/trustroot) and its ConfigMap;
    - GenReconciler: the generated reconcilers around both controllers
      (pkg/client/injection/reconciler: leadership, finalizers, the status and its
      retries); ApiServer: what is assumed of the API server; GenReconcilerSpec: the
      protocol they keep with it; Convergence: calls without interference;
      Controllers, ControllersSpec: the controllers as controller.go wires them;
      Resync, TrustRootResync: what a call for every object achieves;
    - RestClient, Informers: the typed clients, the clientset, the shared informers
      and listers (pkg/client);
    - DeepCopy, DeepCopyV1alpha1, DeepCopyV1beta1, DeepCopyDuck, DeepCopySpec: Go's
      memory and the generated deepcopy functions of pkg/apis;
    - PolicyTester, PolicyTesterSpec, Tester: pkg/policy and cmd/tester;
    - Webhook, Stores, Process, ProcessSpec: cmd/webhook/main.go, the stores of the
      configuration, and the theorem about the running process; System, TrustSystem:
      the controllers and the process together; Scheme: the names of the API; Azure:
      the credential helper of pkg/webhook/registryauth/azure;
    - ToyText, ToyServer: a JSON library and an API server for the witnesses.

    A definition has the name of the function, method or type it translates,
    prefixed by the type where two share a name; a loop or branch of a long
    function is a definition of its own. Each file's own comment says which code
    it holds.

    ** How the code is represented

    - A Go function is a function on values. A pointer is an option, a slice a
      list (nil and empty are told apart where the code does), a map a gmap, a
      struct a record, a string or byte slice a string of bytes. Where a map is
      ranged over, the order is an argument, and theorems hold for every order.
    - A pair of a value and an error is a result; where both are used it is a
      pair. Errors carry their texts. A field error is an abstract value of the
      class FieldErrors, observed through its diagnostics; ListFieldErrors is
      an instance, and the class is what the validations are proved against.
    - State is passed explicitly: the cache and the count of calls in GM, the
      ConfigMap and the status in the reconcilers. Reconcile has a monad of events
      (what was tracked, read and downloaded, by namespace and name), errors and
      panics, and the reconciler of trust roots ends in one of the three as well.
    - The cached trusted root is shared by goroutines: TrustedRoot has the steps of
      their calls (the clock, the test without the lock, the critical sections), which
      a run interleaves in any way.
    - A nil message of a trust root is None (SigstoreKeys). Its dereference is a panic
      of the reconciler. In the webhook it would end the process: there the error
      SigstoreKeys.nilDereference stands for it (CheckOpts), so that what theorems say
      of rejected requests is, for such a trust root, that there is no answer.
    - Goroutines that send on a buffered channel are Gather.gather under a
      Schedule, which chooses the result that is received next or the end of the
      context. Theorems hold for every schedule, or for every one without
      cancellation (NoCancel) where they say so. The calls of a reconciler are the
      steps of the relation Published.run, in any order, each with any old copy
      of the ConfigMap and any failure of its write.
    - Integers that can overflow are Z with their wrap-around: GM.wrap64, add64,
      the lengths of big-endian frames, Webhook.cacheTTL.
    - Code outside of src/ is a class (Names.NamePkg, Cosign.Cosign, ...): the
      operations as parameters, and, in classes of their own (NameLaws,
      JSONPatchLaws, ConditionSetLaws, DocumentLaws, ...), the documented facts
      that some theorems need. Modules named Toy... hold concrete instances, with
      which the witnesses evaluate the theorems' hypotheses.

    ** What is proved

    - The whole system (ProcessSpec, Webhook): main starts the process; policies reach
      the ConfigMap only through its own webhook and the reconciler, in whatever order;
      its store is told of any of the ConfigMap's versions; then every image of every
      workload the webhook admits is a digest and satisfies each enforced policy of the
      last version that applies to it, with the keys of trust roots; the store never
      ends the process. It composes the theorems of the components:
      validated policies are well-formed (V1beta1Spec, Conversion), inlining keeps
      their meaning (ReconcileSpec), the ConfigMap holds only such policies and
      the webhook can read it (Published, WebhookJSON), exactly the policies that
      apply are found (ImagePolicies, Glob), a policy is accepted only with
      evidence (Authority, CheckOpts, PoliciesSpec, GM), and every image of a
      workload is checked (Validator).
    - The cluster (System, TrustSystem): whatever happened before, once the controllers
      have been called for every policy and trust root without interference, and the
      store has been told, the policies of the cluster govern the workloads that the
      process admits, and the webhook trusts the keys of the trust roots. The copies
      of the ConfigMaps that the controllers read are supposed to be current, no call
      to panic, and objects that are being deleted to have the finalizer still.
    - The controllers as a system (GenReconcilerSpec, ControllersSpec, Convergence): the
      generated reconciler, run among other clients with failing and retried requests,
      makes only the steps of a protocol (ControllersSpec.lawful: which policies are
      reconciled and finalized, and when the finalizer comes and goes) and those that
      the theorems about the ConfigMap allow; entries belong to policies that still
      have the finalizer; an undisturbed call brings a policy or
      trust root to its final state, and one for each brings the ConfigMap to what they
      say (Resync, TrustRootResync). A change of what a policy was made of leads to
      another call, by the same reference, namespace included. What a call sends never touches a specification (RestClient), and
      what it modifies is a copy of its own (DeepCopySpec).
    - What the webhook's stores serve, whatever is written to their ConfigMaps (Stores);
      an informer is started once (Informers); Azure's token is shown to Azure's
      registries only (Azure).
    - The library and the command outside of a cluster agree with the webhook
      (PolicyTesterSpec, Tester).
    - The ConfigMap of trust roots, which the webhook can always read (TrustRootSpec,
      TrustRootPublished), and the cached trusted root under overlapping calls (TrustedRoot), the decoding of keys
      (TrustKeys, Pem), the settings of the process (Webhook, PCConfig).
    - Theorems that show where the code does not do what it means to:
      PoliciesSpec.uncounted_errors_admit, Authority.oci11_skips_verification,
      Published.failed_download_panics and unreadable_source_refused,
      TrustRootSpec.SigstoreKeys_Validate_last and tr_ReconcileKind_panics,
      TufSpec.sanitize_admits_siblings, TrustedRoot.overlapping_calls_serve_nil,
      Tester.tester_misses_trusted_root, GM.cache_hit_ignores_payload,
      ControllersSpec.stale_copy_orphans_entry, ProcessSpec.secure_port_ignored,
      Conversion.conversion_drops_tlog, TrustKeys.rsa_details_unspecified.

    ** Bounds and fuel

    - Policies.getConfigs follows an index of images to its manifests to a depth,
      which every theorem leaves arbitrary: running out is an error like any other.
    - Pem.Decode, Pem.parsePems and TrustKeys.DeserializeCertChain_loop have the
      length of their text as fuel, which is shown to be enough, since every block
      consumes text.
    - Every other recursion is structural.

    ** What is assumed of a run

    - The channels of the collecting loops are never closed; the API server sets
      the request of an admission review and the old object of an update; the
      protobuf messages in a list are not nil, which protojson sees to; the cached
      trusted root that the webhook gets is a root or an error, although it can be nil
      when calls overlap (TrustedRoot).
    - The clock that TrustedRoot's calls read does not go back.
    - A call sees one snapshot of what it does not own: the informers' caches in a
      reconciliation, the state of the GM verifier for the authorities of an image,
      the result cache for a policy. Calls to cosign, registries and key management
      services are functions of their arguments during one call.
    - gzip and tar are a sequence of entries. Text that is quoted or trimmed is
      ASCII or printable UTF-8. Logging and metrics are left out.

    ** What is not modelled

    knative's and client-go's servers, queues, informers, caches and trackers, the
    decoding of admission requests to the types registered for their kinds, the
    conversion webhook around newConversionController, and sigstore's and
    registries' protocols, which are interfaces; generated code without logic
    (registrations with knative's injection, accessors, fakes); the commands, fixtures and generators for development
    (cmd/local-dev, cmd/api-docs, cmd/schema, cmd/sample, hack, internal/tuftest,
    test), which start other programs or write documentation and test data; logging
    and metrics. *)

From Stdlib Require Export ZArith Lia Bool Ascii String.
From stdpp Require Export base strings pretty gmap sets sorting option.
From stdpp Require Export list.
Export list.

#[global] Set Default Proof Using "Type".
#[global] Set Warnings "-clear-no-such-hyp".
#[global] Open Scope string_scope.
#[global] Open Scope bool_scope.
#[global] Open Scope list_scope.

(** * Notations *)

Declare Scope go_scope.
Delimit Scope go_scope with go.

(** Go's [==] and [!=] on strings, as boolean tests. *)
Notation "a '==s' b" := (String.eqb a b) (at level 70, no associativity) : go_scope.
Notation "a '!=s' b" := (negb (String.eqb a b)) (at level 70, no associativity) : go_scope.
#[global] Open Scope go_scope.

(** Go's pointer tests [p != nil] and [p == nil]; a pointer is an [option]. *)
Definition notNil {A} (p : option A) : bool :=
  match p with Some _ => true | None => false end.
Definition isNil {A} (p : option A) : bool := negb (notNil p).

(** [p != nil && *p] for a [*bool]. *)
Definition isTrue (p : option bool) : bool :=
  match p with Some b => b | None => false end.

(** [len(l) > 0] and [len(l) == 0]. *)
Definition nonEmpty {A} (l : list A) : bool :=
  match l with [] => false | _ :: _ => true end.
Definition isEmpty {A} (l : list A) : bool := negb (nonEmpty l).

(** [for i, x := range l]: the elements with their indices. *)
Definition indexed {A} (l : list A) : list (nat * A) := imap pair l.

(** * Results and errors

    A Go call returning [(T, error)] is a [result string T]: the error is kept
    as what its [Error()] method renders. Components whose errors carry more
    structure (the webhook's [*apis.FieldError]s) use another [E]. *)
Inductive result (E A : Type) : Type :=
| Ok (a : A)
| Err (e : E).
Arguments Ok {E A} a.
Arguments Err {E A} e.

#[export] Instance result_ret E : MRet (result E) := λ A a, Ok a.
#[export] Instance result_bind E : MBind (result E) := λ A B f r,
  match r with Ok a => f a | Err e => Err e end.
#[export] Instance result_fmap E : FMap (result E) := λ A B f r,
  match r with Ok a => Ok (f a) | Err e => Err e end.

(** [fmt.Errorf("...: %w", err)]: the message is extended. *)
(** [o] or the error [e]. *)
Definition or_err {E A} (e : E) (o : option A) : result E A :=
  match o with Some a => Ok a | None => Err e end.

Definition map_err {E E' A} (f : E → E') (r : result E A) : result E' A :=
  match r with Ok a => Ok a | Err e => Err (f e) end.

Definition is_Ok {E A} (r : result E A) : Prop := ∃ a, r = Ok a.
Definition is_Err {E A} (r : result E A) : Prop := ∃ e, r = Err e.

Lemma is_Ok_or_Err {E A} (r : result E A) : is_Ok r ∨ is_Err r.
Proof. destruct r; [left|right]; eexists; done. Qed.

(** * Shared tactics and hints *)

Create HintDb go discriminated.
Create Rewrite HintDb go.

(** Splits every [match]/[if] of the goal, keeping the equations. *)
Ltac split_matches :=
  repeat (case_match; simplify_eq/=).

(** Turns boolean tests of the code into propositions. *)
Ltac reflect_bools :=
  repeat match goal with
  | H : (_ && _) = true |- _ => apply andb_true_iff in H as [? ?]
  | H : (_ || _) = false |- _ => apply orb_false_iff in H as [? ?]
  | H : (_ || _) = true |- _ => apply orb_true_iff in H as [?|?]
  | H : (_ && _) = false |- _ => apply andb_false_iff in H as [?|?]
  | H : negb _ = true |- _ => apply negb_true_iff in H
  | H : negb _ = false |- _ => apply negb_false_iff in H
  | H : (_ ==s _) = true |- _ => apply String.eqb_eq in H
  | H : (_ ==s _) = false |- _ => apply String.eqb_neq in H
  | H : Ascii.eqb _ _ = true |- _ => apply Ascii.eqb_eq in H
  | H : Ascii.eqb _ _ = false |- _ => apply Ascii.eqb_neq in H
  | H : bool_decide _ = true |- _ => apply bool_decide_eq_true in H
  | H : bool_decide _ = false |- _ => apply bool_decide_eq_false in H
  end; simplify_eq/=.

(** * Lists, options *)

Section lists.
Context {A B : Type}.
Implicit Types (l : list A) (p : option A).

Lemma notNil_true p : notNil p = true ↔ is_Some p.
Proof. destruct p; cbn; split; [eauto | done | done | by intros [? ?]]. Qed.

Lemma notNil_false p : notNil p = false ↔ p = None.
Proof. destruct p; cbn; split; done. Qed.

Lemma isNil_true p : isNil p = true ↔ p = None.
Proof. destruct p; cbn; split; done. Qed.

Lemma nonEmpty_true l : nonEmpty l = true ↔ l ≠ [].
Proof. destruct l; cbn; split; done. Qed.

Lemma nonEmpty_false l : nonEmpty l = false ↔ l = [].
Proof. destruct l; cbn; split; done. Qed.

Lemma foldl_ext (f g : B → A → B) b l :
  (∀ b x, x ∈ l → f b x = g b x) → foldl f b l = foldl g b l.
Proof.
  revert b. induction l as [|x l IH]; intros b Hfg; cbn; [done|].
  rewrite Hfg by (by left). apply IH. intros c y Hy. apply Hfg. by right.
Qed.

Lemma fmap_id_ext (f : A → A) p : (∀ x, f x = x) → f <$> p = p.
Proof. intros Hf. destruct p; cbn; [by rewrite Hf|done]. Qed.

Lemma list_fmap_id_iff (f : A → A) l : f <$> l = l ↔ Forall (λ x, f x = x) l.
Proof.
  induction l as [|x l IH]; cbn; [by rewrite Forall_nil|].
  rewrite Forall_cons, <-IH. split; [by intros [=]|by intros [-> ->]].
Qed.

Lemma list_fmap_id_ext (f : A → A) l : (∀ x, f x = x) → f <$> l = l.
Proof. intros Hf. apply list_fmap_id_iff, Forall_forall. auto. Qed.

Lemma length_indexed l : length (indexed l) = length l.
Proof. apply length_imap. Qed.

Lemma indexed_snd l : (indexed l).*2 = l.
Proof.
  unfold indexed. apply list_eq; intros i.
  rewrite list_lookup_fmap, list_lookup_imap. by destruct (l !! i).
Qed.

Lemma elem_of_indexed l i x : (i, x) ∈ indexed l ↔ l !! i = Some x.
Proof.
  unfold indexed. rewrite list_elem_of_lookup. split.
  - intros [j Hj]. rewrite list_lookup_imap in Hj.
    destruct (l !! j) eqn:E; simplify_eq/=. done.
  - intros H. exists i. rewrite list_lookup_imap, H. done.
Qed.

Lemma Forall_ext_iff (P Q : A → Prop) :
  (∀ x, P x ↔ Q x) → ∀ l, Forall P l ↔ Forall Q l.
Proof. intros HPQ l. split; intros Hl; (eapply Forall_impl; [exact Hl|]); intros x; apply HPQ. Qed.

Lemma Forall_indexed (P : A → Prop) l :
  Forall (λ '(_, x), P x) (indexed l) ↔ Forall P l.
Proof.
  rewrite !Forall_forall. split.
  - intros H x Hx. apply list_elem_of_lookup in Hx as [i Hi].
    by apply (H (i, x)), elem_of_indexed.
  - intros H [i x] Hx%elem_of_indexed.
    apply H, list_elem_of_lookup. eauto.
Qed.
End lists.

#[export] Hint Resolve notNil_true notNil_false nonEmpty_true nonEmpty_false : go.
#[export] Hint Rewrite @length_indexed @indexed_snd : go.

(** * Go's [strings] package, as far as the program uses it *)

(** [strings.HasPrefix(s, p)]. *)
Definition HasPrefix (s p : string) : bool := String.prefix p s.

(** [strings.TrimPrefix(s, p)]. *)
Definition TrimPrefix (s p : string) : string :=
  if HasPrefix s p then String.substring (String.length p) (String.length s - String.length p) s else s.

(** [strings.Contains(s, sub)]. *)
Fixpoint Contains (s sub : string) : bool :=
  String.prefix sub s ||
  match s with
  | EmptyString => false
  | String _ s' => Contains s' sub
  end.

(** [strings.ReplaceAll(s, old, new)] for a non-empty [old]: the leftmost,
    non-overlapping occurrences are replaced. [skip] counts the bytes of the
    occurrence being consumed. *)
Fixpoint replace_from (skip : nat) (s old new : string) : string :=
  match s with
  | EmptyString => ""
  | String c s' =>
      match skip with
      | S k => replace_from k s' old new
      | O => if String.prefix old s
             then new +:+ replace_from (String.length old - 1) s' old new
             else String c (replace_from 0 s' old new)
      end
  end.
Definition ReplaceAll (s old new : string) : string := replace_from 0 s old new.

(** [strings.Split(s, sep)] for a one-byte separator. *)
Fixpoint Split (s : string) (sep : ascii) : list string :=
  match s with
  | EmptyString => [""]
  | String c s' =>
      if Ascii.eqb c sep then "" :: Split s' sep
      else match Split s' sep with
           | [] => [String c ""]
           | w :: ws => String c w :: ws
           end
  end.

(** [strings.Split(s, sep)] for a non-empty separator; [skip] as above. *)
Fixpoint split_from (skip : nat) (s sep : string) : list string :=
  match s with
  | EmptyString => [""]
  | String c s' =>
      match skip with
      | S k => split_from k s' sep
      | O => if String.prefix sep s then "" :: split_from (String.length sep - 1) s' sep
             else match split_from 0 s' sep with
                  | [] => [String c ""]
                  | w :: ws => String c w :: ws
                  end
      end
  end.
Definition SplitOn (s sep : string) : list string := split_from 0 s sep.

(** [strings.SplitN(s, sep, 2)] for a one-byte separator. *)
Fixpoint SplitN2 (s : string) (sep : ascii) : list string :=
  match s with
  | EmptyString => [""]
  | String c s' =>
      if Ascii.eqb c sep then [""; s']
      else match SplitN2 s' sep with
           | [] => [String c ""]
           | w :: ws => String c w :: ws
           end
  end.

(** [strings.ContainsRune(s, c)] for an ASCII rune. *)
Fixpoint ContainsRune (s : string) (c : ascii) : bool :=
  match s with
  | EmptyString => false
  | String d s' => Ascii.eqb d c || ContainsRune s' c
  end.

(** [strings.Join(l, sep)]. *)
Fixpoint Join (l : list string) (sep : string) : string :=
  match l with
  | [] => ""
  | [x] => x
  | x :: l' => x +:+ sep +:+ Join l' sep
  end.

(** Lower-casing of the ASCII letters, and ASCII white space. *)
Definition lower_ascii (c : ascii) : ascii :=
  let n := nat_of_ascii c in
  if (65 <=? n)%nat && (n <=? 90)%nat then ascii_of_nat (n + 32) else c.
Definition is_space (c : ascii) : bool :=
  let n := nat_of_ascii c in (n =? 32)%nat || ((9 <=? n)%nat && (n <=? 13)%nat).

Fixpoint map_string (f : ascii → ascii) (s : string) : string :=
  match s with EmptyString => "" | String c s' => String (f c) (map_string f s') end.

(** [strings.ToLower] on ASCII input. *)
Definition ToLower (s : string) : string := map_string lower_ascii s.

Fixpoint trim_left (s : string) : string :=
  match s with
  | String c s' => if is_space c then trim_left s' else s
  | EmptyString => ""
  end.
Fixpoint rev_string (s acc : string) : string :=
  match s with EmptyString => acc | String c s' => rev_string s' (String c acc) end.

(** [strings.TrimSpace] on ASCII input. *)
Definition TrimSpace (s : string) : string :=
  rev_string (trim_left (rev_string (trim_left s) "")) "".

(** [%q]: a double-quoted string with Go's escapes. Bytes above 127 are printed
    as they are, which is what [strconv.Quote] does for printable UTF-8. *)
Definition hex_digit (n : nat) : ascii :=
  if (n <? 10)%nat then ascii_of_nat (48 + n) else ascii_of_nat (87 + n).
Definition quote_char (c : ascii) : string :=
  let n := nat_of_ascii c in
  match n with
  | 7 => "\a" | 8 => "\b" | 9 => "\t" | 10 => "\n" | 11 => "\v" | 12 => "\f"
  | 13 => "\r" | 92 => "\\"
  | 34 => String "\" (String c "")
  | _ => if (n <? 32)%nat || (n =? 127)%nat
         then "\x" +:+ String (hex_digit (n / 16)) (String (hex_digit (n mod 16)) "")
         else String c ""
  end.
Definition dquote : string := String (ascii_of_nat 34) "".
Fixpoint quote_body (s : string) : string :=
  match s with EmptyString => "" | String c s' => quote_char c +:+ quote_body s' end.
Definition quote (s : string) : string := dquote +:+ quote_body s +:+ dquote.

(** Decimal rendering, as [fmt]'s [%d] prints a non-negative [int]. *)
Definition pretty_nat (n : nat) : string := pretty n.

(** * String lemmas *)

#[global] Arguments String.append !_ _ / : simpl nomatch.

Lemma string_app_nil_r (s : string) : s +:+ "" = s.
Proof. induction s as [|c s IH]; simpl; [done|]. by rewrite IH. Qed.

Lemma string_app_cons c (s t : string) : String c s +:+ t = String c (s +:+ t).
Proof. done. Qed.

Lemma string_app_assoc (s t u : string) : (s +:+ t) +:+ u = s +:+ (t +:+ u).
Proof. induction s as [|c s IH]; simpl; [done|]. by rewrite IH. Qed.

#[export] Hint Rewrite string_app_nil_r string_app_assoc : go.

(** Replacing a one-byte pattern acts byte by byte. *)
Fixpoint flat_map_string (f : ascii → string) (s : string) : string :=
  match s with EmptyString => "" | String c s' => f c +:+ flat_map_string f s' end.

Lemma prefix_nil (s : string) : String.prefix "" s = true.
Proof. by destruct s. Qed.

Lemma prefix_one (c d : ascii) (s : string) :
  String.prefix (String c "") (String d s) = Ascii.eqb c d.
Proof. cbn. destruct (ascii_dec c d) as [->|Hn].
  - rewrite Ascii.eqb_refl. by destruct s.
  - symmetry. by apply Ascii.eqb_neq.
Qed.

Lemma ReplaceAll_one (s new : string) (c : ascii) :
  ReplaceAll s (String c "") new =
  flat_map_string (λ d, if Ascii.eqb c d then new else String d "") s.
Proof.
  unfold ReplaceAll. induction s as [|d s IH]; [done|].
  change (replace_from 0 (String d s) (String c "") new) with
    (if String.prefix (String c "") (String d s)
     then new +:+ replace_from 0 s (String c "") new
     else String d (replace_from 0 s (String c "") new)).
  rewrite prefix_one, IH. cbn. by destruct (Ascii.eqb c d).
Qed.

Lemma flat_map_string_app f s t :
  flat_map_string f (s +:+ t) = flat_map_string f s +:+ flat_map_string f t.
Proof. induction s as [|c s IH]; cbn; [done|]. by rewrite IH, string_app_assoc. Qed.

Lemma flat_map_string_one f c : flat_map_string f (String c "") = f c.
Proof. cbn [flat_map_string]. apply string_app_nil_r. Qed.

(** [s.Len() > 0] on a set of strings. *)
Lemma gset_size_0 (X : gset string) : (size X =? 0)%nat = true ↔ X = ∅.
Proof. rewrite Nat.eqb_eq, size_empty_iff. by unfold_leibniz. Qed.
