(* ===== verification/Names.v ===== *)
(** The container-registry reference package
    (github.com/google/go-containerregistry/pkg/name), which the program calls
    and does not contain: an interface, with the few facts about it that the
    theorems need kept in the separate class [NameLaws]. *)

From S2P Require Import Prelude.

(** The options of [name.ParseReference], [NewRepository], [NewRegistry]. *)
Inductive NameOption := WeakValidation | StrictValidation.

(** [name.Reference] is implemented by [name.Tag] and [name.Digest]; the type
    assertions [ref.(name.Digest)] and [ref.(name.Tag)] of the program are the
    two cases of [refKind]. [DigestStr] is the digest of a [name.Digest]. *)
Inductive RefKind := TagRef | DigestRef (DigestStr : string).

Class NamePkg := {
  Reference : Type;
  ParseReference : list NameOption → string → result string Reference;
  (** [ref.Name()]: the fully-qualified name; [ref.String()]: as written. *)
  Name : Reference → string;
  RefString : Reference → string;
  refKind : Reference → RefKind;
  (** [ref.Context().Digest(d).String()] *)
  ContextDigest : Reference → string → string;
  NewRepository : list NameOption → string → result string string;
  NewRegistry : list NameOption → string → result string string
}.

(** The default options are those of [WeakValidation]; the fully-qualified name
    of a reference parses to a reference with that same name and kind. *)
Class NameLaws `{NamePkg} : Prop := {
  ParseReference_default s : ParseReference [] s = ParseReference [WeakValidation] s;
  ParseReference_Name opts s ref :
    ParseReference opts s = Ok ref →
    ∃ ref', ParseReference [WeakValidation] (Name ref) = Ok ref' ∧
            Name ref' = Name ref ∧ refKind ref' = refKind ref
}.

(** A small concrete instance, used to evaluate the model on concrete inputs:
    a reference is its own text, a digest reference has an [@]. *)
Module ToyNames.

Fixpoint after_at (s : string) : option string :=
  match s with
  | EmptyString => None
  | String c s' => if Ascii.eqb c "@" then Some s' else after_at s'
  end.

Definition qualify (s : string) : string :=
  if ContainsRune s "/" then s else "index.docker.io/library/" +:+ s.

Definition parse (opts : list NameOption) (s : string) : result string string :=
  if s ==s "" then Err "could not parse reference" else Ok s.

#[export] Instance names : NamePkg := {|
  Reference := string;
  ParseReference := parse;
  Name := qualify;
  RefString s := s;
  refKind s := match after_at s with Some d => DigestRef d | None => TagRef end;
  ContextDigest s d := s +:+ "@" +:+ d;
  NewRepository _ s := if s ==s "" then Err "empty repository" else
    if ContainsRune s ":" && negb (ContainsRune s "/")
    then Err "repository can only contain the characters `abcdefghijklmnopqrstuvwxyz0123456789_-./`"
    else Ok s;
  NewRegistry _ s := if s ==s "" then Err "empty registry" else Ok s
|}.

Lemma ContainsRune_qualify s : ContainsRune (qualify s) "/" = true.
Proof. unfold qualify. by destruct (ContainsRune s "/") eqn:E. Qed.

Lemma qualify_idemp s : qualify (qualify s) = qualify s.
Proof. unfold qualify at 1. by rewrite ContainsRune_qualify. Qed.

Lemma after_at_qualify s : after_at (qualify s) = after_at s.
Proof. unfold qualify. by destruct (ContainsRune s "/"). Qed.

#[export] Instance names_laws : NameLaws.
Proof.
  split; [done|]. intros opts s ref H. exists (qualify ref). cbn in *.
  unfold parse in *. split_and!.
  - destruct (qualify ref ==s "") eqn:E; [|done]. apply String.eqb_eq in E.
    pose proof (ContainsRune_qualify ref) as Hc. by rewrite E in Hc.
  - apply qualify_idemp.
  - by rewrite after_at_qualify.
Qed.

End ToyNames.
