(* ===== verification/Glob.v ===== *)
(** Image globs (pkg/apis/glob/glob.go).

    [Regexp] models the fragment of Go's [regexp] package that [Compile]
    produces: parsing of the pattern text and unanchored search. [Glob] holds
    the component itself, translated string operation by string operation, and
    proves that the compiled expression recognises exactly the image names the
    documented wildcard language [glob_matches] describes. *)

From S2P Require Import Prelude.
From S2P Require Import Names.

(** * Go's [regexp] for the patterns the program compiles *)

Module Regexp.

(** What one position of the input may be: a given byte, [.] (anything but a
    newline) or [[^c]] (anything but [c]). *)
Inductive charset := CLit (c : ascii) | CAny | CNot (c : ascii).

Inductive node := NBegin | NEnd | NOne (k : charset) | NStar (k : charset).

Definition newline : ascii := "010".

Definition in_charset (k : charset) (c : ascii) : bool :=
  match k with
  | CLit d => Ascii.eqb c d
  | CAny => negb (Ascii.eqb c newline)
  | CNot d => negb (Ascii.eqb c d)
  end.

Inductive token := TBegin | TEnd | TStar | TAtom (k : charset).

(** The characters with a meaning of their own in a pattern. *)
Definition is_meta (c : ascii) : bool :=
  bool_decide (c ∈ list_ascii_of_string "\.+*?()|[]{}^$").

Fixpoint lex (s : string) : option (list token) :=
  match s with
  | EmptyString => Some []
  | String "^" s' => cons TBegin <$> lex s'
  | String "$" s' => cons TEnd <$> lex s'
  | String "*" s' => cons TStar <$> lex s'
  | String "." s' => cons (TAtom CAny) <$> lex s'
  | String "\" (String c s') =>
      if is_meta c then cons (TAtom (CLit c)) <$> lex s' else None
  | String "[" (String "^" (String c (String "]" s'))) =>
      if is_meta c then None else cons (TAtom (CNot c)) <$> lex s'
  | String c s' => if is_meta c then None else cons (TAtom (CLit c)) <$> lex s'
  end.

(** A [*] repeats the atom before it; anywhere else it is an error (Go reports
    a missing argument or a nested repetition). *)
Fixpoint assemble (ts : list token) : option (list node) :=
  match ts with
  | [] => Some []
  | TBegin :: ts' => cons NBegin <$> assemble ts'
  | TEnd :: ts' => cons NEnd <$> assemble ts'
  | TStar :: _ => None
  | TAtom k :: TStar :: ts' => cons (NStar k) <$> assemble ts'
  | TAtom k :: ts' => cons (NOne k) <$> assemble ts'
  end.

(** [regexp.Compile]; [None] is a syntax error or a pattern outside the
    fragment (see [Glob.Compile_total]: the program produces none). *)
Definition Compile (s : string) : option (list node) := lex s ≫= assemble.

(** Does some prefix of [s] match the nodes? [bos]: [s] is the whole text. *)
Fixpoint match_here (re : list node) (bos : bool) (s : string) {struct re} : bool :=
  match re with
  | [] => true
  | NBegin :: re' => bos && match_here re' bos s
  | NEnd :: re' => (s ==s "") && match_here re' bos s
  | NOne k :: re' =>
      match s with
      | EmptyString => false
      | String c s' => in_charset k c && match_here re' false s'
      end
  | NStar k :: re' =>
      (fix star (b : bool) (s : string) {struct s} : bool :=
         match_here re' b s ||
         match s with
         | EmptyString => false
         | String c s' => in_charset k c && star false s'
         end) bos s
  end.

Fixpoint search (re : list node) (bos : bool) (s : string) : bool :=
  match_here re bos s ||
  match s with EmptyString => false | String _ s' => search re false s' end.

(** [Regexp.MatchString]: a match anywhere in the text. *)
Definition MatchString (re : list node) (s : string) : bool := search re true s.

(** The language of a list of nodes without anchors. *)
Inductive in_language : list node → string → Prop :=
| lang_nil : in_language [] ""
| lang_one k c re s :
    in_charset k c = true → in_language re s → in_language (NOne k :: re) (String c s)
| lang_star k w re s :
    (∀ c, ContainsRune w c = true → in_charset k c = true) →
    in_language re s → in_language (NStar k :: re) (w +:+ s).

Definition no_anchor (n : node) : Prop :=
  match n with NBegin | NEnd => False | _ => True end.

Lemma star_spec k re b s :
  match_here (NStar k :: re) b s = true ↔
  ∃ w t b', s = w +:+ t ∧ (∀ c, ContainsRune w c = true → in_charset k c = true) ∧
            b' = (b && (w ==s "")) ∧ match_here re b' t = true.
Proof.
  revert b; induction s as [|c s IH]; intros b; cbn.
  - rewrite orb_false_r. split.
    + intros H. exists "", "", b. rewrite andb_true_r. done.
    + intros (w & t & b' & E & _ & -> & H). destruct w; [|done]. destruct t; [|done].
      cbn in H. by rewrite andb_true_r in H.
  - rewrite orb_true_iff, andb_true_iff. split.
    + intros [H|[Hc H]].
      * exists "", (String c s), b. rewrite andb_true_r. done.
      * apply IH in H as (w & t & b' & -> & Hw & -> & H).
        exists (String c w), t, false. split_and!; [done| |by rewrite andb_false_r|done].
        intros d. cbn. rewrite orb_true_iff. intros [->%Ascii.eqb_eq|Hd]; eauto.
    + intros (w & t & b' & E & Hw & -> & H). destruct w as [|d w]; cbn in E; simplify_eq.
      * left. by rewrite andb_true_r in H.
      * right. split; [apply Hw; cbn; by rewrite Ascii.eqb_refl|]. apply IH.
        exists w, t, false. split_and!; [done| |done|].
        -- intros e He. apply Hw. cbn. by rewrite He, orb_true_r.
        -- by rewrite andb_false_r in H.
Qed.

(** A final [$] makes the search of the body exact. *)
Lemma match_here_end re b s :
  Forall no_anchor re → match_here (re ++ [NEnd]) b s = true ↔ in_language re s.
Proof.
  revert b s; induction re as [|n re IH]; intros b s Hall; cbn [app].
  - cbn. rewrite andb_true_r, String.eqb_eq. split; [intros ->; constructor|by inversion 1].
  - apply Forall_cons in Hall as [Hn Hall]. destruct n as [| |k|k]; try done.
    + cbn. destruct s as [|c s]; [split; [done|inversion 1]|].
      rewrite andb_true_iff, IH by done.
      split; [intros [? ?]; by constructor|inversion 1; eauto].
    + rewrite star_spec. split.
      * intros (w & t & b' & -> & Hw & _ & H). constructor; [done|]. by apply IH in H.
      * inversion 1; subst. eexists _, _, _. split_and!; [done|done|done|]. by apply IH.
Qed.

(** [^body$]: the search succeeds exactly on the language of the body. *)
Lemma MatchString_anchored re s :
  Forall no_anchor re → MatchString (NBegin :: re ++ [NEnd]) s = true ↔ in_language re s.
Proof.
  intros Hall. rewrite <-(match_here_end re true) by done. unfold MatchString.
  assert (∀ t, search (NBegin :: re ++ [NEnd]) false t = false) as Hf.
  { induction t as [|c t IH]; cbn; [done|]. by rewrite IH. }
  destruct s as [|c s]; cbn [search].
  - by rewrite orb_false_r.
  - rewrite Hf, orb_false_r. done.
Qed.

End Regexp.

(** * pkg/apis/glob *)

Definition ResolvedDockerhubHost : string := "index.docker.io/".
Definition DockerhubPublicRepository : string := "library/".

(** The class [[a-zA-Z0-9-_:\/\*\.@]] of [validGlob]. *)
Definition validGlobChar (c : ascii) : bool :=
  let n := nat_of_ascii c in
  ((97 <=? n)%nat && (n <=? 122)%nat) || ((65 <=? n)%nat && (n <=? 90)%nat) ||
  ((48 <=? n)%nat && (n <=? 57)%nat) ||
  bool_decide (c ∈ list_ascii_of_string "-_:/*.@").

(** [validGlob.MatchString]: one or more characters of the class. *)
Definition validGlob (glob : string) : bool :=
  (glob !=s "") && forallb validGlobChar (list_ascii_of_string glob).

(** The two short forms that stand for Docker Hub. *)
Definition expandShorthand (glob : string) : string :=
  let glob := if glob ==s "*/*" then "index.docker.io/*/*" else glob in
  if glob ==s "*" then "index.docker.io/library/*" else glob.

(** The regular expression, built by successive replacements. *)
Definition toRegexp (glob : string) : string :=
  let glob := ReplaceAll glob "." "\." in
  let glob := ReplaceAll glob "**" "#" in
  let glob := ReplaceAll glob "*" "[^/]*" in
  let glob := ReplaceAll glob "#" ".*" in
  "^" +:+ glob +:+ "$".

Definition Compile (glob : string) : result string (list Regexp.node) :=
  let glob := expandShorthand glob in
  if negb (validGlob glob) then Err ("invalid glob " +:+ quote glob) else
  match Regexp.Compile (toRegexp glob) with
  | Some re => Ok re
  | None => Err "error parsing regexp"
  end.

Section Match.
Context `{NamePkg}.

Definition Match (glob image : string) : result string bool :=
  match Compile glob with
  | Err err => Err err
  | Ok re =>
      match ParseReference [WeakValidation] image with
      | Err err => Err err
      | Ok ref =>
          let m := Regexp.MatchString re (Name ref) in
          if negb m && (Name ref !=s image)
          then Ok (Regexp.MatchString re image)
          else Ok m
      end
  end.
End Match.

(** * The documented wildcard language

    "[*] matches any non-[/] character, and [**] matches any character,
    including [/]" (the regular expression's [.] excludes the newline). *)
Inductive glob_matches : string → string → Prop :=
| gm_nil : glob_matches "" ""
| gm_lit c g s :
    c ≠ "*"%char → glob_matches g s → glob_matches (String c g) (String c s)
| gm_star w g s :
    HasPrefix g "*" = false → ContainsRune w "/" = false →
    glob_matches g s → glob_matches (String "*" g) (w +:+ s)
| gm_starstar w g s :
    ContainsRune w Regexp.newline = false →
    glob_matches g s → glob_matches (String "*" (String "*" g)) (w +:+ s).

(** ** The translation, token by token *)

Inductive piece := PLit (c : ascii) | PStar | PStarStar.

(** How [Compile] reads a glob: [**] first, from the left. *)
Fixpoint pieces (g : string) : list piece :=
  match g with
  | EmptyString => []
  | String "*" (String "*" g') => PStarStar :: pieces g'
  | String "*" g' => PStar :: pieces g'
  | String c g' => PLit c :: pieces g'
  end.

Definition piece_re (p : piece) : string :=
  match p with
  | PLit c => if Ascii.eqb "." c then "\." else String c ""
  | PStar => "[^/]*" | PStarStar => ".*"
  end.
Definition piece_node (p : piece) : Regexp.node :=
  match p with
  | PLit c => Regexp.NOne (Regexp.CLit c)
  | PStar => Regexp.NStar (Regexp.CNot "/")
  | PStarStar => Regexp.NStar Regexp.CAny
  end.

Definition concat_map (f : piece → string) (ps : list piece) : string :=
  foldr (λ p s, f p +:+ s) "" ps.

(** Induction following [pieces]. *)
Lemma pieces_ind (P : string → Prop) :
  P "" →
  (∀ g, P g → P (String "*" (String "*" g))) →
  (∀ g, HasPrefix g "*" = false → P g → P (String "*" g)) →
  (∀ c g, c ≠ "*"%char → P g → P (String c g)) →
  ∀ g, P g.
Proof.
  intros H0 H2 H1 Hc g.
  remember (String.length g) as n eqn:Hn. revert g Hn.
  induction (lt_wf n) as [n _ IH]; intros g ->.
  destruct g as [|c g]; [done|].
  destruct (ascii_dec c "*") as [->|]; [|eapply Hc; [done|]; eapply IH; [|done]; cbn; lia].
  destruct g as [|d g]; [apply H1; done|].
  destruct (ascii_dec d "*") as [->|].
  - apply H2. eapply IH; [|done]. cbn. lia.
  - apply H1; [|eapply IH; [|done]; cbn; lia].
    unfold HasPrefix. rewrite prefix_one. apply Ascii.eqb_neq. congruence.
Qed.

Lemma pieces_lit c g : c ≠ "*"%char → pieces (String c g) = PLit c :: pieces g.
Proof. intros Hc. by destruct c as [[] [] [] [] [] [] [] []]. Qed.

Lemma pieces_star g :
  HasPrefix g "*" = false → pieces (String "*" g) = PStar :: pieces g.
Proof.
  destruct g as [|c g]; [done|]. unfold HasPrefix. rewrite prefix_one.
  by destruct c as [[] [] [] [] [] [] [] []].
Qed.

Create Rewrite HintDb pieces.
#[local] Hint Rewrite pieces_star pieces_lit using done : pieces.

Ltac pieces_induction g :=
  induction g as [|g IH|g Hg IH|c g Hc IH] using pieces_ind;
  autorewrite with pieces; cbn [pieces concat_map foldr].

(** What the four replacements do to a sequence of pieces. *)
Lemma starstar_step c s :
  ReplaceAll (String c s) "**" "#" =
  if String.prefix "**" (String c s)
  then "#" +:+ replace_from 1 s "**" "#" else String c (ReplaceAll s "**" "#").
Proof. done. Qed.

Definition dot_escape (d : ascii) : string := if Ascii.eqb "." d then "\." else String d "".

Lemma flat_map_dot_head g :
  HasPrefix (flat_map_string dot_escape g) "*" = HasPrefix g "*".
Proof.
  destruct g as [|c g]; [done|]. unfold HasPrefix. cbn [flat_map_string].
  rewrite prefix_one. unfold dot_escape. destruct (Ascii.eqb "." c) eqn:E.
  - apply Ascii.eqb_eq in E as <-. done.
  - rewrite string_app_cons, prefix_one. done.
Qed.

Definition step2_piece (p : piece) : string :=
  match p with PLit c => dot_escape c | PStar => "*" | PStarStar => "#" end.

Lemma step2_spec g :
  ReplaceAll (flat_map_string dot_escape g) "**" "#" = concat_map step2_piece (pieces g).
Proof.
  pieces_induction g.
  - done.
  - cbn [flat_map_string]. change (dot_escape "*") with "*". cbn [step2_piece].
    fold (concat_map step2_piece (pieces g)). rewrite <-IH. cbn. by rewrite prefix_nil.
  - cbn [flat_map_string]. change (dot_escape "*") with "*". cbn [step2_piece].
    fold (concat_map step2_piece (pieces g)). rewrite <-IH.
    pose proof (flat_map_dot_head g) as Hh. rewrite Hg in Hh. unfold HasPrefix in Hh.
    change ("*" +:+ flat_map_string dot_escape g)
      with (String "*" (flat_map_string dot_escape g)).
    rewrite starstar_step. cbn [String.prefix]. destruct (ascii_dec "*" "*"); [|done].
    by rewrite Hh.
  - cbn [flat_map_string step2_piece]. fold (concat_map step2_piece (pieces g)).
    rewrite <-IH.
    unfold dot_escape. destruct (Ascii.eqb "." c) eqn:E; [done|].
    rewrite string_app_cons, starstar_step. cbn [String.prefix].
    destruct (ascii_dec "*" c); [congruence|]. done.
Qed.

Lemma flat_map_concat_map f p ps :
  flat_map_string f (concat_map p ps) = concat_map (λ x, flat_map_string f (p x)) ps.
Proof.
  induction ps as [|x ps IH]; [done|]. unfold concat_map in *. cbn [foldr].
  by rewrite flat_map_string_app, IH.
Qed.

Lemma concat_map_ext f g ps :
  Forall (λ p, f p = g p) ps → concat_map f ps = concat_map g ps.
Proof. induction 1 as [|p ps Hp _ IH]; [done|]. unfold concat_map in *. cbn. by rewrite Hp, IH. Qed.

(** The literals of a valid glob: no star, no placeholder. *)
Definition plain (c : ascii) : bool :=
  validGlobChar c && negb (Ascii.eqb c "*").

Definition plain_piece (p : piece) : Prop :=
  match p with PLit c => plain c = true | _ => True end.

Lemma pieces_plain g :
  forallb validGlobChar (list_ascii_of_string g) = true → Forall plain_piece (pieces g).
Proof.
  pieces_induction g; cbn [list_ascii_of_string forallb]; intros Hv.
  - constructor.
  - constructor; [done|]. apply IH. by repeat apply andb_true_iff in Hv as [_ Hv].
  - constructor; [done|]. apply IH. by apply andb_true_iff in Hv as [_ Hv].
  - apply andb_true_iff in Hv as [Hv0 Hv]. constructor; [|by apply IH].
    unfold plain_piece, plain. rewrite Hv0. by apply negb_true_iff, Ascii.eqb_neq.
Qed.

(** A check of a property of all 256 bytes by evaluation. *)
Definition all_bytes : list ascii := ascii_of_nat <$> seq 0 256.

Lemma all_bytes_spec c : c ∈ all_bytes.
Proof.
  unfold all_bytes. apply list_elem_of_fmap. exists (nat_of_ascii c).
  rewrite ascii_nat_embedding. split; [done|].
  apply elem_of_seq. pose proof (nat_ascii_bounded c). lia.
Qed.

Lemma byte_check (P : ascii → bool) : forallb P all_bytes = true → ∀ c, P c = true.
Proof.
  intros H c. rewrite forallb_forall in H. apply H, list_elem_of_In, all_bytes_spec.
Qed.

Lemma plain_facts c : plain c = true →
  Ascii.eqb "#" c = false ∧ Ascii.eqb "*" c = false ∧
  (Ascii.eqb "." c = true ∨ Regexp.is_meta c = false).
Proof.
  pose proof (byte_check (λ c, implb (plain c) (negb (Ascii.eqb "#" c) && negb (Ascii.eqb "*" c)
    && (Ascii.eqb "." c || negb (Regexp.is_meta c)))) eq_refl c) as H. cbn in H.
  intros Hp. rewrite Hp in H. cbn [implb] in H.
  reflect_bools; rewrite ?negb_true_iff in *; auto.
Qed.

Lemma toRegexp_spec g :
  forallb validGlobChar (list_ascii_of_string g) = true →
  toRegexp g = "^" +:+ concat_map piece_re (pieces g) +:+ "$".
Proof.
  intros Hv%pieces_plain. unfold toRegexp. rewrite !ReplaceAll_one.
  change (λ d, if Ascii.eqb "." d then "\." else String d "") with dot_escape.
  rewrite step2_spec, !flat_map_concat_map. do 2 f_equal.
  apply concat_map_ext. eapply Forall_impl; [exact Hv|].
  intros [c| |] Hp; [|done|done]. apply plain_facts in Hp as (H1 & H2 & _).
  cbn [step2_piece piece_re]. unfold dot_escape. destruct (Ascii.eqb "." c); [done|].
  by rewrite flat_map_string_one, H2, flat_map_string_one, H1.
Qed.

(** ** The expression compiles, and to the expected nodes *)

Definition piece_tokens (p : piece) : list Regexp.token :=
  match p with
  | PLit c => [Regexp.TAtom (Regexp.CLit c)]
  | PStar => [Regexp.TAtom (Regexp.CNot "/"); Regexp.TStar]
  | PStarStar => [Regexp.TAtom Regexp.CAny; Regexp.TStar]
  end.

Lemma lex_plain c s :
  Regexp.is_meta c = false →
  Regexp.lex (String c s) = cons (Regexp.TAtom (Regexp.CLit c)) <$> Regexp.lex s.
Proof. by destruct c as [[] [] [] [] [] [] [] []]. Qed.

Lemma lex_piece p s :
  plain_piece p →
  Regexp.lex (piece_re p +:+ s) = app (piece_tokens p) <$> Regexp.lex s.
Proof.
  destruct p as [c| |]; intros Hp.
  - apply plain_facts in Hp as (_ & _ & Hm). cbn [piece_re piece_tokens].
    destruct (Ascii.eqb "." c) eqn:E.
    + apply Ascii.eqb_eq in E as <-. cbn. by destruct (Regexp.lex s).
    + destruct Hm as [|Hm]; [done|]. cbn [String.append].
      rewrite lex_plain by done. by destruct (Regexp.lex s).
  - cbn. by destruct (Regexp.lex s).
  - cbn. by destruct (Regexp.lex s).
Qed.

Lemma lex_pieces ps :
  Forall plain_piece ps →
  Regexp.lex (concat_map piece_re ps +:+ "$") = Some ((ps ≫= piece_tokens) ++ [Regexp.TEnd]).
Proof.
  induction 1 as [|p ps Hp _ IH]; [done|].
  change (concat_map piece_re (p :: ps)) with (piece_re p +:+ concat_map piece_re ps).
  rewrite string_app_assoc, lex_piece, IH by done. cbn. by rewrite <-app_assoc.
Qed.

Lemma assemble_lit k ts :
  head ts ≠ Some Regexp.TStar →
  Regexp.assemble (Regexp.TAtom k :: ts) = cons (Regexp.NOne k) <$> Regexp.assemble ts.
Proof. by destruct ts as [|[] ts]. Qed.

Lemma assemble_pieces ps :
  Regexp.assemble ((ps ≫= piece_tokens) ++ [Regexp.TEnd]) =
  Some ((piece_node <$> ps) ++ [Regexp.NEnd]).
Proof.
  induction ps as [|p ps IH]; [done|].
  cbn [mbind list_bind]. rewrite <-app_assoc.
  destruct p as [c| |]; cbn [piece_tokens app].
  - rewrite assemble_lit, IH; [done|]. by destruct ps as [|[d| |] ps].
  - cbn. by rewrite IH.
  - cbn. by rewrite IH.
Qed.

Definition compiled (g : string) : list Regexp.node :=
  Regexp.NBegin :: (piece_node <$> pieces g) ++ [Regexp.NEnd].

Lemma validGlob_chars g :
  validGlob g = true → forallb validGlobChar (list_ascii_of_string g) = true.
Proof. unfold validGlob. intros. by reflect_bools. Qed.

Lemma Regexp_Compile_glob g :
  validGlob g = true → Regexp.Compile (toRegexp g) = Some (compiled g).
Proof.
  intros Hv%validGlob_chars. rewrite toRegexp_spec by done. unfold Regexp.Compile.
  change ("^" +:+ ?s) with (String "^" s). cbn [Regexp.lex].
  rewrite lex_pieces by (by apply pieces_plain). cbn.
  by rewrite assemble_pieces.
Qed.

Lemma Compile_Ok g re :
  Compile g = Ok re ↔
  validGlob (expandShorthand g) = true ∧ re = compiled (expandShorthand g).
Proof.
  unfold Compile. destruct (validGlob (expandShorthand g)) eqn:E; cbn [negb].
  - rewrite Regexp_Compile_glob by done. split; [intros; simplify_eq; done|intros [_ ->]; done].
  - split; [done|intros []; done].
Qed.

(** ** The language *)

Lemma compiled_no_anchor g : Forall Regexp.no_anchor (piece_node <$> pieces g).
Proof. apply Forall_fmap, Forall_true. by intros []. Qed.

Lemma charset_not k d w :
  (k = Regexp.CNot d ∨ k = Regexp.CAny ∧ d = Regexp.newline) →
  (∀ c, ContainsRune w c = true → Regexp.in_charset k c = true) ↔ ContainsRune w d = false.
Proof.
  intros Hk. assert (∀ c, Regexp.in_charset k c = negb (Ascii.eqb c d)) as Hin.
  { intros c. by destruct Hk as [->|[-> ->]]. }
  split.
  - intros H. apply not_true_iff_false. intros Hd. specialize (H d Hd).
    by rewrite Hin, Ascii.eqb_refl in H.
  - intros H c Hc. rewrite Hin. apply negb_true_iff, Ascii.eqb_neq. congruence.
Qed.

Lemma in_language_cons_lit c ns s :
  Regexp.in_language (Regexp.NOne (Regexp.CLit c) :: ns) s ↔
  ∃ s', s = String c s' ∧ Regexp.in_language ns s'.
Proof.
  split.
  - inversion 1; subst. eexists. split; [|done]. f_equal. by apply Ascii.eqb_eq.
  - intros (s' & -> & Hs'). constructor; [|done]. cbn. apply Ascii.eqb_refl.
Qed.

Lemma in_language_cons_star k ns s :
  Regexp.in_language (Regexp.NStar k :: ns) s ↔
  ∃ w s', s = w +:+ s' ∧ (∀ c, ContainsRune w c = true → Regexp.in_charset k c = true) ∧
          Regexp.in_language ns s'.
Proof.
  split.
  - inversion 1; subst. eauto.
  - intros (w & s' & -> & Hw & Hs'). by constructor.
Qed.

Lemma HasPrefix_star g : HasPrefix (String "*" g) "*" = true.
Proof. unfold HasPrefix. by rewrite prefix_one. Qed.

Lemma language_glob g s :
  Regexp.in_language (piece_node <$> pieces g) s ↔ glob_matches g s.
Proof.
  revert s. pieces_induction g; intros s; rewrite ?fmap_cons; cbn [piece_node].
  - split; [inversion 1; constructor|inversion 1; constructor].
  - rewrite in_language_cons_star. split.
    + intros (w & s' & -> & Hw & Hs'). apply gm_starstar; [|by apply IH].
      by apply (charset_not Regexp.CAny); auto.
    + inversion 1 as [| |w g' s' Hp|w g' s' Hw]; subst; [done|by rewrite HasPrefix_star in Hp|].
      eexists _, _. split_and!; [done| |by apply IH].
      apply (charset_not _ Regexp.newline); auto.
  - rewrite in_language_cons_star. split.
    + intros (w & s' & -> & Hw & Hs'). apply gm_star; [done| |by apply IH].
      by apply (charset_not (Regexp.CNot "/")); auto.
    + inversion 1 as [| |w g' s'|w g' s' Hw]; subst; [done| |by rewrite HasPrefix_star in Hg].
      eexists _, _. split_and!; [done| |by apply IH].
      apply (charset_not _ "/"); auto.
  - rewrite in_language_cons_lit. split.
    + intros (s' & -> & Hs'). apply gm_lit; [done|by apply IH].
    + inversion 1; subst; try done. eexists. split; [done|by apply IH].
Qed.

(** ** Properties *)

(** The number of [c]s in [s]. *)
Fixpoint count_char (c : ascii) (s : string) : nat :=
  match s with
  | EmptyString => 0
  | String d s' => (if Ascii.eqb d c then 1 else 0) + count_char c s'
  end.

Lemma count_char_app c s t : count_char c (s +:+ t) = (count_char c s + count_char c t)%nat.
Proof. induction s as [|d s IH]; [done|]. cbn. rewrite IH. lia. Qed.

Lemma count_char_none c s : ContainsRune s c = false → count_char c s = 0%nat.
Proof.
  induction s as [|d s IH]; [done|]. cbn. intros Hc. reflect_bools.
  rewrite IH by done. by rewrite (proj2 (Ascii.eqb_neq d c)).
Qed.

Lemma Contains_tail c g sub : Contains (String c g) sub = false → Contains g sub = false.
Proof. cbn. intros H. by apply orb_false_iff in H as [_ H]. Qed.

Lemma glob_matches_slashes g s :
  glob_matches g s → Contains g "**" = false → count_char "/" s = count_char "/" g.
Proof.
  induction 1 as [|c g s Hc _ IH|w g s Hg Hw _ IH|w g s Hw _ IH]; intros Hn.
  - done.
  - cbn. by rewrite IH by (by eapply Contains_tail).
  - rewrite count_char_app, count_char_none, IH by (done || by eapply Contains_tail). done.
  - cbn in Hn. by rewrite prefix_nil in Hn.
Qed.

(** A glob without stars matches itself only. *)
Lemma glob_matches_literal g s :
  ContainsRune g "*" = false → glob_matches g s ↔ s = g.
Proof.
  revert s. induction g as [|c g IH]; intros s; cbn; intros Hn.
  - split; [by inversion 1|intros ->; constructor].
  - apply orb_false_iff in Hn as [Hc%Ascii.eqb_neq Hn]. split.
    + inversion 1; subst; try done. f_equal. by apply IH.
    + intros ->. constructor; [done|]. by apply IH.
Qed.

Lemma Compile_language_aux (g : string) (re : list Regexp.node) :
  Compile g = Ok re →
  ∀ s, Regexp.MatchString re s = true ↔ glob_matches (expandShorthand g) s.
Proof.
  intros [_ ->]%Compile_Ok s. unfold compiled.
  rewrite Regexp.MatchString_anchored by apply compiled_no_anchor.
  apply language_glob.
Qed.

(** C21: whenever [Compile] accepts a glob, the regular expression it returns
    matches exactly the strings the documented wildcard language describes, for
    the glob with its Docker Hub short form expanded. *)
Theorem Compile_language (g : string) (re : list Regexp.node) (s : string) :
  Compile g = Ok re →
  (Regexp.MatchString re s = true ↔ glob_matches (expandShorthand g) s).
Proof. intros Hc. by apply Compile_language_aux. Qed.

(** [Compile] rejects a glob exactly when, after expansion of the short
    form, it is empty or has a character outside the allowed class: the
    regular expression it builds from an allowed glob always compiles. *)
Theorem Compile_total (g : string) :
  (is_Err (Compile g) ↔ validGlob (expandShorthand g) = false) ∧
  (∀ e, Compile g = Err e → e = "invalid glob " +:+ quote (expandShorthand g)).
Proof.
  assert (∀ re, Compile g = Ok re → validGlob (expandShorthand g) = true) as Hok.
  { by intros re [Hv _]%Compile_Ok. }
  destruct (validGlob (expandShorthand g)) eqn:E.
  - rewrite (proj2 (Compile_Ok g (compiled (expandShorthand g)))) by done.
    split; [|done]. split; [by intros []|done].
  - unfold Compile. rewrite E. cbn. split; [|by intros e [= <-]].
    split; [done|]. eexists. done.
Qed.

(** A single [*] never crosses a [/]: a glob with no [**] only matches
    names with as many slashes as the glob itself, so [registry/*] covers no
    deeper repository. *)
Theorem single_star_keeps_depth (g : string) (re : list Regexp.node) (s : string) :
  Compile g = Ok re → Contains (expandShorthand g) "**" = false →
  Regexp.MatchString re s = true →
  count_char "/" s = count_char "/" (expandShorthand g).
Proof.
  intros Hc Hn Hm%(Compile_language_aux _ _ Hc). by apply glob_matches_slashes.
Qed.

Section MatchProperties.
Context `{NamePkg}.

(** What [Match] answers, on every branch: an error for an invalid glob,
    an error for an unparsable image, and otherwise whether the wildcard
    language contains the fully-qualified name of the image or (the
    compatibility case) the image as it is written. *)
Theorem Match_spec (g image : string) :
  match Match g image with
  | Ok b => ∃ ref, ParseReference [WeakValidation] image = Ok ref ∧
      validGlob (expandShorthand g) = true ∧
      (b = true ↔ glob_matches (expandShorthand g) (Name ref) ∨
                  glob_matches (expandShorthand g) image)
  | Err _ => validGlob (expandShorthand g) = false ∨
             is_Err (ParseReference [WeakValidation] image)
  end.
Proof.
  unfold Match. destruct (Compile g) as [re|e] eqn:Hre.
  - pose proof (Compile_language_aux g re Hre) as HL.
    apply Compile_Ok in Hre as [Hv _].
    destruct (ParseReference [WeakValidation] image) as [ref|e] eqn:Hp; [|right; by eexists].
    destruct (Regexp.MatchString re (Name ref)) eqn:Hm; cbn [negb andb].
    + exists ref. split_and!; try done. rewrite <-!HL. tauto.
    + destruct (Name ref ==s image) eqn:En; cbn [negb].
      * exists ref. split_and!; try done. apply String.eqb_eq in En.
        rewrite <-!HL. rewrite En in *. rewrite Hm.
        split; [done|by intros []].
      * exists ref. split_and!; try done. rewrite <-!HL, Hm.
        split; [by right|by intros []].
  - left. pose proof (Compile_Ok g (compiled (expandShorthand g))) as Hc.
    rewrite Hre in Hc. destruct (validGlob (expandShorthand g)); [|done].
    by destruct Hc as [_ Hc]; specialize (Hc (conj eq_refl eq_refl)).
Qed.
End MatchProperties.

(** ** Evaluation on concrete inputs *)

Lemma Compile_language_witness :
  ∃ re, Compile "ghcr.io/*/app:**" = Ok re ∧
        Regexp.MatchString re "ghcr.io/org/app:v1/x" = true ∧
        glob_matches "ghcr.io/*/app:**" "ghcr.io/org/app:v1/x".
Proof.
  eexists. split; [vm_compute; reflexivity|]. split; [vm_compute; reflexivity|].
  refine (proj1 (Compile_language "ghcr.io/*/app:**" _ _ _) _); vm_compute; reflexivity.
Defined.

Lemma single_star_keeps_depth_witness :
  count_char "/" "ghcr.io/org/app" = count_char "/" "ghcr.io/*/app".
Proof.
  eapply (single_star_keeps_depth "ghcr.io/*/app"); vm_compute; reflexivity.
Defined.

Example Match_dockerhub :
  Match (H := ToyNames.names) "*" "ubuntu" = Ok true ∧
  Match (H := ToyNames.names) "*" "user/app" = Ok false ∧
  is_Err (Match (H := ToyNames.names) "a b" "ubuntu").
Proof. split_and!; [reflexivity..|eexists; reflexivity]. Qed.
