(* ===== verification/FieldErrors.v ===== *)
(** knative.dev/pkg/apis.FieldError, the error type of every validation of the
    program: an interface [FieldErrors] with the laws of its documented
    behaviour, the derived facts the validations use, and an instance.

    A [*apis.FieldError] is an [option FieldError] ([None] is nil, "valid").
    What it reports is the list of its [diagnostics]. *)

From S2P Require Import Prelude.

Inductive DiagnosticLevel := ErrorLevel | WarningLevel.
#[export] Instance DiagnosticLevel_eq_dec : EqDecision DiagnosticLevel.
Proof. solve_decision. Defined.

Record Diagnostic := {
  Level : DiagnosticLevel;
  Message : string;
  Details : string;
  Paths : list string
}.

Definition set_Level (l : DiagnosticLevel) (d : Diagnostic) : Diagnostic :=
  {| Level := l; Message := Message d; Details := Details d; Paths := Paths d |}.
Definition set_Details (s : string) (d : Diagnostic) : Diagnostic :=
  {| Level := Level d; Message := Message d; Details := s; Paths := Paths d |}.

(** The operations of the package the program calls, and their behaviour. *)
Class FieldErrors := {
  FieldError : Type;
  ErrMissingField : list string → FieldError;
  ErrMissingOneOf : list string → FieldError;
  ErrMultipleOneOf : list string → FieldError;
  ErrDisallowedFields : list string → FieldError;
  ErrInvalidValue : string → string → list string → FieldError;
  ErrGeneric : string → list string → FieldError;
  (** the literal [&apis.FieldError{Message: m, Paths: ps}] *)
  newFieldError : string → list string → FieldError;
  (** the assignment [fe.Details = s] *)
  setDetails : string → FieldError → FieldError;
  (** the field [fe.Message] *)
  feMessage : FieldError → string;
  Also : option FieldError → option FieldError → option FieldError;
  ViaField : string → option FieldError → option FieldError;
  ViaFieldIndex : string → nat → option FieldError → option FieldError;
  ViaIndex : nat → option FieldError → option FieldError;
  At : DiagnosticLevel → option FieldError → option FieldError;
  Filter : DiagnosticLevel → option FieldError → option FieldError;
  diagnostics : option FieldError → list Diagnostic;

  diagnostics_nil fe : diagnostics fe = [] ↔ fe = None;
  ErrMissingField_diag ps : ∃ m, diagnostics (Some (ErrMissingField ps)) =
    [{| Level := ErrorLevel; Message := m; Details := ""; Paths := ps |}];
  ErrMissingOneOf_diag ps : ∃ m, diagnostics (Some (ErrMissingOneOf ps)) =
    [{| Level := ErrorLevel; Message := m; Details := ""; Paths := ps |}];
  ErrMultipleOneOf_diag ps : ∃ m, diagnostics (Some (ErrMultipleOneOf ps)) =
    [{| Level := ErrorLevel; Message := m; Details := ""; Paths := ps |}];
  ErrDisallowedFields_diag ps : ∃ m, diagnostics (Some (ErrDisallowedFields ps)) =
    [{| Level := ErrorLevel; Message := m; Details := ""; Paths := ps |}];
  ErrInvalidValue_diag v p ds : ∃ m d, diagnostics (Some (ErrInvalidValue v p ds)) =
    [{| Level := ErrorLevel; Message := m; Details := d; Paths := [p] |}];
  ErrGeneric_diag m ps : diagnostics (Some (ErrGeneric m ps)) =
    [{| Level := ErrorLevel; Message := m; Details := ""; Paths := ps |}];
  newFieldError_diag m ps : m ≠ "" → diagnostics (Some (newFieldError m ps)) =
    [{| Level := ErrorLevel; Message := m; Details := ""; Paths := ps |}];
  feMessage_newFieldError m ps : feMessage (newFieldError m ps) = m;
  setDetails_diag s fe d : diagnostics (Some fe) = [d] →
    diagnostics (Some (setDetails s fe)) = [set_Details s d];
  Also_diag a b : diagnostics (Also a b) = diagnostics a ++ diagnostics b;
  ViaField_levels p fe : Level <$> diagnostics (ViaField p fe) = Level <$> diagnostics fe;
  ViaFieldIndex_levels p i fe :
    Level <$> diagnostics (ViaFieldIndex p i fe) = Level <$> diagnostics fe;
  ViaIndex_levels i fe : Level <$> diagnostics (ViaIndex i fe) = Level <$> diagnostics fe;
  At_diag l fe : diagnostics (At l fe) = set_Level l <$> diagnostics fe;
  At_Message l fe fe' : At l (Some fe) = Some fe' → feMessage fe' = feMessage fe;
  Filter_diag l fe : diagnostics (Filter l fe) = filter (λ d, Level d = l) (diagnostics fe)
}.

(** [apis.CurrentField]. *)
Definition CurrentField : string := "".

(** [errs = errs.Also(e)], and the same under an [if]. *)
Infix "⊕" := Also (at level 50, left associativity) : go_scope.
Definition AlsoIf `{FieldErrors} (c : bool) (errs : option FieldError) (e : FieldError) :
    option FieldError :=
  if c then Also errs (Some e) else errs.
Notation "errs ⊕[ c ] e" := (AlsoIf c errs e)
  (at level 50, left associativity, c at level 200) : go_scope.

Section FieldErrorsFacts.
Context `{FieldErrors}.
Implicit Types fe a b : option FieldError.

(** [for i, x := range l { errs = errs.Also(f(x).ViaFieldIndex(p, i)) }] *)
Definition AlsoEach {A} (errs : option FieldError) (p : string) (l : list A)
    (f : A → option FieldError) : option FieldError :=
  foldl (λ e '(i, x), e ⊕ ViaFieldIndex p i (f x)) errs (indexed l).

(** The request is rejected when a diagnostic of level Error remains: the
    admission webhook turns the others into warnings. *)
Definition has (l : DiagnosticLevel) (fe : option FieldError) : Prop :=
  l ∈ (Level <$> diagnostics fe).

Definition Rejects (fe : option FieldError) : Prop := has ErrorLevel fe.

#[export] Instance has_dec l fe : Decision (has l fe).
Proof. unfold has. apply _. Defined.

(** ** Nil results *)

Lemma levels_nil fe : Level <$> diagnostics fe = [] ↔ fe = None.
Proof. rewrite <-diagnostics_nil. destruct (diagnostics fe); done. Qed.

Lemma Also_None a b : Also a b = None ↔ a = None ∧ b = None.
Proof. rewrite <-!diagnostics_nil, Also_diag. apply app_nil. Qed.

Lemma ViaField_None p fe : ViaField p fe = None ↔ fe = None.
Proof. by rewrite <-!levels_nil, ViaField_levels. Qed.

Lemma ViaFieldIndex_None p i fe : ViaFieldIndex p i fe = None ↔ fe = None.
Proof. by rewrite <-!levels_nil, ViaFieldIndex_levels. Qed.

Lemma ViaIndex_None i fe : ViaIndex i fe = None ↔ fe = None.
Proof. by rewrite <-!levels_nil, ViaIndex_levels. Qed.

Lemma At_None l fe : At l fe = None ↔ fe = None.
Proof. by rewrite <-!diagnostics_nil, At_diag; destruct (diagnostics fe). Qed.

Lemma Some_None (fe : FieldError) : Some fe = None ↔ False.
Proof. done. Qed.

Lemma Filter_None l fe : Filter l fe = None ↔ ¬ has l fe.
Proof.
  rewrite <-diagnostics_nil, Filter_diag. unfold has.
  rewrite list_elem_of_fmap. induction (diagnostics fe) as [|d ds IH].
  - split; [|done]. intros _ (d & _ & Hd). by apply not_elem_of_nil in Hd.
  - rewrite filter_cons. case_decide.
    + split; [done|]. intros Hn. destruct Hn. exists d. by split; [|left].
    + rewrite IH. split; intros Hn (e & He & Hin); apply Hn; exists e; split; try done.
      * apply elem_of_cons in Hin as [->|]; done.
      * by right.
Qed.

Lemma AlsoIf_None (c : bool) a (e : FieldError) :
  (a ⊕[ c ] e) = None ↔ a = None ∧ c = false.
Proof. unfold AlsoIf. destruct c; rewrite ?Also_None; intuition congruence. Qed.

Lemma AlsoEach_None {A} a p (l : list A) f :
  AlsoEach a p l f = None ↔ a = None ∧ Forall (λ x, f x = None) l.
Proof.
  unfold AlsoEach. rewrite <-(Forall_indexed (λ x, f x = None)).
  revert a. generalize (indexed l). clear l.
  induction l as [|[i x] l IH]; intros a; cbn; [rewrite Forall_nil; tauto|].
  rewrite IH, Also_None, ViaFieldIndex_None, Forall_cons. tauto.
Qed.

Lemma AlsoEach_fmap {A B} a p (g : A → B) l (f : B → option FieldError) :
  AlsoEach a p (g <$> l) f = AlsoEach a p l (λ x, f (g x)).
Proof.
  unfold AlsoEach, indexed. rewrite imap_fmap.
  assert (∀ xs : list (nat * A), foldl (λ e '(i, x), e ⊕ ViaFieldIndex p i (f x)) a
    ((λ '(i, x), (i, g x)) <$> xs) = foldl (λ e '(i, x), e ⊕ ViaFieldIndex p i (f (g x))) a xs) as Hf.
  { intros xs. revert a. induction xs as [|[i x] xs IH]; intros a; [done|]. cbn. apply IH. }
  rewrite <-Hf. f_equal. rewrite fmap_imap. by apply imap_ext.
Qed.

Lemma AlsoEach_ext {A} a p (l : list A) (f g : A → option FieldError) :
  (∀ x, x ∈ l → f x = g x) → AlsoEach a p l f = AlsoEach a p l g.
Proof.
  intros Hfg. unfold AlsoEach.
  assert (∀ i x, (i, x) ∈ indexed l → f x = g x) as Hix.
  { intros i x Hx%elem_of_indexed. by apply Hfg, (list_elem_of_lookup_2 _ i). }
  revert a Hix. generalize (indexed l). clear.
  induction l as [|[i x] l IH]; intros a Hix; [done|]. cbn.
  rewrite (Hix i x) by (by left). apply IH. intros j y Hy. apply (Hix j). by right.
Qed.

(** ** Levels *)

Lemma has_nil l : ¬ has l None.
Proof.
  unfold has. rewrite (proj2 (diagnostics_nil None) eq_refl). apply not_elem_of_nil.
Qed.

Lemma has_not_nil l fe : has l fe → fe ≠ None.
Proof. intros Hl ->. by apply has_nil in Hl. Qed.

Lemma not_nil_has fe : fe ≠ None → has ErrorLevel fe ∨ has WarningLevel fe.
Proof.
  rewrite <-diagnostics_nil. unfold has.
  destruct (diagnostics fe) as [|[[] ? ? ?] ds]; [done| |]; intros _.
  - left. left.
  - right. left.
Qed.

Lemma has_Also l a b : has l (Also a b) ↔ has l a ∨ has l b.
Proof. unfold has. by rewrite Also_diag, fmap_app, elem_of_app. Qed.

Lemma has_ViaField l p fe : has l (ViaField p fe) ↔ has l fe.
Proof. unfold has. by rewrite ViaField_levels. Qed.

Lemma has_ViaFieldIndex l p i fe : has l (ViaFieldIndex p i fe) ↔ has l fe.
Proof. unfold has. by rewrite ViaFieldIndex_levels. Qed.

Lemma has_ViaIndex l i fe : has l (ViaIndex i fe) ↔ has l fe.
Proof. unfold has. by rewrite ViaIndex_levels. Qed.

Lemma has_At l l' fe : has l (At l' fe) ↔ l = l' ∧ fe ≠ None.
Proof.
  unfold has. rewrite At_diag, <-diagnostics_nil, list_elem_of_fmap. split.
  - intros (d & -> & (e & -> & He)%list_elem_of_fmap). split; [done|].
    intros En. rewrite En in He. by apply not_elem_of_nil in He.
  - intros [-> Hn]. destruct (diagnostics fe) as [|d ds]; [done|].
    exists (set_Level l' d). split; [done|]. left.
Qed.

Lemma has_Filter l l' fe : has l (Filter l' fe) ↔ l = l' ∧ has l fe.
Proof.
  unfold has. rewrite Filter_diag, !list_elem_of_fmap. split.
  - intros (d & -> & [Hd Hin]%list_elem_of_filter). split; [done|]. eauto.
  - intros [-> (d & -> & Hin)]. exists d. split; [done|]. by apply list_elem_of_filter.
Qed.

Lemma has_single l (fe : FieldError) d : diagnostics (Some fe) = [d] → has l (Some fe) ↔ l = Level d.
Proof. unfold has. intros ->. cbn. by rewrite list_elem_of_singleton. Qed.

Lemma has_ErrMissingField l ps : has l (Some (ErrMissingField ps)) ↔ l = ErrorLevel.
Proof. destruct (ErrMissingField_diag ps) as [m Hd]. by rewrite (has_single _ _ _ Hd). Qed.
Lemma has_ErrMissingOneOf l ps : has l (Some (ErrMissingOneOf ps)) ↔ l = ErrorLevel.
Proof. destruct (ErrMissingOneOf_diag ps) as [m Hd]. by rewrite (has_single _ _ _ Hd). Qed.
Lemma has_ErrMultipleOneOf l ps : has l (Some (ErrMultipleOneOf ps)) ↔ l = ErrorLevel.
Proof. destruct (ErrMultipleOneOf_diag ps) as [m Hd]. by rewrite (has_single _ _ _ Hd). Qed.
Lemma has_ErrDisallowedFields l ps : has l (Some (ErrDisallowedFields ps)) ↔ l = ErrorLevel.
Proof. destruct (ErrDisallowedFields_diag ps) as [m Hd]. by rewrite (has_single _ _ _ Hd). Qed.
Lemma has_ErrInvalidValue l v p ds : has l (Some (ErrInvalidValue v p ds)) ↔ l = ErrorLevel.
Proof. destruct (ErrInvalidValue_diag v p ds) as (m & d & Hd). by rewrite (has_single _ _ _ Hd). Qed.
Lemma has_ErrGeneric l m ps : has l (Some (ErrGeneric m ps)) ↔ l = ErrorLevel.
Proof. by rewrite (has_single _ _ _ (ErrGeneric_diag m ps)). Qed.

Lemma has_setDetails l s (fe : FieldError) d : diagnostics (Some fe) = [d] →
  has l (Some (setDetails s fe)) ↔ has l (Some fe).
Proof.
  intros Hd. rewrite (has_single _ _ _ Hd).
  by rewrite (has_single _ _ _ (setDetails_diag s fe d Hd)).
Qed.

Lemma has_AlsoIf l (c : bool) a e :
  has l (a ⊕[ c ] e) ↔ has l a ∨ (c = true ∧ has l (Some e)).
Proof. unfold AlsoIf. destruct c; rewrite ?has_Also; intuition congruence. Qed.

Lemma has_AlsoEach {A} l a p (xs : list A) f :
  has l (AlsoEach a p xs f) ↔ has l a ∨ Exists (λ x, has l (f x)) xs.
Proof.
  unfold AlsoEach.
  assert (Exists (λ x, has l (f x)) xs ↔ Exists (λ ix, has l (f ix.2)) (indexed xs)) as ->.
  { rewrite <-(Exists_fmap snd (λ x, has l (f x)) (indexed xs)). by rewrite indexed_snd. }
  revert a. generalize (indexed xs). clear xs.
  induction l0 as [|[i x] xs IH]; intros a; cbn.
  - rewrite Exists_nil. tauto.
  - rewrite IH, has_Also, has_ViaFieldIndex, Exists_cons. cbn. tauto.
Qed.

(** ** Accepted: no diagnostic of level Error *)

Definition Accepts (fe : option FieldError) : Prop := ¬ Rejects fe.

Lemma Accepts_nil : Accepts None ↔ Logic.True.
Proof. split; [done|intros _; apply has_nil]. Qed.

Lemma Accepts_Also a b : Accepts (a ⊕ b) ↔ Accepts a ∧ Accepts b.
Proof. unfold Accepts, Rejects. rewrite has_Also. tauto. Qed.

Lemma Accepts_ViaField p fe : Accepts (ViaField p fe) ↔ Accepts fe.
Proof. unfold Accepts, Rejects. by rewrite has_ViaField. Qed.

Lemma Accepts_ViaFieldIndex p i fe : Accepts (ViaFieldIndex p i fe) ↔ Accepts fe.
Proof. unfold Accepts, Rejects. by rewrite has_ViaFieldIndex. Qed.

Lemma Accepts_warning fe : Accepts (At WarningLevel fe) ↔ Logic.True.
Proof. unfold Accepts, Rejects. rewrite has_At. split; [done|by intros _ [? _]]. Qed.

Lemma Accepts_ErrMissingField ps : Accepts (Some (ErrMissingField ps)) ↔ Logic.False.
Proof. unfold Accepts, Rejects. rewrite has_ErrMissingField. tauto. Qed.
Lemma Accepts_ErrMissingOneOf ps : Accepts (Some (ErrMissingOneOf ps)) ↔ Logic.False.
Proof. unfold Accepts, Rejects. rewrite has_ErrMissingOneOf. tauto. Qed.
Lemma Accepts_ErrMultipleOneOf ps : Accepts (Some (ErrMultipleOneOf ps)) ↔ Logic.False.
Proof. unfold Accepts, Rejects. rewrite has_ErrMultipleOneOf. tauto. Qed.
Lemma Accepts_ErrDisallowedFields ps : Accepts (Some (ErrDisallowedFields ps)) ↔ Logic.False.
Proof. unfold Accepts, Rejects. rewrite has_ErrDisallowedFields. tauto. Qed.
Lemma Accepts_ErrInvalidValue v p ds : Accepts (Some (ErrInvalidValue v p ds)) ↔ Logic.False.
Proof. unfold Accepts, Rejects. rewrite has_ErrInvalidValue. tauto. Qed.
Lemma Accepts_ErrGeneric m ps : Accepts (Some (ErrGeneric m ps)) ↔ Logic.False.
Proof. unfold Accepts, Rejects. rewrite has_ErrGeneric. tauto. Qed.

Lemma Accepts_AlsoIf (c : bool) a (e : FieldError) :
  Accepts (a ⊕[ c ] e) ↔ Accepts a ∧ (c = true → Accepts (Some e)).
Proof. unfold AlsoIf. destruct c; rewrite ?Accepts_Also; intuition congruence. Qed.

Lemma Accepts_AlsoEach {A} a p (xs : list A) f :
  Accepts (AlsoEach a p xs f) ↔ Accepts a ∧ Forall (λ x, Accepts (f x)) xs.
Proof.
  unfold Accepts, Rejects. rewrite has_AlsoEach, Forall_Exists_neg. tauto.
Qed.

Lemma Accepts_foldl {A} a (xs : list A) (f : A → option FieldError) :
  Accepts (foldl (λ e x, e ⊕ f x) a xs) ↔ Accepts a ∧ Forall (λ x, Accepts (f x)) xs.
Proof.
  revert a. induction xs as [|x xs IH]; intros a; cbn.
  - rewrite Forall_nil. tauto.
  - rewrite IH, Accepts_Also, Forall_cons. tauto.
Qed.

Lemma None_Accepts fe : fe = None → Accepts fe.
Proof. intros ->. by apply Accepts_nil. Qed.

End FieldErrorsFacts.

#[global] Arguments AlsoEach : simpl never.
#[global] Arguments AlsoIf : simpl never.

Create Rewrite HintDb fe.
#[export] Hint Rewrite @Also_None @ViaField_None @ViaFieldIndex_None @ViaIndex_None @At_None
  @Some_None @AlsoIf_None @AlsoEach_None : fe.
Create Rewrite HintDb felevel.
#[export] Hint Rewrite @has_Also @has_ViaField @has_ViaFieldIndex @has_ViaIndex @has_At
  @has_Filter @has_ErrMissingField @has_ErrMissingOneOf @has_ErrMultipleOneOf
  @has_ErrDisallowedFields @has_ErrInvalidValue @has_ErrGeneric @has_AlsoIf @has_AlsoEach
  : felevel.

Create Rewrite HintDb accepts.
#[export] Hint Rewrite @Accepts_nil @Accepts_Also @Accepts_ViaField @Accepts_ViaFieldIndex
  @Accepts_warning @Accepts_ErrMissingField @Accepts_ErrMissingOneOf @Accepts_ErrMultipleOneOf
  @Accepts_ErrDisallowedFields @Accepts_ErrInvalidValue @Accepts_ErrGeneric @Accepts_AlsoIf
  @Accepts_AlsoEach @Accepts_foldl : accepts.

(** * An instance: a field error is the non-empty list of its diagnostics *)

Module ListFieldErrors.

Definition t : Type := Diagnostic * list Diagnostic.
Definition diags (fe : option t) : list Diagnostic :=
  match fe with None => [] | Some (d, ds) => d :: ds end.
Definition of_list (l : list Diagnostic) : option t :=
  match l with [] => None | d :: ds => Some (d, ds) end.
Definition mk (m d : string) (ps : list string) : t :=
  ({| Level := ErrorLevel; Message := m; Details := d; Paths := ps |}, []).
Definition on_diags (f : Diagnostic → Diagnostic) (fe : option t) : option t :=
  of_list (f <$> diags fe).
Definition prefix_paths (p : string) (d : Diagnostic) : Diagnostic :=
  {| Level := Level d; Message := Message d; Details := Details d;
     Paths := (λ q, if q ==s "" then p else p +:+ "." +:+ q) <$> Paths d |}.

Lemma diags_of_list l : diags (of_list l) = l.
Proof. by destruct l. Qed.

#[export] Program Instance fieldErrors : FieldErrors := {|
  FieldError := t;
  ErrMissingField := mk "missing field(s)" "";
  ErrMissingOneOf := mk "expected exactly one, got neither" "";
  ErrMultipleOneOf := mk "expected exactly one, got both" "";
  ErrDisallowedFields := mk "must not set the field(s)" "";
  ErrInvalidValue v p ds := mk ("invalid value: " +:+ v) (Join ds ", ") [p];
  ErrGeneric m := mk m "";
  newFieldError m := mk m "";
  setDetails s '(d, ds) := (set_Details s d, ds);
  feMessage '(d, _) := Message d;
  Also a b := of_list (diags a ++ diags b);
  ViaField p := on_diags (prefix_paths p);
  ViaFieldIndex p i := on_diags (prefix_paths (p +:+ "[" +:+ pretty i +:+ "]"));
  ViaIndex i := on_diags (prefix_paths ("[" +:+ pretty i +:+ "]"));
  At l := on_diags (set_Level l);
  Filter l fe := of_list (filter (λ d, Level d = l) (diags fe));
  diagnostics := diags
|}.
Next Obligation. by intros [[]|]. Qed.
Next Obligation. intros ps. by eexists. Qed.
Next Obligation. intros ps. by eexists. Qed.
Next Obligation. intros ps. by eexists. Qed.
Next Obligation. intros ps. by eexists. Qed.
Next Obligation. intros v p ds. by eexists _, _. Qed.
Next Obligation. done. Qed.
Next Obligation. done. Qed.
Next Obligation. done. Qed.
Next Obligation. by intros s [d' ds] d [= -> ->]. Qed.
Next Obligation. intros. apply diags_of_list. Qed.
Next Obligation. intros p fe. unfold on_diags. rewrite diags_of_list, <-list_fmap_compose. by apply list_fmap_ext. Qed.
Next Obligation. intros p i fe. unfold on_diags. rewrite diags_of_list, <-list_fmap_compose. by apply list_fmap_ext. Qed.
Next Obligation. intros i fe. unfold on_diags. rewrite diags_of_list, <-list_fmap_compose. by apply list_fmap_ext. Qed.
Next Obligation. intros. apply diags_of_list. Qed.
Next Obligation. by intros l [d ds] [d' ds'] [= <- <-]. Qed.
Next Obligation. intros. apply diags_of_list. Qed.

End ListFieldErrors.
