(* ===== verification/PCConfig.v ===== *)
(** The controller's own configuration (pkg/config/store.go), read from the
    ConfigMap config-policy-controller, and the request context the API types
    are validated in. *)

From S2P Require Import Prelude.

Definition DenyAll : string := "deny".
Definition AllowAll : string := "allow".
Definition WarnAll : string := "warn".
Definition NoMatchPolicyKey : string := "no-match-policy".
Definition FailOnEmptyAuthoritiesKey : string := "fail-on-empty-authorities".
Definition EnableOCI11Key : string := "enable-oci11".

Record PolicyControllerConfig := {
  NoMatchPolicy : string;
  FailOnEmptyAuthorities : bool;
  EnableOCI11 : bool
}.

(** [strconv.ParseBool]. *)
Definition ParseBool (s : string) : result string bool :=
  if bool_decide (s ∈ ["1"; "t"; "T"; "TRUE"; "true"; "True"]) then Ok true
  else if bool_decide (s ∈ ["0"; "f"; "F"; "FALSE"; "false"; "False"]) then Ok false
  else Err ("strconv.ParseBool: parsing " +:+ quote s +:+ ": invalid syntax").

(** A configuration is returned together with the error, if there is one. On an
    error [strconv.ParseBool] leaves [false] in the field being set. *)
Definition NewPolicyControllerConfigFromMap (data : gmap string string) :
    PolicyControllerConfig * option string :=
  let policy :=
    match data !! NoMatchPolicyKey with
    | Some p =>
        if p ==s DenyAll then DenyAll
        else if p ==s AllowAll then AllowAll
        else if p ==s WarnAll then WarnAll
        else DenyAll
    | None => DenyAll
    end in
  let ret := {| NoMatchPolicy := policy; FailOnEmptyAuthorities := true; EnableOCI11 := false |} in
  let set_oci (ret : PolicyControllerConfig) :=
    match data !! EnableOCI11Key with
    | None => (ret, None)
    | Some val =>
        match ParseBool val with
        | Ok b => ({| NoMatchPolicy := NoMatchPolicy ret;
                      FailOnEmptyAuthorities := FailOnEmptyAuthorities ret;
                      EnableOCI11 := b |}, None)
        | Err err => ({| NoMatchPolicy := NoMatchPolicy ret;
                         FailOnEmptyAuthorities := FailOnEmptyAuthorities ret;
                         EnableOCI11 := false |}, Some err)
        end
    end in
  match data !! FailOnEmptyAuthoritiesKey with
  | None => set_oci ret
  | Some val =>
      match ParseBool val with
      | Ok b => set_oci {| NoMatchPolicy := NoMatchPolicy ret;
                           FailOnEmptyAuthorities := b; EnableOCI11 := EnableOCI11 ret |}
      | Err err => ({| NoMatchPolicy := NoMatchPolicy ret;
                       FailOnEmptyAuthorities := false; EnableOCI11 := EnableOCI11 ret |}, Some err)
      end
  end.

(** [NewPolicyControllerConfigFromConfigMap]: the data of the ConfigMap. *)
Definition NewPolicyControllerConfigFromConfigMap (config_Data : gmap string string) :=
  NewPolicyControllerConfigFromMap config_Data.

(** The request context, as far as the validation of API objects reads it: the
    knative operation flags and the attached configuration. *)
Record Ctx := {
  IsInCreate : bool;
  IsInUpdate : bool;
  IsInDelete : bool;
  IsInStatusUpdate : bool;
  IsInSpec : bool;
  cfgKey : option PolicyControllerConfig
}.

Definition FromContext (ctx : Ctx) : option PolicyControllerConfig := cfgKey ctx.

Definition FromContextOrDefaults (ctx : Ctx) : PolicyControllerConfig :=
  match FromContext ctx with
  | Some cfg => cfg
  | None => {| NoMatchPolicy := DenyAll; FailOnEmptyAuthorities := true; EnableOCI11 := false |}
  end.

Definition ToContext (ctx : Ctx) (c : PolicyControllerConfig) : Ctx :=
  {| IsInCreate := IsInCreate ctx; IsInUpdate := IsInUpdate ctx; IsInDelete := IsInDelete ctx;
     IsInStatusUpdate := IsInStatusUpdate ctx; IsInSpec := IsInSpec ctx; cfgKey := Some c |}.

(** [apis.WithinSpec]. *)
Definition WithinSpec (ctx : Ctx) : Ctx :=
  {| IsInCreate := IsInCreate ctx; IsInUpdate := IsInUpdate ctx; IsInDelete := IsInDelete ctx;
     IsInStatusUpdate := IsInStatusUpdate ctx; IsInSpec := true; cfgKey := cfgKey ctx |}.

Definition emptyCtx : Ctx :=
  {| IsInCreate := false; IsInUpdate := false; IsInDelete := false; IsInStatusUpdate := false;
     IsInSpec := false; cfgKey := None |}.

(** * Properties *)

(** The configuration fails closed: whatever the ConfigMap holds (and even
    when a boolean in it does not parse), the no-match policy is one of deny,
    allow and warn; it is deny unless the map asks for exactly allow or warn;
    and empty authority lists are admitted only when the map has an entry for
    it that is not one of the spellings of true. *)
Theorem config_fails_closed (data : gmap string string) :
  let c := (NewPolicyControllerConfigFromMap data).1 in
  (NoMatchPolicy c = DenyAll ∨
   (NoMatchPolicy c = AllowAll ∧ data !! NoMatchPolicyKey = Some "allow") ∨
   (NoMatchPolicy c = WarnAll ∧ data !! NoMatchPolicyKey = Some "warn")) ∧
  (FailOnEmptyAuthorities c = false →
   ∃ v, data !! FailOnEmptyAuthoritiesKey = Some v ∧ ParseBool v ≠ Ok true) ∧
  (EnableOCI11 c = true → ∃ v, data !! EnableOCI11Key = Some v ∧ ParseBool v = Ok true).
Proof.
  cbv zeta. unfold NewPolicyControllerConfigFromMap. split_and!.
  - destruct (data !! NoMatchPolicyKey) as [p|] eqn:Ep;
      [destruct (p ==s DenyAll) eqn:E1; [|destruct (p ==s AllowAll) eqn:E2;
        [|destruct (p ==s WarnAll) eqn:E3]]|];
      reflect_bools; subst; split_matches; cbn; auto.
  - split_matches; intros; simplify_eq; eexists; (split; [done|congruence]).
  - split_matches; intros; simplify_eq; eexists; (split; [done|congruence]).
Qed.

Lemma FromContext_ToContext ctx c : FromContext (ToContext ctx c) = Some c.
Proof. done. Qed.

Lemma FromContextOrDefaults_ToContext ctx c : FromContextOrDefaults (ToContext ctx c) = c.
Proof. done. Qed.
