(* ===== verification/K8s.v ===== *)
(** The Kubernetes and knative API structs the program's types embed (k8s.io/api,
    k8s.io/apimachinery, knative.dev/pkg): the fields the program reads or
    copies. Their functions are parameters, in the classes below. *)

From S2P Require Import Prelude.

(** [apis.URL], observed only through [String()] and as a nilable pointer. *)
Record URL := { urlString : string }.

Record SecretReference := { secret_Name : string; secret_Namespace : string }.
Record LocalObjectReference := { localobject_Name : string }.
Record GroupVersionResource := { Group : string; Version : string; Resource : string }.
Record LabelSelectorRequirement := {
  lsr_Key : string; lsr_Operator : string; lsr_Values : list string }.
Record LabelSelector := {
  MatchLabels : gmap string string;
  MatchExpressions : list LabelSelectorRequirement
}.

Record TypeMeta := { Kind : string; APIVersion : string }.
Record ObjectMeta := {
  om_Name : string;
  om_Namespace : string;
  om_UID : string;
  om_ResourceVersion : string;
  om_Generation : Z;
  om_Labels : gmap string string;
  om_DeletionTimestamp : option Z;
  om_Finalizers : list string
}.

(** duckv1.Status *)
Record Condition := { cond_Type : string; cond_Status : string; cond_Message : string }.
Record Status := { ObservedGeneration : Z; Conditions : list Condition }.

#[export] Instance Condition_eq_dec : EqDecision Condition.
Proof. solve_decision. Defined.
#[export] Instance Status_eq_dec : EqDecision Status.
Proof. solve_decision. Defined.

Definition emptyObjectMeta : ObjectMeta :=
  {| om_Name := ""; om_Namespace := ""; om_UID := ""; om_ResourceVersion := "";
     om_Generation := 0; om_Labels := ∅; om_DeletionTimestamp := None; om_Finalizers := [] |}.

#[export] Instance URL_eq_dec : EqDecision URL.
Proof. solve_decision. Defined.
#[export] Instance SecretReference_eq_dec : EqDecision SecretReference.
Proof. solve_decision. Defined.
#[export] Instance LocalObjectReference_eq_dec : EqDecision LocalObjectReference.
Proof. solve_decision. Defined.
#[export] Instance GroupVersionResource_eq_dec : EqDecision GroupVersionResource.
Proof. solve_decision. Defined.
#[export] Instance LabelSelectorRequirement_eq_dec : EqDecision LabelSelectorRequirement.
Proof. solve_decision. Defined.
#[export] Instance LabelSelector_eq_dec : EqDecision LabelSelector.
Proof. solve_decision. Defined.

(** The functions outside the repository the API types' validation calls:
    the environment ([system.Namespace]), knative ([apis.HTTPS]), sigstore's
    crypto utilities and KMS scheme constants, the AWS ARN parser, and the
    standard library's parsers of user-supplied text. *)
Class Parsers := {
  systemNamespace : string;
  apis_HTTPS : string → URL;
  PublicKey : Type;
  (** [cryptoutils.UnmarshalPEMToPublicKey]; [Ok None] is a nil key. *)
  UnmarshalPEMToPublicKey : string → result string (option PublicKey);
  awsReferenceScheme : string;
  azureReferenceScheme : string;
  hashivaultReferenceScheme : string;
  gcpReferenceScheme : string;
  (** [arn.Parse]: the ARN as [%+v] prints it and its [Resource]. *)
  arnParse : string → result string (string * string);
  (** [net.SplitHostPort], [url.Parse] (scheme and host), [url.ParseRequestURI],
      [regexp.Compile] of a user's expression: only success is observed. *)
  SplitHostPort : string → result string (string * string);
  urlParse : string → result string (string * string);
  ParseRequestURI : string → result string unit;
  regexpCompile : string → result string unit;
  (** [filepath.Match(pattern, "")] *)
  filepathMatchEmpty : string → result string bool
}.

(** A concrete instance, for evaluating the model. *)
Module ToyParsers.

Definition scheme_host (s : string) : result string (string * string) :=
  if HasPrefix s "https://" then Ok ("https", TrimPrefix s "https://")
  else if HasPrefix s "http://" then Ok ("http", TrimPrefix s "http://")
  else Ok ("", "").

Definition arn_resource (s : string) : result string (string * string) :=
  if negb (HasPrefix s "arn:") then Err "arn: invalid prefix" else
  match Split s ":" with
  | [_; _; _; _; _; r] => Ok (s, r)
  | _ => Err "arn: not enough sections"
  end.

#[export] Instance parsers : Parsers := {|
  systemNamespace := "cosign-system";
  apis_HTTPS d := {| urlString := "https://" +:+ d |};
  PublicKey := string;
  UnmarshalPEMToPublicKey s := if HasPrefix s "PEM" then Ok (Some s) else Err "bad PEM";
  awsReferenceScheme := "awskms://";
  azureReferenceScheme := "azurekms://";
  hashivaultReferenceScheme := "hashivault://";
  gcpReferenceScheme := "gcpkms://";
  arnParse := arn_resource;
  SplitHostPort s := if ContainsRune s ":" then Ok (s, s) else Err "missing port in address";
  urlParse := scheme_host;
  ParseRequestURI s := if HasPrefix s "https://" then Ok tt else Err "invalid URI";
  regexpCompile s := if Contains s "(" then Err "missing )" else Ok tt;
  filepathMatchEmpty s := Ok (s ==s "")
|}.

End ToyParsers.
