(* ===== verification/Common.v ===== *)
(** What the API versions share: the hash algorithm names
    (pkg/apis/signaturealgo/signature_digest.go) and the validation of OCI
    repositories and KMS references (pkg/apis/policy/common/validation.go). *)

From S2P Require Import Prelude.
From S2P Require Import Names.
From S2P Require Import FieldErrors.
From S2P Require Import K8s.

(** * signaturealgo *)

(** The [crypto.Hash] codes of the supported algorithms. *)
Inductive Hash := SHA224 | SHA256 | SHA384 | SHA512.

Definition DefaultSignatureAlgorithm : string := "sha256".

Definition supportedSignatureAlgorithms : gmap string Hash :=
  {[ "sha224" := SHA224; "sha256" := SHA256; "sha384" := SHA384; "sha512" := SHA512 ]}.

(** Returns SHA256 along with the error. *)
Definition HashAlgorithm (algorithmName : string) : Hash * option string :=
  if algorithmName ==s "" then (SHA256, None) else
  let normalizedAlgo := ToLower (TrimSpace algorithmName) in
  match supportedSignatureAlgorithms !! normalizedAlgo with
  | Some algo => (algo, None)
  | None => (SHA256, Some ("unknown digest algorithm: " +:+ algorithmName))
  end.

(** * Regular expressions of the AWS key references

    A small language of regular expressions over bytes, matched by derivatives;
    the expressions below are anchored, so matching is membership. *)

Inductive re :=
| Void
| Eps
| Chr (p : ascii → bool)
| Cat (r s : re)
| Alt (r s : re)
| Kleene (r : re).

Fixpoint nullable (r : re) : bool :=
  match r with
  | Void | Chr _ => false
  | Eps | Kleene _ => true
  | Cat r s => nullable r && nullable s
  | Alt r s => nullable r || nullable s
  end.

(** Concatenation and alternation that drop dead branches as they are built. *)
Definition cat (r s : re) : re := match r with Void => Void | Eps => s | _ => Cat r s end.
Definition alt (r s : re) : re :=
  match r, s with Void, _ => s | _, Void => r | _, _ => Alt r s end.

Fixpoint deriv (c : ascii) (r : re) : re :=
  match r with
  | Void | Eps => Void
  | Chr p => if p c then Eps else Void
  | Cat r s => if nullable r then alt (cat (deriv c r) s) (deriv c s) else cat (deriv c r) s
  | Alt r s => alt (deriv c r) (deriv c s)
  | Kleene r => cat (deriv c r) (Kleene r)
  end.

Fixpoint re_match (r : re) (s : string) : bool :=
  match s with EmptyString => nullable r | String c s' => re_match (deriv c r) s' end.

Fixpoint re_lit (s : string) : re :=
  match s with EmptyString => Eps | String c s' => cat (Chr (Ascii.eqb c)) (re_lit s') end.
Fixpoint re_rep (n : nat) (r : re) : re :=
  match n with O => Eps | S n => cat r (re_rep n r) end.
Definition re_opt (r : re) : re := Alt Eps r.
Definition re_plus (r : re) : re := Cat r (Kleene r).
Notation "r ;;; s" := (Cat r s) (at level 60, right associativity) : go_scope.

Definition in_range (lo hi : ascii) (c : ascii) : bool :=
  (nat_of_ascii lo <=? nat_of_ascii c)%nat && (nat_of_ascii c <=? nat_of_ascii hi)%nat.
Definition is_digit : ascii → bool := in_range "0" "9".
Definition is_hex (c : ascii) : bool := in_range "A" "F" c || in_range "a" "f" c || is_digit c.
Definition arn_region_char (c : ascii) : bool :=
  in_range "a" "z" c || is_digit c || Ascii.eqb c "-".
Definition not_newline (c : ascii) : bool := negb (Ascii.eqb c "010").

(** [m?r?k?-?] and the groups of the UUID, each with an optional dash before. *)
Definition uuidRE : re :=
  re_opt (re_lit "m") ;;; re_opt (re_lit "r") ;;; re_opt (re_lit "k") ;;; re_opt (re_lit "-") ;;;
  re_rep 8 (Chr is_hex) ;;; re_opt (re_lit "-") ;;; re_rep 4 (Chr is_hex) ;;;
  re_opt (re_lit "-") ;;; re_rep 4 (Chr is_hex) ;;; re_opt (re_lit "-") ;;;
  re_rep 4 (Chr is_hex) ;;; re_opt (re_lit "-") ;;; re_rep 12 (Chr is_hex).
Definition arnRE : re :=
  re_lit "arn:" ;;; Alt (re_lit "aws") (Alt (re_lit "aws-us-gov") (re_lit "aws-cn")) ;;;
  re_lit ":kms:" ;;; re_plus (Chr arn_region_char) ;;; re_lit ":" ;;;
  re_rep 12 (Chr is_digit) ;;; re_lit ":".
Definition hostRE : re := Kleene (Chr (λ c, negb (Ascii.eqb c "/"))) ;;; re_lit "/".
Definition aliasRE : re := re_lit "alias/" ;;; Kleene (Chr not_newline).
Definition keyIDRE : re := re_lit "awskms://" ;;; hostRE ;;; uuidRE.
Definition keyARNRE : re := re_lit "awskms://" ;;; hostRE ;;; arnRE ;;; re_lit "key/" ;;; uuidRE.
Definition aliasNameRE : re := re_lit "awskms://" ;;; hostRE ;;; aliasRE.
Definition aliasARNRE : re := re_lit "awskms://" ;;; hostRE ;;; arnRE ;;; aliasRE.
Definition allREs : list re := [keyIDRE; keyARNRE; aliasNameRE; aliasARNRE].

Definition errKMSReference : string :=
  "kms key should be in the format awskms://[ENDPOINT]/[ID/ALIAS/ARN] (endpoint optional)".

Definition validAWSKMSRegex (ref : string) : option string :=
  if existsb (λ r, re_match r ref) allREs then None else Some errKMSReference.

(** * common/validation.go *)

Definition ValidPredicateTypes : gset string :=
  {[ "custom"; "slsaprovenance"; "spdx"; "spdxjson"; "cyclonedx"; "link"; "vuln" ]}.
Definition ValidStaticRefTypes : gset string := {[ "fail"; "pass" ]}.
Definition ValidModes : gset string := {[ "enforce"; "warn" ]}.

Definition ociRepoDelimiter : ascii := "/".

Section Common.
Context `{N : NamePkg} `{P : Parsers} `{F : FieldErrors}.

Definition SupportedKMSProviders : list string :=
  [awsReferenceScheme; azureReferenceScheme; hashivaultReferenceScheme; gcpReferenceScheme].

Definition ValidateOCI (oci : string) : option string :=
  let parts := SplitN2 oci ociRepoDelimiter in
  let p0 := default "" (parts !! 0%nat) in
  if (length parts =? 2)%nat && (ContainsRune p0 "." || ContainsRune p0 ":") then
    match NewRepository [StrictValidation] oci with Err err => Some err | Ok _ => None end
  else
    match NewRegistry [StrictValidation] oci with Err err => Some err | Ok _ => None end.

Definition malformedAWSKMS : string :=
  "malformed AWS KMS format 'awskms://$ENDPOINT/$KEYID', should be conformant with KMS standard documented here: https://docs.aws.amazon.com/kms/latest/developerguide/concepts.html#key-id".

Definition validateAWSKMS (kms : string) : option FieldError :=
  let parts := Split kms "/" in
  if (length parts <? 4)%nat then
    Some (ErrInvalidValue kms CurrentField [malformedAWSKMS]) else
  match validAWSKMSRegex kms with
  | Some err => Some (ErrInvalidValue kms CurrentField [err])
  | None =>
      let endpoint := default "" (parts !! 2%nat) in
      if (endpoint !=s "") && (HasPrefix endpoint "arn" || HasPrefix endpoint "alias") then
        Some (ErrInvalidValue kms CurrentField [errKMSReference]) else
      let bad_endpoint :=
        if endpoint !=s "" then
          match SplitHostPort endpoint with Err err => Some err | Ok _ => None end
        else None in
      match bad_endpoint with
      | Some err => Some (ErrInvalidValue kms CurrentField ["malformed endpoint: " +:+ err])
      | None =>
          let keyID := default "" (parts !! 3%nat) in
          match arnParse keyID with
          | Err err =>
              Some (ErrInvalidValue kms CurrentField
                ["failed to parse either key or alias arn: " +:+ err])
          | Ok (arn, resource) =>
              if (resource !=s "key") && (resource !=s "alias") then
                Some (ErrInvalidValue kms CurrentField
                  ["Got ARN: " +:+ arn +:+ " Resource: " +:+ resource])
              else None
          end
      end
  end.

Definition ValidateKMS (kms : string) : option FieldError :=
  let validPrefix := existsb (HasPrefix kms) SupportedKMSProviders in
  if negb validPrefix then
    Some (ErrInvalidValue kms CurrentField
      ["malformed KMS format, should be prefixed by any of the supported providers: " +:+
       "[" +:+ Join SupportedKMSProviders " " +:+ "]"])
  else
    let errs := None in
    if HasPrefix kms awsReferenceScheme then errs ⊕ validateAWSKMS kms else errs.

End Common.

(** * Properties *)

(** ** Hash algorithms *)

(** [HashAlgorithm] fails exactly on the names that are not, up to letter
    case and surrounding space, one of the four supported ones; the empty name
    means SHA256, and so does the code returned next to an error. *)
Theorem HashAlgorithm_spec (name : string) :
  match HashAlgorithm name with
  | (h, None) => name = "" ∧ h = SHA256 ∨
      name ≠ "" ∧ ToLower (TrimSpace name) =
        match h with SHA224 => "sha224" | SHA256 => "sha256"
                   | SHA384 => "sha384" | SHA512 => "sha512" end
  | (h, Some _) => h = SHA256 ∧ name ≠ "" ∧
      ToLower (TrimSpace name) ∉ ["sha224"; "sha256"; "sha384"; "sha512"]
  end.
Proof.
  unfold HashAlgorithm. destruct (name ==s "") eqn:En; reflect_bools; [by left|].
  generalize (ToLower (TrimSpace name)). intros n.
  assert (supportedSignatureAlgorithms =
    list_to_map [("sha224", SHA224); ("sha256", SHA256); ("sha384", SHA384); ("sha512", SHA512)])
    as -> by done.
  destruct (list_to_map _ !! n) as [h|] eqn:Eh.
  - right. split; [done|]. apply elem_of_list_to_map_2 in Eh.
    repeat (apply elem_of_cons in Eh as [?|Eh]; [by simplify_eq|]).
    by apply not_elem_of_nil in Eh.
  - apply not_elem_of_list_to_map in Eh. by split_and!.
Qed.

(** ** KMS references *)

Section KMSProperties.
Context `{N : NamePkg} `{P : Parsers} `{F : FieldErrors}.

Lemma validateAWSKMS_accepts kms :
  validateAWSKMS kms = None →
  validAWSKMSRegex kms = None ∧
  ∃ keyID arn resource, Split kms "/" !! 3%nat = Some keyID ∧
    arnParse keyID = Ok (arn, resource) ∧ (resource = "key" ∨ resource = "alias").
Proof.
  unfold validateAWSKMS. intros Hv.
  destruct (length (Split kms "/") <? 4)%nat eqn:El; [done|].
  apply Nat.ltb_ge in El.
  destruct (validAWSKMSRegex kms) eqn:Er; [done|]. split; [done|].
  destruct (lookup_lt_is_Some_2 (Split kms "/") 3) as [keyID Hk]; [lia|].
  exists keyID. rewrite Hk in Hv. cbn [default] in Hv.
  split_matches; reflect_bools; eauto 10.
Qed.

(** A key reference [ValidateKMS] accepts carries the scheme of a supported
    provider, and an AWS one (whose scheme is not a prefix of another's) matches
    one of the reference formats and names, in its fourth segment, an ARN whose
    resource is a key or an alias. *)
Theorem ValidateKMS_accepts (kms : string) :
  ValidateKMS kms = None →
  (∃ p, p ∈ SupportedKMSProviders ∧ HasPrefix kms p = true) ∧
  (HasPrefix kms awsReferenceScheme = true →
   validAWSKMSRegex kms = None ∧
   ∃ keyID arn resource, Split kms "/" !! 3%nat = Some keyID ∧
     arnParse keyID = Ok (arn, resource) ∧ (resource = "key" ∨ resource = "alias")).
Proof.
  unfold ValidateKMS. destruct (existsb _ _) eqn:Ep; [|done]. cbn [negb]. intros Hv. split.
  - apply existsb_exists in Ep as (p & Hin & Hp). exists p. split; [|done].
    by apply list_elem_of_In.
  - intros Ha. rewrite Ha in Hv. apply Also_None in Hv as [_ Hv].
    by apply validateAWSKMS_accepts.
Qed.

(** The key reference of the code's own list of examples ("Key ID:
    awskms:///1234abcd-12ab-34cd-56ef-1234567890ab"). *)
Definition documentedKeyID : string := "awskms:///1234abcd-12ab-34cd-56ef-1234567890ab".
Definition documentedAliasName : string := "awskms:///alias/ExampleAlias".

(** The bare key id and alias name formats, which the comment above the
    expressions lists as supported and which the expressions accept, are
    rejected by the validation: their fourth segment is not an ARN. *)
Theorem documented_key_id_rejected :
  is_Err (arnParse "1234abcd-12ab-34cd-56ef-1234567890ab") → is_Err (arnParse "alias") →
  (validAWSKMSRegex documentedKeyID = None ∧ validateAWSKMS documentedKeyID ≠ None) ∧
  (validAWSKMSRegex documentedAliasName = None ∧ validateAWSKMS documentedAliasName ≠ None).
Proof.
  intros [e1 H1] [e2 H2].
  assert (validAWSKMSRegex documentedKeyID = None) as Hr1 by (vm_compute; done).
  assert (validAWSKMSRegex documentedAliasName = None) as Hr2 by (vm_compute; done).
  split; (split; [done|]); unfold validateAWSKMS.
  - rewrite Hr1. cbn. by rewrite H1.
  - rewrite Hr2. cbn. by rewrite H2.
Qed.

End KMSProperties.

Lemma ValidateKMS_accepts_witness :
  validAWSKMSRegex "awskms:///arn:aws:kms:us-east-2:111122223333:alias/ExampleAlias" = None.
Proof.
  refine (proj1 (proj2 (@ValidateKMS_accepts ToyParsers.parsers ListFieldErrors.fieldErrors
    "awskms:///arn:aws:kms:us-east-2:111122223333:alias/ExampleAlias" _) _));
    vm_compute; reflexivity.
Defined.

Lemma documented_key_id_rejected_witness :
  validateAWSKMS (P := ToyParsers.parsers) (F := ListFieldErrors.fieldErrors)
    documentedKeyID ≠ None.
Proof.
  refine (proj2 (proj1 (@documented_key_id_rejected ToyParsers.parsers
    ListFieldErrors.fieldErrors _ _))); eexists; reflexivity.
Defined.
