(* ===== verification/V1beta1Spec.v ===== *)
(** What a v1beta1 ClusterImagePolicy has to satisfy to be admitted, stated
    without the validation code ([wf_*]), and the theorem that the validation
    of V1beta1 rejects exactly the policies that do not. *)

From S2P Require Import Prelude.
From S2P Require Import Names.
From S2P Require Import Glob.
From S2P Require Import FieldErrors.
From S2P Require Import PCConfig.
From S2P Require Import K8s.
From S2P Require Import Common.
From S2P Require Import V1beta1.

(** How many of the alternatives of a "one of" are present. *)
Fixpoint present (l : list bool) : nat :=
  match l with [] => 0 | true :: l' => S (present l') | false :: l' => present l' end.
Definition exactly_one (l : list bool) : Prop := present l = 1%nat.

Section WellFormed.
Context `{N : NamePkg} `{P : Parsers} `{F : FieldErrors}.
Variable ValidResourceNames : gset string.

Definition wf_ImagePattern (image : ImagePattern) : Prop :=
  Glob image ≠ "" ∧ is_Ok (filepathMatchEmpty (Glob image)) ∧
  validGlob (expandShorthand (Glob image)) = true.

Definition wf_MatchResource (m : MatchResource) : Prop :=
  let gvr := mr_GroupVersionResource m in
  (Resource gvr = "" ∨ ValidResourceNames = ∅ ∨ Resource gvr ∈ ValidResourceNames) ∧
  (is_Some (ResourceSelector m) → Resource gvr ≠ "" ∨ Version gvr ≠ "" ∨ Group gvr ≠ "").

Definition wf_StaticRef (s : StaticRef) : Prop := Action s = "fail" ∨ Action s = "pass".

(** The key comes from exactly one place, and what is checkable of it is valid. *)
Definition wf_KeyRef (key : KeyRef) : Prop :=
  exactly_one [key_Data key !=s ""; KMS key !=s ""; notNil (SecretRef key)] ∧
  (HashAlgorithm (key_HashAlgorithm key)).2 = None ∧
  (key_Data key ≠ "" → ∃ pk, UnmarshalPEMToPublicKey (key_Data key) = Ok (Some pk)) ∧
  (KMS key ≠ "" → Accepts (ValidateKMS (KMS key))) ∧
  (∀ ref, SecretRef key = Some ref →
     secret_Namespace ref = "" ∨ secret_Namespace ref = systemNamespace).

(** Issuer and subject are each given once, as a value or as an expression. *)
Definition wf_Identity (identity : Identity) : Prop :=
  exactly_one [Issuer identity !=s ""; IssuerRegExp identity !=s ""] ∧
  exactly_one [Subject identity !=s ""; SubjectRegExp identity !=s ""] ∧
  (IssuerRegExp identity ≠ "" → is_Ok (regexpCompile (IssuerRegExp identity))) ∧
  (SubjectRegExp identity ≠ "" → is_Ok (regexpCompile (SubjectRegExp identity))).

Definition wf_KeylessRef (keyless : KeylessRef) : Prop :=
  exactly_one [notNil (keyless_URL keyless); notNil (CACert keyless)] ∧
  (∀ ca, CACert keyless = Some ca → wf_KeyRef ca) ∧
  Identities keyless ≠ [] ∧ Forall wf_Identity (Identities keyless).

Definition wf_Source (source : Source) : Prop :=
  (OCI source ≠ "" → ValidateOCI (OCI source) = None) ∧
  Forall (λ secret, localobject_Name secret ≠ "") (SignaturePullSecrets source).

Definition wf_RemotePolicy (r : RemotePolicy) : Prop :=
  (∃ host, urlParse (urlString (rp_URL r)) = Ok ("https", host) ∧ host ≠ "") ∧ Sha256sum r ≠ "".

(** [inSpec]: the policy of the whole CIP, which alone may ask for the
    ConfigFile, the spec and the metadata. *)
Definition wf_Policy (inSpec : bool) (p : Policy) : Prop :=
  (pol_Type p = "cue" ∨ pol_Type p = "rego") ∧
  exactly_one [pol_Data p !=s ""; notNil (pol_ConfigMapRef p); notNil (pol_Remote p)] ∧
  (∀ r, pol_Remote p = Some r → wf_RemotePolicy r) ∧
  (∀ cmr, pol_ConfigMapRef p = Some cmr → cmr_Name cmr ≠ "" ∧ cmr_Key cmr ≠ "") ∧
  (inSpec = false → FetchConfigFile p = None ∧ IncludeSpec p = None ∧
                    IncludeObjectMeta p = None ∧ IncludeTypeMeta p = None).

Definition wf_Attestation (inSpec : bool) (a : Attestation) : Prop :=
  att_Name a ≠ "" ∧ PredicateType a ≠ "" ∧
  (∀ p, att_Policy a = Some p → wf_Policy inSpec p).

Definition wf_GMSignatureRef (gm : GMSignatureRef) : Prop :=
  VerifyURL gm ≠ "" ∧ TenantID gm ≠ "" ∧ AppID (Signer gm) ≠ "" ∧ NodeID (Signer gm) ≠ "" ∧
  (0 ≤ RequestTimeoutMs gm)%Z.

Definition wf_Authority (inSpec : bool) (a : Authority) : Prop :=
  exactly_one [notNil (Key a); notNil (Keyless a); notNil (Static a); notNil (GMSignature a)] ∧
  (∀ key, Key a = Some key → wf_KeyRef key) ∧
  (∀ keyless, Keyless a = Some keyless → wf_KeylessRef keyless) ∧
  (∀ gm, GMSignature a = Some gm → wf_GMSignatureRef gm ∧
     Attestations a = [] ∧ CTLog a = None ∧ auth_RFC3161Timestamp a = None) ∧
  (∀ static, Static a = Some static → wf_StaticRef static ∧
     Attestations a = [] ∧ Sources a = [] ∧ CTLog a = None ∧ auth_RFC3161Timestamp a = None) ∧
  (length (Sources a) ≤ 1)%nat ∧ Forall wf_Source (Sources a) ∧
  Forall (wf_Attestation inSpec) (Attestations a).

Definition wf_Spec (ctx : Ctx) (spec : ClusterImagePolicySpec) : Prop :=
  Images spec ≠ [] ∧ Forall wf_ImagePattern (Images spec) ∧
  (FailOnEmptyAuthorities (FromContextOrDefaults ctx) = true → Authorities spec ≠ []) ∧
  Forall (wf_Authority (IsInSpec ctx)) (Authorities spec) ∧
  (Mode spec = "" ∨ Mode spec = "enforce" ∨ Mode spec = "warn") ∧
  Forall wf_MatchResource (spec_Match spec) ∧
  (∀ p, spec_Policy spec = Some p → wf_Policy true p).

(** ** Component by component *)

Ltac accepts := repeat (progress (autorewrite with accepts) || rewrite ?Forall_nil).
Ltac flags :=
  repeat match goal with
  | |- context [?a ==s ""] => destruct (String.eqb_spec a "")
  end; cbn.

Lemma Accepts_ViaOption {A} errs (o : option A) p (f : A → option FieldError) :
  Accepts (match o with Some x => errs ⊕ ViaField p (f x) | None => errs end) ↔
  Accepts errs ∧ (∀ x, o = Some x → Accepts (f x)).
Proof.
  destruct o as [a|]; accepts; split.
  - intros [? ?]. split; [done|]. by intros x [= <-].
  - intros [? Hf]. split; [done|]. by apply Hf.
  - intros ?. by split.
  - by intros [? _].
Qed.

Lemma ImagePattern_Validate_wf image :
  Accepts (ImagePattern_Validate image) ↔ wf_ImagePattern image.
Proof.
  unfold ImagePattern_Validate, ValidateGlob, wf_ImagePattern.
  destruct (String.eqb_spec (Glob image) "") as [->|Hg]; [accepts; intuition congruence|].
  destruct (filepathMatchEmpty (Glob image)) as [b|e]; accepts.
  - destruct (Compile (Glob image)) as [r|e] eqn:Hc; accepts.
    + apply Compile_Ok in Hc as [Hv _]. split; [|done]. intros _. split_and!; try done.
      by eexists.
    + split; [done|]. intros (_ & _ & Hv).
      assert (Compile (Glob image) = Ok (compiled (expandShorthand (Glob image)))) by
        (by apply Compile_Ok). congruence.
  - split; [done|]. intros (_ & [b Hb] & _). done.
Qed.

Lemma MatchResource_Validate_wf m :
  Accepts (MatchResource_Validate ValidResourceNames m) ↔ wf_MatchResource m.
Proof.
  unfold MatchResource_Validate, wf_MatchResource. cbn zeta. accepts.
  rewrite !andb_true_iff, !negb_true_iff, !String.eqb_eq, !String.eqb_neq,
    bool_decide_eq_false, notNil_true, <-(gset_size_0 ValidResourceNames).
  destruct (size ValidResourceNames =? 0)%nat,
    (decide (Resource (mr_GroupVersionResource m) = "")),
    (decide (Resource (mr_GroupVersionResource m) ∈ ValidResourceNames)),
    (decide (Version (mr_GroupVersionResource m) = "")),
    (decide (Group (mr_GroupVersionResource m) = "")); intuition congruence.
Qed.

Lemma StaticRef_Validate_wf s : Accepts (StaticRef_Validate s) ↔ wf_StaticRef s.
Proof.
  unfold StaticRef_Validate, wf_StaticRef.
  destruct (String.eqb_spec (Action s) "") as [->|Hn]; accepts; [naive_solver|].
  rewrite negb_true_iff, bool_decide_eq_false. unfold ValidStaticRefTypes.
  rewrite elem_of_union, !elem_of_singleton.
  destruct (decide (Action s = "fail")), (decide (Action s = "pass")); intuition congruence.
Qed.

Lemma Accepts_PEM errs (r : result string (option PublicKey)) (e : FieldError) :
  Accepts (Some e) ↔ Logic.False →
  Accepts (match r with Ok (Some _) => errs | _ => errs ⊕ Some e end) ↔
  Accepts errs ∧ ∃ pk, r = Ok (Some pk).
Proof.
  intros He. destruct r as [[pk|]|e']; rewrite ?Accepts_Also, ?He.
  - split; [|tauto]. intros ?. split; [done|]. by eexists.
  - split; [tauto|]. intros [_ [? ?]]. done.
  - split; [tauto|]. intros [_ [? ?]]. done.
Qed.

Lemma hash_flag name :
  ((name !=s "") && notNil (HashAlgorithm name).2 = true → Logic.False) ↔
  (HashAlgorithm name).2 = None.
Proof.
  destruct (String.eqb_spec name "") as [->|Hn]; cbn [negb andb]; [done|].
  destruct ((HashAlgorithm name).2); cbn; intuition congruence.
Qed.

Lemma namespace_flag (ns sys : string) :
  ((ns !=s "") && (ns !=s sys) = true → Logic.False) ↔ ns = "" ∨ ns = sys.
Proof.
  destruct (String.eqb_spec ns ""), (String.eqb_spec ns sys); cbn; intuition congruence.
Qed.

Lemma KeyRef_Validate_wf key : Accepts (KeyRef_Validate key) ↔ wf_KeyRef key.
Proof.
  unfold KeyRef_Validate, wf_KeyRef, exactly_one. cbv zeta.
  destruct (String.eqb_spec (key_Data key) "") as [Hd|Hd],
    (String.eqb_spec (KMS key) "") as [Hk|Hk], (SecretRef key) as [ref|];
    cbn [negb andb orb notNil isNil present];
    rewrite ?Accepts_AlsoIf, ?Accepts_Also, ?Accepts_PEM by apply Accepts_ErrInvalidValue;
    accepts; rewrite hash_flag, ?namespace_flag.
  all: split; [intros; destruct_and?; split_and?|intros (? & ? & ? & ? & ?); split_and?].
  all: intros; simplify_eq; auto; try lia.
  all: try match goal with H : true = true → _ |- _ => by destruct (H eq_refl) end.
Qed.

Lemma ValidateRegex_wf regex : Accepts (ValidateRegex regex) ↔ is_Ok (regexpCompile regex).
Proof.
  unfold ValidateRegex. destruct (regexpCompile regex) as [[]|e]; accepts.
  - split; [|done]. intros _. by eexists.
  - split; [done|]. by intros [? ?].
Qed.

(** [Accepts (if s != "" then errs.Also(f) else errs)]. *)
Lemma Accepts_IfNonEmpty (s : string) errs (f : option FieldError) :
  Accepts (if s !=s "" then errs ⊕ f else errs) ↔ Accepts errs ∧ (s ≠ "" → Accepts f).
Proof.
  destruct (String.eqb_spec s ""); cbn; rewrite ?Accepts_Also; intuition congruence.
Qed.

Lemma Identity_Validate_wf identity : Accepts (Identity_Validate identity) ↔ wf_Identity identity.
Proof.
  unfold Identity_Validate, wf_Identity, exactly_one. cbv zeta.
  rewrite !Accepts_AlsoIf, !Accepts_IfNonEmpty, !Accepts_AlsoIf. accepts.
  rewrite !ValidateRegex_wf.
  destruct (String.eqb_spec (Issuer identity) ""), (String.eqb_spec (IssuerRegExp identity) ""),
    (String.eqb_spec (Subject identity) ""), (String.eqb_spec (SubjectRegExp identity) "");
    cbn [negb andb present]; intuition (congruence || lia).
Qed.

Lemma KeylessRef_Validate_wf keyless :
  Accepts (KeylessRef_Validate keyless) ↔ wf_KeylessRef keyless.
Proof.
  unfold KeylessRef_Validate, wf_KeylessRef, exactly_one. cbv zeta.
  rewrite Accepts_AlsoEach, Accepts_AlsoIf, Accepts_ViaOption, !Accepts_AlsoIf. accepts.
  setoid_rewrite KeyRef_Validate_wf.
  rewrite (Forall_ext_iff _ _ Identity_Validate_wf).
  unfold isEmpty. rewrite negb_true_iff, nonEmpty_false.
  destruct (keyless_URL keyless), (CACert keyless); cbn [negb andb notNil isNil present];
    intuition (congruence || lia).
Qed.

Lemma secrets_Validate errs (l : list (nat * LocalObjectReference)) :
  Accepts (foldl (λ errs '(i, secret),
    if localobject_Name secret ==s ""
    then ViaFieldIndex "signaturePullSecrets" i (errs ⊕ Some (ErrMissingField ["name"]))
    else errs) errs l) ↔
  Accepts errs ∧ Forall (λ '(_, secret), localobject_Name secret ≠ "") l.
Proof.
  revert errs. induction l as [|[i secret] l IH]; intros errs; cbn.
  - rewrite Forall_nil. tauto.
  - rewrite IH, Forall_cons. destruct (String.eqb_spec (localobject_Name secret) ""); accepts; tauto.
Qed.

Lemma Source_Validate_wf source : Accepts (Source_Validate source) ↔ wf_Source source.
Proof.
  unfold Source_Validate, wf_Source. cbv zeta. rewrite secrets_Validate, Forall_indexed.
  destruct (String.eqb_spec (OCI source) ""), (ValidateOCI (OCI source)); cbn; accepts;
    intuition congruence.
Qed.

Lemma ConfigMapReference_Validate_wf cmr :
  Accepts (ConfigMapReference_Validate cmr) ↔ cmr_Name cmr ≠ "" ∧ cmr_Key cmr ≠ "".
Proof.
  unfold ConfigMapReference_Validate. cbv zeta. accepts.
  rewrite !String.eqb_eq. tauto.
Qed.

Lemma RemotePolicy_Validate_wf r : Accepts (RemotePolicy_Validate r) ↔ wf_RemotePolicy r.
Proof.
  unfold RemotePolicy_Validate, wf_RemotePolicy. cbv zeta. accepts. rewrite String.eqb_eq.
  set (bad := match urlParse (urlString (rp_URL r)) with Err _ => true | Ok _ => _ end).
  assert (bad = false ↔ ∃ host, urlParse (urlString (rp_URL r)) = Ok ("https", host) ∧ host ≠ "")
    as Hbad.
  { unfold bad. destruct (urlParse (urlString (rp_URL r))) as [[scheme host]|e].
    - rewrite !orb_false_iff, negb_false_iff, String.eqb_eq, !String.eqb_neq. split.
      + intros [[? _] ->]. by eexists.
      + by intros (h & [= -> <-] & ?).
    - split; [done|]. by intros (? & ? & _). }
  rewrite <-Hbad. destruct bad; intuition congruence.
Qed.

Lemma Policy_Validate_wf ctx policy :
  Accepts (Policy_Validate ctx policy) ↔ ∀ p, policy = Some p → wf_Policy (IsInSpec ctx) p.
Proof.
  destruct policy as [p|]; [|accepts; done].
  trans (wf_Policy (IsInSpec ctx) p); [|split; [by intros ? ? [= <-]|intros Hp; by apply Hp]].
  unfold Policy_Validate, wf_Policy, exactly_one. cbv zeta.
  rewrite !Accepts_AlsoIf, !Accepts_ViaOption, !Accepts_AlsoIf. accepts.
  setoid_rewrite RemotePolicy_Validate_wf. setoid_rewrite ConfigMapReference_Validate_wf.
  assert (∀ o : option bool, (negb (IsInSpec ctx) && notNil o = true → Logic.False) ↔
    (IsInSpec ctx = false → o = None)) as Hflag.
  { intros [[]|]; destruct (IsInSpec ctx); cbn; intuition congruence. }
  rewrite !Hflag. clear Hflag.
  assert (((pol_Type p !=s "cue") && (pol_Type p !=s "rego") = true → Logic.False) ↔
    pol_Type p = "cue" ∨ pol_Type p = "rego") as ->.
  { destruct (String.eqb_spec (pol_Type p) "cue"), (String.eqb_spec (pol_Type p) "rego");
      cbn; intuition congruence. }
  destruct (pol_Data p !=s ""), (notNil (pol_ConfigMapRef p)), (notNil (pol_Remote p));
    cbn [negb andb orb present]; intuition (congruence || lia).
Qed.

Lemma Attestation_Validate_wf ctx a :
  Accepts (Attestation_Validate ctx a) ↔ wf_Attestation (IsInSpec ctx) a.
Proof.
  unfold Attestation_Validate, wf_Attestation. cbv zeta. accepts.
  rewrite Policy_Validate_wf.
  destruct (String.eqb_spec (PredicateType a) ""), (bool_decide (PredicateType a ∈ ValidPredicateTypes)),
    (ParseRequestURI (PredicateType a)); accepts; rewrite String.eqb_eq; tauto.
Qed.

Lemma GMSignatureRef_Validate_wf gm :
  Accepts (GMSignatureRef_Validate gm) ↔ wf_GMSignatureRef gm.
Proof.
  unfold GMSignatureRef_Validate, wf_GMSignatureRef. cbv zeta. accepts.
  rewrite !String.eqb_eq, Z.ltb_lt. intuition lia.
Qed.

Lemma verifiersSet_present a :
  verifiersSet a =
  present [notNil (Key a); notNil (Keyless a); notNil (Static a); notNil (GMSignature a)].
Proof.
  unfold verifiersSet.
  by destruct (Key a), (Keyless a), (Static a), (GMSignature a).
Qed.

Lemma Accepts_sources errs (l : list Source) :
  Accepts (if (1 <? length l)%nat
           then errs ⊕ Some (ErrInvalidValue "source" "source" ["only single source is supported"])
           else AlsoEach errs "source" l Source_Validate) ↔
  Accepts errs ∧ (length l ≤ 1)%nat ∧ Forall wf_Source l.
Proof.
  destruct (Nat.ltb_spec 1 (length l)); accepts.
  - split; [tauto|]. intros (_ & ? & _). lia.
  - rewrite (Forall_ext_iff _ _ Source_Validate_wf). split; [|tauto]. intros []. auto.
Qed.

Lemma notNil_flag {A} (o : option A) : (notNil o = true → Logic.False) ↔ o = None.
Proof. destruct o; cbn; intuition congruence. Qed.

Lemma nonEmpty_flag {A} (l : list A) : (nonEmpty l = true → Logic.False) ↔ l = [].
Proof. destruct l; cbn; intuition congruence. Qed.

(** The part of the authority's validation specific to a GM signature. *)
Lemma Accepts_gm errs a :
  Accepts (match GMSignature a with
    | Some gm =>
        errs ⊕ ViaField "gmSignature" (GMSignatureRef_Validate gm)
          ⊕[ nonEmpty (Attestations a) ] ErrMultipleOneOf ["gmSignature"; "attestations"]
          ⊕[ notNil (CTLog a) ] ErrMultipleOneOf ["gmSignature"; "ctlog"]
          ⊕[ notNil (auth_RFC3161Timestamp a) ] ErrMultipleOneOf ["gmSignature"; "rfc3161timestamp"]
    | None => errs
    end) ↔
  Accepts errs ∧ ∀ gm, GMSignature a = Some gm → wf_GMSignatureRef gm ∧
    Attestations a = [] ∧ CTLog a = None ∧ auth_RFC3161Timestamp a = None.
Proof.
  destruct (GMSignature a) as [gm|]; [|split; [|tauto]; intros; split; done].
  accepts. rewrite GMSignatureRef_Validate_wf, nonEmpty_flag, !notNil_flag. split.
  - intros H. split; [tauto|]. intros ? [= <-]. tauto.
  - intros [? H]. specialize (H gm eq_refl). tauto.
Qed.

(** The part specific to a static policy. *)
Lemma Accepts_static errs a :
  Accepts (match Static a with
    | Some static =>
        errs ⊕ ViaField "static" (StaticRef_Validate static)
          ⊕[ nonEmpty (Attestations a) ] ErrMultipleOneOf ["static"; "attestations"]
          ⊕[ nonEmpty (Sources a) ] ErrMultipleOneOf ["static"; "source"]
          ⊕[ notNil (CTLog a) ] ErrMultipleOneOf ["static"; "ctlog"]
          ⊕[ notNil (auth_RFC3161Timestamp a) ] ErrMultipleOneOf ["static"; "rfc3161timestamp"]
    | None => errs
    end) ↔
  Accepts errs ∧ ∀ static, Static a = Some static → wf_StaticRef static ∧
    Attestations a = [] ∧ Sources a = [] ∧ CTLog a = None ∧ auth_RFC3161Timestamp a = None.
Proof.
  destruct (Static a) as [st|]; [|split; [|tauto]; intros; split; done].
  accepts. rewrite StaticRef_Validate_wf, !nonEmpty_flag, !notNil_flag. split.
  - intros H. split; [tauto|]. intros ? [= <-]. tauto.
  - intros [? H]. specialize (H st eq_refl). tauto.
Qed.

Lemma Authority_Validate_wf ctx a :
  Accepts (Authority_Validate ctx a) ↔ wf_Authority (IsInSpec ctx) a.
Proof.
  unfold Authority_Validate, wf_Authority, exactly_one. cbv zeta. rewrite verifiersSet_present.
  generalize (present [notNil (Key a); notNil (Keyless a); notNil (Static a);
    notNil (GMSignature a)]) as n. intros n.
  destruct (Nat.eqb_spec n 0); [accepts; intuition lia|].
  destruct (Nat.ltb_spec 1 n); [accepts; intuition lia|].
  rewrite Accepts_foldl, Accepts_sources, Accepts_static, Accepts_gm, !Accepts_ViaOption. accepts.
  setoid_rewrite KeyRef_Validate_wf. setoid_rewrite KeylessRef_Validate_wf.
  setoid_rewrite Accepts_ViaField.
  rewrite (Forall_ext_iff _ _ (Attestation_Validate_wf ctx)). intuition lia.
Qed.

Lemma Mode_flag (m : string) :
  ((m !=s "") && negb (bool_decide (m ∈ ValidModes)) = true → Logic.False) ↔
  m = "" ∨ m = "enforce" ∨ m = "warn".
Proof.
  assert (m ∈ ValidModes ↔ m = "enforce" ∨ m = "warn") as Hm by (unfold ValidModes; set_solver).
  rewrite andb_true_iff, !negb_true_iff, bool_decide_eq_false, Hm, String.eqb_neq.
  destruct (decide (m = "")), (decide (m = "enforce")), (decide (m = "warn")); tauto.
Qed.

Lemma Spec_Validate_wf (ctx : Ctx) (spec : ClusterImagePolicySpec) :
  ¬ Rejects (ClusterImagePolicySpec_Validate ValidResourceNames ctx spec) ↔
  wf_Spec ctx spec.
Proof.
  change (¬ Rejects ?x) with (Accepts x).
  unfold ClusterImagePolicySpec_Validate, wf_Spec. cbv zeta. accepts.
  rewrite Policy_Validate_wf, (Forall_ext_iff _ _ (Authority_Validate_wf ctx)),
    (Forall_ext_iff _ _ ImagePattern_Validate_wf),
    (Forall_ext_iff _ _ MatchResource_Validate_wf), Mode_flag.
  unfold isEmpty. cbn [IsInSpec WithinSpec].
  rewrite andb_true_iff, !negb_true_iff, !nonEmpty_false.
  destruct (decide (Authorities spec = [])); tauto.
Qed.

(** C10: the v1beta1 validation rejects exactly the ill-formed policies: no
    diagnostic of level Error remains if and only if the spec is well-formed,
    which says, among other things, that every authority has exactly one
    verifier, that each key, identity and policy is given in exactly one way,
    and that static and GM authorities carry nothing that would be ignored. A
    deprecated predicate type is a warning and never rejects. *)
Theorem Spec_Validate_refines_wf (ctx : Ctx) (spec : ClusterImagePolicySpec) :
  ¬ Rejects (ClusterImagePolicySpec_Validate ValidResourceNames ctx spec) ↔
  wf_Spec ctx spec.
Proof. apply Spec_Validate_wf. Qed.

End WellFormed.
