(* ===== verification/V1alpha1.v ===== *)
(** The v1alpha1 API version of ClusterImagePolicy
    (pkg/apis/policy/v1alpha1): its types, defaulting and validation. Field names
    are the source's, prefixed where two structs share one. A pointer field is
    an [option]; an absent slice and an empty one are both the empty list. *)

From S2P Require Import Prelude.
From S2P Require Import Names.
From S2P Require Import Glob.
From S2P Require Import FieldErrors.
From S2P Require Import PCConfig.
From S2P Require Import K8s.
From S2P Require Import Common.

(** * Types *)

Record ImagePattern := { Glob : string }.

Record ConfigMapReference := { cmr_Name : string; cmr_Namespace : string; cmr_Key : string }.

Record RemotePolicy := { rp_URL : URL; Sha256sum : string }.

Record Policy := {
  pol_Type : string;
  pol_Data : string;
  pol_Remote : option RemotePolicy;
  pol_ConfigMapRef : option ConfigMapReference;
  FetchConfigFile : option bool;
  IncludeSpec : option bool;
  IncludeObjectMeta : option bool;
  IncludeTypeMeta : option bool
}.

Record Attestation := {
  att_Name : string;
  PredicateType : string;
  att_Policy : option Policy
}.

Record Identity := {
  Issuer : string;
  Subject : string;
  IssuerRegExp : string;
  SubjectRegExp : string
}.

Record KeyRef := {
  SecretRef : option SecretReference;
  key_Data : string;
  KMS : string;
  key_HashAlgorithm : string
}.

Record StaticRef := { Action : string; static_Message : string }.

Record Source := {
  OCI : string;
  SignaturePullSecrets : list LocalObjectReference;
  TagPrefix : option string
}.

Record TLog := { tlog_URL : option URL; tlog_TrustRootRef : string }.

Record KeylessRef := {
  keyless_URL : option URL;
  Identities : list Identity;
  CACert : option KeyRef;
  keyless_TrustRootRef : string;
  InsecureIgnoreSCT : option bool
}.

Record RFC3161Timestamp := { tsa_TrustRootRef : string }.

Record GMSignerRef := { AppID : string; NodeID : string; UserID : string }.

Record GMSignatureRef := {
  VerifyURL : string;
  TenantID : string;
  Signer : GMSignerRef;
  RequestTimeoutMs : Z
}.

Record MatchResource := {
  mr_GroupVersionResource : GroupVersionResource;
  ResourceSelector : option LabelSelector
}.

Record Authority := {
  auth_Name : string;
  Key : option KeyRef;
  Keyless : option KeylessRef;
  Static : option StaticRef;
  Sources : list Source;
  CTLog : option TLog;
  Attestations : list Attestation;
  auth_RFC3161Timestamp : option RFC3161Timestamp;
  GMSignature : option GMSignatureRef;
  SignatureFormat : string
}.

Record ClusterImagePolicySpec := {
  Images : list ImagePattern;
  Authorities : list Authority;
  spec_Policy : option Policy;
  Mode : string;
  spec_Match : list MatchResource
}.

Record ClusterImagePolicyStatus := { duckStatus : Status }.

Record ClusterImagePolicy := {
  cip_TypeMeta : TypeMeta;
  cip_ObjectMeta : ObjectMeta;
  Spec : ClusterImagePolicySpec;
  cip_Status : ClusterImagePolicyStatus
}.

(** * Defaulting (clusterimagepolicy_defaults.go) *)

Section Defaults.
Context `{P : Parsers}.

(** The condition under which the public Fulcio is assumed. *)
Definition needsFulcioURL (authority : Authority) : bool :=
  isNil (Key authority) && isNil (Static authority) &&
  match Keyless authority with
  | Some keyless => isNil (CACert keyless) && isNil (keyless_URL keyless)
  | None => false
  end.

Definition setFulcioURL (keyless : KeylessRef) : KeylessRef :=
  {| keyless_URL := Some (apis_HTTPS "fulcio.sigstore.dev");
     Identities := Identities keyless; CACert := CACert keyless;
     keyless_TrustRootRef := keyless_TrustRootRef keyless;
     InsecureIgnoreSCT := InsecureIgnoreSCT keyless |}.

(** The body of the loop: the name is set in the slice, the URL through the
    pointer the loop's copy of the authority shares with it. *)
Definition defaultAuthority (i : nat) (authority : Authority) : Authority :=
  {| auth_Name := if auth_Name authority ==s "" then "authority-" +:+ pretty i
                  else auth_Name authority;
     Key := Key authority;
     Keyless := if needsFulcioURL authority then setFulcioURL <$> Keyless authority
                else Keyless authority;
     Static := Static authority; Sources := Sources authority; CTLog := CTLog authority;
     Attestations := Attestations authority;
     auth_RFC3161Timestamp := auth_RFC3161Timestamp authority;
     GMSignature := GMSignature authority; SignatureFormat := SignatureFormat authority |}.

Definition SetDefaults_Spec (spec : ClusterImagePolicySpec) : ClusterImagePolicySpec :=
  {| Images := Images spec;
     Authorities := imap defaultAuthority (Authorities spec);
     spec_Policy := spec_Policy spec;
     Mode := if Mode spec ==s "" then "enforce" else Mode spec;
     spec_Match := spec_Match spec |}.

Definition SetDefaults (c : ClusterImagePolicy) : ClusterImagePolicy :=
  {| cip_TypeMeta := cip_TypeMeta c; cip_ObjectMeta := cip_ObjectMeta c;
     Spec := SetDefaults_Spec (Spec c); cip_Status := cip_Status c |}.

End Defaults.

(** * Validation (clusterimagepolicy_validation.go) *)

Section Validation.
Context `{N : NamePkg} `{P : Parsers} `{F : FieldErrors}.

(** [common.ValidResourceNames], a package variable the webhook's main fills
    from a flag before serving; empty allows every name. *)
Variable ValidResourceNames : gset string.

Definition ValidateGlob (g : string) : option FieldError :=
  match filepathMatchEmpty g with
  | Err err => Some (ErrInvalidValue g CurrentField ["glob is invalid: " +:+ err])
  | Ok _ =>
      match Glob.Compile g with
      | Err err => Some (ErrInvalidValue g CurrentField ["glob is invalid: " +:+ err])
      | Ok _ => None
      end
  end.

Definition ValidateRegex (regex : string) : option FieldError :=
  match regexpCompile regex with
  | Err err => Some (ErrInvalidValue regex CurrentField ["regex is invalid: " +:+ err])
  | Ok _ => None
  end.

Definition ImagePattern_Validate (image : ImagePattern) : option FieldError :=
  if Glob image ==s "" then Some (ErrMissingField ["glob"])
  else ViaField "glob" (ValidateGlob (Glob image)).

Definition MatchResource_Validate (m : MatchResource) : option FieldError :=
  let gvr := mr_GroupVersionResource m in
  let errs := None in
  let errs := errs ⊕[ (Resource gvr !=s "") && negb (size ValidResourceNames =? 0)%nat &&
                      negb (bool_decide (Resource gvr ∈ ValidResourceNames)) ]
    ErrInvalidValue (Resource gvr) "resource" ["unsupported resource name"] in
  let errs := errs ⊕[ notNil (ResourceSelector m) &&
                      ((Resource gvr ==s "") && (Version gvr ==s "") && (Group gvr ==s "")) ]
    ErrInvalidValue (Resource gvr) "selector"
      ["selector requires a resource type to match the labels"] in
  errs.

Definition StaticRef_Validate (s : StaticRef) : option FieldError :=
  let errs := None in
  if Action s ==s "" then errs ⊕ Some (ErrMissingField ["action"])
  else errs ⊕[ negb (bool_decide (Action s ∈ ValidStaticRefTypes)) ]
    ErrInvalidValue (Action s) "action" ["unsupported action"].

Definition secretNamespaceInvalid : string :=
  "secretref.namespace is invalid. If set, it should use the same namespace where the policy-controller was deployed".

Definition KeyRef_Validate (key : KeyRef) : option FieldError :=
  let oneOf := ["data"; "kms"; "secretref"] in
  let errs := None in
  let errs := errs ⊕[ (key_Data key ==s "") && (KMS key ==s "") && isNil (SecretRef key) ]
    ErrMissingOneOf oneOf in
  let errs := errs ⊕[ (key_HashAlgorithm key !=s "") &&
                      notNil (HashAlgorithm (key_HashAlgorithm key)).2 ]
    ErrInvalidValue (key_HashAlgorithm key) "hashAlgorithm" [] in
  let errs :=
    if key_Data key !=s "" then
      let errs := errs ⊕[ (KMS key !=s "") || notNil (SecretRef key) ] ErrMultipleOneOf oneOf in
      match UnmarshalPEMToPublicKey (key_Data key) with
      | Ok (Some _) => errs
      | _ => errs ⊕ Some (ErrInvalidValue (key_Data key) "data" [])
      end
    else errs ⊕[ (KMS key !=s "") && notNil (SecretRef key) ] ErrMultipleOneOf oneOf in
  let errs := if KMS key !=s "" then errs ⊕ ViaField "kms" (ValidateKMS (KMS key)) else errs in
  match SecretRef key with
  | Some ref =>
      errs ⊕[ (secret_Namespace ref !=s "") && (secret_Namespace ref !=s systemNamespace) ]
        ErrInvalidValue (secret_Namespace ref) "secretref.namespace" [secretNamespaceInvalid]
  | None => errs
  end.

Definition Identity_Validate (identity : Identity) : option FieldError :=
  let errs := None in
  let errs := errs ⊕[ (Issuer identity !=s "") && (IssuerRegExp identity !=s "") ]
    ErrMultipleOneOf ["issuer"; "issuerRegExp"] in
  let errs := errs ⊕[ (Subject identity !=s "") && (SubjectRegExp identity !=s "") ]
    ErrMultipleOneOf ["subject"; "subjectRegExp"] in
  let errs := if IssuerRegExp identity !=s ""
    then errs ⊕ ViaField "issuerRegExp" (ValidateRegex (IssuerRegExp identity)) else errs in
  let errs := if SubjectRegExp identity !=s ""
    then errs ⊕ ViaField "subjectRegExp" (ValidateRegex (SubjectRegExp identity)) else errs in
  let errs := errs ⊕[ (SubjectRegExp identity ==s "") && (Subject identity ==s "") ]
    ErrMissingField ["subject"; "subjectRegExp"] in
  errs ⊕[ (IssuerRegExp identity ==s "") && (Issuer identity ==s "") ]
    ErrMissingField ["issuer"; "issuerRegExp"].

Definition KeylessRef_Validate (keyless : KeylessRef) : option FieldError :=
  let errs := None in
  let errs := errs ⊕[ isNil (keyless_URL keyless) && isNil (CACert keyless) ]
    ErrMissingOneOf ["url"; "ca-cert"] in
  let errs := errs ⊕[ notNil (keyless_URL keyless) && notNil (CACert keyless) ]
    ErrMultipleOneOf ["url"; "ca-cert"] in
  let errs := match CACert keyless with
    | Some ca => errs ⊕ ViaField "ca-cert" (KeyRef_Validate ca)
    | None => errs
    end in
  let errs := errs ⊕[ isEmpty (Identities keyless) ] ErrMissingField ["identities"] in
  AlsoEach errs "identities" (Identities keyless) Identity_Validate.

(** The loop over the secrets: [errs.Also(...)].[ViaFieldIndex] prefixes the
    whole of what has been collected. *)
Definition Source_Validate (source : Source) : option FieldError :=
  let errs := None in
  let errs :=
    if OCI source !=s "" then
      match ValidateOCI (OCI source) with
      | Some err => errs ⊕ Some (ErrInvalidValue (OCI source) "oci" [err])
      | None => errs
      end
    else errs in
  foldl (λ errs '(i, secret),
    if localobject_Name secret ==s ""
    then ViaFieldIndex "signaturePullSecrets" i (errs ⊕ Some (ErrMissingField ["name"]))
    else errs) errs (indexed (SignaturePullSecrets source)).

Definition ConfigMapReference_Validate (cmr : ConfigMapReference) : option FieldError :=
  let errs := None in
  let errs := errs ⊕[ cmr_Name cmr ==s "" ] ErrMissingField ["name"] in
  errs ⊕[ cmr_Key cmr ==s "" ] ErrMissingField ["key"].

Definition RemotePolicy_Validate (r : RemotePolicy) : option FieldError :=
  let errs := None in
  let bad := match urlParse (urlString (rp_URL r)) with
    | Err _ => true
    | Ok (scheme, host) => (host ==s "") || (scheme ==s "") || (scheme !=s "https")
    end in
  let errs := errs ⊕[ bad ] ErrInvalidValue (urlString (rp_URL r)) "url"
    ["url valid is invalid. host and https scheme are expected"] in
  errs ⊕[ Sha256sum r ==s "" ] ErrMissingField ["sha256sum"].

Definition Policy_Validate (ctx : Ctx) (policy : option Policy) : option FieldError :=
  match policy with
  | None => None
  | Some p =>
      let oneOf := ["data"; "configMapRef"; "remote"] in
      let hasData := pol_Data p !=s "" in
      let hasCM := notNil (pol_ConfigMapRef p) in
      let hasRemote := notNil (pol_Remote p) in
      let errs := None in
      let errs := errs ⊕[ (pol_Type p !=s "cue") && (pol_Type p !=s "rego") ]
        ErrInvalidValue (pol_Type p) "type" ["only [cue,rego] are supported at the moment"] in
      let errs := errs ⊕[ negb hasData && negb hasCM && negb hasRemote ] ErrMissingField oneOf in
      let errs := errs ⊕[ hasData && hasCM && hasRemote ] ErrMultipleOneOf oneOf in
      let errs := errs ⊕[ (hasData && hasCM) || (hasData && hasRemote) || (hasCM && hasRemote) ]
        ErrMultipleOneOf oneOf in
      let errs := match pol_Remote p with
        | Some r => errs ⊕ ViaField "remote" (RemotePolicy_Validate r)
        | None => errs
        end in
      let errs := match pol_ConfigMapRef p with
        | Some cmr => errs ⊕ ViaField "configMapRef" (ConfigMapReference_Validate cmr)
        | None => errs
        end in
      let errs := errs ⊕[ negb (IsInSpec ctx) && notNil (FetchConfigFile p) ]
        ErrDisallowedFields ["fetchConfigFile"] in
      let errs := errs ⊕[ negb (IsInSpec ctx) && notNil (IncludeSpec p) ]
        ErrDisallowedFields ["includeSpec"] in
      let errs := errs ⊕[ negb (IsInSpec ctx) && notNil (IncludeObjectMeta p) ]
        ErrDisallowedFields ["includeObjectMeta"] in
      errs ⊕[ negb (IsInSpec ctx) && notNil (IncludeTypeMeta p) ]
        ErrDisallowedFields ["includeTypeMeta"]
  end.

Definition deprecatedPredicateType : string :=
  "deprecated value, please use RFC 3986 conformant values".

Definition Attestation_Validate (ctx : Ctx) (a : Attestation) : option FieldError :=
  let errs := None in
  let errs := errs ⊕[ att_Name a ==s "" ] ErrMissingField ["name"] in
  let warning := At WarningLevel
    (Some (ErrInvalidValue (PredicateType a) "predicateType" [deprecatedPredicateType])) in
  let errs :=
    if PredicateType a ==s "" then errs ⊕ Some (ErrMissingField ["predicateType"])
    else if bool_decide (PredicateType a ∈ ValidPredicateTypes) then errs ⊕ warning
    else match ParseRequestURI (PredicateType a) with
         | Err _ => errs ⊕ warning
         | Ok _ => errs
         end in
  errs ⊕ ViaField "policy" (Policy_Validate ctx (att_Policy a)).

Definition GMSignatureRef_Validate (gm : GMSignatureRef) : option FieldError :=
  let errs := None in
  let errs := errs ⊕[ VerifyURL gm ==s "" ] ErrMissingField ["verifyUrl"] in
  let errs := errs ⊕[ TenantID gm ==s "" ] ErrMissingField ["tenantId"] in
  let errs := errs ⊕[ AppID (Signer gm) ==s "" ] ErrMissingField ["signer.appId"] in
  let errs := errs ⊕[ NodeID (Signer gm) ==s "" ] ErrMissingField ["signer.nodeId"] in
  errs ⊕[ (RequestTimeoutMs gm <? 0)%Z ]
    ErrInvalidValue (pretty (RequestTimeoutMs gm)) "requestTimeoutMs"
      ["must be >= 0 (0 = use default)"].

(** How many of the four verifier types the authority sets. *)
Definition verifiersSet (authority : Authority) : nat :=
  (if notNil (Key authority) then 1 else 0) + (if notNil (Keyless authority) then 1 else 0) +
  (if notNil (Static authority) then 1 else 0) + (if notNil (GMSignature authority) then 1 else 0).

Definition Authority_Validate (ctx : Ctx) (authority : Authority) : option FieldError :=
  let oneOf := ["key"; "keyless"; "static"; "gmSignature"] in
  let errs := None in
  let set := verifiersSet authority in
  if (set =? 0)%nat then errs ⊕ Some (ErrMissingOneOf oneOf) else
  if (1 <? set)%nat then errs ⊕ Some (ErrMultipleOneOf oneOf) else
  let errs := match Key authority with
    | Some key => errs ⊕ ViaField "key" (KeyRef_Validate key) | None => errs end in
  let errs := match Keyless authority with
    | Some keyless => errs ⊕ ViaField "keyless" (KeylessRef_Validate keyless) | None => errs end in
  let errs := match GMSignature authority with
    | Some gm =>
        let errs := errs ⊕ ViaField "gmSignature" (GMSignatureRef_Validate gm) in
        let errs := errs ⊕[ nonEmpty (Attestations authority) ]
          ErrMultipleOneOf ["gmSignature"; "attestations"] in
        let errs := errs ⊕[ notNil (CTLog authority) ] ErrMultipleOneOf ["gmSignature"; "ctlog"] in
        errs ⊕[ notNil (auth_RFC3161Timestamp authority) ]
          ErrMultipleOneOf ["gmSignature"; "rfc3161timestamp"]
    | None => errs
    end in
  let errs := match Static authority with
    | Some static =>
        let errs := errs ⊕ ViaField "static" (StaticRef_Validate static) in
        let errs := errs ⊕[ nonEmpty (Attestations authority) ]
          ErrMultipleOneOf ["static"; "attestations"] in
        let errs := errs ⊕[ nonEmpty (Sources authority) ] ErrMultipleOneOf ["static"; "source"] in
        let errs := errs ⊕[ notNil (CTLog authority) ] ErrMultipleOneOf ["static"; "ctlog"] in
        errs ⊕[ notNil (auth_RFC3161Timestamp authority) ]
          ErrMultipleOneOf ["static"; "rfc3161timestamp"]
    | None => errs
    end in
  let errs :=
    if (1 <? length (Sources authority))%nat
    then errs ⊕ Some (ErrInvalidValue "source" "source" ["only single source is supported"])
    else AlsoEach errs "source" (Sources authority) Source_Validate in
  foldl (λ errs att, errs ⊕ ViaField "attestations" (Attestation_Validate ctx att))
    errs (Attestations authority).

Definition ClusterImagePolicySpec_Validate (ctx : Ctx) (spec : ClusterImagePolicySpec) :
    option FieldError :=
  let pcConfig := FromContextOrDefaults ctx in
  let errors := None in
  let errors := errors ⊕[ isEmpty (Images spec) ] ErrMissingField ["images"] in
  let errors := AlsoEach errors "images" (Images spec) ImagePattern_Validate in
  let errors := errors ⊕[ isEmpty (Authorities spec) && FailOnEmptyAuthorities pcConfig ]
    ErrMissingField ["authorities"] in
  let errors := AlsoEach errors "authorities" (Authorities spec) (Authority_Validate ctx) in
  let errors := errors ⊕[ (Mode spec !=s "") && negb (bool_decide (Mode spec ∈ ValidModes)) ]
    ErrInvalidValue (Mode spec) "mode" ["unsupported mode"] in
  let errors := AlsoEach errors "match" (spec_Match spec) MatchResource_Validate in
  errors ⊕ Policy_Validate (WithinSpec ctx) (spec_Policy spec).

Definition Validate (ctx : Ctx) (c : ClusterImagePolicy) : option FieldError :=
  if IsInStatusUpdate ctx then None
  else ViaField "spec" (ClusterImagePolicySpec_Validate ctx (Spec c)).

End Validation.
