(* ===== verification/Conversion.v ===== *)
(** Conversion between the API versions of ClusterImagePolicy
    (pkg/apis/policy/v1alpha1/clusterimagepolicy_conversion.go, and the
    conversions of v1beta1, which is the hub's highest version and always fails).

    [ConvertTo c sink] returns the sink as the method leaves it, [ConvertFrom c
    source] the receiver. Every method appends to the slices of its target and
    leaves the fields it has nothing for, so the target is an argument. *)

From S2P Require Import Prelude.
From S2P Require Import Names.
From S2P Require Import FieldErrors.
From S2P Require Import PCConfig.
From S2P Require Import K8s.
From S2P Require Import Common.
From S2P Require V1beta1.
From S2P Require V1beta1Spec.
From S2P Require Import V1alpha1.

(** A Go pointer copy under [if p != nil { sink.p = … }]. *)
Definition orKeep {A} (o kept : option A) : option A :=
  match o with Some x => Some x | None => kept end.

(** * To v1beta1 *)

Definition KeyRef_ConvertTo (key : KeyRef) (sink : V1beta1.KeyRef) : V1beta1.KeyRef :=
  {| V1beta1.SecretRef := SecretRef key; V1beta1.key_Data := key_Data key;
     V1beta1.KMS := KMS key; V1beta1.key_HashAlgorithm := key_HashAlgorithm key |}.

Definition zeroKeyRef_beta : V1beta1.KeyRef :=
  {| V1beta1.SecretRef := None; V1beta1.key_Data := ""; V1beta1.KMS := "";
     V1beta1.key_HashAlgorithm := "" |}.

Definition Policy_ConvertTo (p : Policy) (sink : V1beta1.Policy) : V1beta1.Policy :=
  {| V1beta1.pol_Type := pol_Type p;
     V1beta1.pol_Data := pol_Data p;
     V1beta1.pol_Remote := orKeep
       ((λ r, {| V1beta1.rp_URL := rp_URL r; V1beta1.Sha256sum := Sha256sum r |}) <$> pol_Remote p)
       (V1beta1.pol_Remote sink);
     V1beta1.pol_ConfigMapRef := orKeep
       ((λ r, {| V1beta1.cmr_Name := cmr_Name r; V1beta1.cmr_Namespace := cmr_Namespace r;
                 V1beta1.cmr_Key := cmr_Key r |}) <$> pol_ConfigMapRef p)
       (V1beta1.pol_ConfigMapRef sink);
     V1beta1.FetchConfigFile := orKeep (FetchConfigFile p) (V1beta1.FetchConfigFile sink);
     V1beta1.IncludeSpec := orKeep (IncludeSpec p) (V1beta1.IncludeSpec sink);
     V1beta1.IncludeObjectMeta := orKeep (IncludeObjectMeta p) (V1beta1.IncludeObjectMeta sink);
     V1beta1.IncludeTypeMeta := orKeep (IncludeTypeMeta p) (V1beta1.IncludeTypeMeta sink) |}.

Definition zeroPolicy_beta : V1beta1.Policy :=
  {| V1beta1.pol_Type := ""; V1beta1.pol_Data := ""; V1beta1.pol_Remote := None;
     V1beta1.pol_ConfigMapRef := None; V1beta1.FetchConfigFile := None;
     V1beta1.IncludeSpec := None; V1beta1.IncludeObjectMeta := None;
     V1beta1.IncludeTypeMeta := None |}.

Definition Source_to_beta (source : Source) : V1beta1.Source :=
  {| V1beta1.OCI := OCI source;
     V1beta1.SignaturePullSecrets :=
       (λ sps, {| localobject_Name := localobject_Name sps |}) <$> SignaturePullSecrets source;
     V1beta1.TagPrefix := TagPrefix source |}.

Definition Attestation_to_beta (att : Attestation) : V1beta1.Attestation :=
  {| V1beta1.att_Name := att_Name att;
     V1beta1.PredicateType := PredicateType att;
     V1beta1.att_Policy := (λ p, Policy_ConvertTo p zeroPolicy_beta) <$> att_Policy att |}.

Definition Identity_to_beta (id : Identity) : V1beta1.Identity :=
  {| V1beta1.Issuer := Issuer id; V1beta1.Subject := Subject id;
     V1beta1.IssuerRegExp := IssuerRegExp id; V1beta1.SubjectRegExp := SubjectRegExp id |}.

Definition Keyless_to_beta (k : KeylessRef) : V1beta1.KeylessRef :=
  {| V1beta1.keyless_URL := keyless_URL k;
     V1beta1.Identities := Identity_to_beta <$> Identities k;
     V1beta1.CACert := (λ ca, KeyRef_ConvertTo ca zeroKeyRef_beta) <$> CACert k;
     V1beta1.keyless_TrustRootRef := keyless_TrustRootRef k;
     V1beta1.InsecureIgnoreSCT := InsecureIgnoreSCT k |}.

Definition Static_to_beta (s : StaticRef) : V1beta1.StaticRef :=
  {| V1beta1.Action := Action s; V1beta1.static_Message := static_Message s |}.

Definition GM_to_beta (gm : GMSignatureRef) : V1beta1.GMSignatureRef :=
  {| V1beta1.VerifyURL := VerifyURL gm;
     V1beta1.TenantID := TenantID gm;
     V1beta1.Signer := {| V1beta1.AppID := AppID (Signer gm); V1beta1.NodeID := NodeID (Signer gm);
                          V1beta1.UserID := UserID (Signer gm) |};
     V1beta1.RequestTimeoutMs := RequestTimeoutMs gm |}.

(** Only a transparency log with a URL is carried over. *)
Definition CTLog_to_beta (t : option TLog) : option V1beta1.TLog :=
  match t with
  | Some {| tlog_URL := Some u; tlog_TrustRootRef := r |} =>
      Some {| V1beta1.tlog_URL := Some u; V1beta1.tlog_TrustRootRef := r |}
  | _ => None
  end.

(** Only a timestamp authority with a trust root is carried over. *)
Definition TSA_to_beta (t : option RFC3161Timestamp) : option V1beta1.RFC3161Timestamp :=
  match t with
  | Some tsa => if tsa_TrustRootRef tsa !=s ""
                then Some {| V1beta1.tsa_TrustRootRef := tsa_TrustRootRef tsa |} else None
  | None => None
  end.

Definition Authority_ConvertTo (authority : Authority) (sink : V1beta1.Authority) :
    V1beta1.Authority :=
  {| V1beta1.auth_Name := auth_Name authority;
     V1beta1.SignatureFormat := SignatureFormat authority;
     V1beta1.CTLog := orKeep (CTLog_to_beta (CTLog authority)) (V1beta1.CTLog sink);
     V1beta1.auth_RFC3161Timestamp :=
       orKeep (TSA_to_beta (auth_RFC3161Timestamp authority)) (V1beta1.auth_RFC3161Timestamp sink);
     V1beta1.Sources := V1beta1.Sources sink ++ (Source_to_beta <$> Sources authority);
     V1beta1.Attestations :=
       V1beta1.Attestations sink ++ (Attestation_to_beta <$> Attestations authority);
     V1beta1.Key := orKeep ((λ k, KeyRef_ConvertTo k zeroKeyRef_beta) <$> Key authority)
                           (V1beta1.Key sink);
     V1beta1.Keyless := orKeep (Keyless_to_beta <$> Keyless authority) (V1beta1.Keyless sink);
     V1beta1.Static := orKeep (Static_to_beta <$> Static authority) (V1beta1.Static sink);
     V1beta1.GMSignature := orKeep (GM_to_beta <$> GMSignature authority)
                                   (V1beta1.GMSignature sink) |}.

Definition zeroAuthority_beta : V1beta1.Authority :=
  {| V1beta1.auth_Name := ""; V1beta1.Key := None; V1beta1.Keyless := None;
     V1beta1.Static := None; V1beta1.Sources := []; V1beta1.CTLog := None;
     V1beta1.Attestations := []; V1beta1.auth_RFC3161Timestamp := None;
     V1beta1.GMSignature := None; V1beta1.SignatureFormat := "" |}.

Definition MatchResource_ConvertTo (m : MatchResource) (sink : V1beta1.MatchResource) :
    V1beta1.MatchResource :=
  {| V1beta1.mr_GroupVersionResource := mr_GroupVersionResource m;
     V1beta1.ResourceSelector := orKeep (ResourceSelector m) (V1beta1.ResourceSelector sink) |}.

Definition zeroMatchResource_beta : V1beta1.MatchResource :=
  {| V1beta1.mr_GroupVersionResource := {| Group := ""; Version := ""; Resource := "" |};
     V1beta1.ResourceSelector := None |}.

Definition Spec_ConvertTo (spec : ClusterImagePolicySpec) (sink : V1beta1.ClusterImagePolicySpec) :
    V1beta1.ClusterImagePolicySpec :=
  {| V1beta1.Images := V1beta1.Images sink ++
       ((λ image, {| V1beta1.Glob := Glob image |}) <$> Images spec);
     V1beta1.Authorities := V1beta1.Authorities sink ++
       ((λ a, Authority_ConvertTo a zeroAuthority_beta) <$> Authorities spec);
     V1beta1.spec_Match := V1beta1.spec_Match sink ++
       ((λ m, MatchResource_ConvertTo m zeroMatchResource_beta) <$> spec_Match spec);
     V1beta1.spec_Policy := orKeep ((λ p, Policy_ConvertTo p zeroPolicy_beta) <$> spec_Policy spec)
                                   (V1beta1.spec_Policy sink);
     V1beta1.Mode := Mode spec |}.

(** An [apis.Convertible]: the kinds the methods' type switches tell apart. *)
Inductive Convertible :=
  | BetaCIP (c : V1beta1.ClusterImagePolicy)
  | OtherConvertible (typeName : string).

Definition ConvertTo (c : ClusterImagePolicy) (obj : Convertible) :
    result string V1beta1.ClusterImagePolicy :=
  match obj with
  | BetaCIP sink =>
      Ok {| V1beta1.cip_TypeMeta := V1beta1.cip_TypeMeta sink;
            V1beta1.cip_ObjectMeta := cip_ObjectMeta c;
            V1beta1.cip_Status := {| V1beta1.duckStatus := duckStatus (cip_Status c) |};
            V1beta1.Spec := Spec_ConvertTo (Spec c) (V1beta1.Spec sink) |}
  | OtherConvertible t => Err ("unknown version, got: " +:+ t)
  end.

(** v1beta1's own methods: there is no higher version. *)
Definition beta_ConvertTo (c : V1beta1.ClusterImagePolicy) (sinkType : string) :
    result string Convertible :=
  Err ("v1beta1 is the highest known version, got: " +:+ sinkType).
Definition beta_ConvertFrom (c : V1beta1.ClusterImagePolicy) (sourceType : string) :
    result string V1beta1.ClusterImagePolicy :=
  Err ("v1beta1 is the highest know version, got: " +:+ sourceType).

(** * From v1beta1 *)

Definition KeyRef_ConvertFrom (key : V1beta1.KeyRef) (into : KeyRef) : KeyRef :=
  {| SecretRef := V1beta1.SecretRef key; key_Data := V1beta1.key_Data key;
     KMS := V1beta1.KMS key; key_HashAlgorithm := V1beta1.key_HashAlgorithm key |}.

Definition zeroKeyRef : KeyRef :=
  {| SecretRef := None; key_Data := ""; KMS := "";
     key_HashAlgorithm := "" |}.

Definition Policy_ConvertFrom (p : V1beta1.Policy) (into : Policy) : Policy :=
  {| pol_Type := V1beta1.pol_Type p;
     pol_Data := V1beta1.pol_Data p;
     pol_Remote := orKeep
       ((λ r, {| rp_URL := V1beta1.rp_URL r; Sha256sum := V1beta1.Sha256sum r |}) <$> V1beta1.pol_Remote p)
       (pol_Remote into);
     pol_ConfigMapRef := orKeep
       ((λ r, {| cmr_Name := V1beta1.cmr_Name r; cmr_Namespace := V1beta1.cmr_Namespace r;
                 cmr_Key := V1beta1.cmr_Key r |}) <$> V1beta1.pol_ConfigMapRef p)
       (pol_ConfigMapRef into);
     FetchConfigFile := orKeep (V1beta1.FetchConfigFile p) (FetchConfigFile into);
     IncludeSpec := orKeep (V1beta1.IncludeSpec p) (IncludeSpec into);
     IncludeObjectMeta := orKeep (V1beta1.IncludeObjectMeta p) (IncludeObjectMeta into);
     IncludeTypeMeta := orKeep (V1beta1.IncludeTypeMeta p) (IncludeTypeMeta into) |}.

Definition zeroPolicy : Policy :=
  {| pol_Type := ""; pol_Data := ""; pol_Remote := None;
     pol_ConfigMapRef := None; FetchConfigFile := None;
     IncludeSpec := None; IncludeObjectMeta := None;
     IncludeTypeMeta := None |}.

Definition Source_from_beta (source : V1beta1.Source) : Source :=
  {| OCI := V1beta1.OCI source;
     SignaturePullSecrets :=
       (λ sps, {| localobject_Name := localobject_Name sps |}) <$> V1beta1.SignaturePullSecrets source;
     TagPrefix := V1beta1.TagPrefix source |}.

Definition Attestation_from_beta (att : V1beta1.Attestation) : Attestation :=
  {| att_Name := V1beta1.att_Name att;
     PredicateType := V1beta1.PredicateType att;
     att_Policy := (λ p, Policy_ConvertFrom p zeroPolicy) <$> V1beta1.att_Policy att |}.

Definition Identity_from_beta (id : V1beta1.Identity) : Identity :=
  {| Issuer := V1beta1.Issuer id; Subject := V1beta1.Subject id;
     IssuerRegExp := V1beta1.IssuerRegExp id; SubjectRegExp := V1beta1.SubjectRegExp id |}.

Definition Keyless_from_beta (k : V1beta1.KeylessRef) : KeylessRef :=
  {| keyless_URL := V1beta1.keyless_URL k;
     Identities := Identity_from_beta <$> V1beta1.Identities k;
     CACert := (λ ca, KeyRef_ConvertFrom ca zeroKeyRef) <$> V1beta1.CACert k;
     keyless_TrustRootRef := V1beta1.keyless_TrustRootRef k;
     InsecureIgnoreSCT := V1beta1.InsecureIgnoreSCT k |}.

Definition Static_from_beta (s : V1beta1.StaticRef) : StaticRef :=
  {| Action := V1beta1.Action s; static_Message := V1beta1.static_Message s |}.

Definition GM_from_beta (gm : V1beta1.GMSignatureRef) : GMSignatureRef :=
  {| VerifyURL := V1beta1.VerifyURL gm;
     TenantID := V1beta1.TenantID gm;
     Signer := {| AppID := V1beta1.AppID (V1beta1.Signer gm); NodeID := V1beta1.NodeID (V1beta1.Signer gm);
                          UserID := V1beta1.UserID (V1beta1.Signer gm) |};
     RequestTimeoutMs := V1beta1.RequestTimeoutMs gm |}.

(** Only a transparency log with a URL is carried over. *)
Definition CTLog_from_beta (t : option V1beta1.TLog) : option TLog :=
  match t with
  | Some {| V1beta1.tlog_URL := Some u; V1beta1.tlog_TrustRootRef := r |} =>
      Some {| tlog_URL := Some u; tlog_TrustRootRef := r |}
  | _ => None
  end.

(** Only a timestamp authority with a trust root is carried over. *)
Definition TSA_from_beta (t : option V1beta1.RFC3161Timestamp) : option RFC3161Timestamp :=
  match t with
  | Some tsa => if V1beta1.tsa_TrustRootRef tsa !=s ""
                then Some {| tsa_TrustRootRef := V1beta1.tsa_TrustRootRef tsa |} else None
  | None => None
  end.

Definition Authority_ConvertFrom (authority : V1beta1.Authority) (into : Authority) :
    Authority :=
  {| auth_Name := V1beta1.auth_Name authority;
     SignatureFormat := V1beta1.SignatureFormat authority;
     CTLog := orKeep (CTLog_from_beta (V1beta1.CTLog authority)) (CTLog into);
     auth_RFC3161Timestamp :=
       orKeep (TSA_from_beta (V1beta1.auth_RFC3161Timestamp authority)) (auth_RFC3161Timestamp into);
     Sources := Sources into ++ (Source_from_beta <$> V1beta1.Sources authority);
     Attestations :=
       Attestations into ++ (Attestation_from_beta <$> V1beta1.Attestations authority);
     Key := orKeep ((λ k, KeyRef_ConvertFrom k zeroKeyRef) <$> V1beta1.Key authority)
                           (Key into);
     Keyless := orKeep (Keyless_from_beta <$> V1beta1.Keyless authority) (Keyless into);
     Static := orKeep (Static_from_beta <$> V1beta1.Static authority) (Static into);
     GMSignature := orKeep (GM_from_beta <$> V1beta1.GMSignature authority)
                                   (GMSignature into) |}.

Definition zeroAuthority : Authority :=
  {| auth_Name := ""; Key := None; Keyless := None;
     Static := None; Sources := []; CTLog := None;
     Attestations := []; auth_RFC3161Timestamp := None;
     GMSignature := None; SignatureFormat := "" |}.

Definition MatchResource_ConvertFrom (m : V1beta1.MatchResource) (into : MatchResource) :
    MatchResource :=
  {| mr_GroupVersionResource := V1beta1.mr_GroupVersionResource m;
     ResourceSelector := orKeep (V1beta1.ResourceSelector m) (ResourceSelector into) |}.

Definition zeroMatchResource : MatchResource :=
  {| mr_GroupVersionResource := {| Group := ""; Version := ""; Resource := "" |};
     ResourceSelector := None |}.

Definition Spec_ConvertFrom (source : V1beta1.ClusterImagePolicySpec) (into : ClusterImagePolicySpec) :
    ClusterImagePolicySpec :=
  {| Images := Images into ++
       ((λ image, {| Glob := V1beta1.Glob image |}) <$> V1beta1.Images source);
     Authorities := Authorities into ++
       ((λ a, Authority_ConvertFrom a zeroAuthority) <$> V1beta1.Authorities source);
     spec_Match := spec_Match into ++
       ((λ m, MatchResource_ConvertFrom m zeroMatchResource) <$> V1beta1.spec_Match source);
     spec_Policy := orKeep ((λ p, Policy_ConvertFrom p zeroPolicy) <$> V1beta1.spec_Policy source)
                                   (spec_Policy into);
     Mode := V1beta1.Mode source |}.

Definition zeroSpec : ClusterImagePolicySpec :=
  {| Images := []; Authorities := []; spec_Policy := None; Mode := ""; spec_Match := [] |}.
Definition zeroSpec_beta : V1beta1.ClusterImagePolicySpec :=
  {| V1beta1.Images := []; V1beta1.Authorities := []; V1beta1.spec_Policy := None;
     V1beta1.Mode := ""; V1beta1.spec_Match := [] |}.

Definition ConvertFrom (c : ClusterImagePolicy) (obj : Convertible) :
    result string ClusterImagePolicy :=
  match obj with
  | BetaCIP source =>
      Ok {| cip_TypeMeta := cip_TypeMeta c;
            cip_ObjectMeta := V1beta1.cip_ObjectMeta source;
            cip_Status := {| duckStatus := V1beta1.duckStatus (V1beta1.cip_Status source) |};
            Spec := Spec_ConvertFrom (V1beta1.Spec source) (Spec c) |}
  | OtherConvertible t => Err "unknown version, got: *v1alpha1.ClusterImagePolicy"
  end.

(** * What survives a conversion *)

(** Nothing in the authority is dropped: its transparency log has a URL and its
    timestamp authority a trust root, where they are given. *)
Definition lossless_Authority (a : Authority) : Prop :=
  (∀ t, CTLog a = Some t → tlog_URL t ≠ None) ∧
  (∀ t, auth_RFC3161Timestamp a = Some t → tsa_TrustRootRef t ≠ "").
Definition lossless (spec : ClusterImagePolicySpec) : Prop :=
  Forall lossless_Authority (Authorities spec).

Lemma orKeep_None {A} (o : option A) : orKeep o None = o.
Proof. by destruct o. Qed.

(** ** There and back again *)

Lemma KeyRef_roundtrip key : KeyRef_ConvertFrom (KeyRef_ConvertTo key zeroKeyRef_beta) zeroKeyRef = key.
Proof. by destruct key. Qed.

Lemma Policy_roundtrip p : Policy_ConvertFrom (Policy_ConvertTo p zeroPolicy_beta) zeroPolicy = p.
Proof. by destruct p as [? ? [[]|] [[]|] [?|] [?|] [?|] [?|]]. Qed.

Lemma Source_roundtrip s : Source_from_beta (Source_to_beta s) = s.
Proof.
  destruct s as [oci secrets prefix]. unfold Source_from_beta, Source_to_beta. cbn.
  rewrite <-list_fmap_compose, list_fmap_id_ext; [done|]. by intros [].
Qed.

Lemma Attestation_roundtrip a : Attestation_from_beta (Attestation_to_beta a) = a.
Proof.
  destruct a as [n t [p|]]; [|done]. unfold Attestation_from_beta, Attestation_to_beta. cbn.
  by rewrite Policy_roundtrip.
Qed.

Lemma Keyless_roundtrip k : Keyless_from_beta (Keyless_to_beta k) = k.
Proof.
  destruct k as [u ids ca r sct]. unfold Keyless_from_beta, Keyless_to_beta. cbn.
  rewrite <-list_fmap_compose, list_fmap_id_ext by (by intros []).
  rewrite <-option_fmap_compose, fmap_id_ext; [done|]. intros x. apply KeyRef_roundtrip.
Qed.

Lemma MatchResource_roundtrip m :
  MatchResource_ConvertFrom (MatchResource_ConvertTo m zeroMatchResource_beta) zeroMatchResource = m.
Proof. destruct m as [gvr [s|]]; done. Qed.

(** What the two filters keep of the transparency log and the timestamp authority. *)
Definition keepCTLog (t : option TLog) : option TLog :=
  CTLog_from_beta (CTLog_to_beta t).
Definition keepTSA (t : option RFC3161Timestamp) : option RFC3161Timestamp :=
  TSA_from_beta (TSA_to_beta t).

Lemma keepCTLog_id t : keepCTLog t = t ↔ ∀ x, t = Some x → tlog_URL x ≠ None.
Proof.
  destruct t as [[[u|] r]|]; cbn; split; try done.
  - by intros _ ? [= <-].
  - intros Ht. by destruct (Ht _ eq_refl).
Qed.

Lemma keepTSA_id t : keepTSA t = t ↔ ∀ x, t = Some x → tsa_TrustRootRef x ≠ "".
Proof.
  destruct t as [[r]|]; [|done]. unfold keepTSA, TSA_to_beta. cbn [tsa_TrustRootRef].
  destruct (String.eqb_spec r "") as [->|Hr]; cbn.
  - split; [done|]. intros Ht. by destruct (Ht _ eq_refl).
  - apply String.eqb_neq in Hr as Hb. rewrite Hb. cbn. split; [|done]. by intros _ ? [= <-].
Qed.

Definition keep_Authority (a : Authority) : Authority :=
  {| auth_Name := auth_Name a; Key := Key a; Keyless := Keyless a; Static := Static a;
     Sources := Sources a; CTLog := keepCTLog (CTLog a); Attestations := Attestations a;
     auth_RFC3161Timestamp := keepTSA (auth_RFC3161Timestamp a);
     GMSignature := GMSignature a; SignatureFormat := SignatureFormat a |}.

Lemma Authority_roundtrip a :
  Authority_ConvertFrom (Authority_ConvertTo a zeroAuthority_beta) zeroAuthority = keep_Authority a.
Proof.
  destruct a as [n key keyless st sources ctlog atts tsa gm sf].
  unfold Authority_ConvertFrom, Authority_ConvertTo, keep_Authority. cbn.
  rewrite !orKeep_None, <-!list_fmap_compose, <-!option_fmap_compose.
  f_equal.
  - apply fmap_id_ext. apply KeyRef_roundtrip.
  - apply fmap_id_ext. apply Keyless_roundtrip.
  - apply fmap_id_ext. by intros [].
  - apply list_fmap_id_ext. apply Source_roundtrip.
  - apply list_fmap_id_ext. apply Attestation_roundtrip.
  - apply fmap_id_ext. by intros [? ? [] ?].
Qed.

Lemma keep_Authority_id a : keep_Authority a = a ↔ lossless_Authority a.
Proof.
  unfold lossless_Authority. rewrite <-keepCTLog_id, <-keepTSA_id.
  destruct a as [n key keyless st sources ctlog atts tsa gm sf]. unfold keep_Authority. cbn.
  split; [by intros [= -> ->]|]. by intros [-> ->].
Qed.

Lemma Spec_roundtrip spec :
  Spec_ConvertFrom (Spec_ConvertTo spec zeroSpec_beta) zeroSpec =
  {| Images := Images spec; Authorities := keep_Authority <$> Authorities spec;
     spec_Policy := spec_Policy spec; Mode := Mode spec; spec_Match := spec_Match spec |}.
Proof.
  destruct spec as [images auths p mode ms]. unfold Spec_ConvertFrom, Spec_ConvertTo. cbn.
  rewrite !orKeep_None, <-!list_fmap_compose, <-!option_fmap_compose. f_equal.
  - apply list_fmap_id_ext. by intros [].
  - apply list_fmap_ext. intros _ a _. apply Authority_roundtrip.
  - apply fmap_id_ext. apply Policy_roundtrip.
  - apply list_fmap_id_ext. apply MatchResource_roundtrip.
Qed.

(** C25: a v1alpha1 policy converted to v1beta1 and back is the policy itself
    exactly when every transparency log it names has a URL and every timestamp
    authority a trust root; whatever lacks them is silently dropped. *)
Theorem conversion_roundtrip (spec : ClusterImagePolicySpec) :
  Spec_ConvertFrom (Spec_ConvertTo spec zeroSpec_beta) zeroSpec = spec ↔ lossless spec.
Proof.
  rewrite Spec_roundtrip. unfold lossless.
  rewrite <-(Forall_ext_iff _ _ keep_Authority_id), <-list_fmap_id_iff.
  destruct spec. cbn. split; [by intros [=]|by intros ->].
Qed.

(** ** Validation does not depend on the version *)

Section Versions.
Context `{N : NamePkg} `{P : Parsers} `{F : FieldErrors}.
Variable ValidResourceNames : gset string.

Lemma KeyRef_Validate_to_beta key :
  V1beta1.KeyRef_Validate (KeyRef_ConvertTo key zeroKeyRef_beta) = KeyRef_Validate key.
Proof. reflexivity. Qed.

Lemma Policy_Validate_to_beta ctx (p : option Policy) :
  V1beta1.Policy_Validate ctx ((λ p, Policy_ConvertTo p zeroPolicy_beta) <$> p) =
  Policy_Validate ctx p.
Proof. by destruct p as [[? ? [[]|] [[]|] [?|] [?|] [?|] [?|]]|]. Qed.

Lemma Attestation_Validate_to_beta ctx a :
  V1beta1.Attestation_Validate ctx (Attestation_to_beta a) = Attestation_Validate ctx a.
Proof.
  unfold V1beta1.Attestation_Validate, Attestation_Validate. cbn.
  by rewrite Policy_Validate_to_beta.
Qed.

Lemma Source_Validate_to_beta s : V1beta1.Source_Validate (Source_to_beta s) = Source_Validate s.
Proof.
  unfold V1beta1.Source_Validate, Source_Validate. cbn.
  rewrite list_fmap_id_ext; [done|]. by intros [].
Qed.

Lemma isEmpty_fmap {A B} (f : A → B) l : isEmpty (f <$> l) = isEmpty l.
Proof. by destruct l. Qed.
Lemma nonEmpty_fmap {A B} (f : A → B) l : nonEmpty (f <$> l) = nonEmpty l.
Proof. by destruct l. Qed.

Lemma KeylessRef_Validate_to_beta k :
  V1beta1.KeylessRef_Validate (Keyless_to_beta k) = KeylessRef_Validate k.
Proof.
  unfold V1beta1.KeylessRef_Validate, KeylessRef_Validate. cbn.
  rewrite isEmpty_fmap, AlsoEach_fmap. by destruct k as [? ? [ca|] ? ?].
Qed.

Lemma MatchResource_Validate_to_beta m :
  V1beta1.MatchResource_Validate ValidResourceNames
    (MatchResource_ConvertTo m zeroMatchResource_beta) =
  MatchResource_Validate ValidResourceNames m.
Proof. by destruct m as [? [?|]]. Qed.

Lemma CTLog_to_beta_notNil a : lossless_Authority a →
  notNil (CTLog_to_beta (CTLog a)) = notNil (CTLog a).
Proof.
  intros [Ht _]. destruct (CTLog a) as [[[u|] r]|]; [done| |done]. by destruct (Ht _ eq_refl).
Qed.

Lemma TSA_to_beta_notNil a : lossless_Authority a →
  notNil (TSA_to_beta (auth_RFC3161Timestamp a)) = notNil (auth_RFC3161Timestamp a).
Proof.
  intros [_ Ht]. destruct (auth_RFC3161Timestamp a) as [[r]|]; [|done]. cbn [TSA_to_beta tsa_TrustRootRef].
  destruct (String.eqb_spec r "") as [->|]; [by destruct (Ht _ eq_refl)|done].
Qed.

Lemma Authority_Validate_to_beta ctx a : lossless_Authority a →
  V1beta1.Authority_Validate ctx (Authority_ConvertTo a zeroAuthority_beta) =
  Authority_Validate ctx a.
Proof.
  intros Hl. unfold V1beta1.Authority_Validate, Authority_Validate.
  cbn [Authority_ConvertTo V1beta1.Key V1beta1.Keyless V1beta1.Static V1beta1.Sources
    V1beta1.CTLog V1beta1.Attestations V1beta1.auth_RFC3161Timestamp V1beta1.GMSignature
    zeroAuthority_beta].
  rewrite !orKeep_None, !app_nil_l, !nonEmpty_fmap, CTLog_to_beta_notNil, TSA_to_beta_notNil by done.
  rewrite length_fmap, AlsoEach_fmap, foldl_fmap.
  erewrite (AlsoEach_ext _ _ _ _ Source_Validate) by (intros; apply Source_Validate_to_beta).
  erewrite (foldl_ext _ (λ errs att, errs ⊕ ViaField "attestations" (Attestation_Validate ctx att)))
    by (intros; by rewrite ?Attestation_Validate_to_beta).
  destruct a as [? [key|] [keyless|] [st|] ? ? ? ? [[? ? [] ?]|] ?]; try reflexivity.
  cbn [fmap option_fmap option_map Keyless]. by rewrite KeylessRef_Validate_to_beta.
Qed.

Lemma validation_aux (ctx : Ctx) (spec : ClusterImagePolicySpec)
    (Hl : lossless spec) :
  ClusterImagePolicySpec_Validate ValidResourceNames ctx spec =
  V1beta1.ClusterImagePolicySpec_Validate ValidResourceNames ctx
    (Spec_ConvertTo spec zeroSpec_beta).
Proof.
  unfold V1beta1.ClusterImagePolicySpec_Validate, ClusterImagePolicySpec_Validate.
  cbn [Spec_ConvertTo V1beta1.Images V1beta1.Authorities V1beta1.spec_Match V1beta1.Mode
    V1beta1.spec_Policy zeroSpec_beta].
  rewrite !app_nil_l, orKeep_None, !isEmpty_fmap, !AlsoEach_fmap, Policy_Validate_to_beta.
  erewrite (AlsoEach_ext _ "match" _ (λ m, V1beta1.MatchResource_Validate _ _))
    by (intros; apply MatchResource_Validate_to_beta).
  erewrite (AlsoEach_ext _ "authorities" _ (λ a, V1beta1.Authority_Validate _ _)); [done|].
  intros a Ha. apply Authority_Validate_to_beta. by eapply Forall_forall in Hl.
Qed.

(** C26: the two API versions validate alike: a v1alpha1 policy whose conversion
    loses nothing gets, diagnostic for diagnostic, the answer v1beta1 gives for
    its conversion. *)
Theorem validation_versions_agree (ctx : Ctx) (spec : ClusterImagePolicySpec)
    (Hl : lossless spec) :
  ClusterImagePolicySpec_Validate ValidResourceNames ctx spec =
  V1beta1.ClusterImagePolicySpec_Validate ValidResourceNames ctx
    (Spec_ConvertTo spec zeroSpec_beta).
Proof. by apply validation_aux. Qed.

(** Hence v1alpha1 rejects a lossless policy exactly when its conversion is
    not well-formed. *)
Theorem v1alpha1_Validate_refines_wf (ctx : Ctx) (spec : ClusterImagePolicySpec)
    (Hl : lossless spec) :
  ¬ Rejects (ClusterImagePolicySpec_Validate ValidResourceNames ctx spec) ↔
  V1beta1Spec.wf_Spec ValidResourceNames ctx (Spec_ConvertTo spec zeroSpec_beta).
Proof.
  rewrite validation_aux by done. apply V1beta1Spec.Spec_Validate_wf.
Qed.

(** ** Defaulting *)

Lemma Authority_default_to_beta i a :
  Authority_ConvertTo (defaultAuthority i a) zeroAuthority_beta =
  V1beta1.defaultAuthority i (Authority_ConvertTo a zeroAuthority_beta).
Proof. by destruct a as [? [] [[[] ? [] ? ?]|] [] ? ? ? ? [] ?]. Qed.

(** Defaulting and conversion commute: defaulting a v1alpha1 policy and
    converting it gives what defaulting its conversion gives. *)
Theorem defaults_versions_agree (spec : ClusterImagePolicySpec) :
  Spec_ConvertTo (SetDefaults_Spec spec) zeroSpec_beta =
  V1beta1.SetDefaults_Spec (Spec_ConvertTo spec zeroSpec_beta).
Proof.
  unfold SetDefaults_Spec, V1beta1.SetDefaults_Spec, Spec_ConvertTo. cbn. f_equal.
  rewrite fmap_imap, imap_fmap. apply imap_ext. intros i a _. apply Authority_default_to_beta.
Qed.

Definition complete_Authority (a : Authority) : Prop :=
  auth_Name a ≠ "" ∧
  (∀ k, Keyless a = Some k → Key a = None → Static a = None →
     keyless_URL k ≠ None ∨ CACert k ≠ None).

Lemma defaultAuthority_complete i a : complete_Authority (defaultAuthority i a).
Proof.
  unfold complete_Authority, defaultAuthority. cbn. split.
  - destruct (String.eqb_spec (auth_Name a) ""); [|done].
    by intros [=].
  - unfold needsFulcioURL. intros k Hk Hkey Hst. revert Hk. rewrite Hkey, Hst. cbn [isNil andb].
    destruct (Keyless a) as [k'|]; [|done].
    destruct (CACert k') eqn:Hc, (keyless_URL k') eqn:Hu; cbn; intros [= <-]; cbn;
      rewrite ?Hc, ?Hu; auto.
Qed.

Lemma defaultAuthority_id i a : complete_Authority a → defaultAuthority i a = a.
Proof.
  intros [Hn Hk]. destruct a as [n key keyless st ? ? ? ? ? ?].
  unfold defaultAuthority, needsFulcioURL. cbn in *.
  apply String.eqb_neq in Hn as ->. f_equal.
  destruct key, st, keyless as [[u ? ca ? ?]|]; try done. cbn in *.
  destruct (Hk _ eq_refl eq_refl eq_refl); destruct u, ca; done.
Qed.

(** Defaulting leaves nothing to default: the mode and every authority's
    name are set, every authority verified by keyless alone has a Fulcio URL or
    a CA certificate, and a second defaulting changes nothing. *)
Theorem SetDefaults_complete (c : ClusterImagePolicy) :
  let spec := Spec (SetDefaults c) in
  Mode spec ≠ "" ∧ Forall complete_Authority (Authorities spec) ∧
  length (Authorities spec) = length (Authorities (Spec c)) ∧
  SetDefaults (SetDefaults c) = SetDefaults c.
Proof.
  cbn. rewrite length_imap.
  assert (Forall complete_Authority (imap defaultAuthority (Authorities (Spec c)))) as Hall.
  { apply Forall_lookup. intros i a. rewrite list_lookup_imap, fmap_Some.
    intros (b & _ & ->). apply defaultAuthority_complete. }
  assert ((if Mode (Spec c) ==s "" then "enforce" else Mode (Spec c)) ≠ "") as Hm.
  { by destruct (String.eqb_spec (Mode (Spec c)) ""). }
  split_and!; [done..|]. unfold SetDefaults, SetDefaults_Spec. cbn. do 2 f_equal.
  - apply list_eq. intros i. rewrite list_lookup_imap.
    destruct (imap defaultAuthority _ !! i) as [a|] eqn:Ha; [|done]. cbn. f_equal.
    apply defaultAuthority_id. by eapply Forall_lookup_1 in Hall.
  - by apply String.eqb_neq in Hm as ->.
Qed.

(** ** What is lost *)

(** A key authority whose signatures must be in the transparency log of the
    trust root [r], and a static authority with a (meaningless) log. *)
Definition keyInLog (r : string) : V1beta1.Authority :=
  {| V1beta1.auth_Name := "logged";
     V1beta1.Key := Some {| V1beta1.SecretRef := Some {| secret_Name := "k"; secret_Namespace := "" |};
       V1beta1.key_Data := ""; V1beta1.KMS := ""; V1beta1.key_HashAlgorithm := "" |};
     V1beta1.Keyless := None; V1beta1.Static := None; V1beta1.Sources := [];
     V1beta1.CTLog := Some {| V1beta1.tlog_URL := None; V1beta1.tlog_TrustRootRef := r |};
     V1beta1.Attestations := []; V1beta1.auth_RFC3161Timestamp := None;
     V1beta1.GMSignature := None; V1beta1.SignatureFormat := "" |}.
Definition staticInLog (r : string) : Authority :=
  {| auth_Name := "static"; Key := None; Keyless := None;
     Static := Some {| Action := "pass"; static_Message := "" |}; Sources := [];
     CTLog := Some {| tlog_URL := None; tlog_TrustRootRef := r |};
     Attestations := []; auth_RFC3161Timestamp := None;
     GMSignature := None; SignatureFormat := "" |}.

(** The loss is real in both directions. v1beta1 accepts an authority that
    requires the transparency log of a trust root, and its conversion to the
    stored version requires no log at all; and v1alpha1 rejects a static
    authority with a log, whose conversion v1beta1 accepts. *)
Theorem conversion_drops_tlog (ctx : Ctx) (r : string) :
  Accepts (V1beta1.Authority_Validate ctx (keyInLog r)) ∧
  CTLog (Authority_ConvertFrom (keyInLog r) zeroAuthority) = None ∧
  Rejects (Authority_Validate ctx (staticInLog r)) ∧
  Accepts (V1beta1.Authority_Validate ctx
    (Authority_ConvertTo (staticInLog r) zeroAuthority_beta)).
Proof.
  split_and!; [|done| |].
  - apply V1beta1Spec.Authority_Validate_wf. unfold V1beta1Spec.wf_Authority. cbn.
    split_and!; try done; try (by constructor); try lia.
    intros key [= <-]. unfold V1beta1Spec.wf_KeyRef. cbn. split_and!; try done.
    intros ref [= <-]. by left.
  - unfold Rejects, Authority_Validate, StaticRef_Validate. cbn.
    rewrite ?has_Also, ?has_AlsoIf. autorewrite with felevel. tauto.
  - apply V1beta1Spec.Authority_Validate_wf. unfold V1beta1Spec.wf_Authority. cbn.
    split_and!; try done; try (by constructor); try lia.
    intros st [= <-]. split_and!; try done. by right.
Qed.

End Versions.

Definition exampleSpec : ClusterImagePolicySpec :=
  {| Images := [{| Glob := "ghcr.io/org/*" |}];
     Authorities := [{| auth_Name := "a"; Key := None; Keyless := None;
       Static := Some {| Action := "pass"; static_Message := "" |}; Sources := [];
       CTLog := None; Attestations := []; auth_RFC3161Timestamp := None;
       GMSignature := None; SignatureFormat := "" |}];
     spec_Policy := None; Mode := "enforce"; spec_Match := [] |}.

Lemma exampleSpec_lossless : lossless exampleSpec.
Proof. repeat constructor; by intros. Qed.

#[local] Existing Instances ToyNames.names ToyParsers.parsers ListFieldErrors.fieldErrors.

Lemma validation_versions_agree_witness :
  ClusterImagePolicySpec_Validate ∅ emptyCtx exampleSpec =
  V1beta1.ClusterImagePolicySpec_Validate ∅ emptyCtx (Spec_ConvertTo exampleSpec zeroSpec_beta).
Proof. apply (validation_versions_agree ∅ emptyCtx exampleSpec exampleSpec_lossless). Defined.

Lemma v1alpha1_Validate_refines_wf_witness :
  ¬ Rejects (ClusterImagePolicySpec_Validate ∅ emptyCtx exampleSpec) ∧
  V1beta1Spec.wf_Spec ∅ emptyCtx (Spec_ConvertTo exampleSpec zeroSpec_beta).
Proof.
  pose proof (v1alpha1_Validate_refines_wf ∅ emptyCtx exampleSpec exampleSpec_lossless) as [H1 H2].
  assert (¬ Rejects (ClusterImagePolicySpec_Validate ∅ emptyCtx exampleSpec)) as Ha by (vm_compute; intros He; inversion He).
  split; [exact Ha|exact (H1 Ha)].
Defined.
