(* ===== verification/WebhookTypes.v ===== *)
(** The webhook's own representation of a ClusterImagePolicy
    (pkg/webhook/clusterimagepolicy/clusterimagepolicy_types.go): its types, and
    the conversion from v1alpha1 the reconciler applies before it writes the
    policy to the ConfigMap. A key's [PublicKeys] and an authority's
    [RemoteOpts] are not written; reading the ConfigMap back (WebhookJSON)
    populates them. *)

From S2P Require Import Prelude.
From S2P Require Import Names.
From S2P Require Import K8s.
From S2P Require Import Common.
From S2P Require V1alpha1.

(** The registry options the program builds with cosign's [ociremote] package,
    as the calls that build them. [Keychain] names what
    [registryauth.NewK8sKeychain] is asked for. *)
Record KeychainOptions := {
  kc_Namespace : string;
  kc_ServiceAccountName : string;
  kc_ImagePullSecrets : list string
}.
Inductive RemoteOption :=
  | WithTargetRepository (repo : string)
  | WithPrefix (prefix : string)
  | WithAuthFromKeychain (kc : KeychainOptions).

Record GMSignerRef := { AppID : string; NodeID : string; UserID : string }.

Record GMSignatureRef := {
  VerifyURL : string;
  TenantID : string;
  Signer : GMSignerRef;
  RequestTimeoutMs : Z
}.

Record StaticRef := { Action : string; static_Message : string }.

Record AttestationPolicy := {
  ap_Name : string;
  ap_PredicateType : string;
  ap_Type : string;
  ap_Data : string;
  FetchConfigFile : option bool;
  IncludeSpec : option bool;
  IncludeObjectMeta : option bool;
  IncludeTypeMeta : option bool
}.

Record RFC3161Timestamp := { tsa_TrustRootRef : string }.

Section Types.
Context `{P : Parsers}.

Record KeyRef := {
  key_Data : string;
  key_HashAlgorithm : string;
  HashAlgorithmCode : Hash;
  PublicKeys : list (option PublicKey)
}.

Record KeylessRef := {
  keyless_URL : option URL;
  Identities : list V1alpha1.Identity;
  CACert : option KeyRef;
  keyless_TrustRootRef : string;
  InsecureIgnoreSCT : option bool
}.

Record Authority := {
  auth_Name : string;
  Key : option KeyRef;
  Keyless : option KeylessRef;
  Static : option StaticRef;
  Sources : list V1alpha1.Source;
  CTLog : option V1alpha1.TLog;
  RemoteOpts : list RemoteOption;
  Attestations : list AttestationPolicy;
  auth_RFC3161Timestamp : option RFC3161Timestamp;
  GMSignature : option GMSignatureRef;
  SignatureFormat : string
}.

Record ClusterImagePolicy := {
  UID : string;
  ResourceVersion : string;
  Images : list V1alpha1.ImagePattern;
  Authorities : list Authority;
  cip_Policy : option AttestationPolicy;
  Mode : string;
  cip_Match : list V1alpha1.MatchResource
}.

(** ** From v1alpha1 *)

Definition convertStaticRefV1Alpha1ToWebhook (in_ : option V1alpha1.StaticRef) : option StaticRef :=
  match in_ with
  | None => None
  | Some s => Some {| Action := V1alpha1.Action s; static_Message := V1alpha1.static_Message s |}
  end.

(** The error of the lookup is ignored, and with it the answer is SHA256. *)
Definition convertKeyRefV1Alpha1ToWebhook (in_ : option V1alpha1.KeyRef) : option KeyRef :=
  match in_ with
  | None => None
  | Some k =>
      let '(algorithm, algorithmCode) :=
        if V1alpha1.key_HashAlgorithm k !=s ""
        then (V1alpha1.key_HashAlgorithm k, (HashAlgorithm (V1alpha1.key_HashAlgorithm k)).1)
        else (DefaultSignatureAlgorithm, SHA256) in
      Some {| key_Data := V1alpha1.key_Data k;
              key_HashAlgorithm := algorithm;
              HashAlgorithmCode := algorithmCode;
              PublicKeys := [] |}
  end.

Definition convertKeylessRefV1Alpha1ToWebhook (in_ : option V1alpha1.KeylessRef) :
    option KeylessRef :=
  match in_ with
  | None => None
  | Some k =>
      Some {| keyless_URL := V1alpha1.keyless_URL k;
              Identities := V1alpha1.Identities k;
              CACert := convertKeyRefV1Alpha1ToWebhook (V1alpha1.CACert k);
              keyless_TrustRootRef := V1alpha1.keyless_TrustRootRef k;
              InsecureIgnoreSCT := V1alpha1.InsecureIgnoreSCT k |}
  end.

Definition convertRFC3161TimestampV1Alpha1ToWebhook (in_ : option V1alpha1.RFC3161Timestamp) :
    option RFC3161Timestamp :=
  match in_ with
  | None => None
  | Some t => Some {| tsa_TrustRootRef := V1alpha1.tsa_TrustRootRef t |}
  end.

Definition convertGMSignatureRefV1Alpha1ToWebhook (in_ : option V1alpha1.GMSignatureRef) :
    option GMSignatureRef :=
  match in_ with
  | None => None
  | Some gm =>
      Some {| VerifyURL := V1alpha1.VerifyURL gm;
              TenantID := V1alpha1.TenantID gm;
              RequestTimeoutMs := V1alpha1.RequestTimeoutMs gm;
              Signer := {| AppID := V1alpha1.AppID (V1alpha1.Signer gm);
                           NodeID := V1alpha1.NodeID (V1alpha1.Signer gm);
                           UserID := V1alpha1.UserID (V1alpha1.Signer gm) |} |}
  end.

(** An attestation's policy is inlined; one without a policy has no type. *)
Definition convertAttestation (inAtt : V1alpha1.Attestation) : AttestationPolicy :=
  match V1alpha1.att_Policy inAtt with
  | Some p =>
      {| ap_Name := V1alpha1.att_Name inAtt; ap_PredicateType := V1alpha1.PredicateType inAtt;
         ap_Type := V1alpha1.pol_Type p; ap_Data := V1alpha1.pol_Data p;
         FetchConfigFile := V1alpha1.FetchConfigFile p;
         IncludeSpec := V1alpha1.IncludeSpec p;
         IncludeObjectMeta := V1alpha1.IncludeObjectMeta p;
         IncludeTypeMeta := V1alpha1.IncludeTypeMeta p |}
  | None =>
      {| ap_Name := V1alpha1.att_Name inAtt; ap_PredicateType := V1alpha1.PredicateType inAtt;
         ap_Type := ""; ap_Data := ""; FetchConfigFile := None; IncludeSpec := None;
         IncludeObjectMeta := None; IncludeTypeMeta := None |}
  end.
Definition convertAttestationsV1Alpha1ToWebhook (in_ : list V1alpha1.Attestation) :
    list AttestationPolicy := convertAttestation <$> in_.

Definition convertAuthorityV1Alpha1ToWebhook (in_ : V1alpha1.Authority) : Authority :=
  {| auth_Name := V1alpha1.auth_Name in_;
     Key := convertKeyRefV1Alpha1ToWebhook (V1alpha1.Key in_);
     Keyless := convertKeylessRefV1Alpha1ToWebhook (V1alpha1.Keyless in_);
     Static := convertStaticRefV1Alpha1ToWebhook (V1alpha1.Static in_);
     Sources := V1alpha1.Sources in_;
     CTLog := V1alpha1.CTLog in_;
     RemoteOpts := [];
     Attestations := convertAttestationsV1Alpha1ToWebhook (V1alpha1.Attestations in_);
     auth_RFC3161Timestamp :=
       convertRFC3161TimestampV1Alpha1ToWebhook (V1alpha1.auth_RFC3161Timestamp in_);
     GMSignature := convertGMSignatureRefV1Alpha1ToWebhook (V1alpha1.GMSignature in_);
     SignatureFormat := V1alpha1.SignatureFormat in_ |}.

(** The policy of the whole CIP: only its inline data; the reconciler has
    replaced a remote or ConfigMap policy by its text before. *)
Definition convertCIPPolicy (p : V1alpha1.Policy) : AttestationPolicy :=
  {| ap_Name := ""; ap_PredicateType := "";
     ap_Type := V1alpha1.pol_Type p; ap_Data := V1alpha1.pol_Data p;
     FetchConfigFile := V1alpha1.FetchConfigFile p;
     IncludeSpec := V1alpha1.IncludeSpec p;
     IncludeObjectMeta := V1alpha1.IncludeObjectMeta p;
     IncludeTypeMeta := V1alpha1.IncludeTypeMeta p |}.

Definition ConvertClusterImagePolicyV1alpha1ToWebhook (in_ : V1alpha1.ClusterImagePolicy) :
    ClusterImagePolicy :=
  let spec := V1alpha1.Spec in_ in
  {| UID := om_UID (V1alpha1.cip_ObjectMeta in_);
     ResourceVersion := om_ResourceVersion (V1alpha1.cip_ObjectMeta in_);
     Images := V1alpha1.Images spec;
     Authorities := convertAuthorityV1Alpha1ToWebhook <$> V1alpha1.Authorities spec;
     cip_Policy := convertCIPPolicy <$> V1alpha1.spec_Policy spec;
     Mode := V1alpha1.Mode spec;
     cip_Match := V1alpha1.spec_Match spec |}.

(** ** Registry options *)

(** The constant [kubernetes.NoServiceAccount]. *)
Variable NoServiceAccount : string.

(** [registryauth.NewK8sKeychain]: whether building the keychain fails. *)
Variable NewK8sKeychain : KeychainOptions → option string.

(** One keychain per source with pull secrets; the first failure is returned. *)
Fixpoint SourceSignaturePullSecretsOpts_sources (sources : list V1alpha1.Source)
    (namespace : string) : result string (list RemoteOption) :=
  match sources with
  | [] => Ok []
  | source :: rest =>
      if nonEmpty (V1alpha1.SignaturePullSecrets source) then
        let opt := {| kc_Namespace := namespace; kc_ServiceAccountName := NoServiceAccount;
                      kc_ImagePullSecrets :=
                        localobject_Name <$> V1alpha1.SignaturePullSecrets source |} in
        match NewK8sKeychain opt with
        | Some err => Err err
        | None =>
            match SourceSignaturePullSecretsOpts_sources rest namespace with
            | Ok ret => Ok (WithAuthFromKeychain opt :: ret)
            | Err err => Err err
            end
        end
      else SourceSignaturePullSecretsOpts_sources rest namespace
  end.
Definition SourceSignaturePullSecretsOpts (a : Authority) (namespace : string) :
    result string (list RemoteOption) :=
  SourceSignaturePullSecretsOpts_sources (Sources a) namespace.

End Types.
