(* ===== verification/Encoding.v ===== *)
(** The encodings of the Go standard library the program uses: base64 and hex
    on byte strings, big-endian lengths, and JSON values with the way
    [encoding/json] fills a struct from them. The text syntax of JSON itself is
    the interface [JsonText]. *)

From S2P Require Import Prelude.

Set Warnings "-register-all".

(** * encoding/base64, StdEncoding *)

Module Base64.

(** A sextet, most significant bit first, and its character. *)
Definition sextet : Type := bool * bool * bool * bool * bool * bool.

Definition sextet_nat (x : sextet) : nat :=
  let '(a, b, c, d, e, f) := x in
  32 * Nat.b2n a + 16 * Nat.b2n b + 8 * Nat.b2n c + 4 * Nat.b2n d + 2 * Nat.b2n e + Nat.b2n f.
Definition nat_sextet (n : nat) : sextet :=
  (Nat.testbit n 5, Nat.testbit n 4, Nat.testbit n 3, Nat.testbit n 2, Nat.testbit n 1,
   Nat.testbit n 0).

Definition encode_char (x : sextet) : ascii :=
  let n := sextet_nat x in
  if (n <? 26)%nat then ascii_of_nat (65 + n)
  else if (n <? 52)%nat then ascii_of_nat (97 + (n - 26))
  else if (n <? 62)%nat then ascii_of_nat (48 + (n - 52))
  else if (n =? 62)%nat then "+"%char else "/"%char.

Definition decode_char (c : ascii) : option sextet :=
  let n := nat_of_ascii c in
  if (65 <=? n)%nat && (n <=? 90)%nat then Some (nat_sextet (n - 65))
  else if (97 <=? n)%nat && (n <=? 122)%nat then Some (nat_sextet (n - 97 + 26))
  else if (48 <=? n)%nat && (n <=? 57)%nat then Some (nat_sextet (n - 48 + 52))
  else if Ascii.eqb c "+" then Some (nat_sextet 62)
  else if Ascii.eqb c "/" then Some (nat_sextet 63)
  else None.

(** The four sextets of three bytes; [Ascii] has its least significant bit first. *)
Definition first6 (x : ascii) : sextet :=
  let '(Ascii a b c d e f g h) := x in (h, g, f, e, d, c).
Definition second6 (x y : ascii) : sextet :=
  let '(Ascii a b _ _ _ _ _ _) := x in
  let '(Ascii _ _ _ _ e f g h) := y in (b, a, h, g, f, e).
Definition third6 (y z : ascii) : sextet :=
  let '(Ascii a b c d _ _ _ _) := y in
  let '(Ascii _ _ _ _ _ _ g h) := z in (d, c, b, a, h, g).
Definition fourth6 (z : ascii) : sextet :=
  let '(Ascii a b c d e f _ _) := z in (f, e, d, c, b, a).

Definition byte1 (p q : sextet) : ascii :=
  let '(h, g, f, e, d, c) := p in let '(b, a, _, _, _, _) := q in Ascii a b c d e f g h.
Definition byte2 (q r : sextet) : ascii :=
  let '(_, _, h, g, f, e) := q in let '(d, c, b, a, _, _) := r in Ascii a b c d e f g h.
Definition byte3 (r s : sextet) : ascii :=
  let '(_, _, _, _, h, g) := r in let '(f, e, d, c, b, a) := s in Ascii a b c d e f g h.

Fixpoint EncodeToString (s : string) : string :=
  match s with
  | EmptyString => ""
  | String x EmptyString =>
      String (encode_char (first6 x)) (String (encode_char (second6 x zero)) "==")
  | String x (String y EmptyString) =>
      String (encode_char (first6 x)) (String (encode_char (second6 x y))
        (String (encode_char (third6 y zero)) "="))
  | String x (String y (String z rest)) =>
      String (encode_char (first6 x)) (String (encode_char (second6 x y))
        (String (encode_char (third6 y z)) (String (encode_char (fourth6 z))
          (EncodeToString rest))))
  end.

(** The decoder skips line breaks, and wants padded groups of four. *)
Fixpoint strip_newlines (s : string) : string :=
  match s with
  | EmptyString => ""
  | String c s' => if Ascii.eqb c "010" || Ascii.eqb c "013" then strip_newlines s'
                   else String c (strip_newlines s')
  end.

Definition is_pad (c : ascii) : bool := Ascii.eqb c "=".

Fixpoint decode_groups (s : string) : option string :=
  match s with
  | EmptyString => Some ""
  | String a (String b (String c (String d rest))) =>
      match decode_char a, decode_char b with
      | Some p, Some q =>
          if is_pad c then
            if is_pad d && (rest ==s "") then Some (String (byte1 p q) "") else None
          else
            match decode_char c with
            | None => None
            | Some r =>
                if is_pad d then
                  if rest ==s "" then Some (String (byte1 p q) (String (byte2 q r) "")) else None
                else
                  match decode_char d, decode_groups rest with
                  | Some t, Some tail =>
                      Some (String (byte1 p q) (String (byte2 q r) (String (byte3 r t) tail)))
                  | _, _ => None
                  end
            end
      | _, _ => None
      end
  | _ => None
  end.

Definition DecodeString (s : string) : result string string :=
  match decode_groups (strip_newlines s) with
  | Some b => Ok b
  | None => Err "illegal base64 data"
  end.

Lemma encode_char_facts x :
  decode_char (encode_char x) = Some x ∧ is_pad (encode_char x) = false ∧
  Ascii.eqb (encode_char x) "010" || Ascii.eqb (encode_char x) "013" = false.
Proof. by destruct x as [[[[[[] []] []] []] []] []]. Qed.

Lemma byte1_6 x y : byte1 (first6 x) (second6 x y) = x.
Proof. by destruct x, y. Qed.
Lemma byte2_6 x y z : byte2 (second6 x y) (third6 y z) = y.
Proof. by destruct x, y, z. Qed.
Lemma byte3_6 y z : byte3 (third6 y z) (fourth6 z) = z.
Proof. by destruct y, z. Qed.

Lemma string3_ind (Q : string → Prop) :
  Q "" → (∀ x, Q (String x "")) → (∀ x y, Q (String x (String y ""))) →
  (∀ x y z s, Q s → Q (String x (String y (String z s)))) → ∀ s, Q s.
Proof.
  intros H0 H1 H2 H3. fix IH 1. intros [|x [|y [|z s]]]; [done..|]. apply H3, IH.
Qed.

Lemma decode_groups_encode s : decode_groups (EncodeToString s) = Some s.
Proof.
  induction s as [|x|x y|x y z s IH] using string3_ind;
    cbn [EncodeToString decode_groups].
  - done.
  - rewrite (proj1 (encode_char_facts (first6 x))), (proj1 (encode_char_facts (second6 x _))).
    cbn. by rewrite byte1_6.
  - rewrite (proj1 (encode_char_facts (first6 x))), (proj1 (encode_char_facts (second6 x y))),
      (proj1 (encode_char_facts (third6 y _))), (proj1 (proj2 (encode_char_facts (third6 y _)))).
    cbn. by rewrite byte1_6, byte2_6.
  - rewrite (proj1 (encode_char_facts (first6 x))), (proj1 (encode_char_facts (second6 x y))),
      (proj1 (encode_char_facts (third6 y z))), (proj1 (proj2 (encode_char_facts (third6 y z)))),
      (proj1 (encode_char_facts (fourth6 z))), (proj1 (proj2 (encode_char_facts (fourth6 z)))), IH.
    by rewrite byte1_6, byte2_6, byte3_6.
Qed.

Lemma strip_newlines_encode s : strip_newlines (EncodeToString s) = EncodeToString s.
Proof.
  induction s as [|x|x y|x y z s IH] using string3_ind;
    cbn [EncodeToString strip_newlines];
    rewrite ?(proj2 (proj2 (encode_char_facts _))), ?IH; done.
Qed.

Lemma DecodeString_EncodeToString s : DecodeString (EncodeToString s) = Ok s.
Proof. unfold DecodeString. by rewrite strip_newlines_encode, decode_groups_encode. Qed.

End Base64.

(** * encoding/hex *)

Fixpoint hex_EncodeToString (s : string) : string :=
  match s with
  | EmptyString => ""
  | String c s' =>
      let n := nat_of_ascii c in
      String (hex_digit (n / 16)) (String (hex_digit (n mod 16)) (hex_EncodeToString s'))
  end.

(** Four bytes, most significant first, of a length: [byte(n >> 24)] and so on. *)
Definition byte_of (n : Z) : ascii := ascii_of_N (Z.to_N (n mod 256)).
Definition be32 (n : Z) : string :=
  String (byte_of (Z.shiftr n 24)) (String (byte_of (Z.shiftr n 16))
    (String (byte_of (Z.shiftr n 8)) (String (byte_of n) ""))).

(** * JSON values *)

(** A number literal as Go can observe it: its value as an [int], when the
    literal is an integer in range, and whether it is zero as a [float64]. A
    literal out of the range of [float64] is not read at all. *)
Record json_number := { asInt : option Z; isZeroFloat : bool }.

Inductive json :=
  | JNull
  | JBool (b : bool)
  | JNum (n : json_number)
  | JStr (s : string)
  | JArr (l : list json)
  | JObj (l : list (string * json)).

(** [json.Unmarshal] and [json.Marshal] between text and values. *)
Class JsonText := {
  jsonParse : string → option json;
  jsonText : json → string
}.

(** The value of a struct field: the last key of the object that is the field's
    name, up to case. *)
Fixpoint field (name : string) (l : list (string * json)) : option json :=
  match l with
  | [] => None
  | (k, v) :: l' =>
      match field name l' with
      | Some v' => Some v'
      | None => if ToLower k ==s ToLower name then Some v else None
      end
  end.

(** The value of a map key, which is exact. *)
Fixpoint mapIndex (name : string) (l : list (string * json)) : option json :=
  match l with
  | [] => None
  | (k, v) :: l' =>
      match mapIndex name l' with
      | Some v' => Some v'
      | None => if k ==s name then Some v else None
      end
  end.

(** Decoding into a Go value of some type: [None] is a type mismatch. A null
    leaves the (zero) value of the target. *)
Definition decode_string (v : option json) : option string :=
  match v with
  | None | Some JNull => Some ""
  | Some (JStr s) => Some s
  | Some _ => None
  end.

Definition decode_int (v : option json) : option Z :=
  match v with
  | None | Some JNull => Some 0%Z
  | Some (JNum n) => asInt n
  | Some _ => None
  end.

(** A pointer: absent and null give nil. *)
Definition decode_ptr {A} (f : json → option A) (v : option json) : option (option A) :=
  match v with
  | None | Some JNull => Some None
  | Some j => match f j with Some a => Some (Some a) | None => None end
  end.

Definition decode_bool (v : json) : option bool :=
  match v with JBool b => Some b | _ => None end.

(** A slice: absent and null give nil. *)
Definition decode_slice {A} (f : json → option A) (v : option json) : option (list A) :=
  match v with
  | None | Some JNull => Some []
  | Some (JArr l) => mapM f l
  | Some _ => None
  end.

(** A struct: null leaves it, anything but an object is a mismatch. *)
Definition decode_struct {A} (f : list (string * json) → option A) (v : option json) : option A :=
  match v with
  | None | Some JNull => f []
  | Some (JObj l) => f l
  | Some _ => None
  end.
