(* ===== verification/Oci.v ===== *)
(** What the verification reads of an OCI signature (cosign's [oci.Signature]:
    each accessor is a network or parsing operation that may fail) and of the
    X.509 certificate in it. *)

From S2P Require Import Prelude.

(** The certificate functions of crypto/x509, cryptoutils and cosign. *)
Class Certs := {
  Certificate : Type;
  MarshalCertificateToPEM : Certificate → result string string;
  GetSubjectAlternateNames : Certificate → list string;
  GetIssuer : Certificate → string;
  GetCertExtensionGithubWorkflowTrigger : Certificate → string;
  GetExtensionGithubWorkflowSha : Certificate → string;
  GetCertExtensionGithubWorkflowName : Certificate → string;
  GetCertExtensionGithubWorkflowRepository : Certificate → string;
  GetCertExtensionGithubWorkflowRef : Certificate → string;
  RawSubject : Certificate → string;
  RawIssuer : Certificate → string;
  IsCA : Certificate → bool;
  (** [cryptoutils.UnmarshalCertificatesFromPEM] *)
  UnmarshalCertificatesFromPEM : string → result string (list Certificate)
}.

Section Signature.
Context `{C : Certs}.

Record Signature := {
  Annotations : result string (gmap string string);
  Base64Signature : result string string;
  Payload : result string string;
  SignatureBytes : result string string;
  Cert : result string (option Certificate);
  Digest : result string string
}.

End Signature.

Module ToyCerts.

(** A certificate is its subject; every one is self-signed. *)
#[export] Instance certs : Certs := {|
  Certificate := string;
  MarshalCertificateToPEM c := Ok c;
  GetSubjectAlternateNames c := [c];
  GetIssuer c := "issuer";
  GetCertExtensionGithubWorkflowTrigger _ := "";
  GetExtensionGithubWorkflowSha _ := "";
  GetCertExtensionGithubWorkflowName _ := "";
  GetCertExtensionGithubWorkflowRepository _ := "";
  GetCertExtensionGithubWorkflowRef _ := "";
  RawSubject c := c;
  RawIssuer c := c;
  IsCA _ := true;
  UnmarshalCertificatesFromPEM s := if s ==s "" then Err "no certificates" else Ok [s]
|}.

End ToyCerts.
