(* ===== verification/GM.v ===== *)
(** The GM (SM2-with-SM3) verifier (pkg/webhook/gm): the signer gate, the HSM
    client, the cache of positive answers and [Verify], the loop over an
    image's signatures.

    The HSM answers the [n]-th call of a run by the function [Do n], so it may
    answer the same request differently at different times; the number of calls
    made and the cache are the state [Verify] threads. *)

From S2P Require Import Prelude.
From S2P Require Import Names.
From S2P Require Import Encoding.
From S2P Require Import Oci.
From S2P Require Import WebhookTypes.

(** * cip.go, constants.go *)

Definition SigAnnAlg : string := "zjrcu.gm/alg".
Definition SigAnnSignature : string := "zjrcu.gm/signature".
Definition SigAnnUserID : string := "zjrcu.gm/user-id".
Definition SigAnnSignerAppID : string := "zjrcu.gm/signer-app-id".
Definition SigAnnSignerNodeID : string := "zjrcu.gm/signer-node-id".
Definition AlgorithmSM2SM3 : string := "SM2-with-SM3".
Definition DefaultRequestTimeoutMS : Z := 5000.

(** The element of a Go [map[string]string], the zero value if absent. *)
Definition annotation (m : gmap string string) (k : string) : string := default "" (m !! k).

Definition Validate (ref : option GMSignatureRef) : option string :=
  match ref with
  | None => Some "GMSignature is nil"
  | Some ref =>
      if VerifyURL ref ==s "" then Some "GMSignature.verifyUrl is required"
      else if TenantID ref ==s "" then Some "GMSignature.tenantId is required"
      else if AppID (Signer ref) ==s "" then Some "GMSignature.signer.appId is required"
      else if NodeID (Signer ref) ==s "" then Some "GMSignature.signer.nodeId is required"
      else None
  end.

Definition mismatch (ann got field want : string) : string :=
  "sig annotation " +:+ ann +:+ "=" +:+ quote got +:+ " does not match GMSignature.signer." +:+
  field +:+ "=" +:+ quote want.

Definition MatchSigner (ref : GMSignatureRef) (sigAnnotations : gmap string string) :
    option string :=
  let got := annotation sigAnnotations SigAnnAlg in
  if got !=s AlgorithmSM2SM3 then
    Some ("sig annotation " +:+ SigAnnAlg +:+ "=" +:+ quote got +:+
          " (expected " +:+ quote AlgorithmSM2SM3 +:+ ")") else
  let got := annotation sigAnnotations SigAnnSignerAppID in
  if got !=s AppID (Signer ref) then
    Some (mismatch SigAnnSignerAppID got "appId" (AppID (Signer ref))) else
  let got := annotation sigAnnotations SigAnnSignerNodeID in
  if got !=s NodeID (Signer ref) then
    Some (mismatch SigAnnSignerNodeID got "nodeId" (NodeID (Signer ref))) else
  let got := annotation sigAnnotations SigAnnUserID in
  if (UserID (Signer ref) !=s "") && (got !=s UserID (Signer ref)) then
    Some (mismatch SigAnnUserID got "userId" (UserID (Signer ref)))
  else None.

Lemma MatchSigner_None cipGM annotations :
  MatchSigner cipGM annotations = None ↔
  annotation annotations SigAnnAlg = AlgorithmSM2SM3 ∧
  annotation annotations SigAnnSignerAppID = AppID (Signer cipGM) ∧
  annotation annotations SigAnnSignerNodeID = NodeID (Signer cipGM) ∧
  (UserID (Signer cipGM) = "" ∨ annotation annotations SigAnnUserID = UserID (Signer cipGM)).
Proof.
  unfold MatchSigner.
  repeat match goal with
  | |- context [?a ==s ?b] => destruct (String.eqb_spec a b); cbn [negb andb]
  end; intuition congruence.
Qed.

(** * client.go *)

Record SignerTriple := { st_AppID : string; st_NodeID : string; st_UserID : string }.
#[export] Instance SignerTriple_eq_dec : EqDecision SignerTriple.
Proof. solve_decision. Defined.

Record VerifyRequest := {
  URLTemplate : string;
  vr_TenantID : string;
  vr_Signer : SignerTriple;
  SM3Hash : string;
  Signature_ : string;
  TimeoutMS : Z
}.

(** [strings.NewReplacer("{tenantId}", t, "{appId}", a).Replace]: at each
    position the first pattern that occurs there is replaced, and what replaces
    it is not looked at again. *)
Fixpoint substitute (skip : nat) (s tenantId appId : string) : string :=
  match s with
  | EmptyString => ""
  | String c s' =>
      match skip with
      | S k => substitute k s' tenantId appId
      | O =>
          if HasPrefix s "{tenantId}" then tenantId +:+ substitute 9 s' tenantId appId
          else if HasPrefix s "{appId}" then appId +:+ substitute 6 s' tenantId appId
          else String c (substitute 0 s' tenantId appId)
      end
  end.

(** [time.Duration(ms) * time.Millisecond], a wrapping int64 product. *)
Definition wrap64 (x : Z) : Z := (x + 2 ^ 63) mod 2 ^ 64 - 2 ^ 63.
Definition Millisecond : Z := 1000000.
Definition effectiveTimeout (TimeoutMS : Z) : Z :=
  let timeout := wrap64 (TimeoutMS * Millisecond) in
  if (timeout <=? 0)%Z then DefaultRequestTimeoutMS * Millisecond else timeout.

Lemma wrap64_id x : (- 2 ^ 63 ≤ x < 2 ^ 63)%Z → wrap64 x = x.
Proof. intros H. unfold wrap64. rewrite Z.mod_small by lia. lia. Qed.

(** Every HSM call has a deadline: the timeout in force is positive and an
    int64, whatever the policy's field holds; it is the requested number of
    milliseconds while that fits an int64 of nanoseconds, and 5 seconds when the
    field is zero or (not too) negative. *)
Theorem effectiveTimeout_bounds (ms : Z) :
  (0 < effectiveTimeout ms < 2 ^ 63)%Z ∧
  ((0 < ms ≤ 9223372036854)%Z → effectiveTimeout ms = (ms * Millisecond)%Z) ∧
  ((-9223372036854 ≤ ms ≤ 0)%Z → effectiveTimeout ms = 5000000000%Z).
Proof.
  unfold effectiveTimeout, Millisecond, DefaultRequestTimeoutMS. split; [|split].
  - pose proof (Z.mod_pos_bound (ms * 1000000 + 2 ^ 63) (2 ^ 64)) as Hb. unfold wrap64.
    destruct (Z.leb_spec ((ms * 1000000 + 2 ^ 63) mod 2 ^ 64 - 2 ^ 63) 0); lia.
  - intros Hm. rewrite wrap64_id by lia. destruct (Z.leb_spec (ms * 1000000) 0); lia.
  - intros Hm. rewrite wrap64_id by lia. destruct (Z.leb_spec (ms * 1000000) 0); lia.
Qed.

Lemma effectiveTimeout_bounds_witness :
  effectiveTimeout 3000 = 3000000000%Z ∧ effectiveTimeout (-1) = 5000000000%Z.
Proof.
  destruct (effectiveTimeout_bounds 3000) as (_ & H1 & _).
  destruct (effectiveTimeout_bounds (-1)) as (_ & _ & H2).
  split; [rewrite H1; [reflexivity|lia]|apply H2; lia].
Defined.

Record HTTPRequest := {
  url : string;
  body : json;
  header_TenantId : string;
  timeout : Z
}.

(** What the round trip gives: the error of [Do] or of reading the body, or the
    status and the body. *)
Inductive HTTPResponse :=
  | DoError (err : string)
  | ReadError (err : string)
  | Response (StatusCode : Z) (respBody : string).

Definition truncate (s : string) (max : nat) : string :=
  if (String.length s <=? max)%nat then s else String.substring 0 max s +:+ "...".

Section Client.
Context `{J : JsonText}.

(** [http.NewRequestWithContext]'s check of the URL. *)
Variable newRequestError : string → option string.

(** The body; [json.Marshal] writes the keys of a map in order. *)
Definition requestBody (req : VerifyRequest) : json :=
  JObj [("requestData", JObj (
    [("appId", JStr (st_AppID (vr_Signer req)));
     ("data", JStr (Base64.EncodeToString (SM3Hash req)));
     ("nodeId", JStr (st_NodeID (vr_Signer req)));
     ("signature", JStr (Base64.EncodeToString (Signature_ req)))] ++
    (if st_UserID (vr_Signer req) !=s "" then [("userId", JStr (st_UserID (vr_Signer req)))]
     else [])))].

(** The struct the response is decoded into: code, message and result. *)
Definition decode_response (j : json) : option (Z * string * list (string * json)) :=
  decode_struct (λ l,
    code ← decode_int (field "code" l);
    message ← decode_string (field "message" l);
    res ← decode_struct Some (field "result" l);
    Some (code, message, res)) (Some j).

Definition interpretResult (res : list (string * json)) : result string bool :=
  match mapIndex "verified" res with
  | Some (JBool v) => Ok v
  | _ =>
      match mapIndex "success" res with
      | Some (JNum n) => Ok (isZeroFloat n)
      | _ => Ok true
      end
  end.

Definition verifyRequest_http (req : VerifyRequest) : HTTPRequest :=
  {| url := substitute 0 (URLTemplate req) (vr_TenantID req) (st_AppID (vr_Signer req));
     body := requestBody req;
     header_TenantId := vr_TenantID req;
     timeout := effectiveTimeout (TimeoutMS req) |}.

Definition SM2Verify (Do : HTTPRequest → HTTPResponse) (req : VerifyRequest) :
    result string bool :=
  let httpReq := verifyRequest_http req in
  match newRequestError (url httpReq) with
  | Some err => Err ("build sm2/verify request: " +:+ err)
  | None =>
  match Do httpReq with
  | DoError err => Err ("sm2/verify HTTP call: " +:+ err)
  | ReadError err => Err ("read sm2/verify response: " +:+ err)
  | Response StatusCode respBody =>
  if negb (StatusCode =? 200)%Z then
    Err ("sm2/verify HTTP " +:+ pretty StatusCode +:+ ": " +:+ truncate respBody 200) else
  match (j ← jsonParse respBody; decode_response j) with
  | None => Err "decode sm2/verify response"
  | Some (code, message, res) =>
      if negb (code =? 0)%Z then
        Err ("sm2/verify rejected: code=" +:+ pretty code +:+ " message=" +:+ message)
      else interpretResult res
  end end end.

Lemma SM2Verify_true Do req :
  SM2Verify Do req = Ok true ↔
  newRequestError (url (verifyRequest_http req)) = None ∧
  ∃ respBody j message res,
    Do (verifyRequest_http req) = Response 200 respBody ∧ jsonParse respBody = Some j ∧
    decode_response j = Some (0%Z, message, res) ∧ interpretResult res = Ok true.
Proof.
  unfold SM2Verify. cbv zeta. split.
  - destruct (newRequestError _); [done|]. destruct (Do _) as [|?|code respBody] eqn:Hd; [done..|].
    destruct (Z.eqb_spec code 200) as [->|]; [|done]. cbn [negb].
    destruct (jsonParse respBody) as [j|] eqn:Hj; [|done]. cbn [mbind option_bind].
    destruct (decode_response j) as [[[c m] r]|] eqn:Hr; [|done].
    destruct (Z.eqb_spec c 0) as [->|]; [|done]. cbn [negb]. intros Hi.
    split; [done|]. by exists respBody, j, m, r.
  - intros (-> & respBody & j & m & r & -> & Hj & Hr & Hi). cbn [Z.eqb Pos.eqb negb].
    rewrite Hj. cbn [mbind option_bind]. rewrite Hr. cbn [Z.eqb negb]. exact Hi.
Qed.

(** Exactly when the HSM's answer counts as verified: the request could be
    built, the status is 200, the body decodes with code 0, and the result says
    [verified: true], or it says nothing boolean under [verified] and no nonzero
    number under [success]. Every transport error, other status, undecodable
    body or business error is not a success. *)
Theorem SM2Verify_spec (Do : HTTPRequest → HTTPResponse) (req : VerifyRequest) :
  SM2Verify Do req = Ok true ↔
  newRequestError (url (verifyRequest_http req)) = None ∧
  ∃ respBody j message res,
    Do (verifyRequest_http req) = Response 200 respBody ∧ jsonParse respBody = Some j ∧
    decode_response j = Some (0%Z, message, res) ∧
    (mapIndex "verified" res = Some (JBool true) ∨
     ¬ (∃ b, mapIndex "verified" res = Some (JBool b)) ∧
     ¬ (∃ n, mapIndex "success" res = Some (JNum n) ∧ isZeroFloat n = false)).
Proof.
  rewrite SM2Verify_true. apply and_iff_compat_l.
  do 4 (apply exist_proper; intros ?). do 3 apply and_iff_compat_l. unfold interpretResult.
  match goal with |- context [mapIndex "verified" ?r] => generalize (mapIndex "verified" r) as v,
    (mapIndex "success" r) as sc end.
  intros v sc. split.
  - destruct v as [[|b|n|t|l|l]|]; try (intros [= ->]; by left); intros Hs; right;
      (split; [by intros [? ?]|intros (n' & -> & Hz); congruence]).
  - intros [->|[Hv Hs]]; [done|].
    destruct v as [[|b|n|t|l|l]|]; try (by destruct Hv; eexists);
      (destruct sc as [[| |n'| | |]|]; try done; destruct (isZeroFloat n') eqn:Hz; [done|];
       destruct Hs; by eexists).
Qed.

End Client.

(** * verify.go: reading a signature *)

Section Signatures.
Context `{N : NamePkg} `{J : JsonText} `{C : Certs}.

Definition digestString (ref : Reference) : string :=
  match refKind ref with DigestRef d => d | TagRef => "" end.

Definition decode_manifestDigest (j : json) : option string :=
  decode_struct (λ p,
    decode_struct (λ critical,
      decode_struct (λ image, decode_string (field "docker-manifest-digest" image))
        (field "image" critical))
      (field "critical" p)) (Some j).

Definition extractDockerManifestDigest (payload : string) : result string string :=
  match (j ← jsonParse payload; decode_manifestDigest j) with
  | None => Err "parse Simple Signing payload"
  | Some d => if d ==s "" then Err "payload missing critical.image.docker-manifest-digest" else Ok d
  end.

Definition verifyClaim (payload expectedDigest : string) : option string :=
  match extractDockerManifestDigest payload with
  | Err err => Some err
  | Ok embedded =>
      if embedded !=s expectedDigest then
        Some ("payload digest " +:+ embedded +:+ " != image digest " +:+ expectedDigest +:+
              " (possible replay)")
      else None
  end.

(** Step (b): the signature bytes, from the annotation or from cosign. *)
Definition signatureBytes (annotations : gmap string string) (sig : Signature) :
    result string string :=
  let missing := Err ("missing " +:+ SigAnnSignature +:+ " annotation and base64 sig") in
  let sigB64 := annotation annotations SigAnnSignature in
  let sigB64 :=
    if sigB64 ==s "" then
      match Base64Signature sig with
      | Ok b => if b ==s "" then missing else Ok b
      | Err _ => missing
      end
    else Ok sigB64 in
  match sigB64 with
  | Err err => Err err
  | Ok b => map_err (λ err, "decode base64 signature: " +:+ err) (Base64.DecodeString b)
  end.

(** Steps (a) to (c): the signature bytes and the payload, or the reason to skip
    the signature. *)
Definition checkSignature (cipGM : GMSignatureRef) (imageDigest : string) (sig : Signature) :
    result string (string * string) :=
  match Annotations sig with
  | Err err => Err ("read annotations: " +:+ err)
  | Ok annotations =>
  match MatchSigner cipGM annotations with
  | Some err => Err ("signer mismatch: " +:+ err)
  | None =>
  match signatureBytes annotations sig with
  | Err err => Err err
  | Ok sigBytes =>
  match Payload sig with
  | Err err => Err ("read payload: " +:+ err)
  | Ok payload =>
      if imageDigest !=s "" then
        match verifyClaim payload imageDigest with
        | Some err => Err ("claim verify: " +:+ err)
        | None => Ok (sigBytes, payload)
        end
      else Ok (sigBytes, payload)
  end end end end.

(** The signature claims the signer and the image the policy wants. *)
Definition authentic (cipGM : GMSignatureRef) (ref : Reference) (sig : Signature)
    (sigBytes payload : string) : Prop :=
  ∃ annotations,
    Annotations sig = Ok annotations ∧
    annotation annotations SigAnnAlg = AlgorithmSM2SM3 ∧
    annotation annotations SigAnnSignerAppID = AppID (Signer cipGM) ∧
    annotation annotations SigAnnSignerNodeID = NodeID (Signer cipGM) ∧
    (UserID (Signer cipGM) = "" ∨ annotation annotations SigAnnUserID = UserID (Signer cipGM)) ∧
    signatureBytes annotations sig = Ok sigBytes ∧
    Payload sig = Ok payload ∧
    (digestString ref ≠ "" → extractDockerManifestDigest payload = Ok (digestString ref)).

Lemma verifyClaim_None payload d :
  verifyClaim payload d = None ↔ extractDockerManifestDigest payload = Ok d.
Proof.
  unfold verifyClaim. destruct (extractDockerManifestDigest payload) as [e|]; [|done].
  destruct (String.eqb_spec e d); cbn; intuition congruence.
Qed.

Lemma checkSignature_Ok cipGM ref sig sigBytes payload :
  checkSignature cipGM (digestString ref) sig = Ok (sigBytes, payload) ↔
  authentic cipGM ref sig sigBytes payload.
Proof.
  unfold checkSignature, authentic. split.
  - destruct (Annotations sig) as [ann|]; [|done].
    destruct (MatchSigner cipGM ann) eqn:Hm; [done|]. apply MatchSigner_None in Hm.
    destruct (signatureBytes ann sig) as [b|] eqn:Hb; [|done].
    destruct (Payload sig) as [p|]; [|done].
    destruct (String.eqb_spec (digestString ref) "") as [Hd|Hd]; cbn.
    + intros [= -> ->]. exists ann. intuition congruence.
    + destruct (verifyClaim p _) eqn:Hc; [done|]. apply verifyClaim_None in Hc.
      intros [= -> ->]. exists ann. intuition congruence.
  - intros (ann & -> & H1 & H2 & H3 & H4 & Hb & -> & Hd).
    rewrite (proj2 (MatchSigner_None cipGM ann)), Hb by done.
    destruct (String.eqb_spec (digestString ref) ""); cbn; [done|].
    by rewrite (proj2 (verifyClaim_None payload _)) by auto.
Qed.

End Signatures.

(** * cache.go *)

(** The expirable LRU of hashicorp/golang-lru: the keys an instance holds, of
    which [Get] at some time finds a part (entries expire), and [Add] makes room
    by evicting. *)
Class LRU := {
  lru : Type;
  NewLRU : Z → Z → lru;
  lru_Get : nat → lru → string → bool * lru;
  lru_Add : nat → lru → string → lru;
  lru_keys : lru → gset string;
  NewLRU_keys capacity ttl : lru_keys (NewLRU capacity ttl) = ∅;
  lru_Get_keys t c k : lru_keys (lru_Get t c k).2 ⊆ lru_keys c;
  lru_Get_hit t c k : (lru_Get t c k).1 = true → k ∈ lru_keys c;
  lru_Add_keys t c k : lru_keys (lru_Add t c k) ⊆ {[ k ]} ∪ lru_keys c
}.

Section CacheAndVerify.
Context `{N : NamePkg} `{J : JsonText} `{C : Certs} `{L : LRU}.

(** [sha256.Sum256] and [sm3.Sum] on byte strings. *)
Variable sha256 : string → string.
Variable SM3 : string → string.
Variable newRequestError : string → option string.

(** [c = None] is a disabled cache; the counters are uint64. *)
Record Cache := { c : option lru; hits : Z; misses : Z }.

Definition NewCache (capacity defaultTTL : Z) : Cache :=
  if (capacity <=? 0)%Z || (defaultTTL <=? 0)%Z then {| c := None; hits := 0; misses := 0 |}
  else {| c := Some (NewLRU capacity defaultTTL); hits := 0; misses := 0 |}.

Definition writeLen (b : string) : string := be32 (Z.of_nat (String.length b)) +:+ b.

(** What [cacheKey] feeds the hash. *)
Definition cacheKeyPreimage (sig : string) (signer : SignerTriple) : string :=
  sig +:+ writeLen (st_AppID signer) +:+ writeLen (st_NodeID signer) +:+ writeLen (st_UserID signer).
Definition cacheKey (sig : string) (signer : SignerTriple) : string :=
  hex_EncodeToString (sha256 (cacheKeyPreimage sig signer)).

Definition add64 (x : Z) : Z := (x + 1) mod 2 ^ 64.

(** The methods on a [*Cache], which may be nil. *)
Definition Lookup (now : nat) (cache : option Cache) (sig : string) (signer : SignerTriple) :
    bool * option Cache :=
  match cache with
  | None => (false, None)
  | Some cache =>
      match c cache with
      | None => (false, Some {| c := None; hits := hits cache; misses := add64 (misses cache) |})
      | Some l =>
          let '(ok, l') := lru_Get now l (cacheKey sig signer) in
          if ok then (true, Some {| c := Some l'; hits := add64 (hits cache); misses := misses cache |})
          else (false, Some {| c := Some l'; hits := hits cache; misses := add64 (misses cache) |})
      end
  end.

Definition Store (now : nat) (cache : option Cache) (sig : string) (signer : SignerTriple) :
    option Cache :=
  match cache with
  | None => None
  | Some cache =>
      match c cache with
      | None => Some cache
      | Some l => Some {| c := Some (lru_Add now l (cacheKey sig signer));
                          hits := hits cache; misses := misses cache |}
      end
  end.

Definition Stats (cache : option Cache) : Z * Z :=
  match cache with None => (0, 0)%Z | Some cache => (hits cache, misses cache) end.

(** The keys the cache holds. *)
Definition cached (cache : option Cache) : gset string :=
  match cache with Some {| c := Some l |} => lru_keys l | _ => ∅ end.

(** ** What the key identifies *)

Lemma string_list_inj (a b : string) :
  String.list_ascii_of_string a = String.list_ascii_of_string b → a = b.
Proof.
  intros H. apply (f_equal String.string_of_list_ascii) in H.
  by rewrite !String.string_of_list_ascii_of_string in H.
Qed.

Lemma list_ascii_app (a b : string) :
  String.list_ascii_of_string (a +:+ b) =
  String.list_ascii_of_string a ++ String.list_ascii_of_string b.
Proof. induction a; cbn; [done|]. by rewrite <-IHa. Qed.

Lemma length_list_ascii (a : string) : length (String.list_ascii_of_string a) = String.length a.
Proof. induction a; cbn; lia. Qed.

(** No NUL byte, and short enough for the length to take one byte. *)
Definition shortText (l : list ascii) : Prop := (zero ∉ l) ∧ (length l < 256)%nat.

Definition framed (l : list ascii) : list ascii :=
  [zero; zero; zero; ascii_of_nat (length l)] ++ l.

Lemma writeLen_framed b : shortText (String.list_ascii_of_string b) →
  String.list_ascii_of_string (writeLen b) = framed (String.list_ascii_of_string b).
Proof.
  intros [_ Hl]. rewrite length_list_ascii in Hl. unfold writeLen, framed.
  rewrite list_ascii_app, length_list_ascii.
  f_equal. unfold be32, byte_of. cbn [String.list_ascii_of_string].
  rewrite !Z.shiftr_div_pow2 by lia.
  rewrite !(Z.div_small (Z.of_nat _)) by lia.
  rewrite Z.mod_0_l by lia. rewrite Z.mod_small by lia. cbn [Z.to_N ascii_of_N].
  do 3 f_equal. unfold ascii_of_nat. do 2 f_equal. lia.
Qed.

Lemma split_at_zero (l1 l2 r1 r2 : list ascii) : zero ∉ l1 → zero ∉ l2 →
  l1 ++ zero :: r1 = l2 ++ zero :: r2 → l1 = l2 ∧ r1 = r2.
Proof.
  revert l2. induction l1 as [|x l1 IH]; intros [|y l2] H1 H2; cbn.
  - by intros [= ->].
  - intros [= <- _]. destruct H2. by left.
  - intros [= -> _]. destruct H1. by left.
  - intros [= -> H]. destruct (IH l2) as [-> ->]; [set_solver..|done|done].
Qed.

Lemma length_byte_zero (l : list ascii) :
  (length l < 256)%nat → l ≠ [] → ascii_of_nat (length l) ≠ zero.
Proof.
  intros Hl Hn He. apply (f_equal nat_of_ascii) in He.
  rewrite nat_ascii_embedding in He by done. by destruct l.
Qed.

Lemma reverse_framed l c : reverse (l ++ framed c) =
  reverse c ++ ascii_of_nat (length c) :: zero :: zero :: zero :: reverse l.
Proof. unfold framed. rewrite reverse_app, reverse_app, <-app_assoc. by rewrite !reverse_cons. Qed.

(** Read backwards, a framed text ends where its first NUL byte is. *)
Lemma framed_inj (l1 l2 c1 c2 : list ascii) : shortText c1 → shortText c2 →
  l1 ++ framed c1 = l2 ++ framed c2 → l1 = l2 ∧ c1 = c2.
Proof.
  intros [Hz1 Hs1] [Hz2 Hs2] H. apply (f_equal reverse) in H. rewrite !reverse_framed in H.
  assert (reverse l1 = reverse l2 ∧ reverse c1 = reverse c2) as [Hl Hc];
    [|by apply (inj reverse) in Hl, Hc].
  rewrite <-elem_of_reverse in Hz1, Hz2.
  destruct (decide (c1 = [])) as [->|Hn1], (decide (c2 = [])) as [->|Hn2].
  - by simplify_eq/=.
  - exfalso. destruct (reverse c2) as [|y c] eqn:Hr; [by apply Hn2, (inj reverse)|].
    injection H as Hy _. apply Hz2. rewrite <-Hy. by left.
  - exfalso. destruct (reverse c1) as [|y c] eqn:Hr; [by apply Hn1, (inj reverse)|].
    injection H as Hy _. apply Hz1. rewrite Hy. by left.
  - pose proof (length_byte_zero _ Hs1 Hn1). pose proof (length_byte_zero _ Hs2 Hn2).
    rewrite !(cons_middle (ascii_of_nat _)), !app_assoc in H.
    apply split_at_zero in H as [Hc Hr]; [|set_solver..].
    apply app_inj_tail in Hc as [? _]. by simplify_eq.
Qed.

Lemma be32_inj m n : (0 ≤ m < 2 ^ 32)%Z → (0 ≤ n < 2 ^ 32)%Z → be32 m = be32 n → m = n.
Proof.
  intros Hm Hn. unfold be32. intros [= H1 H2 H3 H4].
  assert (∀ a b, byte_of a = byte_of b → (a mod 256 = b mod 256)%Z) as Hb.
  { unfold byte_of. intros a b H. apply (f_equal N_of_ascii) in H.
    pose proof (Z.mod_pos_bound a 256). pose proof (Z.mod_pos_bound b 256).
    rewrite !N_ascii_embedding in H by (change 256%N with (Z.to_N 256); apply Z2N.inj_lt; lia). lia. }
  apply Hb in H1, H2, H3, H4. rewrite !Z.shiftr_div_pow2 in H1, H2, H3 by lia.
  change (2 ^ 24)%Z with 16777216%Z in *. change (2 ^ 16)%Z with 65536%Z in *.
  change (2 ^ 8)%Z with 256%Z in *. change (2 ^ 32)%Z with 4294967296%Z in *.
  Z.div_mod_to_equations. lia.
Qed.

Lemma append_inj (a b c d : string) :
  String.length a = String.length c → (a +:+ b)%string = (c +:+ d)%string → a = c ∧ b = d.
Proof.
  revert c. induction a as [|x a IH]; intros [|y c]; cbn; intros Hl; try done.
  intros [= -> H]. destruct (IH c) as [-> ->]; [lia|done|done].
Qed.

Lemma writeLen_inj (b1 b2 r1 r2 : string) :
  (Z.of_nat (String.length b1) < 2 ^ 32)%Z → (Z.of_nat (String.length b2) < 2 ^ 32)%Z →
  (writeLen b1 +:+ r1)%string = (writeLen b2 +:+ r2)%string → b1 = b2 ∧ r1 = r2.
Proof.
  intros H1 H2. unfold writeLen. rewrite !string_app_assoc. intros H.
  apply append_inj in H as [Hn H]; [|done]. apply be32_inj in Hn; [|lia..].
  apply append_inj in H; [done|lia].
Qed.

Definition boundedTriple (t : SignerTriple) : Prop :=
  Forall (λ b, Z.of_nat (String.length b) < 2 ^ 32)%Z [st_AppID t; st_NodeID t; st_UserID t].
Definition shortTriple (t : SignerTriple) : Prop :=
  Forall (λ b, shortText (String.list_ascii_of_string b)) [st_AppID t; st_NodeID t; st_UserID t].

(** What is hashed into the cache key identifies the signature bytes and the
    signer, when the signatures have one length and the identifiers are shorter
    than 2^32 bytes, or, for signatures of any lengths, when the identifiers are
    shorter than 256 bytes and contain no NUL. *)
Theorem cacheKeyPreimage_injective (sig1 sig2 : string) (t1 t2 : SignerTriple)
    (Ht : String.length sig1 = String.length sig2 ∧ boundedTriple t1 ∧ boundedTriple t2 ∨
          shortTriple t1 ∧ shortTriple t2)
    (Heq : cacheKeyPreimage sig1 t1 = cacheKeyPreimage sig2 t2) :
  sig1 = sig2 ∧ t1 = t2.
Proof.
  unfold cacheKeyPreimage in Heq. destruct t1 as [a1 n1 u1], t2 as [a2 n2 u2].
  destruct Ht as [(Hl & H1 & H2)|[H1 H2]]; unfold boundedTriple, shortTriple in H1, H2;
    cbn [st_AppID st_NodeID st_UserID] in *;
    rewrite !Forall_cons in H1, H2; destruct H1 as (? & ? & ? & _), H2 as (? & ? & ? & _).
  - apply append_inj in Heq as [-> Heq]; [|done].
    apply writeLen_inj in Heq as [-> Heq]; [|done..].
    apply writeLen_inj in Heq as [-> Heq]; [|done..].
    apply (f_equal (λ s, s +:+ "")) in Heq.
    by apply writeLen_inj in Heq as [-> _].
  - apply (f_equal String.list_ascii_of_string) in Heq.
    rewrite !list_ascii_app, !writeLen_framed, !app_assoc in Heq by done.
    apply framed_inj in Heq as [Heq Hu]; [|done..].
    apply framed_inj in Heq as [Heq Hn]; [|done..].
    apply framed_inj in Heq as [Heq Ha]; [|done..].
    by apply string_list_inj in Heq, Hu, Hn, Ha; subst.
Qed.

(** * verify.go: the loop *)

(** What [Verify] threads: the number of HSM calls made, and the shared cache. *)
Record VerifyState := { calls : nat; cache : option Cache }.

(** [ctx]'s client: how the HSM answers the [n]-th call. *)
Definition HSM : Type := nat → HTTPRequest → HTTPResponse.

Definition signerTriple (cipGM : GMSignatureRef) : SignerTriple :=
  {| st_AppID := AppID (Signer cipGM); st_NodeID := NodeID (Signer cipGM);
     st_UserID := UserID (Signer cipGM) |}.

Definition hsmRequest (cipGM : GMSignatureRef) (sigBytes payload : string) : VerifyRequest :=
  {| URLTemplate := VerifyURL cipGM; vr_TenantID := TenantID cipGM;
     vr_Signer := signerTriple cipGM; SM3Hash := SM3 payload; Signature_ := sigBytes;
     TimeoutMS := RequestTimeoutMs cipGM |}.

(** Steps (d) to (f). *)
Definition verifyBytes (hsm : HSM) (cipGM : GMSignatureRef) (sigBytes payload : string)
    (st : VerifyState) : option string * VerifyState :=
  let signer := signerTriple cipGM in
  let '(hit, cache) := Lookup (calls st) (cache st) sigBytes signer in
  if hit then (None, {| calls := calls st; cache := cache |}) else
  let answer := SM2Verify newRequestError (hsm (calls st)) (hsmRequest cipGM sigBytes payload) in
  let st := {| calls := S (calls st); cache := cache |} in
  match answer with
  | Err err => (Some ("HSM call: " +:+ err), st)
  | Ok false => (Some "HSM returned not-verified", st)
  | Ok true => (None, {| calls := calls st; cache := Store (calls st) cache sigBytes signer |})
  end.

(** One iteration: [None] verified, [Some] the error recorded in [lastErr]. *)
Definition verifyOne (hsm : HSM) (cipGM : GMSignatureRef) (imageDigest : string) (i : nat)
    (sig : Signature) (st : VerifyState) : option string * VerifyState :=
  let prefix := "sig[" +:+ pretty i +:+ "] " in
  match checkSignature cipGM imageDigest sig with
  | Err err => (Some (prefix +:+ err), st)
  | Ok (sigBytes, payload) =>
      match verifyBytes hsm cipGM sigBytes payload st with
      | (Some err, st) => (Some (prefix +:+ err), st)
      | (None, st) => (None, st)
      end
  end.

Fixpoint verifyLoop (hsm : HSM) (cipGM : GMSignatureRef) (imageDigest : string)
    (sigs : list (nat * Signature)) (verified : list Signature) (lastErr : option string)
    (st : VerifyState) : list Signature * option string * VerifyState :=
  match sigs with
  | [] => (verified, lastErr, st)
  | (i, sig) :: rest =>
      match verifyOne hsm cipGM imageDigest i sig st with
      | (Some err, st) => verifyLoop hsm cipGM imageDigest rest verified (Some err) st
      | (None, st) => verifyLoop hsm cipGM imageDigest rest (verified ++ [sig]) lastErr st
      end
  end.

Definition missingClient : string :=
  "GM verifier: HSM Client missing from admission request context " +:+
  "(webhook packaging/deploy issue; try `kubectl -n cosign-system rollout restart deploy/webhook`)".

(** [fetchSignatures(ref, checkOpts)], cosign's discovery, gives [fetched]. *)
Definition Verify (client : option HSM) (ref : Reference) (cipGM : option GMSignatureRef)
    (fetched : result string (list Signature)) (st : VerifyState) :
    result string (list Signature) * VerifyState :=
  match Validate cipGM, cipGM with
  | Some err, _ => (Err ("CIP misconfigured: " +:+ err), st)
  | None, None => (Err "CIP misconfigured: GMSignature is nil", st)
  | None, Some cipGM =>
  match client with
  | None => (Err missingClient, st)
  | Some hsm =>
  match fetched with
  | Err err => (Err ("fetch signatures for " +:+ Name ref +:+ ": " +:+ err), st)
  | Ok [] => (Err ("no signatures found for " +:+ Name ref), st)
  | Ok sigs =>
      let '(verified, lastErr, st) :=
        verifyLoop hsm cipGM (digestString ref) (indexed sigs) [] None st in
      match verified, lastErr with
      | [], Some err =>
          (Err ("no GM signature verified for " +:+ Name ref +:+ "; last error: " +:+ err), st)
      | [], None => (Err ("no GM signature verified for " +:+ Name ref), st)
      | _, _ => (Ok verified, st)
      end
  end end end.

(** * What the verifier guarantees *)

(** The HSM verified [sigBytes] over [payload] at some call of [lo, hi). *)
Definition hsmVerified (hsm : HSM) (cipGM : GMSignatureRef) (lo hi : nat)
    (sigBytes payload : string) : Prop :=
  ∃ n, (lo ≤ n < hi)%nat ∧
       SM2Verify newRequestError (hsm n) (hsmRequest cipGM sigBytes payload) = Ok true.

(** A key that was in the cache, or that of one of the signatures [acc], verified
    since: the HSM vouched for its bytes over its own payload. *)
Definition trusted (hsm : HSM) (cipGM : GMSignatureRef) (ref : Reference) (acc : list Signature)
    (st0 st : VerifyState) (k : string) : Prop :=
  k ∈ cached (cache st0) ∨
  ∃ sig sigBytes payload, sig ∈ acc ∧ authentic cipGM ref sig sigBytes payload ∧
    k = cacheKey sigBytes (signerTriple cipGM) ∧
    hsmVerified hsm cipGM (calls st0) (calls st) sigBytes payload.

Lemma cached_Lookup now ca sb signer : cached (Lookup now ca sb signer).2 ⊆ cached ca.
Proof.
  destruct ca as [[[l|] h m]|]; cbn; [|done..].
  pose proof (lru_Get_keys now l (cacheKey sb signer)) as Hk.
  by destruct (lru_Get now l _) as [[] l'].
Qed.

Lemma Lookup_hit now ca sb signer :
  (Lookup now ca sb signer).1 = true → cacheKey sb signer ∈ cached ca.
Proof.
  destruct ca as [[[l|] h m]|]; cbn; [|done..].
  pose proof (lru_Get_hit now l (cacheKey sb signer)) as Hk.
  destruct (lru_Get now l _) as [[] l']; cbn in *; [|done]. auto.
Qed.

Lemma cached_Store now ca sb signer :
  cached (Store now ca sb signer) ⊆ {[ cacheKey sb signer ]} ∪ cached ca.
Proof.
  destruct ca as [[[l|] h m]|]; cbn; [apply lru_Add_keys|set_solver..].
Qed.

Lemma hsmVerified_mono hsm cipGM lo hi hi' sb p : (hi ≤ hi')%nat →
  hsmVerified hsm cipGM lo hi sb p → hsmVerified hsm cipGM lo hi' sb p.
Proof. intros Hle (n & ? & ?). exists n. split; [lia|done]. Qed.

Lemma trusted_mono hsm cipGM ref acc acc' st0 st st' k :
  (calls st ≤ calls st')%nat → acc ⊆ acc' →
  trusted hsm cipGM ref acc st0 st k → trusted hsm cipGM ref acc' st0 st' k.
Proof.
  intros Hle Hacc [?|(sig & sb & p & ? & ? & -> & ?)]; [by left|]. right. exists sig, sb, p.
  split_and!; [by apply Hacc|done|done|by eapply hsmVerified_mono].
Qed.

Definition trustedCache (hsm : HSM) (cipGM : GMSignatureRef) (ref : Reference) (acc : list Signature)
    (st0 st : VerifyState) : Prop :=
  (calls st0 ≤ calls st)%nat ∧ ∀ k, k ∈ cached (cache st) → trusted hsm cipGM ref acc st0 st k.

(** What stands behind a signature that is returned. *)
Definition backed (hsm : HSM) (cipGM : GMSignatureRef) (ref : Reference) (acc : list Signature)
    (st0 st : VerifyState) (sig : Signature) : Prop :=
  ∃ sb p, authentic cipGM ref sig sb p ∧
    (hsmVerified hsm cipGM (calls st0) (calls st) sb p ∨
     trusted hsm cipGM ref acc st0 st (cacheKey sb (signerTriple cipGM))).

Lemma backed_mono hsm cipGM ref acc acc' st0 st st' sig :
  (calls st ≤ calls st')%nat → acc ⊆ acc' →
  backed hsm cipGM ref acc st0 st sig → backed hsm cipGM ref acc' st0 st' sig.
Proof.
  intros Hle Hacc (sb & p & Ha & H). exists sb, p. split; [done|].
  destruct H as [H|H]; [left; by eapply hsmVerified_mono|right; by eapply trusted_mono].
Qed.

Lemma verifyBytes_inv hsm cipGM ref acc sig sb p st0 st r st' : authentic cipGM ref sig sb p →
  trustedCache hsm cipGM ref acc st0 st → verifyBytes hsm cipGM sb p st = (r, st') →
  (calls st ≤ calls st')%nat ∧
  match r with
  | Some _ => trustedCache hsm cipGM ref acc st0 st'
  | None => trustedCache hsm cipGM ref (acc ++ [sig]) st0 st' ∧ backed hsm cipGM ref acc st0 st' sig
  end.
Proof.
  intros Ha [Hle Hc]. unfold verifyBytes.
  pose proof (cached_Lookup (calls st) (cache st) sb (signerTriple cipGM)) as Hsub.
  pose proof (Lookup_hit (calls st) (cache st) sb (signerTriple cipGM)) as Hhit.
  destruct (Lookup _ _ _ _) as [hit ca]. cbn in Hsub, Hhit.
  assert (∀ k, k ∈ cached ca → trusted hsm cipGM ref acc st0 st k) as Hca by (intros; apply Hc; set_solver).
  assert (∀ acc' k st2, (calls st ≤ calls st2)%nat → acc ⊆ acc' → k ∈ cached ca → trusted hsm cipGM ref acc' st0 st2 k)
    as Hup by (intros; eapply trusted_mono; eauto).
  assert (acc ⊆ acc ++ [sig]) as Hacc by set_solver.
  destruct hit; cbn [calls cache].
  { intros [= <- <-]. split; [done|]. split; [by split; eauto|]. exists sb, p. split; [done|].
    right. cbn. eapply trusted_mono; [..|by apply Hc, Hhit]; done. }
  destruct (SM2Verify _ _ _) as [[]|err] eqn:Hs; intros [= <- <-]; (split; [cbn; lia|]).
  2,3: split; cbn; [lia|]; intros k Hk; apply Hup; [cbn; lia|done|done].
  assert (∀ ca', hsmVerified hsm cipGM (calls st0) (calls {| calls := S (calls st); cache := ca' |}) sb p) as Hk.
  { intros ca'. exists (calls st). cbn. split; [lia|done]. }
  split.
  - split; cbn; [lia|]. intros k [->%elem_of_singleton|?]%cached_Store%elem_of_union.
    + right. exists sig, sb, p. split_and!; [set_solver|done|done|apply Hk].
    + apply Hup; [cbn; lia|done|done].
  - exists sb, p. split; [done|]. left. apply Hk.
Qed.

Lemma verifyLoop_inv hsm cipGM ref st0 (sigs : list (nat * Signature)) acc e st acc' e' st' :
  trustedCache hsm cipGM ref acc st0 st →
  verifyLoop hsm cipGM (digestString ref) sigs acc e st = (acc', e', st') →
  trustedCache hsm cipGM ref acc' st0 st' ∧ (calls st ≤ calls st')%nat ∧
  ∃ new, acc' = acc ++ new ∧ new `sublist_of` sigs.*2 ∧
    ∀ sig, sig ∈ new → backed hsm cipGM ref acc' st0 st' sig.
Proof.
  revert acc e st. induction sigs as [|[i sig] sigs IH]; intros acc e st Hc; cbn.
  { intros [= <- <- <-]. split_and!; [done..|]. exists []. rewrite app_nil_r.
    split_and!; [done|constructor|]. by intros sig ?%not_elem_of_nil. }
  assert (∀ e1 st1, trustedCache hsm cipGM ref acc st0 st1 → (calls st ≤ calls st1)%nat →
    verifyLoop hsm cipGM (digestString ref) sigs acc e1 st1 = (acc', e', st') →
    trustedCache hsm cipGM ref acc' st0 st' ∧ (calls st ≤ calls st')%nat ∧
    ∃ new, acc' = acc ++ new ∧ new `sublist_of` sig :: sigs.*2 ∧
      ∀ sig, sig ∈ new → backed hsm cipGM ref acc' st0 st' sig) as Hskip.
  { intros e1 st1 Hc1 Hle (? & ? & new & ? & ? & ?)%IH; [|done]. split_and!; [done|lia|].
    exists new. split_and!; [done|by apply sublist_cons|done]. }
  unfold verifyOne. destruct (checkSignature _ _ _) as [[sb p]|err] eqn:Hs; [|by apply Hskip].
  destruct (verifyBytes hsm cipGM sb p st) as [r st1] eqn:Hv. apply checkSignature_Ok in Hs.
  apply (verifyBytes_inv _ _ ref acc sig _ _ st0) in Hv as [Hle Hr]; [|done..].
  destruct r as [err|]; [by apply Hskip|]. destruct Hr as [Hc1 Hb].
  intros (? & ? & new & -> & ? & Hnew)%IH; [|done]. split_and!; [done|lia|].
  exists (sig :: new). split_and!; [by rewrite <-app_assoc|by apply sublist_skip|].
  intros sig' [->|?]%elem_of_cons; [|auto]. eapply backed_mono; [| |exact Hb]; [lia|set_solver].
Qed.

Lemma Verify_loop hsm cipGM ref sigs st : Validate (Some cipGM) = None → sigs ≠ [] →
  Verify (Some hsm) ref (Some cipGM) (Ok sigs) st =
  let '(verified, lastErr, st) :=
    verifyLoop hsm cipGM (digestString ref) (indexed sigs) [] None st in
  match verified, lastErr with
  | [], Some err =>
      (Err ("no GM signature verified for " +:+ Name ref +:+ "; last error: " +:+ err), st)
  | [], None => (Err ("no GM signature verified for " +:+ Name ref), st)
  | _, _ => (Ok verified, st)
  end.
Proof. unfold Verify. intros ->. by destruct sigs. Qed.

(** Every run of [Verify] either stops before the loop, changing nothing, or is
    a run of the loop. *)
Lemma Verify_cases client ref cip fetched st :
  ((∃ err, Verify client ref cip fetched st = (Err err, st)) ∧
   ∀ hsm gm sigs, client = Some hsm → cip = Some gm → fetched = Ok sigs →
     Validate (Some gm) = None → sigs = []) ∨
  ∃ hsm gm sigs, client = Some hsm ∧ cip = Some gm ∧ fetched = Ok sigs ∧ sigs ≠ [] ∧
    Validate (Some gm) = None.
Proof.
  destruct (Validate cip) as [err|] eqn:Hv.
  { left. unfold Verify. rewrite Hv. split; [by eexists|]. intros; simplify_eq. }
  destruct cip as [gm|]; [|done].
  destruct client as [hsm|]; [|left; unfold Verify; rewrite Hv; split; [by eexists|done]].
  destruct fetched as [[|sig sigs]|err]; unfold Verify; rewrite Hv.
  - left. split; [by eexists|]. intros; by simplify_eq.
  - right. exists hsm, gm, (sig :: sigs). split_and!; done.
  - left. split; [by eexists|done].
Qed.

(** The question that the HSM is to be asked about a signature: the policy's URL and
    tenant, the expected signer, the SM3 digest of the payload, and the bytes. *)
Definition question (gm : GMSignatureRef) (sigBytes payload : string) : HTTPRequest :=
  {| url := substitute 0 (VerifyURL gm) (TenantID gm) (AppID (Signer gm));
     body := JObj [("requestData", JObj (
       [("appId", JStr (AppID (Signer gm))); ("data", JStr (Base64.EncodeToString (SM3 payload)));
        ("nodeId", JStr (NodeID (Signer gm))); ("signature", JStr (Base64.EncodeToString sigBytes))] ++
       (if UserID (Signer gm) !=s "" then [("userId", JStr (UserID (Signer gm)))] else [])))];
     header_TenantId := TenantID gm;
     timeout := effectiveTimeout (RequestTimeoutMs gm) |}.

(** Its answer to it at some call of [lo, hi) was positive. *)
Definition vouched (hsm : HSM) (gm : GMSignatureRef) (lo hi : nat) (sigBytes payload : string) : Prop :=
  ∃ n respBody j message res, (lo ≤ n < hi)%nat ∧ hsm n (question gm sigBytes payload) = Response 200 respBody ∧
    jsonParse respBody = Some j ∧ decode_response j = Some (0%Z, message, res) ∧ interpretResult res = Ok true.

Lemma hsmVerified_vouched hsm gm lo hi sb p : hsmVerified hsm gm lo hi sb p → vouched hsm gm lo hi sb p.
Proof.
  intros (n & Hn & (_ & respBody & j & message & res & Hr & ? & ? & ?)%SM2Verify_true).
  exists n, respBody, j, message, res. done.
Qed.

(** C27: what [Verify] returns was signed: it returns a non-empty sublist of the
    fetched signatures; each claims the expected signer, and claims the image's
    digest in its payload; and either the HSM, asked during this run about these very
    signature bytes and the SM3 digest of this very payload, for the expected signer,
    answered that they verify; or the cache held the key of the bytes before; or it
    held it because the HSM answered so, during this run, about another signature
    that is returned, over that one's payload. *)
Theorem Verify_sound (client : option HSM) (ref : Reference) (cip : option GMSignatureRef)
    (fetched : result string (list Signature)) (st st' : VerifyState) (sigs : list Signature)
    (Hrun : Verify client ref cip fetched st = (Ok sigs, st')) :
  ∃ hsm gm all, client = Some hsm ∧ cip = Some gm ∧ fetched = Ok all ∧
    sigs ≠ [] ∧ sigs `sublist_of` all ∧
    ∀ sig, sig ∈ sigs → ∃ sigBytes payload,
      authentic gm ref sig sigBytes payload ∧
      (vouched hsm gm (calls st) (calls st') sigBytes payload ∨
       cacheKey sigBytes (signerTriple gm) ∈ cached (cache st) ∨
       ∃ other sigBytes' payload', other ∈ sigs ∧ authentic gm ref other sigBytes' payload' ∧
         cacheKey sigBytes' (signerTriple gm) = cacheKey sigBytes (signerTriple gm) ∧
         vouched hsm gm (calls st) (calls st') sigBytes' payload').
Proof.
  destruct (Verify_cases client ref cip fetched st)
    as [[[err He] _]|(hsm & gm & all & -> & -> & -> & Hne & Hv)]; [congruence|].
  rewrite Verify_loop in Hrun by done. exists hsm, gm, all.
  destruct (verifyLoop hsm gm (digestString ref) (indexed all) [] None st)
    as [[verified e] st1] eqn:Hl.
  apply (verifyLoop_inv _ _ ref st) in Hl
    as (_ & _ & new & -> & Hsub & Hnew); [|split; [done|by left]].
  rewrite indexed_snd in Hsub. cbn in Hrun, Hnew.
  assert (new = sigs ∧ st1 = st' ∧ sigs ≠ []) as (-> & -> & ?).
  { destruct new, e; simplify_eq; done. }
  split_and!; [done..|]. intros sig Hsig.
  destruct (Hnew sig Hsig) as (sb & p & Ha & Ht). exists sb, p. split; [done|].
  destruct Ht as [?|[?|(other & sb' & p' & ? & ? & ? & ?)]];
    [left; by apply hsmVerified_vouched|right; by left|right; right].
  exists other, sb', p'. split_and!; [done..|by apply hsmVerified_vouched].
Qed.

(** Only positive answers are cached: whatever a run of [Verify] leaves in
    the cache was there before or is the key of signature bytes the HSM verified
    during the run. *)
Theorem Verify_caches_positives (client : option HSM) (ref : Reference)
    (cip : option GMSignatureRef) (fetched : result string (list Signature))
    (st st' : VerifyState) (r : result string (list Signature)) (k : string)
    (Hrun : Verify client ref cip fetched st = (r, st')) (Hk : k ∈ cached (cache st')) :
  k ∈ cached (cache st) ∨
  ∃ hsm gm sigBytes payload, client = Some hsm ∧ cip = Some gm ∧
    k = cacheKey sigBytes (signerTriple gm) ∧
    hsmVerified hsm gm (calls st) (calls st') sigBytes payload.
Proof.
  destruct (Verify_cases client ref cip fetched st)
    as [[[err He] _]|(hsm & gm & all & -> & -> & -> & Hne & Hv)].
  { left. congruence. }
  rewrite Verify_loop in Hrun by done.
  destruct (verifyLoop hsm gm (digestString ref) (indexed all) [] None st)
    as [[verified e] st1] eqn:Hl.
  apply (verifyLoop_inv _ _ ref st) in Hl as ([_ Hc] & _ & _); [|split; [done|by left]].
  assert (st1 = st') as -> by (destruct verified, e; congruence).
  destruct (Hc k Hk) as [?|(sig & sb & p & _ & _ & ? & ?)]; [by left|]. right. by exists hsm, gm, sb, p.
Qed.

(** ** Completeness *)

Lemma verifyLoop_incl hsm cipGM d (sigs : list (nat * Signature)) acc e st acc' e' st' sig :
  verifyLoop hsm cipGM d sigs acc e st = (acc', e', st') → sig ∈ acc → sig ∈ acc'.
Proof.
  revert acc e st. induction sigs as [|[i s] sigs IH]; intros acc e st; cbn; [by intros [= <- _ _]|].
  destruct (verifyOne hsm cipGM d i s st) as [[err|] st1]; intros H Hin; (eapply IH; [exact H|]);
    [done|]. apply elem_of_app. by left.
Qed.

Lemma verifyOne_good hsm cipGM ref i sig st sb p :
  authentic cipGM ref sig sb p →
  (∀ n, SM2Verify newRequestError (hsm n) (hsmRequest cipGM sb p) = Ok true) →
  (verifyOne hsm cipGM (digestString ref) i sig st).1 = None.
Proof.
  intros Ha%checkSignature_Ok Hhsm. unfold verifyOne, verifyBytes. rewrite Ha.
  destruct (Lookup _ _ _ _) as [[] ca]; [done|]. cbn [calls cache]. by rewrite Hhsm.
Qed.

Lemma verifyLoop_good hsm cipGM ref sig sb p (sigs : list (nat * Signature)) acc e st acc' e' st' :
  authentic cipGM ref sig sb p →
  (∀ n, SM2Verify newRequestError (hsm n) (hsmRequest cipGM sb p) = Ok true) →
  verifyLoop hsm cipGM (digestString ref) sigs acc e st = (acc', e', st') →
  sig ∈ sigs.*2 → sig ∈ acc'.
Proof.
  intros Ha Hhsm. revert acc e st.
  induction sigs as [|[i s] sigs IH]; intros acc e st; cbn; [by intros _ ?%not_elem_of_nil|].
  destruct (verifyOne hsm cipGM (digestString ref) i s st) as [[err|] st1] eqn:Hone; intros Hl Hin.
  - apply elem_of_cons in Hin as [->|Hin]; [|by eapply IH].
    pose proof (verifyOne_good hsm cipGM ref i s st sb p Ha Hhsm) as Hg. by rewrite Hone in Hg.
  - apply elem_of_cons in Hin as [->|Hin]; [|by eapply IH].
    eapply verifyLoop_incl; [exact Hl|]. apply elem_of_app. right. by apply list_elem_of_singleton.
Qed.

(** A good signature is enough: when the policy is complete and one of the
    fetched signatures claims the expected signer and image, and the HSM
    verifies it whenever asked, [Verify] succeeds and returns that signature
    among others, whatever the other signatures are. *)
Theorem Verify_complete (hsm : HSM) (ref : Reference) (gm : GMSignatureRef)
    (all : list Signature) (st : VerifyState) (sig : Signature) (sigBytes payload : string)
    (Hgm : Validate (Some gm) = None) (Hin : sig ∈ all)
    (Hauth : authentic gm ref sig sigBytes payload)
    (Hhsm : ∀ n, SM2Verify newRequestError (hsm n) (hsmRequest gm sigBytes payload) = Ok true) :
  ∃ sigs st', Verify (Some hsm) ref (Some gm) (Ok all) st = (Ok sigs, st') ∧ sig ∈ sigs.
Proof.
  rewrite Verify_loop by (done || by intros ->; apply not_elem_of_nil in Hin).
  destruct (verifyLoop hsm gm (digestString ref) (indexed all) [] None st)
    as [[verified e] st1] eqn:Hl.
  assert (sig ∈ verified) as Hs.
  { eapply verifyLoop_good; [done|done|exact Hl|by rewrite indexed_snd]. }
  exists verified, st1. split; [|done]. destruct verified; [by apply not_elem_of_nil in Hs|done].
Qed.

(** ** The cache and the payload *)

(** On a cache hit the payload is not verified: a signature that claims the
    expected signer and image is returned without any HSM call as soon as the
    cache holds its signature bytes for that signer, so the outcome does not
    depend on what the HSM says about the payload. The key has no payload in it;
    the signature bytes of an image once verified can be attached to the unsigned
    payload of any other image while the entry lives. *)
Theorem cache_hit_ignores_payload (hsm : HSM) (ref : Reference) (gm : GMSignatureRef)
    (sig : Signature) (sigBytes payload : string) (st : VerifyState) (cache' : option Cache)
    (Hgm : Validate (Some gm) = None)
    (Hauth : authentic gm ref sig sigBytes payload)
    (Hhit : Lookup (calls st) (cache st) sigBytes (signerTriple gm) = (true, cache')) :
  Verify (Some hsm) ref (Some gm) (Ok [sig]) st =
  (Ok [sig], {| calls := calls st; cache := cache' |}).
Proof.
  rewrite Verify_loop by done. cbn [indexed imap verifyLoop]. unfold verifyOne.
  rewrite (proj2 (checkSignature_Ok gm ref sig sigBytes payload)) by done.
  unfold verifyBytes. by rewrite Hhit.
Qed.

End CacheAndVerify.

(** * A concrete run *)

Module ToyGM.

(** An LRU that never evicts or expires. *)
#[export] Program Instance lru_instance : LRU := {|
  lru := list string;
  NewLRU _ _ := [];
  lru_Get _ c k := (existsb (String.eqb k) c, c);
  lru_Add _ c k := k :: c;
  lru_keys := list_to_set
|}.
Next Obligation. done. Qed.
Next Obligation. done. Qed.
Next Obligation.
  intros t c k Hk. apply elem_of_list_to_set.
  apply existsb_exists in Hk as (x & Hx & ->%String.eqb_eq). by apply list_elem_of_In.
Qed.
Next Obligation. done. Qed.

Definition payload (digest : string) : json :=
  JObj [("critical", JObj [("image", JObj [("docker-manifest-digest", JStr digest)])])].

(** Reads the two payloads and the two answers used below. *)
Definition parse (s : string) : option json :=
  if s ==s "payload A" then Some (payload "sha256:a")
  else if s ==s "payload B" then Some (payload "sha256:b")
  else if s ==s "yes" then
    Some (JObj [("code", JNum {| asInt := Some 0%Z; isZeroFloat := true |});
                ("result", JObj [("verified", JBool true)])])
  else if s ==s "no" then
    Some (JObj [("code", JNum {| asInt := Some 0%Z; isZeroFloat := true |});
                ("result", JObj [("verified", JBool false)])])
  else None.
#[export] Instance jsonText_instance : JsonText := {| jsonParse := parse; jsonText _ := "" |}.

(** The HSM verifies the signature bytes over the payload of image A only. *)
Definition signedA (j : json) : bool :=
  match j with
  | JObj [(_, JObj (_ :: (_, JStr data) :: _))] =>
      data ==s Base64.EncodeToString "payload A"
  | _ => false
  end.
Definition hsm : HSM := λ _ r, Response 200 (if signedA (body r) then "yes" else "no").

Definition gm : GMSignatureRef :=
  {| VerifyURL := "http://hsm/{tenantId}/{appId}/sm2/verify"; TenantID := "t1";
     Signer := {| AppID := "app"; NodeID := "node"; UserID := "" |}; RequestTimeoutMs := 0 |}.
Definition annotations : gmap string string :=
  {[ SigAnnAlg := AlgorithmSM2SM3; SigAnnSignerAppID := "app"; SigAnnSignerNodeID := "node";
     SigAnnSignature := Base64.EncodeToString "signature bytes" ]}.
#[local] Existing Instance ToyCerts.certs.
Definition signature (payload : string) : Signature :=
  {| Annotations := Ok annotations; Base64Signature := Ok ""; Payload := Ok payload;
     SignatureBytes := Ok ""; Cert := Ok None; Digest := Ok "" |}.

Definition fresh : VerifyState := {| calls := 0; cache := Some (NewCache 4096 30) |}.
Definition run (ref : string) (payload : string) (st : VerifyState) :=
  @Verify ToyNames.names _ _ _ (λ s, s) (λ s, s) (λ _, None) (Some hsm) ref (Some gm)
    (Ok [signature payload]) st.
Definition afterA : VerifyState := (run "img@sha256:a" "payload A" fresh).2.

End ToyGM.

#[local] Existing Instances ToyGM.lru_instance ToyGM.jsonText_instance ToyNames.names
  ToyCerts.certs.

Lemma cache_hit_ignores_payload_witness :
  (ToyGM.run "img@sha256:a" "payload A" ToyGM.fresh).1 = Ok [ToyGM.signature "payload A"] ∧
  is_Err (ToyGM.run "img@sha256:b" "payload B" ToyGM.fresh).1 ∧
  (ToyGM.run "img@sha256:b" "payload B" ToyGM.afterA).1 = Ok [ToyGM.signature "payload B"].
Proof.
  split; [vm_compute; reflexivity|]. split; [eexists; vm_compute; reflexivity|].
  unfold ToyGM.run.
  rewrite (@cache_hit_ignores_payload ToyNames.names _ _ _ (λ s, s) (λ s, s) (λ _, None) ToyGM.hsm
    "img@sha256:b" ToyGM.gm (ToyGM.signature "payload B") "signature bytes" "payload B" ToyGM.afterA
    (Lookup (λ s, s) 1 (cache ToyGM.afterA) "signature bytes" (signerTriple ToyGM.gm)).2);
    [reflexivity|reflexivity| |vm_compute; reflexivity].
  exists ToyGM.annotations. repeat split; try reflexivity; try (left; reflexivity).
Defined.

Lemma Verify_sound_witness :
  ∃ sigBytes, ToyGM.run "img@sha256:a" "payload A" ToyGM.fresh =
      (Ok [ToyGM.signature "payload A"], ToyGM.afterA) ∧
    vouched (λ s, s) ToyGM.hsm ToyGM.gm 0 1 sigBytes "payload A".
Proof.
  assert (ToyGM.run "img@sha256:a" "payload A" ToyGM.fresh =
    (Ok [ToyGM.signature "payload A"], ToyGM.afterA)) as H by (vm_compute; reflexivity).
  destruct (@Verify_sound ToyNames.names _ _ _ (λ s, s) (λ s, s) (λ _, None) _ _ _ _ _ _ _ H)
    as (h & g & all & [= <-] & [= <-] & _ & _ & _ & Hs).
  destruct (Hs (ToyGM.signature "payload A")) as (sb & p & Ha & Hv); [left|].
  assert (p = "payload A") as -> by (destruct Ha as (_ & _ & _ & _ & _ & _ & _ & [= <-] & _); reflexivity).
  destruct Hv as [Hv|[Hv|(other & sb' & p' & Hin & Ha' & _ & Hv)]].
  - exists sb. split; [exact H|exact Hv].
  - apply not_elem_of_empty in Hv as [].
  - apply list_elem_of_singleton in Hin as ->.
    assert (p' = "payload A") as -> by (destruct Ha' as (_ & _ & _ & _ & _ & _ & _ & [= <-] & _); reflexivity).
    exists sb'. split; [exact H|exact Hv].
Defined.

Lemma Verify_caches_positives_witness :
  let k := cacheKey (λ s, s) "signature bytes" (signerTriple ToyGM.gm) in
  k ∈ cached (cache ToyGM.afterA) ∧
  ∃ sigBytes payload, k = cacheKey (λ s, s) sigBytes (signerTriple ToyGM.gm) ∧
    hsmVerified (λ s, s) (λ _, None) ToyGM.hsm ToyGM.gm 0 1 sigBytes payload.
Proof.
  intros k. assert (k ∈ cached (cache ToyGM.afterA)) as Hk.
  { assert (cache ToyGM.afterA = Some {| c := Some [k]; hits := 0; misses := 1 |}) as ->
      by (vm_compute; reflexivity). apply elem_of_list_to_set. left. }
  split; [exact Hk|].
  assert (ToyGM.run "img@sha256:a" "payload A" ToyGM.fresh =
    (Ok [ToyGM.signature "payload A"], ToyGM.afterA)) as H by (vm_compute; reflexivity).
  destruct (@Verify_caches_positives ToyNames.names _ _ _ (λ s, s) (λ s, s) (λ _, None) _ _ _ _ _ _ _
    k H Hk) as [Hin|(h & g & sb & p & Hh & Hg & Heq & Hv)].
  - exfalso. exact (not_elem_of_empty k Hin).
  - injection Hh as <-. injection Hg as <-. exists sb, p. split; [exact Heq|exact Hv].
Defined.

Lemma Verify_complete_witness :
  ∃ sigs st', ToyGM.run "img@sha256:a" "payload A" ToyGM.fresh = (Ok sigs, st') ∧
    ToyGM.signature "payload A" ∈ sigs.
Proof.
  apply (@Verify_complete ToyNames.names _ _ _ (λ s, s) (λ s, s) (λ _, None) ToyGM.hsm "img@sha256:a"
    ToyGM.gm [ToyGM.signature "payload A"] ToyGM.fresh (ToyGM.signature "payload A")
    "signature bytes" "payload A"); [reflexivity|left| |intros n; vm_compute; reflexivity].
  exists ToyGM.annotations. repeat split; try reflexivity; try (left; reflexivity).
Defined.

Lemma cacheKeyPreimage_injective_witness :
  ¬ cacheKeyPreimage "s" {| st_AppID := "ab"; st_NodeID := "c"; st_UserID := "" |} =
    cacheKeyPreimage "s" {| st_AppID := "a"; st_NodeID := "bc"; st_UserID := "" |}.
Proof.
  intros H. destruct (cacheKeyPreimage_injective "s" "s"
    {| st_AppID := "ab"; st_NodeID := "c"; st_UserID := "" |}
    {| st_AppID := "a"; st_NodeID := "bc"; st_UserID := "" |}) as [_ E]; [|exact H|discriminate E].
  left. split; [reflexivity|]. split; repeat constructor.
Defined.
