(* ===== verification/WebhookJSON.v ===== *)
(** The ConfigMap form of a webhook policy: how the reconciler writes it
    (json.Marshal over the types of WebhookTypes, by their struct tags) and how
    the webhook reads it back, with the two UnmarshalJSON methods that populate
    a key's public keys and an authority's registry options
    (pkg/webhook/clusterimagepolicy/clusterimagepolicy_types.go). *)

From S2P Require Import Prelude.
From S2P Require Import Names.
From S2P Require Import Encoding.
From S2P Require Import K8s.
From S2P Require Import Common.
From S2P Require V1alpha1.
From S2P Require Import WebhookTypes.

(** * Encoding *)

(** The struct tags: a field always written, or only when not empty. *)
Definition always (name : string) (v : json) : list (string * json) := [(name, v)].
Definition omitempty_string (name s : string) : list (string * json) :=
  if s ==s "" then [] else [(name, JStr s)].
Definition omitempty_list {A} (name : string) (f : A → json) (l : list A) : list (string * json) :=
  if isEmpty l then [] else [(name, JArr (f <$> l))].
Definition omitempty_ptr {A} (name : string) (f : A → json) (p : option A) : list (string * json) :=
  match p with Some a => [(name, f a)] | None => [] end.
Definition omitempty_int (name : string) (n : Z) : list (string * json) :=
  if (n =? 0)%Z then [] else [(name, JNum {| asInt := Some n; isZeroFloat := false |})].

(** A map, its keys in order. *)
Definition key_le {A} (a b : string * A) : Prop := String.leb a.1 b.1 = true.
#[export] Instance key_le_dec {A} : RelDecision (@key_le A).
Proof. intros a b. unfold key_le. apply _. Defined.
Definition encode_map {A} (f : A → json) (m : gmap string A) : json :=
  JObj ((λ '(k, v), (k, f v)) <$> merge_sort key_le (map_to_list m)).

Definition encode_URL (u : URL) : json := JStr (urlString u).

Definition encode_ImagePattern (i : V1alpha1.ImagePattern) : json :=
  JObj (always "glob" (JStr (V1alpha1.Glob i))).

Definition encode_Identity (i : V1alpha1.Identity) : json :=
  JObj (omitempty_string "issuer" (V1alpha1.Issuer i) ++
        omitempty_string "subject" (V1alpha1.Subject i) ++
        omitempty_string "issuerRegExp" (V1alpha1.IssuerRegExp i) ++
        omitempty_string "subjectRegExp" (V1alpha1.SubjectRegExp i)).

Definition encode_LocalObjectReference (r : LocalObjectReference) : json :=
  JObj (omitempty_string "name" (localobject_Name r)).

Definition encode_Source (s : V1alpha1.Source) : json :=
  JObj (omitempty_string "oci" (V1alpha1.OCI s) ++
        omitempty_list "signaturePullSecrets" encode_LocalObjectReference
          (V1alpha1.SignaturePullSecrets s) ++
        omitempty_ptr "tagPrefix" JStr (V1alpha1.TagPrefix s)).

Definition encode_TLog (t : V1alpha1.TLog) : json :=
  JObj (omitempty_ptr "url" encode_URL (V1alpha1.tlog_URL t) ++
        omitempty_string "trustRootRef" (V1alpha1.tlog_TrustRootRef t)).

Definition encode_Requirement (r : LabelSelectorRequirement) : json :=
  JObj (always "key" (JStr (lsr_Key r)) ++ always "operator" (JStr (lsr_Operator r)) ++
        omitempty_list "values" JStr (lsr_Values r)).

Definition encode_LabelSelector (s : LabelSelector) : json :=
  JObj ((if decide (MatchLabels s = ∅) then []
         else [("matchLabels", encode_map JStr (MatchLabels s))]) ++
        omitempty_list "matchExpressions" encode_Requirement (MatchExpressions s)).

Definition encode_MatchResource (m : V1alpha1.MatchResource) : json :=
  let gvr := V1alpha1.mr_GroupVersionResource m in
  JObj (always "group" (JStr (Group gvr)) ++ always "version" (JStr (Version gvr)) ++
        always "resource" (JStr (Resource gvr)) ++
        omitempty_ptr "selector" encode_LabelSelector (V1alpha1.ResourceSelector m)).

Definition encode_GMSignerRef (s : GMSignerRef) : json :=
  JObj (always "appId" (JStr (AppID s)) ++ always "nodeId" (JStr (NodeID s)) ++
        omitempty_string "userId" (UserID s)).
Definition encode_GMSignatureRef (gm : GMSignatureRef) : json :=
  JObj (always "verifyUrl" (JStr (VerifyURL gm)) ++ always "tenantId" (JStr (TenantID gm)) ++
        always "signer" (encode_GMSignerRef (Signer gm)) ++
        omitempty_int "requestTimeoutMs" (RequestTimeoutMs gm)).

Definition encode_StaticRef (s : StaticRef) : json :=
  JObj (always "action" (JStr (Action s)) ++ omitempty_string "message" (static_Message s)).

Definition encode_AttestationPolicy (p : AttestationPolicy) : json :=
  JObj (always "name" (JStr (ap_Name p)) ++ always "predicateType" (JStr (ap_PredicateType p)) ++
        omitempty_string "type" (ap_Type p) ++ omitempty_string "data" (ap_Data p) ++
        omitempty_ptr "fetchConfigFile" JBool (FetchConfigFile p) ++
        omitempty_ptr "includeSpec" JBool (IncludeSpec p) ++
        omitempty_ptr "includeObjectMeta" JBool (IncludeObjectMeta p) ++
        omitempty_ptr "includeTypeMeta" JBool (IncludeTypeMeta p)).

Definition encode_RFC3161Timestamp (t : RFC3161Timestamp) : json :=
  JObj (omitempty_string "trustRootRef" (tsa_TrustRootRef t)).

Section Encode.
Context `{P : Parsers}.

(** [HashAlgorithmCode] and [PublicKeys] are not marshalled, nor [RemoteOpts]. *)
Definition encode_KeyRef (k : KeyRef) : json :=
  JObj (omitempty_string "data" (key_Data k) ++
        omitempty_string "hashAlgorithm" (key_HashAlgorithm k)).

Definition encode_KeylessRef (k : KeylessRef) : json :=
  JObj (omitempty_ptr "url" encode_URL (keyless_URL k) ++
        omitempty_list "identities" encode_Identity (Identities k) ++
        omitempty_ptr "ca-cert" encode_KeyRef (CACert k) ++
        omitempty_string "trustRootRef" (keyless_TrustRootRef k) ++
        omitempty_ptr "insecureIgnoreSCT" JBool (InsecureIgnoreSCT k)).

Definition encode_Authority (a : Authority) : json :=
  JObj (always "name" (JStr (auth_Name a)) ++
        omitempty_ptr "key" encode_KeyRef (Key a) ++
        omitempty_ptr "keyless" encode_KeylessRef (Keyless a) ++
        omitempty_ptr "static" encode_StaticRef (Static a) ++
        omitempty_list "source" encode_Source (Sources a) ++
        omitempty_ptr "ctlog" encode_TLog (CTLog a) ++
        omitempty_list "attestations" encode_AttestationPolicy (Attestations a) ++
        omitempty_ptr "rfc3161timestamp" encode_RFC3161Timestamp (auth_RFC3161Timestamp a) ++
        omitempty_ptr "gmSignature" encode_GMSignatureRef (GMSignature a) ++
        omitempty_string "signatureFormat" (SignatureFormat a)).

(** A nil slice is written as null, an empty one as []; both are read as empty. *)
Definition encode_ClusterImagePolicy (c : ClusterImagePolicy) : json :=
  JObj (always "uid" (JStr (UID c)) ++
        always "resourceVersion" (JStr (ResourceVersion c)) ++
        always "images" (JArr (encode_ImagePattern <$> Images c)) ++
        always "authorities" (JArr (encode_Authority <$> Authorities c)) ++
        omitempty_ptr "policy" encode_AttestationPolicy (cip_Policy c) ++
        omitempty_string "mode" (Mode c) ++
        omitempty_list "match" encode_MatchResource (cip_Match c)).

End Encode.

(** * Decoding *)

Definition mismatch : string := "json: cannot unmarshal into Go value".

Definition get_string (name : string) (l : list (string * json)) : result string string :=
  or_err mismatch (decode_string (field name l)).
Definition get_int (name : string) (l : list (string * json)) : result string Z :=
  or_err mismatch (decode_int (field name l)).

(** A pointer, a slice and a struct, whose elements are decoded by [f]. *)
Definition ptr_of {A} (f : json → result string A) (v : option json) : result string (option A) :=
  match v with
  | None | Some JNull => Ok None
  | Some j => Some <$> f j
  end.
Definition get_ptr {A} (f : json → result string A) (name : string) (l : list (string * json)) :
    result string (option A) := ptr_of f (field name l).
Definition slice_of {A} (f : json → result string A) (v : option json) : result string (list A) :=
  match v with
  | None | Some JNull => Ok []
  | Some (JArr xs) => mapM f xs
  | Some _ => Err mismatch
  end.
Definition get_slice {A} (f : json → result string A) (name : string) (l : list (string * json)) :
    result string (list A) := slice_of f (field name l).
Definition as_struct {A} (f : list (string * json) → result string A) (j : json) : result string A :=
  match j with JNull => f [] | JObj l => f l | _ => Err mismatch end.
Definition as_string (j : json) : result string string := or_err mismatch (decode_string (Some j)).
Definition as_bool (j : json) : result string bool := or_err mismatch (decode_bool j).

(** A [map[string]string]; a null element is the empty string. *)
Definition as_string_map (j : json) : result string (gmap string string) :=
  match j with
  | JNull => Ok ∅
  | JObj l =>
      foldl (λ acc '(k, v), m ← acc; s ← as_string v; Ok (<[k := s]> m)) (Ok ∅) l
  | _ => Err mismatch
  end.

Definition decode_ImagePattern : json → result string V1alpha1.ImagePattern :=
  as_struct (λ l, g ← get_string "glob" l; Ok {| V1alpha1.Glob := g |}).

Definition decode_Identity : json → result string V1alpha1.Identity :=
  as_struct (λ l,
    issuer ← get_string "issuer" l; subject ← get_string "subject" l;
    issuerRE ← get_string "issuerRegExp" l; subjectRE ← get_string "subjectRegExp" l;
    Ok {| V1alpha1.Issuer := issuer; V1alpha1.Subject := subject;
          V1alpha1.IssuerRegExp := issuerRE; V1alpha1.SubjectRegExp := subjectRE |}).

Definition decode_LocalObjectReference : json → result string LocalObjectReference :=
  as_struct (λ l, n ← get_string "name" l; Ok {| localobject_Name := n |}).

Definition decode_Source : json → result string V1alpha1.Source :=
  as_struct (λ l,
    oci ← get_string "oci" l;
    secrets ← get_slice decode_LocalObjectReference "signaturePullSecrets" l;
    prefix ← get_ptr as_string "tagPrefix" l;
    Ok {| V1alpha1.OCI := oci; V1alpha1.SignaturePullSecrets := secrets;
          V1alpha1.TagPrefix := prefix |}).

Definition decode_Requirement : json → result string LabelSelectorRequirement :=
  as_struct (λ l,
    k ← get_string "key" l; op ← get_string "operator" l; vs ← get_slice as_string "values" l;
    Ok {| lsr_Key := k; lsr_Operator := op; lsr_Values := vs |}).

Definition decode_LabelSelector : json → result string LabelSelector :=
  as_struct (λ l,
    labels ← match field "matchLabels" l with None => Ok ∅ | Some j => as_string_map j end;
    exprs ← get_slice decode_Requirement "matchExpressions" l;
    Ok {| MatchLabels := labels; MatchExpressions := exprs |}).

Definition decode_MatchResource : json → result string V1alpha1.MatchResource :=
  as_struct (λ l,
    g ← get_string "group" l; v ← get_string "version" l; r ← get_string "resource" l;
    sel ← get_ptr decode_LabelSelector "selector" l;
    Ok {| V1alpha1.mr_GroupVersionResource := {| Group := g; Version := v; Resource := r |};
          V1alpha1.ResourceSelector := sel |}).

Definition decode_GMSignerRef : json → result string GMSignerRef :=
  as_struct (λ l,
    a ← get_string "appId" l; n ← get_string "nodeId" l; u ← get_string "userId" l;
    Ok {| AppID := a; NodeID := n; UserID := u |}).

Definition decode_GMSignatureRef : json → result string GMSignatureRef :=
  as_struct (λ l,
    url ← get_string "verifyUrl" l; tenant ← get_string "tenantId" l;
    signer ← decode_GMSignerRef (default JNull (field "signer" l));
    ms ← get_int "requestTimeoutMs" l;
    Ok {| VerifyURL := url; TenantID := tenant; Signer := signer; RequestTimeoutMs := ms |}).

Definition decode_StaticRef : json → result string StaticRef :=
  as_struct (λ l,
    a ← get_string "action" l; m ← get_string "message" l;
    Ok {| Action := a; static_Message := m |}).

Definition decode_AttestationPolicy : json → result string AttestationPolicy :=
  as_struct (λ l,
    n ← get_string "name" l; p ← get_string "predicateType" l;
    t ← get_string "type" l; d ← get_string "data" l;
    fetch ← get_ptr as_bool "fetchConfigFile" l; spec ← get_ptr as_bool "includeSpec" l;
    om ← get_ptr as_bool "includeObjectMeta" l; tm ← get_ptr as_bool "includeTypeMeta" l;
    Ok {| ap_Name := n; ap_PredicateType := p; ap_Type := t; ap_Data := d;
          FetchConfigFile := fetch; IncludeSpec := spec; IncludeObjectMeta := om;
          IncludeTypeMeta := tm |}).

Definition decode_RFC3161Timestamp : json → result string RFC3161Timestamp :=
  as_struct (λ l, r ← get_string "trustRootRef" l; Ok {| tsa_TrustRootRef := r |}).

Section Decode.
Context `{N : NamePkg} `{P : Parsers}.

(** [apis.URL]'s UnmarshalJSON of a string. *)
Variable parseURL : string → result string URL.

Definition decode_URL (j : json) : result string URL := s ← as_string j; parseURL s.

Definition decode_TLog : json → result string V1alpha1.TLog :=
  as_struct (λ l,
    u ← get_ptr decode_URL "url" l; r ← get_string "trustRootRef" l;
    Ok {| V1alpha1.tlog_URL := u; V1alpha1.tlog_TrustRootRef := r |}).

(** ** The UnmarshalJSON methods *)

(** [ret["data"]] of the [map[string]string] the key is read into. *)
Definition KeyRef_UnmarshalJSON (data : json) : result string KeyRef :=
  ret ← as_string_map data;
  let ret_data := default "" (ret !! "data") in
  let ret_hash := default "" (ret !! "hashAlgorithm") in
  '(algorithm, code) ←
    (if ret_hash !=s "" then
       match HashAlgorithm ret_hash with
       | (code, None) => Ok (ret_hash, code)
       | (_, Some err) => Err err
       end
     else Ok (DefaultSignatureAlgorithm, SHA256));
  publicKeys ←
    (if ret_data !=s "" then
       match UnmarshalPEMToPublicKey ret_data with
       | Ok publicKey => Ok [publicKey]
       | Err err => Err ("failed to unmarshal PEM public key " +:+ err)
       end
     else Ok []);
  Ok {| key_Data := ret_data; key_HashAlgorithm := algorithm; HashAlgorithmCode := code;
        PublicKeys := publicKeys |}.

Definition decode_KeylessRef : json → result string KeylessRef :=
  as_struct (λ l,
    u ← get_ptr decode_URL "url" l; ids ← get_slice decode_Identity "identities" l;
    ca ← get_ptr KeyRef_UnmarshalJSON "ca-cert" l; r ← get_string "trustRootRef" l;
    sct ← get_ptr as_bool "insecureIgnoreSCT" l;
    Ok {| keyless_URL := u; Identities := ids; CACert := ca; keyless_TrustRootRef := r;
          InsecureIgnoreSCT := sct |}).

Definition decode_RawAuthority : json → result string Authority :=
  as_struct (λ l,
    name ← get_string "name" l;
    key ← get_ptr KeyRef_UnmarshalJSON "key" l;
    keyless ← get_ptr decode_KeylessRef "keyless" l;
    st ← get_ptr decode_StaticRef "static" l;
    sources ← get_slice decode_Source "source" l;
    ctlog ← get_ptr decode_TLog "ctlog" l;
    atts ← get_slice decode_AttestationPolicy "attestations" l;
    tsa ← get_ptr decode_RFC3161Timestamp "rfc3161timestamp" l;
    gm ← get_ptr decode_GMSignatureRef "gmSignature" l;
    sf ← get_string "signatureFormat" l;
    Ok {| auth_Name := name; Key := key; Keyless := keyless; Static := st; Sources := sources;
          CTLog := ctlog; RemoteOpts := []; Attestations := atts; auth_RFC3161Timestamp := tsa;
          GMSignature := gm; SignatureFormat := sf |}).

(** The options one source adds. *)
Definition sourceRemoteOpts (source : V1alpha1.Source) : result string (list RemoteOption) :=
  target ←
    (if V1alpha1.OCI source !=s "" then
       match NewRepository [] (V1alpha1.OCI source) with
       | Err err => Err ("failed to determine source: " +:+ err)
       | Ok targetRepoOverride =>
           Ok (if targetRepoOverride !=s "" then [WithTargetRepository targetRepoOverride] else [])
       end
     else Ok []);
  Ok (target ++
      match V1alpha1.TagPrefix source with
      | Some prefix => if prefix !=s "" then [WithPrefix prefix] else []
      | None => []
      end).

Definition addRemoteOpts (raw : Authority) : result string Authority :=
  opts ← mapM sourceRemoteOpts (Sources raw);
  Ok {| auth_Name := auth_Name raw; Key := Key raw; Keyless := Keyless raw; Static := Static raw;
        Sources := Sources raw; CTLog := CTLog raw;
        RemoteOpts := RemoteOpts raw ++ concat opts;
        Attestations := Attestations raw; auth_RFC3161Timestamp := auth_RFC3161Timestamp raw;
        GMSignature := GMSignature raw; SignatureFormat := SignatureFormat raw |}.

Definition Authority_UnmarshalJSON (data : json) : result string Authority :=
  raw ← decode_RawAuthority data; addRemoteOpts raw.

Definition decode_ClusterImagePolicy : json → result string ClusterImagePolicy :=
  as_struct (λ l,
    uid ← get_string "uid" l; rv ← get_string "resourceVersion" l;
    images ← get_slice decode_ImagePattern "images" l;
    auths ← get_slice Authority_UnmarshalJSON "authorities" l;
    pol ← get_ptr decode_AttestationPolicy "policy" l;
    mode ← get_string "mode" l;
    ms ← get_slice decode_MatchResource "match" l;
    Ok {| UID := uid; ResourceVersion := rv; Images := images; Authorities := auths;
          cip_Policy := pol; Mode := mode; cip_Match := ms |}).

(** * What reading back populates *)

Definition populate_KeyRef (k : KeyRef) : result string KeyRef :=
  '(algorithm, code) ←
    (if key_HashAlgorithm k !=s "" then
       match HashAlgorithm (key_HashAlgorithm k) with
       | (code, None) => Ok (key_HashAlgorithm k, code)
       | (_, Some err) => Err err
       end
     else Ok (DefaultSignatureAlgorithm, SHA256));
  publicKeys ←
    (if key_Data k !=s "" then
       match UnmarshalPEMToPublicKey (key_Data k) with
       | Ok publicKey => Ok [publicKey]
       | Err err => Err ("failed to unmarshal PEM public key " +:+ err)
       end
     else Ok []);
  Ok {| key_Data := key_Data k; key_HashAlgorithm := algorithm; HashAlgorithmCode := code;
        PublicKeys := publicKeys |}.

Definition populate_ptr {A} (f : A → result string A) (p : option A) : result string (option A) :=
  match p with Some a => Some <$> f a | None => Ok None end.

Definition populate_KeylessRef (k : KeylessRef) : result string KeylessRef :=
  ca ← populate_ptr populate_KeyRef (CACert k);
  Ok {| keyless_URL := keyless_URL k; Identities := Identities k; CACert := ca;
        keyless_TrustRootRef := keyless_TrustRootRef k;
        InsecureIgnoreSCT := InsecureIgnoreSCT k |}.

Definition populate_Authority (a : Authority) : result string Authority :=
  key ← populate_ptr populate_KeyRef (Key a);
  keyless ← populate_ptr populate_KeylessRef (Keyless a);
  addRemoteOpts {| auth_Name := auth_Name a; Key := key; Keyless := keyless; Static := Static a;
    Sources := Sources a; CTLog := CTLog a; RemoteOpts := []; Attestations := Attestations a;
    auth_RFC3161Timestamp := auth_RFC3161Timestamp a; GMSignature := GMSignature a;
    SignatureFormat := SignatureFormat a |}.

Definition populate (c : ClusterImagePolicy) : result string ClusterImagePolicy :=
  auths ← mapM populate_Authority (Authorities c);
  Ok {| UID := UID c; ResourceVersion := ResourceVersion c; Images := Images c;
        Authorities := auths; cip_Policy := cip_Policy c; Mode := Mode c;
        cip_Match := cip_Match c |}.

End Decode.

(** * Reading back what was written *)

Lemma field_app n l1 l2 :
  field n (l1 ++ l2) = match field n l2 with Some v => Some v | None => field n l1 end.
Proof.
  induction l1 as [|[k v] l1 IH]; cbn; [by destruct (field n l2)|].
  rewrite IH. by destruct (field n l2).
Qed.

(** A piece of an object that can only hold the key [m]. *)
Definition only (m : string) (l : list (string * json)) : Prop := Forall (λ kv, kv.1 = m) l.

Lemma field_other n m l : only m l → (ToLower m ==s ToLower n) = false → field n l = None.
Proof.
  intros Hl Hmn. induction Hl as [|[k v] l Hk Hl IH]; [done|]. cbn in *.
  rewrite IH. by subst; rewrite Hmn.
Qed.

Lemma only_always m v : only m (always m v).
Proof. by repeat constructor. Qed.
Lemma only_string m s : only m (omitempty_string m s).
Proof. unfold omitempty_string. destruct (s ==s ""); by repeat constructor. Qed.
Lemma only_list {A} m f (l : list A) : only m (omitempty_list m f l).
Proof. unfold omitempty_list. destruct (isEmpty l); by repeat constructor. Qed.
Lemma only_ptr {A} m f (p : option A) : only m (omitempty_ptr m f p).
Proof. destruct p; by repeat constructor. Qed.
Lemma only_int m n : only m (omitempty_int m n).
Proof. unfold omitempty_int. destruct (n =? 0)%Z; by repeat constructor. Qed.
Lemma field_always n v : field n (always n v) = Some v.
Proof. cbn. by rewrite String.eqb_refl. Qed.
Lemma field_string n s : field n (omitempty_string n s) = if s ==s "" then None else Some (JStr s).
Proof. unfold omitempty_string. destruct (s ==s ""); [done|apply field_always]. Qed.
Lemma field_list {A} n f (l : list A) :
  field n (omitempty_list n f l) = if isEmpty l then None else Some (JArr (f <$> l)).
Proof. unfold omitempty_list. destruct (isEmpty l); [done|apply field_always]. Qed.
Lemma field_ptr {A} n f (p : option A) : field n (omitempty_ptr n f p) = f <$> p.
Proof. destruct p; [apply field_always|done]. Qed.
Lemma field_int n z : field n (omitempty_int n z) =
  if (z =? 0)%Z then None else Some (JNum {| asInt := Some z; isZeroFloat := false |}).
Proof. unfold omitempty_int. destruct (z =? 0)%Z; [done|apply field_always]. Qed.

Lemma decode_string_omitted s : or_err mismatch (decode_string
  (if s ==s "" then None else Some (JStr s))) = Ok s.
Proof. by destruct (String.eqb_spec s "") as [->|]. Qed.
Lemma decode_int_omitted z : or_err mismatch (decode_int
  (if (z =? 0)%Z then None else Some (JNum {| asInt := Some z; isZeroFloat := false |}))) = Ok z.
Proof. by destruct (Z.eqb_spec z 0) as [->|]. Qed.

Lemma mapM_encode {A B} (f : json → result string B) (g : A → json) (h : A → result string B) l :
  (∀ x, f (g x) = h x) → mapM f (g <$> l) = mapM h l.
Proof. intros H. induction l as [|x l IH]; [done|]. cbn. by rewrite H, IH. Qed.

Lemma mapM_Ok {A} (l : list A) : mapM (λ x, Ok x : result string A) l = Ok l.
Proof. induction l as [|x l IH]; [done|]. cbn. by rewrite IH. Qed.

(** Computes the fields of an object made of pieces. *)
Ltac fields :=
  rewrite ?field_app;
  repeat match goal with
  | |- context [field ?n (always ?m ?v)] =>
      rewrite (field_other n m (always m v) (only_always m v) eq_refl)
  | |- context [field ?n (omitempty_string ?m ?v)] =>
      rewrite (field_other n m (omitempty_string m v) (only_string m v) eq_refl)
  | |- context [field ?n (omitempty_list ?m ?f ?v)] =>
      rewrite (field_other n m (omitempty_list m f v) (only_list m f v) eq_refl)
  | |- context [field ?n (omitempty_ptr ?m ?f ?v)] =>
      rewrite (field_other n m (omitempty_ptr m f v) (only_ptr m f v) eq_refl)
  | |- context [field ?n (omitempty_int ?m ?v)] =>
      rewrite (field_other n m (omitempty_int m v) (only_int m v) eq_refl)
  end;
  rewrite ?field_always, ?field_string, ?field_list, ?field_ptr, ?field_int.

Lemma option_eta {A} (o : option A) : match o with Some v => Some v | None => None end = o.
Proof. by destruct o. Qed.

Lemma slice_omitted {A B} (f : json → result string B) (g : A → json) h l :
  (∀ x, f (g x) = h x) →
  slice_of f (if isEmpty l then None else Some (JArr (g <$> l))) = mapM h l.
Proof. intros H. destruct l; [done|]. unfold slice_of. cbn [isEmpty]. by apply mapM_encode. Qed.

Lemma slice_id {A} (f : json → result string A) (g : A → json) l :
  (∀ x, f (g x) = Ok x) →
  slice_of f (if isEmpty l then None else Some (JArr (g <$> l))) = Ok l.
Proof. intros H. rewrite (slice_omitted f g _ l H). apply mapM_Ok. Qed.

Lemma ptr_omitted {A} (f : json → result string A) (g : A → json) h p :
  (∀ x, g x ≠ JNull) → (∀ x, f (g x) = h x) → ptr_of f (g <$> p) = populate_ptr h p.
Proof.
  intros Hn H. destruct p as [x|]; [|done]. cbn. specialize (Hn x).
  rewrite <-(H x). by destruct (g x).
Qed.

Lemma ptr_id {A} (f : json → result string A) (g : A → json) p :
  (∀ x, g x ≠ JNull) → (∀ x, f (g x) = Ok x) → ptr_of f (g <$> p) = Ok p.
Proof. intros Hn H. rewrite (ptr_omitted f g _ p Hn H). by destruct p. Qed.

Lemma as_string_JStr x : as_string (JStr x) = Ok x.
Proof. done. Qed.
Lemma as_bool_JBool x : as_bool (JBool x) = Ok x.
Proof. done. Qed.

Create HintDb decode.
#[export] Hint Resolve as_string_JStr as_bool_JBool : decode.

(** Decodes the pieces one after the other. *)
Ltac step :=
  first [rewrite decode_string_omitted | rewrite decode_int_omitted
        | match goal with |- context [slice_of ?f (if isEmpty ?l then None else Some (JArr (?g <$> ?l)))] =>
            rewrite (slice_id f g l) by (solve [eauto with decode]) end
        | match goal with |- context [ptr_of ?f (?g <$> ?p)] =>
            rewrite (ptr_id f g p) by (solve [by intros [] | by intros ? | eauto with decode]) end];
  cbn [mbind result_bind].
Ltac decode_object :=
  cbn [as_struct]; unfold get_string, get_int, get_slice, get_ptr;
  fields; rewrite ?option_eta; repeat step.

Lemma decode_encode_ImagePattern x : decode_ImagePattern (encode_ImagePattern x) = Ok x.
Proof. unfold decode_ImagePattern, encode_ImagePattern. decode_object. by destruct x. Qed.
#[export] Hint Resolve decode_encode_ImagePattern : decode.

Lemma decode_encode_Identity x : decode_Identity (encode_Identity x) = Ok x.
Proof. unfold decode_Identity, encode_Identity. decode_object. by destruct x. Qed.
#[export] Hint Resolve decode_encode_Identity : decode.

Lemma decode_encode_LocalObjectReference x : decode_LocalObjectReference (encode_LocalObjectReference x) = Ok x.
Proof. unfold decode_LocalObjectReference, encode_LocalObjectReference. decode_object. by destruct x. Qed.
#[export] Hint Resolve decode_encode_LocalObjectReference : decode.

Lemma decode_encode_Source x : decode_Source (encode_Source x) = Ok x.
Proof. unfold decode_Source, encode_Source. decode_object. by destruct x. Qed.
#[export] Hint Resolve decode_encode_Source : decode.

Lemma decode_encode_Requirement x : decode_Requirement (encode_Requirement x) = Ok x.
Proof. unfold decode_Requirement, encode_Requirement. decode_object. by destruct x. Qed.
#[export] Hint Resolve decode_encode_Requirement : decode.

Lemma as_string_map_encode m : as_string_map (encode_map JStr m) = Ok m.
Proof.
  unfold encode_map. cbn [as_string_map].
  assert (merge_sort key_le (map_to_list m) ≡ₚ map_to_list m) as Hp by apply merge_sort_Permutation.
  assert (∀ (l : list (string * string)) m0, foldl (λ (acc : result string (gmap string string)) '(k, v), m ← acc; s ← as_string v;
    Ok (<[k := s]> m)) (Ok m0) ((λ '(k, v), (k, JStr v)) <$> l) =
    Ok (foldl (λ m kv, <[kv.1 := kv.2]> m) m0 l)) as Hf.
  { induction l as [|[k v] l IH]; intros m0; [done|]. cbn. apply IH. }
  rewrite Hf. f_equal.
  assert (NoDup (merge_sort key_le (map_to_list m)).*1) as Hnd
    by (rewrite Hp; apply NoDup_fst_map_to_list).
  revert Hp Hnd. generalize (merge_sort key_le (map_to_list m)) as l. intros l Hp Hnd.
  rewrite <-(list_to_map_to_list m), <-(list_to_map_proper l _ Hnd Hp).
  assert (∀ m0 : gmap string string, (∀ k, k ∈ l.*1 → m0 !! k = None) →
    foldl (λ m kv, <[kv.1 := kv.2]> m) m0 l = list_to_map l ∪ m0) as H.
  { clear -Hnd. induction l as [|[k v] l IH]; intros m0 Hm; cbn; [by rewrite (left_id_L ∅ _)|].
    apply NoDup_cons in Hnd as [Hk Hnd]. rewrite IH; [|done|].
    - rewrite <-insert_union_r by (by apply not_elem_of_list_to_map_1). by rewrite insert_union_l.
    - intros k' Hk'. rewrite lookup_insert_ne; [apply Hm; by right|]. intros ->. done. }
  rewrite H by done. apply (right_id_L ∅ _).
Qed.

Lemma decode_encode_LabelSelector x : decode_LabelSelector (encode_LabelSelector x) = Ok x.
Proof.
  destruct x as [m e]. unfold decode_LabelSelector, encode_LabelSelector.
  cbn [MatchLabels MatchExpressions]. destruct (decide (m = ∅)) as [->|Hm].
  - decode_object. done.
  - change [("matchLabels", ?j)] with (always "matchLabels" j). decode_object.
    rewrite as_string_map_encode. cbn [mbind result_bind]. by repeat step.
Qed.
#[export] Hint Resolve decode_encode_LabelSelector : decode.

Lemma decode_encode_MatchResource x : decode_MatchResource (encode_MatchResource x) = Ok x.
Proof. unfold decode_MatchResource, encode_MatchResource. decode_object. destruct x as [[] ?]; done. Qed.
#[export] Hint Resolve decode_encode_MatchResource : decode.

Lemma decode_encode_GMSignerRef x : decode_GMSignerRef (encode_GMSignerRef x) = Ok x.
Proof. unfold decode_GMSignerRef, encode_GMSignerRef. decode_object. by destruct x. Qed.
#[export] Hint Resolve decode_encode_GMSignerRef : decode.

Lemma decode_encode_GMSignatureRef x : decode_GMSignatureRef (encode_GMSignatureRef x) = Ok x.
Proof.
  unfold decode_GMSignatureRef, encode_GMSignatureRef. decode_object. cbn [from_option id].
  rewrite decode_encode_GMSignerRef. cbn [mbind result_bind]. repeat step. by destruct x.
Qed.
#[export] Hint Resolve decode_encode_GMSignatureRef : decode.

Lemma decode_encode_StaticRef x : decode_StaticRef (encode_StaticRef x) = Ok x.
Proof. unfold decode_StaticRef, encode_StaticRef. decode_object. by destruct x. Qed.
#[export] Hint Resolve decode_encode_StaticRef : decode.

Lemma decode_encode_AttestationPolicy x : decode_AttestationPolicy (encode_AttestationPolicy x) = Ok x.
Proof. unfold decode_AttestationPolicy, encode_AttestationPolicy. decode_object. by destruct x. Qed.
#[export] Hint Resolve decode_encode_AttestationPolicy : decode.

Lemma decode_encode_RFC3161Timestamp x : decode_RFC3161Timestamp (encode_RFC3161Timestamp x) = Ok x.
Proof. unfold decode_RFC3161Timestamp, encode_RFC3161Timestamp. decode_object. by destruct x. Qed.
#[export] Hint Resolve decode_encode_RFC3161Timestamp : decode.

Section RoundTrip.
#[local] Set Default Proof Using "Type*".
Context `{N : NamePkg} `{P : Parsers}.
Variable parseURL : string → result string URL.

(** A URL's text parses to the URL: knative writes it with [String()]. *)
Hypothesis parseURL_String : ∀ u, parseURL (urlString u) = Ok u.

Lemma decode_encode_URL u : decode_URL parseURL (encode_URL u) = Ok u.
Proof. apply parseURL_String. Qed.
#[local] Hint Resolve decode_encode_URL : decode.

Lemma decode_encode_TLog x : decode_TLog parseURL (encode_TLog x) = Ok x.
Proof. unfold decode_TLog, encode_TLog. decode_object. by destruct x. Qed.
#[local] Hint Resolve decode_encode_TLog : decode.

Lemma KeyRef_map d h : ∃ m, as_string_map (JObj (omitempty_string "data" d ++
    omitempty_string "hashAlgorithm" h)) = Ok m ∧
  default "" (m !! "data") = d ∧ default "" (m !! "hashAlgorithm") = h.
Proof.
  unfold omitempty_string.
  destruct (String.eqb_spec d "") as [->|_], (String.eqb_spec h "") as [->|_];
    (eexists; split; [reflexivity|]);
    rewrite ?lookup_insert_eq, ?lookup_insert_ne, ?lookup_insert_eq, ?lookup_empty by done; done.
Qed.

Lemma KeyRef_UnmarshalJSON_encode k : KeyRef_UnmarshalJSON (encode_KeyRef k) = populate_KeyRef k.
Proof.
  unfold KeyRef_UnmarshalJSON, encode_KeyRef, populate_KeyRef.
  destruct (KeyRef_map (key_Data k) (key_HashAlgorithm k)) as (m & -> & Hd & Hh).
  cbn [mbind result_bind]. by rewrite Hd, Hh.
Qed.

Lemma decode_KeylessRef_encode k :
  decode_KeylessRef parseURL (encode_KeylessRef k) = populate_KeylessRef k.
Proof.
  unfold decode_KeylessRef, encode_KeylessRef, populate_KeylessRef. decode_object.
  rewrite (ptr_omitted _ encode_KeyRef populate_KeyRef) by (done || apply KeyRef_UnmarshalJSON_encode).
  destruct (populate_ptr populate_KeyRef (CACert k)); cbn [mbind result_bind]; [|done].
  by repeat step.
Qed.

Lemma Authority_UnmarshalJSON_encode a :
  Authority_UnmarshalJSON parseURL (encode_Authority a) = populate_Authority a.
Proof.
  unfold Authority_UnmarshalJSON, decode_RawAuthority, encode_Authority, populate_Authority.
  decode_object.
  rewrite (ptr_omitted _ encode_KeyRef populate_KeyRef) by (done || apply KeyRef_UnmarshalJSON_encode).
  destruct (populate_ptr populate_KeyRef (Key a)); cbn [mbind result_bind]; [|done].
  rewrite (ptr_omitted _ encode_KeylessRef populate_KeylessRef) by (done || apply decode_KeylessRef_encode).
  destruct (populate_ptr populate_KeylessRef (Keyless a)); cbn [mbind result_bind]; [|done].
  by repeat step.
Qed.

Lemma decode_encode_ClusterImagePolicy (c : ClusterImagePolicy) :
  decode_ClusterImagePolicy parseURL (encode_ClusterImagePolicy c) = populate c.
Proof.
  unfold decode_ClusterImagePolicy, encode_ClusterImagePolicy, populate. decode_object.
  cbn [slice_of].
  rewrite (mapM_encode decode_ImagePattern encode_ImagePattern _ _ decode_encode_ImagePattern),
    mapM_Ok. cbn [mbind result_bind].
  rewrite (mapM_encode _ _ _ _ Authority_UnmarshalJSON_encode).
  destruct (mapM populate_Authority (Authorities c)); cbn [mbind result_bind]; [|done].
  by repeat step.
Qed.

(** C24: what the reconciler writes to the ConfigMap is what the webhook reads:
    reading back a marshalled policy gives the policy itself, every field of it,
    with the public keys and hash code of each key and the registry options of
    each authority computed from the text, or the error of computing them. *)
Theorem configmap_roundtrip (c : ClusterImagePolicy) :
  decode_ClusterImagePolicy parseURL (encode_ClusterImagePolicy c) = populate c.
Proof. apply decode_encode_ClusterImagePolicy. Qed.

End RoundTrip.

Lemma configmap_roundtrip_witness :
  ∃ c', decode_ClusterImagePolicy (N := ToyNames.names) (P := ToyParsers.parsers)
    (λ s, Ok {| urlString := s |})
    (encode_ClusterImagePolicy (P := ToyParsers.parsers)
      {| UID := "u"; ResourceVersion := "1"; Images := [{| V1alpha1.Glob := "*" |}];
         Authorities := [{| auth_Name := "a"; Key := Some {| key_Data := "PEM"; key_HashAlgorithm := "sha512";
           HashAlgorithmCode := SHA512; PublicKeys := [] |}; Keyless := None; Static := None;
           Sources := [{| V1alpha1.OCI := "ghcr.io/sigs"; V1alpha1.SignaturePullSecrets := [];
                          V1alpha1.TagPrefix := None |}];
           CTLog := None; RemoteOpts := []; Attestations := []; auth_RFC3161Timestamp := None;
           GMSignature := None; SignatureFormat := "" |}];
         cip_Policy := None; Mode := "warn"; cip_Match := [] |}) = Ok c' ∧
    (λ a, PublicKeys <$> Key a) <$> Authorities c' = [Some [Some "PEM"]] ∧
    RemoteOpts <$> Authorities c' = [[WithTargetRepository "ghcr.io/sigs"]].
Proof.
  eexists. split.
  - rewrite (configmap_roundtrip (N := ToyNames.names) (P := ToyParsers.parsers)) by (by intros []).
    vm_compute. reflexivity.
  - vm_compute. split; reflexivity.
Defined.
