(* ===== verification/SigstoreKeys.v ===== *)
(** The trust roots the webhook reads from the config-sigstore-keys ConfigMap
    (pkg/apis/config/sigstore_keys.go): the fields of the protobuf TrustedRoot
    the verification uses, the PEM serialization of its certificates and keys,
    and the reading of the ConfigMap. A nested message that a text leaves out is nil,
    [None] here; the elements of a list are never nil, since protojson refuses null
    there. *)

From S2P Require Import Prelude.
From S2P Require Import Encoding.

(** * encoding/pem *)

(** The base64 text in lines of 64 characters. *)
Fixpoint pem_lines (fuel : nat) (s : string) : string :=
  match fuel with
  | O => ""
  | S fuel =>
      if s ==s "" then ""
      else String.substring 0 64 s +:+ String "010" "" +:+
           pem_lines fuel (String.substring 64 (String.length s - 64) s)
  end.

Definition newline : string := String "010" "".

Definition pem_EncodeToMemory (type_ bytes : string) : string :=
  let b := Base64.EncodeToString bytes in
  "-----BEGIN " +:+ type_ +:+ "-----" +:+ newline +:+
  pem_lines (S (String.length b)) b +:+
  "-----END " +:+ type_ +:+ "-----" +:+ newline.

(** * The protobuf messages *)

Record Timestamp := { Seconds : Z; Nanos : Z }.
Record TimeRange := { tr_Start : option Timestamp; tr_End : option Timestamp }.
Record DistinguishedName := { Organization : string; CommonName : string }.
Record X509Certificate := { RawBytes : string }.
Record CertificateAuthority := {
  ca_Subject : option DistinguishedName;
  Uri : string;
  (** the certificates of the [X509CertificateChain] *)
  CertChain : option (list X509Certificate);
  ca_ValidFor : option TimeRange
}.
Inductive PbHashAlgorithm :=
  HASH_ALGORITHM_UNSPECIFIED | SHA2_256 | SHA2_384 | SHA2_512.
Inductive PublicKeyDetails :=
  | PUBLIC_KEY_DETAILS_UNSPECIFIED
  | PKIX_ECDSA_P256_SHA_256 | PKIX_ECDSA_P384_SHA_384 | PKIX_ECDSA_P521_SHA_512
  | PKIX_RSA_PSS_2048_SHA256 | PKIX_RSA_PSS_3072_SHA256 | PKIX_RSA_PSS_4096_SHA256
  | OtherKeyDetails (code : Z).
Record PbPublicKey := {
  pk_RawBytes : string;
  KeyDetails : PublicKeyDetails;
  pk_ValidFor : option TimeRange
}.
Record TransparencyLogInstance := {
  BaseUrl : string;
  tl_HashAlgorithm : PbHashAlgorithm;
  tl_PublicKey : option PbPublicKey;
  (** the [KeyId] of the [LogId] *)
  LogId : option string
}.
Record SigstoreKeys := {
  MediaType : string;
  Tlogs : list TransparencyLogInstance;
  CertificateAuthorities : list CertificateAuthority;
  Ctlogs : list TransparencyLogInstance;
  TimestampAuthorities : list CertificateAuthority
}.

Definition SigstoreKeysMap : Type := gmap string SigstoreKeys.

(** The loop of [SerializeCertChain], and the block of [SerializePublicKey]. *)
Definition chainPEM (Certificates : list X509Certificate) : string :=
  foldl (λ chain cert, chain +:+ pem_EncodeToMemory "CERTIFICATE" (RawBytes cert)) "" Certificates.
Definition keyPEM (publicKey : PbPublicKey) : string :=
  pem_EncodeToMemory "PUBLIC KEY" (pk_RawBytes publicKey).

(** [None] is the panic of the dereference of nil. *)
Definition SerializeCertChain (certChain : option (list X509Certificate)) : option string :=
  chainPEM <$> certChain.
Definition SerializePublicKey (publicKey : option PbPublicKey) : option string :=
  keyPEM <$> publicKey.

(** What the runtime says of such a dereference. *)
Definition nilDereference : string := "runtime error: invalid memory address or nil pointer dereference".

(** * The ConfigMap *)

(** sigs.k8s.io/yaml on texts, and protojson for the message. *)
Class KeysFormats := {
  yaml_YAMLToJSON : string → result string string;
  protojson_Unmarshal : string → result string SigstoreKeys;
  protojson_Marshal : SigstoreKeys → string
}.

Section FromMap.
Context `{KF : KeysFormats}.

Definition parseSigstoreKeys (entry : string) : result string SigstoreKeys :=
  match yaml_YAMLToJSON entry with
  | Err err => Err ("config's value could not be converted to JSON: " +:+ err +:+ " : " +:+ entry)
  | Ok j => protojson_Unmarshal j
  end.

(** The loop over the ConfigMap's data, in the order [order] the map is ranged
    over: the first bad entry is returned. *)
Fixpoint NewSigstoreKeysFromMap_loop (order : list (string * string)) (ret : SigstoreKeysMap) :
    result string SigstoreKeysMap :=
  match order with
  | [] => Ok ret
  | (k, v) :: rest =>
      if k ==s "_example" then NewSigstoreKeysFromMap_loop rest ret
      else if v ==s "" then Err ("configmap has an entry " +:+ quote k +:+ " but no value")
      else
        match parseSigstoreKeys v with
        | Err err => Err ("failed to parse the entry " +:+ quote k +:+ " : " +:+ quote v +:+
                          " : " +:+ err)
        | Ok sigstoreKeys => NewSigstoreKeysFromMap_loop rest (<[k := sigstoreKeys]> ret)
        end
  end.
Definition NewSigstoreKeysFromMap (order : list (string * string)) : result string SigstoreKeysMap :=
  NewSigstoreKeysFromMap_loop order ∅.

End FromMap.
