(* ===== verification/Pem.v ===== *)
(** The standard library's encoding/pem: [Decode], on byte strings, and that it
    reads back what [pem_EncodeToMemory] writes; the blocks of a text
    (pkg/webhook/validation.go). The program reads the bytes of a block and no
    header. *)

From S2P Require Import Prelude.
From S2P Require Import Encoding.
From S2P Require Import SigstoreKeys.

(** * Byte strings *)

Fixpoint sdrop (n : nat) (s : string) : string :=
  match n, s with S n, String _ s => sdrop n s | _, _ => s end.

(** [bytes.Cut(s, sep)], a non-empty [sep]. *)
Fixpoint Cut (s sep : string) : option (string * string) :=
  if HasPrefix s sep then Some ("", sdrop (String.length sep) s)
  else match s with
       | EmptyString => None
       | String c s =>
           match Cut s sep with Some (before, after) => Some (String c before, after) | None => None end
       end.

Fixpoint HasSuffix (s suffix : string) : bool :=
  (s ==s suffix) || match s with EmptyString => false | String _ s => HasSuffix s suffix end.

(** [s] without its trailing bytes that satisfy [p], or without one of them. *)
Fixpoint trim_right (p : ascii → bool) (s : string) : string :=
  match s with
  | EmptyString => ""
  | String c s => let t := trim_right p s in if (t ==s "") && p c then "" else String c t
  end.
Fixpoint trim_last (p : ascii → bool) (s : string) : string :=
  match s with
  | EmptyString => ""
  | String c EmptyString => if p c then "" else s
  | String c s => String c (trim_last p s)
  end.

Definition nl : ascii := "010".
Definition is_blank (c : ascii) : bool := Ascii.eqb c " " || Ascii.eqb c "009".

(** Up to a newline, and after it. *)
Fixpoint raw_line (s : string) : string * option string :=
  match s with
  | EmptyString => ("", None)
  | String c s =>
      if Ascii.eqb c nl then ("", Some s)
      else let '(line, rest) := raw_line s in (String c line, rest)
  end.

Definition getLine (data : string) : string * string :=
  match raw_line data with
  | (line, Some rest) => (trim_right is_blank (trim_last (λ c, Ascii.eqb c "013") line), rest)
  | (line, None) => (trim_right is_blank line, "")
  end.

Fixpoint removeSpacesAndTabs (s : string) : string :=
  match s with
  | EmptyString => ""
  | String c s => if is_blank c then removeSpacesAndTabs s else String c (removeSpacesAndTabs s)
  end.

(** * Decode *)

Record Block := { block_Type : string; block_Bytes : string }.

Definition pemStart : string := String nl "-----BEGIN ".
Definition pemEnd : string := String nl "-----END ".
Definition pemEndOfLine : string := "-----".

(** Past the next start of a block. *)
Definition begin (rest : string) : option string :=
  if HasPrefix rest "-----BEGIN " then Some (sdrop 11 rest) else snd <$> Cut rest pemStart.

(** Past the headers: whether there was one; [None] at the end of the data. Every
    header takes a line, so that the length of the data is enough fuel. *)
Fixpoint headers (fuel : nat) (seen : bool) (rest : string) : option (bool * string) :=
  match fuel with
  | O => None
  | S fuel =>
      if rest ==s "" then None
      else let '(line, next) := getLine rest in
           if ContainsRune line ":" then headers fuel true next else Some (seen, rest)
  end.

(** The end line, found at the start of [rest] or after a newline: what is before
    it and what follows its dashes. *)
Definition end_line (seen : bool) (rest : string) : option (string * string) :=
  if negb seen && HasPrefix rest "-----END " then Some ("", sdrop 9 rest) else Cut rest pemEnd.

(** One block, begun: the block and the rest after it, or the data to go on with
    ([inl]), or no block at all ([None]). *)
Definition block (rest : string) : option (string + Block * string) :=
  let '(typeLine, rest) := getLine rest in
  if negb (HasSuffix typeLine pemEndOfLine) then Some (inl rest) else
  let type_ := String.substring 0 (String.length typeLine - 5) typeLine in
  match headers (S (String.length rest)) false rest with
  | None => None
  | Some (seen, rest) =>
  match end_line seen rest with
  | None => Some (inl rest)
  | Some (body, endTrailer) =>
  (* the same type, five dashes, and white space *)
  let trailer := type_ +:+ pemEndOfLine in
  if negb (HasPrefix endTrailer trailer) then Some (inl rest)
  else if negb ((getLine (sdrop (String.length trailer) endTrailer)).1 ==s "") then Some (inl rest)
  else
    match Base64.DecodeString (removeSpacesAndTabs body) with
    | Err _ => Some (inl rest)
    | Ok bytes => Some (inr ({| block_Type := type_; block_Bytes := bytes |}, (getLine endTrailer).2))
    end
  end end.

(** Every round consumes the start of a block. *)
Fixpoint decode_loop (fuel : nat) (rest : string) : option (Block * string) :=
  match fuel with
  | O => None
  | S fuel =>
      match begin rest with
      | None => None
      | Some rest =>
          match block rest with
          | None => None
          | Some (inl rest) => decode_loop fuel rest
          | Some (inr r) => Some r
          end
      end
  end.
Definition Decode (data : string) : option (Block * string) :=
  decode_loop (S (String.length data)) data.

Example Decode_example :
  Decode ("junk" +:+ newline +:+ pem_EncodeToMemory "PUBLIC KEY" "abc" +:+ "rest") =
  Some ({| block_Type := "PUBLIC KEY"; block_Bytes := "abc" |}, "rest").
Proof. vm_compute. reflexivity. Qed.

(** * Every block consumes data *)

#[local] Arguments String.append : simpl nomatch.

Lemma sdrop_length n s : String.length (sdrop n s) = (String.length s - n)%nat.
Proof. revert s. induction n as [|n IH]; intros [|c s]; cbn; rewrite ?IH; done. Qed.

Lemma prefix_app p s : String.prefix p s = true ↔ ∃ t, s = p +:+ t.
Proof.
  revert s. induction p as [|c p IH]; intros s.
  { split; [by exists s|]. by destruct s. }
  destruct s as [|d s]; [split; [done|by intros [t [=]]]|].
  change (String.prefix (String c p) (String d s)) with (if ascii_dec c d then String.prefix p s else false).
  destruct (ascii_dec c d) as [<-|Hn].
  - rewrite IH. split; intros [t Ht]; exists t; [by rewrite Ht|by injection Ht].
  - split; [done|]. intros [t [=]]. congruence.
Qed.

Lemma sdrop_app p t : sdrop (String.length p) (p +:+ t) = t.
Proof. induction p as [|c p IH]; [by destruct t|]. cbn. exact IH. Qed.

Lemma Cut_Some s sep before after : Cut s sep = Some (before, after) → s = before +:+ sep +:+ after.
Proof.
  assert (Hdrop : ∀ s, HasPrefix s sep = true → s = sep +:+ sdrop (String.length sep) s).
  { intros s' [t ->]%prefix_app. by rewrite sdrop_app. }
  revert before. induction s as [|c s IH]; intros before H; cbn [Cut] in H.
  - destruct (HasPrefix "" sep) eqn:Hp; [|done]. injection H as <- <-. by apply Hdrop.
  - destruct (HasPrefix (String c s) sep) eqn:Hp; [injection H as <- <-; by apply Hdrop|].
    destruct (Cut s sep) as [[b a]|]; [|done]. injection H as <- <-. cbn. by rewrite (IH b eq_refl) at 1.
Qed.

Lemma string_length_app s t : String.length (s +:+ t) = (String.length s + String.length t)%nat.
Proof. induction s as [|c s IH]; cbn; [done|]. by rewrite IH. Qed.

Lemma raw_line_spec s : match raw_line s with
  | (line, Some rest) => s = line +:+ String nl rest
  | (line, None) => s = line
  end.
Proof.
  induction s as [|c s IH]; cbn; [done|]. destruct (Ascii.eqb_spec c nl) as [->|]; [done|].
  destruct (raw_line s) as [line [rest|]]; cbn; by rewrite <-IH.
Qed.

Lemma getLine_length s : s ≠ "" → (String.length (getLine s).2 < String.length s)%nat.
Proof.
  intros Hs. unfold getLine. pose proof (raw_line_spec s) as H.
  destruct (raw_line s) as [line [rest|]]; cbn.
  - rewrite H, string_length_app. cbn. lia.
  - destruct s; [done|]. cbn. lia.
Qed.

Lemma getLine_length_le s : (String.length (getLine s).2 ≤ String.length s)%nat.
Proof. destruct (decide (s = "")) as [->|Hs]; [done|]. apply getLine_length in Hs. lia. Qed.

Lemma headers_length fuel seen rest seen' rest' : headers fuel seen rest = Some (seen', rest') →
  (String.length rest' ≤ String.length rest)%nat.
Proof.
  revert seen rest. induction fuel as [|fuel IH]; intros seen rest; cbn; [done|].
  destruct (rest ==s ""); [done|]. pose proof (getLine_length_le rest).
  destruct (getLine rest) as [line next]. cbn in *. destruct (ContainsRune line ":").
  - intros H'%IH. lia.
  - by intros [= _ ->].
Qed.

Lemma headers_fuel fuel fuel' seen rest : (String.length rest < fuel)%nat → (String.length rest < fuel')%nat →
  headers fuel seen rest = headers fuel' seen rest.
Proof.
  revert fuel' seen rest. induction fuel as [|fuel IH]; intros [|fuel'] seen rest Hf Hf'; try lia. cbn.
  destruct (String.eqb_spec rest "") as [|Hr]; [done|]. apply getLine_length in Hr.
  destruct (getLine rest) as [line next]. cbn in *. destruct (ContainsRune line ":"); [|done].
  apply IH; lia.
Qed.

Lemma begin_length rest rest' : begin rest = Some rest' →
  (String.length rest' < String.length rest)%nat.
Proof.
  unfold begin, HasPrefix. destruct (String.prefix _ rest) eqn:Hp.
  - apply prefix_app in Hp as [t ->]. intros [= <-]. cbn. lia.
  - destruct (Cut rest pemStart) as [[b a]|] eqn:Hc; [|done]. intros [= <-].
    apply Cut_Some in Hc as ->. rewrite !string_length_app. cbn. lia.
Qed.

Lemma end_line_length seen rest body trailer : end_line seen rest = Some (body, trailer) →
  (String.length trailer < String.length rest)%nat.
Proof.
  unfold end_line, HasPrefix. destruct (negb seen && String.prefix _ rest) eqn:Hp.
  - apply andb_true_iff in Hp as [_ [t ->]%prefix_app]. intros [= <- <-]. cbn. lia.
  - intros ->%Cut_Some. rewrite !string_length_app. cbn. lia.
Qed.

Definition block_rest (r : string + Block * string) : string :=
  match r with inl rest => rest | inr (_, rest) => rest end.

Lemma block_length rest r : block rest = Some r → (String.length (block_rest r) ≤ String.length rest)%nat.
Proof.
  unfold block. pose proof (getLine_length_le rest) as Hl.
  destruct (getLine rest) as [typeLine rest1]. cbn in Hl.
  destruct (negb (HasSuffix typeLine pemEndOfLine)); [by intros [= <-]|].
  destruct (headers _ false rest1) as [[seen rest2]|] eqn:Hh; [|done]. apply headers_length in Hh.
  destruct (end_line seen rest2) as [[body trailer]|] eqn:He; [|intros [= <-]; cbn; lia].
  apply end_line_length in He. pose proof (getLine_length_le trailer).
  cbv zeta. destruct (negb (HasPrefix _ _)); [intros [= <-]; cbn; lia|].
  destruct (negb (_ ==s "")); [intros [= <-]; cbn; lia|].
  destruct (Base64.DecodeString _); intros [= <-]; cbn; lia.
Qed.

(** [Decode]'s loop terminates: the length of the data is enough fuel. *)
Lemma decode_loop_fuel fuel fuel' rest : (String.length rest < fuel)%nat → (String.length rest < fuel')%nat →
  decode_loop fuel rest = decode_loop fuel' rest.
Proof.
  revert fuel' rest. induction fuel as [|fuel IH]; intros [|fuel'] rest Hf Hf'; try lia. cbn.
  destruct (begin rest) as [rest1|] eqn:Hb; [|done]. apply begin_length in Hb.
  destruct (block rest1) as [[rest2|r]|] eqn:Hbl; [|done..]. apply block_length in Hbl. cbn in Hbl.
  apply IH; lia.
Qed.

Lemma Decode_length data b rest : Decode data = Some (b, rest) →
  (String.length rest < String.length data)%nat.
Proof.
  unfold Decode. generalize (S (String.length data)). intros fuel. revert data.
  induction fuel as [|fuel IH]; intros data; cbn; [done|].
  destruct (begin data) as [rest1|] eqn:Hb; [|done]. apply begin_length in Hb.
  destruct (block rest1) as [[rest2|r]|] eqn:Hbl; [| |done]; apply block_length in Hbl; cbn in Hbl.
  - intros H%IH. lia.
  - intros [= ->]. lia.
Qed.

(** * Reading back what was written *)

Fixpoint all_chars (p : ascii → bool) (s : string) : bool :=
  match s with EmptyString => true | String c s => p c && all_chars p s end.

Lemma all_chars_app p s t : all_chars p (s +:+ t) = all_chars p s && all_chars p t.
Proof. induction s as [|c s IH]; cbn; [done|]. by rewrite IH, andb_assoc. Qed.

Lemma all_chars_impl (p q : ascii → bool) s : (∀ c, p c = true → q c = true) →
  all_chars p s = true → all_chars q s = true.
Proof.
  intros Hpq. induction s as [|c s IH]; cbn; [done|]. rewrite !andb_true_iff. intros [? ?]. auto.
Qed.

(** What may appear in base64 text. *)
Definition base64_char (c : ascii) : bool :=
  negb (Ascii.eqb c nl || Ascii.eqb c "013" || Ascii.eqb c ":" || Ascii.eqb c "-" || is_blank c).

Lemma encode_char_base64 x : base64_char (Base64.encode_char x) = true.
Proof. by destruct x as [[[[[[] []] []] []] []] []]. Qed.

Lemma EncodeToString_base64 s : all_chars base64_char (Base64.EncodeToString s) = true.
Proof.
  induction s as [|x|x y|x y z s IH] using Base64.string3_ind;
    cbn -[base64_char Base64.encode_char]; rewrite ?encode_char_base64, ?IH; done.
Qed.

Lemma raw_line_app line rest : all_chars (λ c, negb (Ascii.eqb c nl)) line = true →
  raw_line (line +:+ String nl rest) = (line, Some rest).
Proof.
  induction line as [|c line IH]; cbn; [done|]. intros [Hc%negb_true_iff Hl]%andb_true_iff.
  by rewrite Hc, IH.
Qed.

Lemma trim_right_id p s : all_chars (λ c, negb (p c)) s = true → trim_right p s = s.
Proof.
  induction s as [|c s IH]; cbn; [done|]. intros [Hc%negb_true_iff Hs]%andb_true_iff.
  rewrite IH by done. by rewrite Hc, andb_false_r.
Qed.
Lemma trim_last_id p s : all_chars (λ c, negb (p c)) s = true → trim_last p s = s.
Proof.
  induction s as [|c s IH]; cbn; [done|]. intros [Hc%negb_true_iff Hs]%andb_true_iff.
  rewrite Hc, IH by done. by destruct s.
Qed.

(** A line without blanks at its end. *)
Definition line_char (c : ascii) : bool :=
  negb (Ascii.eqb c nl || Ascii.eqb c "013" || is_blank c).

Ltac chars := intros c; unfold base64_char, line_char; rewrite !negb_true_iff, ?orb_false_iff; tauto.

Lemma getLine_app line rest : all_chars line_char line = true →
  getLine (line +:+ String nl rest) = (line, rest).
Proof.
  intros Hl. unfold getLine. rewrite raw_line_app by (revert Hl; apply all_chars_impl; chars).
  rewrite trim_last_id by (revert Hl; apply all_chars_impl; chars).
  rewrite trim_right_id by (revert Hl; apply all_chars_impl; chars). done.
Qed.

Lemma substring_split n s :
  String.substring 0 n s +:+ String.substring n (String.length s - n) s = s.
Proof.
  revert s. induction n as [|n IH]; intros [|c s]; cbn; try done.
  - f_equal. clear. induction s as [|c s IH]; cbn; [done|]. by rewrite IH.
  - by rewrite IH.
Qed.

Lemma substring_length n s : String.length (String.substring n (String.length s - n) s) = (String.length s - n)%nat.
Proof.
  assert (∀ s, String.length (String.substring 0 (String.length s) s) = String.length s) as H0.
  { clear. intros s. induction s as [|c s IH]; cbn; [done|]. by rewrite IH. }
  revert s. induction n as [|n IH]; intros [|c s]; cbn; try done. by rewrite H0.
Qed.

Lemma strip_newlines_app s t :
  Base64.strip_newlines (s +:+ t) = Base64.strip_newlines s +:+ Base64.strip_newlines t.
Proof. induction s as [|c s IH]; cbn; [done|]. destruct (_ || _); [done|]. cbn. by rewrite IH. Qed.
Lemma strip_newlines_id s : all_chars base64_char s = true → Base64.strip_newlines s = s.
Proof.
  induction s as [|c s IH]; cbn; [done|]. intros [Hc Hs]%andb_true_iff. unfold base64_char, nl in Hc.
  apply negb_true_iff in Hc. rewrite !orb_false_iff in Hc. destruct Hc as ((((-> & ->) & _) & _) & _).
  cbn. by rewrite IH.
Qed.

Definition text_char (c : ascii) : bool := base64_char c || Ascii.eqb c nl.

Lemma base64_text s : all_chars base64_char s = true → all_chars text_char s = true.
Proof. apply all_chars_impl. unfold text_char. by intros c ->. Qed.

(** The lines of a text are the text, but for newlines, and begin with one of it. *)
Lemma pem_lines_body fuel s : s ≠ "" → (String.length s < fuel)%nat → all_chars base64_char s = true →
  (∃ first rest, pem_lines fuel s = first +:+ String nl rest ∧ all_chars base64_char first = true) ∧
  (∃ text, pem_lines fuel s = text +:+ newline ∧ Base64.strip_newlines text = s ∧
    all_chars text_char text = true).
Proof.
  revert s. induction fuel as [|fuel IH]; intros s Hs Hf Hb; [lia|].
  pose proof (substring_split 64 s) as Hsplit. pose proof (substring_length 64 s) as Hlen.
  cbn [pem_lines]. destruct (String.eqb_spec s "") as [|_]; [done|].
  set (first := String.substring 0 64 s) in *.
  set (tail := String.substring 64 (String.length s - 64) s) in *. clearbody first tail.
  rewrite <-Hsplit, all_chars_app in Hb. apply andb_true_iff in Hb as [Hfirst Htail].
  assert (0 < String.length s)%nat by (destruct s; [done|cbn; lia]).
  split; [by eexists first, _|]. destruct (decide (tail = "")) as [->|Hne].
  - exists first. rewrite string_app_nil_r in Hsplit. subst first. split_and!.
    + destruct fuel; cbn; done.
    + by apply strip_newlines_id.
    + by apply base64_text.
  - destruct (IH tail Hne ltac:(lia) Htail) as (_ & text & Ht & Hstrip & Hchars).
    exists (first +:+ String nl text). split_and!.
    + rewrite Ht. cbn. by rewrite string_app_assoc.
    + rewrite strip_newlines_app. cbn. rewrite Hstrip, strip_newlines_id by done. done.
    + rewrite all_chars_app. cbn. rewrite Hchars. by rewrite base64_text.
Qed.

(** The end line after a text without dashes. *)
Lemma Cut_text text x : all_chars text_char text = true → Cut (text +:+ pemEnd +:+ x) pemEnd = Some (text, x).
Proof.
  induction text as [|c text IH]; intros Ht.
  { cbn -[HasPrefix]. destruct (HasPrefix _ pemEnd) eqn:Hp; [by destruct x|].
    exfalso. apply not_true_iff_false in Hp. apply Hp, prefix_app. by exists x. }
  apply andb_true_iff in Ht as [Hc Ht]. cbn [String.append]. cbn [Cut].
  assert (HasPrefix (String c (text +:+ pemEnd +:+ x)) pemEnd = false) as ->.
  { unfold HasPrefix. apply not_true_iff_false. intros [t [= -> Heq]]%prefix_app.
    destruct text as [|d text]; cbn in Heq; [done|]. injection Heq as -> _. done. }
  by rewrite IH.
Qed.

Lemma ContainsRune_false p c s : (∀ d, p d = true → Ascii.eqb d c = false) → all_chars p s = true →
  ContainsRune s c = false.
Proof.
  intros Hp. induction s as [|d s IH]; cbn; [done|]. intros [Hd Hs]%andb_true_iff.
  by rewrite (Hp d Hd), IH.
Qed.

Lemma removeSpacesAndTabs_id s : all_chars text_char s = true → removeSpacesAndTabs s = s.
Proof.
  induction s as [|c s IH]; cbn; [done|]. intros [Hc Hs]%andb_true_iff. rewrite IH by done.
  destruct (is_blank c) eqn:Hb; [|done]. unfold text_char, base64_char in Hc. rewrite Hb in Hc.
  rewrite orb_true_r in Hc. cbn in Hc. apply Ascii.eqb_eq in Hc as ->. done.
Qed.

(** The types the program writes. *)
Definition pem_type (type_ : string) : Prop := type_ = "CERTIFICATE" ∨ type_ = "PUBLIC KEY".

Lemma getLine_type type_ rest : pem_type type_ →
  getLine (type_ +:+ "-----" +:+ String nl rest) = (type_ +:+ "-----", rest).
Proof. by intros [->| ->]. Qed.

(** The block that follows the start of what [pem_EncodeToMemory] writes. *)
Lemma block_encoded type_ bytes tail : pem_type type_ →
  block (type_ +:+ "-----" +:+ String nl
    (pem_lines (S (String.length (Base64.EncodeToString bytes))) (Base64.EncodeToString bytes) +:+
     "-----END " +:+ type_ +:+ "-----" +:+ String nl tail)) =
  Some (inr ({| block_Type := type_; block_Bytes := bytes |}, tail)).
Proof.
  intros Ht. unfold block. rewrite getLine_type by done.
  assert (HasSuffix (type_ +:+ "-----") pemEndOfLine = true) as -> by (by destruct Ht as [->| ->]).
  assert (String.substring 0 (String.length (type_ +:+ "-----") - 5) (type_ +:+ "-----") = type_) as ->
    by (by destruct Ht as [->| ->]).
  cbn [negb]. set (b64 := Base64.EncodeToString bytes). set (end_ := "-----END " +:+ _).
  set (rest := pem_lines (S (String.length b64)) b64 +:+ end_).
  assert (Hend : ∃ body, headers (S (String.length rest)) false rest = Some (false, rest) ∧
    end_line false rest = Some (body, type_ +:+ "-----" +:+ String nl tail) ∧
    removeSpacesAndTabs body = body ∧ Base64.strip_newlines body = b64).
  { destruct (decide (b64 = "")) as [He|Hne].
    - exists "". subst rest. rewrite He. cbn [pem_lines String.length]. cbn [String.eqb String.append].
      subst end_. destruct Ht as [->| ->]; done.
    - destruct (pem_lines_body (S (String.length b64)) b64 Hne ltac:(lia) (EncodeToString_base64 bytes))
        as [(first & more & Hfirst & Hchars) (text & Htext & Hstrip & Htchars)].
      exists text. split_and!; [| |by apply removeSpacesAndTabs_id|done].
      + assert (Hr : rest = first +:+ String nl (more +:+ end_)).
        { subst rest. rewrite Hfirst, string_app_assoc. done. }
        rewrite Hr. cbn [headers].
        assert (((first +:+ String nl (more +:+ end_)) ==s "") = false) as -> by (by destruct first).
        rewrite getLine_app by (revert Hchars; apply all_chars_impl; chars).
        rewrite (ContainsRune_false base64_char ":" first); [done| |done].
        intros d Hd. unfold base64_char in Hd. by destruct (Ascii.eqb d ":"), (Ascii.eqb d nl), (Ascii.eqb d "013").
      + assert (Hr : rest = text +:+ pemEnd +:+ type_ +:+ "-----" +:+ String nl tail).
        { subst rest. rewrite Htext, string_app_assoc. done. }
        unfold end_line. rewrite Hr. destruct (negb false && HasPrefix _ "-----END ") eqn:Hp.
        * exfalso. cbn [negb andb] in Hp. apply prefix_app in Hp as [t Hp].
          destruct text as [|c text]; cbn in Hp; [done|]. injection Hp as -> _. done.
        * by apply Cut_text. }
  destruct Hend as (body & -> & -> & Hbody & Hstrip). cbv zeta.
  assert (HasPrefix (type_ +:+ "-----" +:+ String nl tail) (type_ +:+ pemEndOfLine) = true) as ->.
  { apply prefix_app. exists (String nl tail). by rewrite string_app_assoc. }
  rewrite <-string_app_assoc. change pemEndOfLine with "-----". rewrite sdrop_app. cbn [negb].
  assert (((getLine (String nl tail)).1 ==s "") = true) as -> by done. cbn [negb].
  rewrite Hbody. unfold Base64.DecodeString. rewrite Hstrip. unfold b64. rewrite Base64.decode_groups_encode.
  rewrite string_app_assoc, getLine_type by done. done.
Qed.

Lemma Decode_EncodeToMemory type_ bytes tail : pem_type type_ →
  Decode (pem_EncodeToMemory type_ bytes +:+ tail) =
  Some ({| block_Type := type_; block_Bytes := bytes |}, tail).
Proof.
  intros Ht. unfold Decode, pem_EncodeToMemory. cbn [decode_loop]. rewrite !string_app_assoc.
  unfold begin.
  assert (HasPrefix ("-----BEGIN " +:+ type_ +:+ "-----" +:+ newline +:+
    pem_lines (S (String.length (Base64.EncodeToString bytes))) (Base64.EncodeToString bytes) +:+
    "-----END " +:+ type_ +:+ "-----" +:+ newline +:+ tail) "-----BEGIN " = true) as ->.
  { apply prefix_app. by eexists. }
  change 11%nat with (String.length "-----BEGIN "). rewrite sdrop_app.
  match goal with |- context [block ?x] =>
    replace (block x) with (Some (@inr string _ ({| block_Type := type_; block_Bytes := bytes |}, tail)))
      by (symmetry; exact (block_encoded type_ bytes tail Ht)) end. done.
Qed.

#[global] Arguments Decode : simpl never.

(** * The blocks of a text *)

(** With fuel; [None] when it is out of fuel. *)
Fixpoint parsePems_loop (fuel : nat) (b : string) : option (list Block) :=
  match fuel with
  | O => None
  | S fuel => match Decode b with
              | None => Some []
              | Some (p, rest) => cons p <$> parsePems_loop fuel rest
              end
  end.
Definition parsePems (b : string) : list Block := default [] (parsePems_loop (S (String.length b)) b).

Lemma parsePems_loop_fuel fuel b : (String.length b < fuel)%nat → parsePems_loop fuel b = Some (parsePems b).
Proof.
  assert (∀ fuel fuel' b, (String.length b < fuel)%nat → (String.length b < fuel')%nat →
    is_Some (parsePems_loop fuel b) ∧ parsePems_loop fuel b = parsePems_loop fuel' b) as H.
  { intros n. induction n as [|n IH]; intros [|n'] t Hn Hn'; try lia. cbn.
    destruct (Decode t) as [[p rest]|] eqn:Hd; [|by split; [eexists|]]. apply Decode_length in Hd.
    destruct (IH n' rest) as [[l Hl] <-]; [lia..|]. rewrite Hl. by split; [eexists|]. }
  intros Hf. unfold parsePems. destruct (H fuel (S (String.length b)) b) as [[l Hl] He]; [lia..|]. by rewrite <-He, Hl.
Qed.

Lemma parsePems_Some b p rest : Decode b = Some (p, rest) → parsePems b = p :: parsePems rest.
Proof.
  intros Hd. apply (inj Some). rewrite <-(parsePems_loop_fuel (S (String.length b)) b) by lia. cbn [parsePems_loop].
  rewrite Hd, parsePems_loop_fuel by by eapply Decode_length. done.
Qed.

(** The blocks of a text that has been written are these, whatever follows. *)
Lemma parsePems_written (blocks : list Block) tail : Forall (λ b, pem_type (block_Type b)) blocks →
  parsePems (foldr (λ b, append (pem_EncodeToMemory (block_Type b) (block_Bytes b))) tail blocks) =
  blocks ++ parsePems tail.
Proof.
  induction 1 as [|[ty bytes] blocks Ht _ IH]; [done|]. cbn [foldr block_Type block_Bytes app].
  by rewrite (parsePems_Some _ _ _ (Decode_EncodeToMemory ty bytes _ Ht)), IH.
Qed.
