(* ===== verification/Paths.v ===== *)
(** The standard library's path/filepath (Unix) and io/fs, as far as the program
    uses them: [Clean], [Join], [ValidPath], and what cleaning guarantees. *)

From S2P Require Import Prelude.

(** * Clean *)

(** One element of a path, onto the cleaned elements before it, last first. *)
Definition clean_elem (rooted : bool) (acc : list string) (e : string) : list string :=
  if (e ==s "") || (e ==s ".") then acc
  else if e ==s ".." then
    match acc with
    | top :: rest => if top ==s ".." then ".." :: acc else rest
    | [] => if rooted then [] else [".."]
    end
  else e :: acc.

Definition rooted (path : string) : bool := HasPrefix path "/".
Definition clean_elems (path : string) : list string :=
  rev (foldl (clean_elem (rooted path)) [] (Split path "/")).

Definition Clean (path : string) : string :=
  let elems := Join (clean_elems path) "/" in
  if rooted path then "/" +:+ elems else if elems ==s "" then "." else elems.

(** [filepath.Join] of two elements: empty ones at the front are ignored. *)
Definition path_Join (d t : string) : string :=
  if d !=s "" then Clean (d +:+ "/" +:+ t) else if t !=s "" then Clean t else "".

(** [fs.ValidPath], but for the test of UTF-8. *)
Definition ValidPath (name : string) : bool :=
  (name ==s ".") ||
  forallb (λ e, negb ((e ==s "") || (e ==s ".") || (e ==s ".."))) (Split name "/").

Example Clean_ex1 : Clean "a//b/../c/." = "a/c". Proof. reflexivity. Qed.
Example Clean_ex2 : Clean "/../a" = "/a". Proof. reflexivity. Qed.
Example Clean_ex3 : Clean "../../a/.." = "../..". Proof. reflexivity. Qed.
Example Clean_ex4 : path_Join "/tmp/x" "../y" = "/tmp/y". Proof. reflexivity. Qed.
Example Clean_ex5 : Clean "/" = "/". Proof. reflexivity. Qed.

(** * What a rooted path becomes *)

(** An element that names something. *)
Definition plain (e : string) : Prop := e ≠ "" ∧ e ≠ "." ∧ e ≠ "..".

Lemma clean_elem_plain acc e : Forall plain acc → Forall plain (clean_elem true acc e).
Proof.
  intros Ha. unfold clean_elem. destruct (String.eqb_spec e ""), (String.eqb_spec e "."); cbn [orb]; try done.
  destruct (String.eqb_spec e "..") as [->|]; [|by constructor].
  destruct Ha as [|top rest [_ [_ Ht]] Hr]; [constructor|]. apply String.eqb_neq in Ht as ->. done.
Qed.

Lemma foldl_clean_plain es acc : Forall plain acc → Forall plain (foldl (clean_elem true) acc es).
Proof. revert acc. induction es as [|e es IH]; intros acc Ha; [done|]. cbn. by apply IH, clean_elem_plain. Qed.

Lemma clean_elems_plain path : rooted path = true → Forall plain (clean_elems path).
Proof.
  intros Hr. unfold clean_elems. rewrite Hr. apply Forall_rev. by apply foldl_clean_plain.
Qed.

(** The elements of a split text have no separator, and joining gives it back. *)
Lemma Split_no_sep s sep : Forall (λ e, ContainsRune e sep = false) (Split s sep).
Proof.
  induction s as [|c s IH]; cbn; [by repeat constructor|].
  destruct (Ascii.eqb c sep) eqn:Hc; [by constructor|].
  destruct (Split s sep) as [|w ws]; [by repeat constructor; cbn; rewrite Hc|].
  inversion IH; subst. constructor; [cbn; by rewrite Hc|done].
Qed.
