(* ===== verification/Tuf.v ===== *)
(** TUF repositories (pkg/tuf/repo.go, pkg/tuf/context.go): archives of a
    repository, the client of a mirror that is held in memory, the fallback
    updater. The cached trusted root is in TrustedRoot.

    gzip and tar are parameters: an archive is the sequence of its entries. *)

From S2P Require Import Prelude.
From S2P Require Import Paths.

Local Open Scope Z_scope.

(** * Archives *)

Inductive Typeflag := TypeDir | TypeReg | OtherType.

(** A [tar.Header], the content that follows it, and what the first [Read] into
    a buffer of [header.Size] bytes gives: at most that much of the content, and
    an error other than [io.EOF]. *)
Record TarEntry := {
  hdr_Name : string;
  hdr_Typeflag : Typeflag;
  hdr_Size : nat;
  hdr_Mode : Z;
  hdr_ModTime : Z;
  content : string;
  firstRead : string;
  readError : option string
}.

(** What [tr.Next] gives: entries, and then the end or an error. *)
Record Archive := { entries : list TarEntry; nextError : option string }.

Definition sanitizeArchivePath (d t : string) : result string string :=
  let v := path_Join d t in
  if HasPrefix v (Clean d) then Ok v
  else Err ("content filepath is tainted: " +:+ t).

(** [header.Mode < 0 && int64(uint32(header.Mode)) != header.Mode] *)
Definition invalidMode (mode : Z) : bool := (mode <? 0) && negb ((mode mod 2 ^ 32) =? mode).
(** [os.FileMode(header.Mode)]: 32 bits. *)
Definition FileMode (mode : Z) : Z := mode mod 2 ^ 32.
Definition ModeDir : Z := 2 ^ 31.

(** ** In memory *)

Record MapFile := { mf_Data : string; mf_Mode : Z; mf_ModTime : Z }.

Fixpoint zeros (n : nat) : string := match n with O => "" | S n => String "000" (zeros n) end.

(** [data := make([]byte, header.Size)], and one read into it. *)
Definition readData (e : TarEntry) : string :=
  firstRead e +:+ zeros (hdr_Size e - String.length (firstRead e)).

(** One entry, into the file system. *)
Definition uncompressEntry (stripPrefix : string) (fs : gmap string MapFile) (header : TarEntry) :
    result string (gmap string MapFile) :=
  match sanitizeArchivePath "/" (hdr_Name header) with
  | Err err => Err err
  | Ok target =>
      let target := TrimPrefix target stripPrefix in
      let target := TrimPrefix target "/" in
      match hdr_Typeflag header with
      | TypeDir =>
          Ok (<[target := {| mf_Data := ""; mf_Mode := ModeDir; mf_ModTime := hdr_ModTime header |}]> fs)
      | TypeReg =>
          match readError header with
          | Some err => Err ("reading file " +:+ hdr_Name header +:+ " : " +:+ err)
          | None =>
              if invalidMode (hdr_Mode header) then Err "invalid mode value in tar header"
              else Ok (<[target := {| mf_Data := readData header; mf_Mode := FileMode (hdr_Mode header);
                                      mf_ModTime := hdr_ModTime header |}]> fs)
          end
      | OtherType => Ok fs
      end
  end.

Fixpoint uncompressEntries (stripPrefix : string) (fs : gmap string MapFile) (es : list TarEntry) :
    result string (gmap string MapFile) :=
  match es with
  | [] => Ok fs
  | header :: es => fs ← uncompressEntry stripPrefix fs header; uncompressEntries stripPrefix fs es
  end.

(** [src] is the archive, or the error of reading it as gzip. *)
Definition UncompressMemFS (src : result string Archive) (stripPrefix : string) :
    result string (gmap string MapFile) :=
  a ← src;
  fs ← uncompressEntries stripPrefix ∅ (entries a);
  match nextError a with Some err => Err err | None => Ok fs end.

(** ** On disk *)

(** What the operating system does: whether a path can be stat'ed, and the errors
    of the calls on a path. *)
Record OS := {
  os_Stat : string → bool;
  os_MkdirAll : string → option string;
  os_OpenFile : string → option string;
  io_Copy : string → option string;
  file_Close : string → option string
}.

Inductive DiskOp := Mkdir (target : string) | WriteFile (target : string) (mode : Z) (data : string).

(** One entry: what is done to the disk, and an error. *)
Definition uncompressToDisk (os : OS) (dst : string) (header : TarEntry) : list DiskOp * option string :=
  match sanitizeArchivePath dst (hdr_Name header) with
  | Err err => ([], Some err)
  | Ok target =>
      match hdr_Typeflag header with
      | TypeDir =>
          if os_Stat os target then ([], None)
          else match os_MkdirAll os target with
               | Some err => ([], Some err)
               | None => ([Mkdir target], None)
               end
      | TypeReg =>
          if invalidMode (hdr_Mode header) then ([], Some "invalid mode value in tar header") else
          match os_OpenFile os target with
          | Some err => ([], Some err)
          | None =>
              let op := WriteFile target (FileMode (hdr_Mode header)) (content header) in
              match io_Copy os target with
              | Some err => ([op], Some err)
              | None =>
                  match file_Close os target with
                  | Some err => ([op], Some ("failed to close file " +:+ target +:+ ": " +:+ err))
                  | None => ([op], None)
                  end
              end
          end
      | OtherType => ([], None)
      end
  end.

Fixpoint uncompressAllToDisk (os : OS) (dst : string) (es : list TarEntry) : list DiskOp * option string :=
  match es with
  | [] => ([], None)
  | header :: es =>
      match uncompressToDisk os dst header with
      | (ops, Some err) => (ops, Some err)
      | (ops, None) => let '(more, err) := uncompressAllToDisk os dst es in (ops ++ more, err)
      end
  end.

Definition Uncompress (os : OS) (src : result string Archive) (dst : string) : list DiskOp * option string :=
  match src with
  | Err err => ([], Some err)
  | Ok a =>
      match uncompressAllToDisk os dst (entries a) with
      | (ops, Some err) => (ops, Some err)
      | (ops, None) => (ops, nextError a)
      end
  end.

(** ** Compressing *)

(** A directory tree, the names of a directory in order; an entry that cannot be
    stat'ed or read carries the error. *)
#[warnings="-register-all"]
Inductive Node :=
  | NodeFile (mode modTime : Z) (data : string)
  | NodeDir (mode modTime : Z) (children : list (string * Node))
  | NodeError (err : string).

Definition fileEntry (file : string) (mode modTime : Z) (data : string) : TarEntry :=
  {| hdr_Name := file; hdr_Typeflag := TypeReg; hdr_Size := String.length data; hdr_Mode := mode;
     hdr_ModTime := modTime; content := data; firstRead := data; readError := None |}.
Definition dirEntry (file : string) (mode modTime : Z) : TarEntry :=
  {| hdr_Name := file; hdr_Typeflag := TypeDir; hdr_Size := 0; hdr_Mode := mode;
     hdr_ModTime := modTime; content := ""; firstRead := ""; readError := None |}.

(** [fs.WalkDir] with the function that writes the entries: a directory before
    what is in it, unless it is to be skipped. *)
Section Walk.
Variable skipDirs : gset string.

Fixpoint walk (file name : string) (n : Node) : result string (list TarEntry) :=
  match n with
  | NodeError err => Err err
  | NodeFile mode modTime data => Ok [fileEntry file mode modTime data]
  | NodeDir mode modTime children =>
      if bool_decide (name ∈ skipDirs) then Ok [] else
      below ← (fix walkAll (l : list (string * Node)) : result string (list TarEntry) :=
        match l with
        | [] => Ok []
        | (name, n) :: l =>
            es ← walk (file +:+ "/" +:+ name) name n; rest ← walkAll l; Ok (es ++ rest)
        end) children;
      Ok (dirEntry file mode modTime :: below)
  end.

(** [root] is the directory "repository" of the file system. *)
Definition CompressFS (root : Node) : result string Archive :=
  match walk "repository" "repository" root with
  | Err err => Err ("WalkDir: " +:+ err)
  | Ok es => Ok {| entries := es; nextError := None |}
  end.
End Walk.

(** * The fetcher of a mirror in memory *)

(** [fs.ReadFile] of a [fstest.MapFS]: the data, no such file, or another error. *)
Inductive ReadResult := ReadData (data : string) | ReadNotExist | ReadError (err : string).
Definition isDir (f : MapFile) : bool := Z.testbit (mf_Mode f) 31.
Definition MapFS_ReadFile (fs : gmap string MapFile) (name : string) : ReadResult :=
  if negb (ValidPath name) then ReadNotExist else
  match fs !! name with
  | Some f => if isDir f then ReadError ("read " +:+ name +:+ ": invalid argument") else ReadData (mf_Data f)
  | None =>
      if (name ==s ".") || existsb (λ kv, HasPrefix kv.1 (name +:+ "/")) (map_to_list fs)
      then ReadError ("read " +:+ name +:+ ": invalid argument") else ReadNotExist
  end.

(** The errors of go-tuf's fetchers. *)
Inductive DownloadError :=
  | ErrDownloadHTTP (StatusCode : Z) (URL : string)
  | ErrDownload (Msg : string)
  | ErrDownloadLengthMismatch (Msg : string).

Record fsFetcher := { fsys : gmap string MapFile; baseURL : string }.

Definition len (s : string) : Z := Z.of_nat (String.length s).

Definition DownloadFile (f : fsFetcher) (urlPath : string) (maxLength : Z) : result DownloadError string :=
  let path := TrimPrefix urlPath (baseURL f) in
  let path := TrimPrefix path "/" in
  match MapFS_ReadFile (fsys f) path with
  | ReadNotExist => Err (ErrDownloadHTTP 404 urlPath)
  | ReadError err => Err (ErrDownload ("reading " +:+ path +:+ ": " +:+ err))
  | ReadData data =>
      if (0 <? maxLength) && (maxLength <? len data)
      then Err (ErrDownloadLengthMismatch ("file " +:+ path +:+ " is " +:+ pretty (len data) +:+
                                           " bytes, max " +:+ pretty maxLength))
      else Ok data
  end.

(** * Clients *)

(** The default fetcher, with the user agent and the client's timeout in seconds. *)
Inductive Fetcher := MemFetcher (f : fsFetcher) | DefaultFetcher (uaString : string) (timeout : Z).

(** [tufconfig.UpdaterConfig], the fields the program sets. *)
Record UpdaterConfig := {
  RemoteMetadataURL : string;
  LocalTrustedRoot : string;
  cfg_Fetcher : Fetcher;
  RemoteTargetsURL : string;
  DisableLocalCache : bool;
  PrefixTargetsWithHash : bool
}.
(** The options given to [sigstoretuf.New]. *)
Record ClientOptions := {
  opt_Root : string;
  opt_RepositoryBaseURL : string;
  opt_DisableLocalCache : bool;
  opt_Fetcher : Fetcher
}.

(** sigstore-go's and go-tuf's clients; [TargetFiles] is a target's custom
    metadata. [tufconfig.New] fails on a metadata URL that does not parse;
    [updater_Refresh] is [updater.New] followed by [Refresh] and the top-level
    targets. *)
Class TufPkg := {
  Client : Type;
  sigstoretuf_New : ClientOptions → result string Client;
  Client_GetTarget : Client → string → result string string;
  tufconfig_New : string → string → result string unit;
  updater_New : UpdaterConfig → result string unit;
  updater_Refresh : UpdaterConfig → result string (list (string * option string))
}.

Section Clients.
Context `{T : TufPkg}.
Variable uaString : string.

(** [sync.Once] and what it has set: [updater] is [None] before. *)
Record TUFClient := {
  client : Client;
  updater : option (result string (list (string * option string)));
  metadataURL : string;
  rootJSON : string;
  targetsURL : string;
  fetcher : Fetcher
}.

Definition GetTarget (c : TUFClient) (target : string) : result string string :=
  Client_GetTarget (client c) target.

Definition newRawUpdater (metadataURL rootJSON targetsURL : string) (f : Fetcher) :
    result string (list (string * option string)) :=
  _ ← tufconfig_New metadataURL rootJSON;
  let cfg := {| RemoteMetadataURL := metadataURL; LocalTrustedRoot := rootJSON; cfg_Fetcher := f;
                RemoteTargetsURL := targetsURL; DisableLocalCache := true; PrefixTargetsWithHash := true |} in
  _ ← updater_New cfg;
  updater_Refresh cfg.

(** The client after the call, and the targets. *)
Definition GetTopLevelTargets (c : TUFClient) :
    TUFClient * result string (list (string * option string)) :=
  match updater c with
  | Some u => (c, u)
  | None =>
      let u := newRawUpdater (metadataURL c) (rootJSON c) (targetsURL c) (fetcher c) in
      ({| client := client c; updater := Some u; metadataURL := metadataURL c; rootJSON := rootJSON c;
          targetsURL := targetsURL c; fetcher := fetcher c |}, u)
  end.

Definition memURL : string := "mem://repo/".

Definition ClientFromSerializedMirror (repo : result string Archive) (rootJSON targets stripPrefix : string) :
    result string TUFClient :=
  tufFS ← map_err (append "failed to uncompress: ") (UncompressMemFS repo stripPrefix);
  let f := MemFetcher {| fsys := tufFS; baseURL := memURL |} in
  client ← map_err (append "failed to create TUF client: ")
    (sigstoretuf_New {| opt_Root := rootJSON; opt_RepositoryBaseURL := memURL;
                        opt_DisableLocalCache := true; opt_Fetcher := f |});
  Ok {| client := client; updater := None; metadataURL := memURL; rootJSON := rootJSON;
        targetsURL := memURL +:+ targets +:+ "/"; fetcher := f |}.

Definition ClientFromRemote (mirror rootJSON targets : string) : result string TUFClient :=
  let f := DefaultFetcher uaString 30 in
  client ← map_err (append "failed to create TUF client: ")
    (sigstoretuf_New {| opt_Root := rootJSON; opt_RepositoryBaseURL := mirror;
                        opt_DisableLocalCache := true; opt_Fetcher := f |});
  Ok {| client := client; updater := None; metadataURL := mirror; rootJSON := rootJSON;
        targetsURL := mirror +:+ "/" +:+ targets +:+ "/"; fetcher := f |}.

End Clients.

(** * The resync period *)

(** The context's resync period, knative's default without one. *)
Definition FromContextOrDefaults (DefaultResyncPeriod : Z) (trustrootResyncPeriod : option Z) : Z :=
  default DefaultResyncPeriod trustrootResyncPeriod.
