(* ===== verification/TufSpec.v ===== *)
(** What the archives of Tuf guarantee. *)

From S2P Require Import Prelude.
From S2P Require Import Paths.
From S2P Require Import Tuf.

Local Open Scope Z_scope.

(** * Archives in memory *)

Lemma prefix_slash s : HasPrefix (String "/" s) "/" = true.
Proof. unfold HasPrefix. cbn. by destruct s. Qed.

(** Nothing is tainted at the root. *)
Lemma sanitize_root t : sanitizeArchivePath "/" t = Ok (Clean (String "/" (String "/" t))).
Proof.
  unfold sanitizeArchivePath. change (Clean "/") with "/". change (path_Join "/" t) with
    (Clean (String "/" (String "/" t))). unfold Clean at 1. unfold rooted at 1. rewrite prefix_slash.
  cbn [String.append]. by rewrite prefix_slash.
Qed.

(** The name an entry is stored under, and the file stored for it. *)
Definition storedName (stripPrefix : string) (e : TarEntry) : string :=
  TrimPrefix (TrimPrefix (Clean (String "/" (String "/" (hdr_Name e)))) stripPrefix) "/".
Definition storedFile (e : TarEntry) : option MapFile :=
  match hdr_Typeflag e with
  | TypeDir => Some {| mf_Data := ""; mf_Mode := ModeDir; mf_ModTime := hdr_ModTime e |}
  | TypeReg => Some {| mf_Data := readData e; mf_Mode := FileMode (hdr_Mode e); mf_ModTime := hdr_ModTime e |}
  | OtherType => None
  end.
(** A regular file that cannot be read, or has a negative mode. *)
Definition badEntry (e : TarEntry) : Prop :=
  hdr_Typeflag e = TypeReg ∧ (readError e ≠ None ∨ hdr_Mode e < 0).

Lemma invalidMode_negative mode : invalidMode mode = (mode <? 0).
Proof.
  unfold invalidMode. destruct (Z.ltb_spec mode 0); cbn; [|done].
  apply negb_true_iff, Z.eqb_neq. pose proof (Z.mod_pos_bound mode (2 ^ 32) ltac:(lia)). lia.
Qed.

Lemma uncompressEntry_spec p fs e : match uncompressEntry p fs e with
  | Ok fs' => ¬ badEntry e ∧ fs' = match storedFile e with Some f => <[storedName p e := f]> fs | None => fs end
  | Err _ => badEntry e
  end.
Proof.
  unfold uncompressEntry, badEntry, storedFile. rewrite sanitize_root.
  destruct (hdr_Typeflag e); [by split; [intros [? _]|]| |by split; [intros [? _]|]].
  destruct (readError e); [split; [done|by left]|]. rewrite invalidMode_negative.
  destruct (Z.ltb_spec (hdr_Mode e) 0); [split; [done|by right]|]. split; [|done].
  intros [_ [?|?]]; [done|lia].
Qed.

Definition storedAs (p key : string) (e : TarEntry) : option MapFile :=
  if decide (storedName p e = key) then storedFile e else None.

Lemma uncompressEntries_spec p fs es : match uncompressEntries p fs es with
  | Ok fs' => Forall (λ e, ¬ badEntry e) es ∧
      ∀ key, fs' !! key = match last (omap (storedAs p key) es) with Some f => Some f | None => fs !! key end
  | Err _ => Exists badEntry es
  end.
Proof.
  revert fs. induction es as [|e es IH]; intros fs; cbn; [done|].
  pose proof (uncompressEntry_spec p fs e) as He.
  destruct (uncompressEntry p fs e) as [fs1|err]; cbn; [|by left]. destruct He as [Hg ->].
  match goal with |- context [uncompressEntries p ?fs1 es] => specialize (IH fs1) end.
  destruct (uncompressEntries p _ es) as [fs'|err]; [|by right]. destruct IH as [Hes IH].
  split; [by constructor|]. intros key. rewrite IH.
  unfold storedAs at 2. destruct (storedFile e) as [f|]; cbn;
    (destruct (decide (storedName p e = key)) as [<-|Hne]); try done.
  - rewrite lookup_insert_eq, last_cons. by destruct (last _).
  - by rewrite lookup_insert_ne.
Qed.

(** Uncompressing an archive into memory: it succeeds exactly when the archive
    reads to its end and no regular file in it has a negative mode or a failing
    read; and then a name holds what the last entry of that cleaned name without
    the prefix stores, for a file the bytes of one read followed by zeroes up to
    its size, which is its content only if that read got all of it. *)
Theorem UncompressMemFS_spec (a : Archive) (stripPrefix : string) :
  match UncompressMemFS (Ok a) stripPrefix with
  | Ok fs => nextError a = None ∧ Forall (λ e, ¬ badEntry e) (entries a) ∧
      ∀ key, fs !! key = last (omap (storedAs stripPrefix key) (entries a))
  | Err _ => nextError a ≠ None ∨ Exists badEntry (entries a)
  end.
Proof.
  unfold UncompressMemFS. cbn [mbind result_bind].
  pose proof (uncompressEntries_spec stripPrefix ∅ (entries a)) as H.
  destruct (uncompressEntries stripPrefix ∅ (entries a)) as [fs|err]; cbn; [|by right].
  destruct (nextError a); [by left|]. destruct H as [Hg H]. split_and!; [done|done|].
  intros key. rewrite H, lookup_empty. by destruct (last _).
Qed.

(** * Archives on disk *)

Lemma Split_cons w s sep : ContainsRune w sep = false →
  Split (w +:+ String sep s) sep = w :: Split s sep.
Proof.
  induction w as [|c w IH]; cbn; [by rewrite Ascii.eqb_refl|].
  intros [Hc Hw]%orb_false_iff. rewrite Hc, (IH Hw). done.
Qed.
Lemma Split_one w sep : ContainsRune w sep = false → Split w sep = [w].
Proof. induction w as [|c w IH]; cbn; [done|]. intros [Hc Hw]%orb_false_iff. by rewrite Hc, (IH Hw). Qed.

Lemma clean_elem_name rooted acc e : plain e → clean_elem rooted acc e = e :: acc.
Proof.
  intros (H1 & H2 & H3). unfold clean_elem. apply String.eqb_neq in H1 as ->, H2 as ->, H3 as ->. done.
Qed.

Lemma HasPrefix_app p s : HasPrefix (p +:+ s) p = true.
Proof.
  unfold HasPrefix. induction p as [|c p IH]; cbn; [by destruct s|]. destruct (ascii_dec c c); done.
Qed.

(** The test against path traversal lets siblings pass: it compares the cleaned
    target with the destination as texts, so an entry "../<base><suffix>" of an
    archive that is uncompressed to "/<base>" is written to "/<base><suffix>",
    outside the destination. *)
Theorem sanitize_admits_siblings (base suffix : string)
    (Hbase : plain base) (Hsep : ContainsRune base "/" = false)
    (Hsuffix : ContainsRune (base +:+ suffix) "/" = false) (Hplain : plain (base +:+ suffix)) :
  sanitizeArchivePath (String "/" base) ("../" +:+ base +:+ suffix) = Ok (String "/" (base +:+ suffix)).
Proof.
  assert (Hd : Clean (String "/" base) = String "/" base).
  { unfold Clean, clean_elems, rooted. rewrite prefix_slash.
    change (Split (String "/" base) "/") with ("" :: Split base "/"). rewrite Split_one by done.
    cbn [foldl]. change (clean_elem true [] "") with (@nil string). rewrite clean_elem_name by done. done. }
  assert (Hj : path_Join (String "/" base) ("../" +:+ base +:+ suffix) = String "/" (base +:+ suffix)).
  { unfold path_Join. cbn [String.eqb negb String.append].
    unfold Clean, clean_elems, rooted. rewrite prefix_slash.
    change (Split (String "/" (base +:+ String "/" (String "." (String "." (String "/" (base +:+ suffix)))))) "/")
      with ("" :: Split (base +:+ String "/" (String "." (String "." (String "/" (base +:+ suffix))))) "/").
    rewrite Split_cons by done. change (Split (String "." (String "." (String "/" (base +:+ suffix)))) "/")
      with (".." :: Split (base +:+ suffix) "/"). rewrite (Split_one (base +:+ suffix)) by done.
    cbn [foldl]. change (clean_elem true [] "") with (@nil string).
    rewrite (clean_elem_name _ [] base) by done. destruct Hbase as (_ & _ & Hb). apply String.eqb_neq in Hb.
    assert (clean_elem true [base] ".." = []) as -> by (unfold clean_elem; cbn -[String.eqb]; by rewrite Hb).
    rewrite clean_elem_name by done. done. }
  unfold sanitizeArchivePath. rewrite Hj, Hd.
  change (String "/" (base +:+ suffix)) with (String "/" base +:+ suffix). by rewrite HasPrefix_app.
Qed.

Lemma sanitize_admits_siblings_witness :
  sanitizeArchivePath "/repo" "../repo-evil" = Ok "/repo-evil".
Proof. apply (sanitize_admits_siblings "repo" "-evil"); repeat split; done. Defined.

(** * The mirror in memory *)

(** A download from a mirror in memory never exceeds the limit the updater
    sets, and is what the file holds; a file that is not there is reported with
    the status 404, which the updater needs to see that there is no newer root. *)
Theorem DownloadFile_spec (f : fsFetcher) (urlPath : string) (maxLength : Z) :
  let path := TrimPrefix (TrimPrefix urlPath (baseURL f)) "/" in
  match DownloadFile f urlPath maxLength with
  | Ok data => MapFS_ReadFile (fsys f) path = ReadData data ∧ (0 < maxLength → len data ≤ maxLength)
  | Err (ErrDownloadHTTP code url) => MapFS_ReadFile (fsys f) path = ReadNotExist ∧ code = 404 ∧ url = urlPath
  | Err (ErrDownloadLengthMismatch _) => ∃ data, MapFS_ReadFile (fsys f) path = ReadData data ∧
      0 < maxLength < len data
  | Err (ErrDownload _) => ∃ err, MapFS_ReadFile (fsys f) path = ReadError err
  end.
Proof.
  cbv zeta. unfold DownloadFile. destruct (MapFS_ReadFile _ _) as [data| |err]; [|done|by eexists].
  destruct (Z.ltb_spec 0 maxLength), (Z.ltb_spec maxLength (len data)); cbn; try (split; [done|lia]).
  exists data. split; [done|lia].
Qed.
