(* ===== verification/TrustedRoot.v ===== *)
(** The cached trusted root of the public TUF repository (pkg/tuf/repo.go,
    [GetTrustedRoot]), under calls that overlap. *)

From S2P Require Import Prelude.

Local Open Scope Z_scope.

Section Cache.
Variable Root : Type.

(** The package's variables: [timestamp] is [None] as long as it is zero. *)
Record RootState := { timestamp : option Z; trustedRoot : option Root }.

(** What a refresh meets: [tuf.NewFromEnv] and its target "trusted_root.json", and
    [root.NewTrustedRootFromJSON] of it. *)
Record Refresh := {
  NewFromEnv : option string;
  targetBytes : result string string;
  NewTrustedRootFromJSON : string → result string Root
}.

(** The test, made without the lock, for the time [now] of the call. *)
Definition expired (resyncPeriodDuration now : Z) (st : RootState) : bool :=
  match timestamp st with
  | None => true
  | Some t => t + resyncPeriodDuration <? now
  end.

(** What is done under the lock by a call of the time [now]: the variables after it,
    and the root or an error. *)
Definition refresh (now : Z) (meets : Refresh) (st : RootState) :
    RootState * result string (option Root) :=
  match NewFromEnv meets with
  | Some err => (st, Err ("initializing tuf: " +:+ err))
  | None =>
      match targetBytes meets with
      | Err err => (st, Err ("error getting targets: " +:+ err))
      | Ok bytes =>
          match NewTrustedRootFromJSON meets bytes with
          | Err err =>
              ({| timestamp := timestamp st; trustedRoot := None |},
               Err ("error creating trusted root: " +:+ err))
          | Ok root => ({| timestamp := Some now; trustedRoot := Some root |}, Ok (Some root))
          end
      end
  end.

(** The calls of a process, each in its goroutine: a call reads the clock, then tests
    the variables, then enters one of the two critical sections; between these, other
    calls may act. The answer nil is [Ok None]. *)
Inductive Call :=
  | Called (now : Z)
  | Due (now : Z)
  | NotDue (now : Z)
  | Answered (now : Z) (answer : result string (option Root)).
Record Process := { clock : Z; variables : RootState; calls : list Call }.

Inductive Event :=
  | Tick (d : Z)
  | Start
  | Test (i : nat)
  | EnterLock (i : nat) (meets : Refresh)
  | EnterRLock (i : nat).

(** [GetTrustedRoot], by the steps of its calls. The clock does not go back. *)
Definition GetTrustedRoot (resyncPeriodDuration : Z) (e : Event) (p : Process) : option Process :=
  match e with
  | Tick d => if 0 <=? d then Some {| clock := clock p + d; variables := variables p; calls := calls p |} else None
  | Start => Some {| clock := clock p; variables := variables p; calls := calls p ++ [Called (clock p)] |}
  | Test i =>
      match calls p !! i with
      | Some (Called now) =>
          let c := if expired resyncPeriodDuration now (variables p) then Due now else NotDue now in
          Some {| clock := clock p; variables := variables p; calls := <[i := c]> (calls p) |}
      | _ => None
      end
  | EnterLock i meets =>
      match calls p !! i with
      | Some (Due now) =>
          let (st, answer) := refresh now meets (variables p) in
          Some {| clock := clock p; variables := st; calls := <[i := Answered now answer]> (calls p) |}
      | _ => None
      end
  | EnterRLock i =>
      match calls p !! i with
      | Some (NotDue now) =>
          Some {| clock := clock p; variables := variables p;
                  calls := <[i := Answered now (Ok (trustedRoot (variables p)))]> (calls p) |}
      | _ => None
      end
  end.

(** A process begins with zero variables. *)
Definition begin (now : Z) : Process :=
  {| clock := now; variables := {| timestamp := None; trustedRoot := None |}; calls := [] |}.
Fixpoint run (resyncPeriodDuration : Z) (events : list Event) (p : Process) : option Process :=
  match events with
  | [] => Some p
  | e :: events => GetTrustedRoot resyncPeriodDuration e p ≫= run resyncPeriodDuration events
  end.

End Cache.

#[global] Arguments timestamp {Root}.
#[global] Arguments trustedRoot {Root}.
#[global] Arguments NewFromEnv {Root}.
#[global] Arguments targetBytes {Root}.
#[global] Arguments NewTrustedRootFromJSON {Root}.
#[global] Arguments expired {Root}.
#[global] Arguments refresh {Root}.
#[global] Arguments Called {Root}.
#[global] Arguments Due {Root}.
#[global] Arguments NotDue {Root}.
#[global] Arguments Answered {Root}.
#[global] Arguments clock {Root}.
#[global] Arguments variables {Root}.
#[global] Arguments calls {Root}.
#[global] Arguments Tick {Root}.
#[global] Arguments Start {Root}.
#[global] Arguments Test {Root}.
#[global] Arguments EnterLock {Root}.
#[global] Arguments EnterRLock {Root}.
#[global] Arguments GetTrustedRoot {Root}.
#[global] Arguments begin {Root}.
#[global] Arguments run {Root}.

(** * What its answers go back to *)

Section Fresh.
Context {Root : Type}.
Variable period : Z.

Abbreviation run := (run period).

(** What a refresh fetches; whether it gets a target that cannot be parsed; and how
    it fails. *)
Definition fetched (meets : Refresh Root) : option Root :=
  match NewFromEnv meets, targetBytes meets with
  | None, Ok bytes => match NewTrustedRootFromJSON meets bytes with Ok root => Some root | Err _ => None end
  | _, _ => None
  end.
Definition unparsable (meets : Refresh Root) : Prop :=
  NewFromEnv meets = None ∧ ∃ bytes, targetBytes meets = Ok bytes ∧ is_Err (NewTrustedRootFromJSON meets bytes).
Definition failure (meets : Refresh Root) (err : string) : Prop :=
  (∃ e, NewFromEnv meets = Some e ∧ err = "initializing tuf: " +:+ e) ∨
  NewFromEnv meets = None ∧
    ((∃ e, targetBytes meets = Err e ∧ err = "error getting targets: " +:+ e) ∨
     ∃ bytes e, targetBytes meets = Ok bytes ∧ NewTrustedRootFromJSON meets bytes = Err e ∧
       err = "error creating trusted root: " +:+ e).

Lemma refresh_spec now meets st : match refresh now meets st with
  | (st', Ok o) => ∃ root, fetched meets = Some root ∧ o = Some root ∧
      st' = {| timestamp := Some now; trustedRoot := Some root |}
  | (st', Err err) => failure meets err ∧ timestamp st' = timestamp st ∧
      (st' = st ∨ trustedRoot st' = None ∧ unparsable meets) ∧ fetched meets = None
  end.
Proof.
  unfold refresh, fetched, failure, unparsable. destruct (NewFromEnv meets) as [e|].
  { split; [left; by eexists|]. split; [done|]. split; [by left|done]. }
  destruct (targetBytes meets) as [bytes|e].
  2: { split; [right; split; [done|]; left; by eexists|]. split; [done|]. split; [by left|done]. }
  destruct (NewTrustedRootFromJSON meets bytes) as [root|e] eqn:Hj; [by eexists|].
  split; [right; split; [done|]; right; by eexists _, _|]. split; [done|]. split; [|done].
  right. split; [done|]. split; [done|]. exists bytes. split; [done|]. rewrite Hj. by eexists.
Qed.

Lemma run_snoc (events : list (Event Root)) (e : Event Root) (p p' : Process Root) :
  run (events ++ [e]) p = Some p' ↔ ∃ p0, run events p = Some p0 ∧ GetTrustedRoot period e p0 = Some p'.
Proof.
  revert p. induction events as [|e0 events IH]; intros p; cbn.
  - split; [|by intros (? & [= ->] & ->)]. intros H. exists p. split; [done|].
    by destruct (GetTrustedRoot period e p).
  - destruct (GetTrustedRoot period e0 p); cbn; [apply IH|]. split; [done|by intros (? & ? & _)].
Qed.

(** Induction on a run from its end. *)
Lemma run_ind (t0 : Z) (Q : list (Event Root) → Process Root → Prop) :
  Q [] (begin t0) →
  (∀ events (e : Event Root) (p p' : Process Root), run events (begin t0) = Some p → Q events p → GetTrustedRoot period e p = Some p' →
     Q (events ++ [e]) p') →
  ∀ events p, run events (begin t0) = Some p → Q events p.
Proof.
  intros H0 Hs events. induction events as [|e events IH] using rev_ind; intros p Hr; [by injection Hr as <-|].
  apply run_snoc in Hr as (p0 & Hr & He). eapply Hs; eauto.
Qed.

(** ** What an answer goes back to *)

(** [root] was fetched, by some call, when the clock showed [at_]. *)
Definition fetch (t0 : Z) (events : list (Event Root)) (root : Root) (at_ : Z) : Prop :=
  ∃ before j meets after p, events = before ++ EnterLock j meets :: after ∧
    run before (begin t0) = Some p ∧ clock p = at_ ∧ fetched meets = Some root.
(** Since the last fetch, a refresh got a target that cannot be parsed. *)
Definition spoilt (events : list (Event Root)) : Prop :=
  ∃ before j meets after, events = before ++ EnterLock j meets :: after ∧ unparsable meets ∧
    ∀ k meets', EnterLock k meets' ∈ after → fetched meets' = None.

Lemma fetch_snoc t0 events e root at_ : fetch t0 events root at_ → fetch t0 (events ++ [e]) root at_.
Proof.
  intros (b & j & m & a & p & -> & H). exists b, j, m, (a ++ [e]), p. split; [|done]. by rewrite <-app_assoc.
Qed.
Lemma spoilt_snoc events e : spoilt events → (∀ k meets, e = EnterLock k meets → fetched meets = None) →
  spoilt (events ++ [e]).
Proof.
  intros (b & j & m & a & -> & Hm & Ha) He. exists b, j, m, (a ++ [e]). rewrite <-app_assoc. split; [done|].
  split; [done|]. intros k meets' [Hin|Hin%list_elem_of_singleton]%elem_of_app; [by eapply Ha|by eapply He].
Qed.

(** What is true of an answer after the events. *)
Definition accounted (t0 : Z) (events : list (Event Root)) (i : nat) (now : Z) (answer : result string (option Root)) : Prop :=
  match answer with
  | Ok (Some root) => ∃ at_, fetch t0 events root at_ ∧ now ≤ at_ + Z.max 0 period
  | Ok None => ∃ before after, events = before ++ EnterRLock i :: after ∧ spoilt before
  | Err err => ∃ meets, EnterLock i meets ∈ events ∧ failure meets err
  end.

Lemma accounted_snoc t0 events e i now answer :
  accounted t0 events i now answer → accounted t0 (events ++ [e]) i now answer.
Proof.
  destruct answer as [[root|]|err]; cbn.
  - intros (at_ & Hf & Hle). exists at_. split; [by apply fetch_snoc|done].
  - intros (b & a & -> & H). exists b, (a ++ [e]). by rewrite <-app_assoc.
  - intros (meets & Hin & H). exists meets. split; [|done]. apply elem_of_app. by left.
Qed.

Definition call_inv (t0 : Z) (events : list (Event Root)) (p : Process Root) (i : nat) (c : Call Root) : Prop :=
  match c with
  | Called now | Due now => now ≤ clock p
  | NotDue now => is_Some (timestamp (variables p)) ∧ ∃ t, now ≤ t + period ∧ t ≤ clock p ∧
      ∀ root, trustedRoot (variables p) = Some root → ∃ at_, fetch t0 events root at_ ∧ t ≤ at_
  | Answered now answer => accounted t0 events i now answer
  end.

Record inv (t0 : Z) (events : list (Event Root)) (p : Process Root) : Prop := {
  inv_time t : timestamp (variables p) = Some t → t ≤ clock p;
  inv_root root : trustedRoot (variables p) = Some root →
    ∃ t at_, timestamp (variables p) = Some t ∧ t ≤ at_ ∧ fetch t0 events root at_;
  inv_none : trustedRoot (variables p) = None → timestamp (variables p) = None ∨ spoilt events;
  inv_calls i c : calls p !! i = Some c → call_inv t0 events p i c
}.

(** Steps that leave the variables. *)
Lemma call_inv_kept t0 events e p p' i c : variables p' = variables p → clock p ≤ clock p' →
  call_inv t0 events p i c → call_inv t0 (events ++ [e]) p' i c.
Proof.
  intros Hv Hc. destruct c as [now|now|now|now answer]; cbn; rewrite ?Hv; [lia..| |apply accounted_snoc].
  intros (Ht & t & Hle & Htc & Hr). split; [done|]. exists t. split; [done|]. split; [lia|].
  intros root Hroot. destruct (Hr root Hroot) as (at_ & Hf & ?). exists at_. split; [by apply fetch_snoc|done].
Qed.

Lemma inv_kept t0 events e p p' : variables p' = variables p → clock p ≤ clock p' →
  (∀ k meets, e = EnterLock k meets → fetched meets = None) → inv t0 events p →
  (∀ i c, calls p' !! i = Some c → calls p !! i = Some c ∨ call_inv t0 (events ++ [e]) p' i c) →
  inv t0 (events ++ [e]) p'.
Proof.
  intros Hv Hc He [H1 H2 H3 H4] Hcalls. split; rewrite ?Hv.
  - intros t Ht. specialize (H1 t Ht). lia.
  - intros root Hr. destruct (H2 root Hr) as (t & at_ & ? & ? & ?). exists t, at_. split_and!; [done..|by apply fetch_snoc].
  - intros Hn. destruct (H3 Hn) as [|Hs]; [by left|right]. by apply spoilt_snoc.
  - intros i c Hi. destruct (Hcalls i c Hi) as [Hi'|]; [|done]. by eapply call_inv_kept; [| |apply H4].
Qed.

Lemma lookup_insert_cases {A} (l : list A) i j x y : <[i := x]> l !! j = Some y → l !! j = Some y ∨ j = i ∧ y = x.
Proof. intros [(-> & <- & _)|[_ H]]%list_lookup_insert_Some; [by right|by left]. Qed.

Lemma refresh_inv t0 events p i now meets st answer : run events (begin t0) = Some p → inv t0 events p →
  calls p !! i = Some (Due now) → refresh now meets (variables p) = (st, answer) →
  inv t0 (events ++ [EnterLock i meets]) {| clock := clock p; variables := st; calls := <[i := Answered now answer]> (calls p) |}.
Proof.
  intros Hrun Hinv Hi Hr. pose proof Hinv as [H1 H2 H3 H4]. pose proof (H4 i _ Hi) as Hnow. cbn in Hnow.
  pose proof (refresh_spec now meets (variables p)) as Hs. rewrite Hr in Hs. destruct answer as [o|err].
  - destruct Hs as (root & Hf & -> & ->).
    assert (fetch t0 (events ++ [EnterLock i meets]) root (clock p)) as Hfetch.
    { by exists events, i, meets, [], p. }
    split; cbn.
    + by intros t [= <-].
    + intros ? [= <-]. by exists now, (clock p).
    + done.
    + intros j c [Hj|[-> ->]]%lookup_insert_cases.
      * pose proof (H4 j c Hj) as Hc. destruct c as [n|n|n|n answer]; cbn in *; [done..| |by apply accounted_snoc].
        destruct Hc as (_ & t & Hle & Htc & _). split; [by eexists|]. exists t. split; [done|]. split; [done|].
        intros ? [= <-]. by exists (clock p).
      * cbn. exists (clock p). split; [done|]. lia.
  - destruct Hs as (Hfail & Ht & Hst & Hnone).
    assert (accounted t0 (events ++ [EnterLock i meets]) i now (Err err)) as Hacc.
    { exists meets. split; [apply elem_of_app; right; left|done]. }
    destruct Hst as [->|[Hn Hun]].
    + apply (inv_kept t0 events _ p); [done|cbn; lia|by intros k m [= _ <-]|done|].
      intros j c [Hj|[-> ->]]%lookup_insert_cases; [by left|by right].
    + assert (spoilt (events ++ [EnterLock i meets])) as Hspoilt.
      { exists events, i, meets, []. split; [done|]. split; [done|]. intros ? ? Hin. by apply elem_of_nil in Hin. }
      split; cbn; rewrite ?Ht, ?Hn; [done|done|by right|].
      intros j c [Hj|[-> ->]]%lookup_insert_cases; [|done].
      pose proof (H4 j c Hj) as Hc. destruct c as [n|n|n|n answer]; cbn in *; [done..| |by apply accounted_snoc].
      destruct Hc as (Hts & t & Hle & Htc & _). rewrite Ht. split; [done|]. exists t. split; [done|]. split; [done|].
      by rewrite Hn.
Qed.

Lemma run_inv t0 events p : run events (begin t0) = Some p → inv t0 events p.
Proof.
  revert events p. apply run_ind.
  - split; cbn; try done. by left.
  - intros events e p p' Hrun Hinv He. destruct e as [d| |i|i meets|i]; cbn [GetTrustedRoot] in He.
    + destruct (Z.leb_spec 0 d); [|done]. injection He as <-.
      apply (inv_kept t0 events _ p); cbn; [done|lia|done|done|]. by left.
    + injection He as <-. apply (inv_kept t0 events _ p); cbn; [done|lia|done|done|].
      intros i c [Hi|[_ Hi]]%lookup_app_Some; [by left|]. apply list_lookup_singleton_Some in Hi as [_ <-]. right. cbn. lia.
    + destruct (calls p !! i) as [[now| | |]|] eqn:Hi; try done. injection He as <-.
      apply (inv_kept t0 events _ p); cbn; [done|lia|done|done|].
      intros j c [Hj|[-> ->]]%lookup_insert_cases; [by left|]. right.
      pose proof (inv_calls _ _ _ Hinv i _ Hi) as Hnow. cbn in Hnow.
      unfold expired. destruct (timestamp (variables p)) as [t|] eqn:Ht; [|done].
      destruct (Z.ltb_spec (t + period) now); [done|]. cbn. rewrite Ht. split; [by eexists|].
      exists t. split; [done|]. split; [by apply (inv_time _ _ _ Hinv)|]. intros root Hroot.
      destruct (inv_root _ _ _ Hinv root Hroot) as (t' & at_ & Ht' & Hle & Hf). rewrite Ht in Ht'. injection Ht' as <-.
      exists at_. split; [by apply fetch_snoc|done].
    + destruct (calls p !! i) as [[|now| |]|] eqn:Hi; try done.
      destruct (refresh now meets (variables p)) as [st answer] eqn:Hr. injection He as <-. by eapply refresh_inv.
    + destruct (calls p !! i) as [[| |now|]|] eqn:Hi; try done. injection He as <-.
      apply (inv_kept t0 events _ p); cbn; [done|lia|done|done|].
      intros j c [Hj|[-> ->]]%lookup_insert_cases; [by left|]. right.
      destruct (inv_calls _ _ _ Hinv i _ Hi) as ([ts Hts] & t & Hle & _ & Hroot). cbn.
      destruct (trustedRoot (variables p)) as [root|] eqn:Hr.
      * destruct (Hroot root eq_refl) as (at_ & Hf & ?). exists at_. split; [by apply fetch_snoc|lia].
      * destruct (inv_none _ _ _ Hinv Hr) as [|Hs]; [congruence|]. by exists events, [].
Qed.

(** ** Calls that do not overlap *)

Definition in_progress (c : Call Root) : Prop := match c with Answered _ _ => False | _ => True end.
Definition alone (t0 : Z) (events : list (Event Root)) : Prop :=
  ∀ before after p, events = before ++ after → run before (begin t0) = Some p →
  ∀ i j x y, calls p !! i = Some x → calls p !! j = Some y → in_progress x → in_progress y → i = j.

Lemma alone_snoc t0 events e : alone t0 (events ++ [e]) → alone t0 events.
Proof. intros H before after p -> Hr. apply (H before (after ++ [e]) p); [by rewrite <-app_assoc|done]. Qed.

(** When there is no root, the next test finds that it is time for a refresh. *)
Definition overdue (st : RootState Root) (c : Call Root) : Prop :=
  match c with
  | Called now => trustedRoot st = None → expired period now st = true
  | Due now => expired period now st = true
  | NotDue now => trustedRoot st ≠ None
  | Answered now answer => answer ≠ Ok None
  end.
Definition alone_inv (p : Process Root) : Prop :=
  (trustedRoot (variables p) = None → ∀ now, clock p ≤ now → expired period now (variables p) = true) ∧
  ∀ i c, calls p !! i = Some c → overdue (variables p) c.

Lemma expired_later now now' (st : RootState Root) :
  now ≤ now' → expired period now st = true → expired period now' st = true.
Proof using Type. unfold expired. destruct (timestamp st); [|done]. rewrite !Z.ltb_lt. lia. Qed.

Lemma alone_refresh t0 events p i now meets st answer : run events (begin t0) = Some p → alone t0 events →
  alone_inv p → now ≤ clock p →
  calls p !! i = Some (Due now) → refresh now meets (variables p) = (st, answer) →
  alone_inv {| clock := clock p; variables := st; calls := <[i := Answered now answer]> (calls p) |}.
Proof.
  intros Hrun Halone [H1 H2] Hnow Hi Hr. pose proof (H2 i _ Hi) as Hexp. cbn in Hexp.
  pose proof (refresh_spec now meets (variables p)) as Hs. rewrite Hr in Hs.
  assert (∀ j c, j ≠ i → calls p !! j = Some c → ∃ n a, c = Answered n a) as Hothers.
  { intros j c Hj Hc. destruct c as [n|n|n|n a]; [..|by eexists _, _];
      by destruct Hj; apply (Halone events [] p (eq_sym (app_nil_r _)) Hrun j i _ _ Hc Hi). }
  assert (answer ≠ Ok None ∧ (trustedRoot st = None → expired period now st = true)) as [Ha Hst].
  { destruct answer as [o|err]; [by destruct Hs as (root & _ & -> & ->)|]. destruct Hs as (_ & Ht & _).
    split; [done|]. intros _. unfold expired in *. by rewrite Ht. }
  split; cbn.
  - intros Hn n Hle. eapply (expired_later now); [lia|by apply Hst].
  - intros j c Hj. destruct (decide (j = i)) as [->|Hne].
    + apply list_lookup_insert_Some in Hj as [(_ & <- & _)|[]]; done.
    + rewrite list_lookup_insert_ne in Hj by done. destruct (Hothers j c Hne Hj) as (n & a & ->). exact (H2 j _ Hj).
Qed.

Lemma run_alone t0 events p : run events (begin t0) = Some p → alone t0 events → alone_inv p.
Proof.
  revert events p. refine (run_ind t0 _ _ _).
  - intros _. split; [done|]. intros i c Hi. done.
  - intros events e p p' Hrun IH He Halone%alone_snoc. pose proof (IH Halone) as Hinv. destruct Hinv as [H1 H2].
    pose proof (run_inv t0 events p Hrun) as Hp.
    destruct e as [d| |i|i meets|i]; cbn [GetTrustedRoot] in He.
    + destruct (Z.leb_spec 0 d); [|done]. injection He as <-. split; cbn; [|done]. intros Hn now Hle. apply H1; [done|lia].
    + injection He as <-. split; cbn; [done|]. intros j c [Hj|[_ Hj]]%lookup_app_Some; [by eapply H2|].
      apply list_lookup_singleton_Some in Hj as [_ <-]. cbn. intros Hn. apply H1; [done|lia].
    + destruct (calls p !! i) as [[now| | |]|] eqn:Hi; try done. injection He as <-. split; cbn; [done|].
      intros j c [Hj|[-> ->]]%lookup_insert_cases; [by eapply H2|]. pose proof (H2 i _ Hi) as Hc. cbn in Hc.
      destruct (expired period now (variables p)) eqn:Hexp; cbn; [done|]. intros Hn. by specialize (Hc Hn).
    + destruct (calls p !! i) as [[|now| |]|] eqn:Hi; try done.
      destruct (refresh now meets (variables p)) as [st answer] eqn:Hr. injection He as <-.
      eapply alone_refresh; [done..|by split| |done|done]. exact (inv_calls _ _ _ Hp i _ Hi).
    + destruct (calls p !! i) as [[| |now|]|] eqn:Hi; try done. injection He as <-. split; cbn; [done|].
      intros j c [Hj|[-> ->]]%lookup_insert_cases; [by eapply H2|]. pose proof (H2 i _ Hi) as Hc. cbn in *.
      by intros [= Hn].
Qed.

(** C28: whatever calls there are and however they overlap, and whichever refreshes
    fail, a root that a call returns was fetched from the repository when the clock
    showed at most the resync period less than at the start of the call; an error is
    that of the call's own refresh; and nil without an error is returned only after a
    refresh that got a target that cannot be parsed, with no fetch since, and never
    as long as calls do not overlap. The clock does not go back. *)
Theorem GetTrustedRoot_fresh (t0 : Z) (events : list (Event Root)) (p : Process Root)
    (Hrun : run events (begin t0) = Some p)
    (i : nat) (now : Z) (answer : result string (option Root)) (Hi : calls p !! i = Some (Answered now answer)) :
  match answer with
  | Ok (Some root) => ∃ at_, fetch t0 events root at_ ∧ now ≤ at_ + Z.max 0 period
  | Ok None => (∃ before after, events = before ++ EnterRLock i :: after ∧ spoilt before) ∧ ¬ alone t0 events
  | Err err => ∃ meets, EnterLock i meets ∈ events ∧ failure meets err
  end.
Proof.
  pose proof (inv_calls _ _ _ (run_inv t0 events p Hrun) i _ Hi) as Hacc. cbn in Hacc.
  destruct answer as [[root|]|err]; [done| |done]. split; [done|]. intros Halone.
  destruct (run_alone t0 events p Hrun Halone) as [_ H]. by apply (H i _ Hi).
Qed.

End Fresh.

(** * Concrete runs *)

Module ToyCalls.

Definition ok (root : string) : Refresh string :=
  {| NewFromEnv := None; targetBytes := Ok root; NewTrustedRootFromJSON b := Ok b |}.
Definition bad : Refresh string :=
  {| NewFromEnv := None; targetBytes := Ok "{"; NewTrustedRootFromJSON _ := Err "invalid" |}.
Definition down : Refresh string :=
  {| NewFromEnv := Some "down"; targetBytes := Err ""; NewTrustedRootFromJSON _ := Err "" |}.

(** A fetch at 100, a call at 105, and a refresh that fails at 120. *)
Definition events : list (Event string) :=
  [Start; Test 0; EnterLock 0 (ok "root"); Tick 5; Start; Test 1; EnterRLock 1;
   Tick 15; Start; Test 2; EnterLock 2 down].

(** The call of 120 is about to refresh when the one of 121 has fetched, and its own
    refresh gets an invalid target: the call of 125, which is not due, gets nil. *)
Definition overlapping : list (Event string) :=
  [Start; Test 0; EnterLock 0 (ok "old"); Tick 20; Start; Test 1; Tick 1; Start; Test 2;
   EnterLock 2 (ok "new"); EnterLock 1 bad; Tick 4; Start; Test 3; EnterRLock 3].

End ToyCalls.

(** The lock does not protect the test: a call that is not due, begun after all
    others have returned, gets neither a root nor an error. *)
Lemma overlapping_calls_serve_nil :
  (run 10 ToyCalls.overlapping (begin 100) ≫= λ p, calls p !! 3%nat) = Some (Answered 125 (Ok None)).
Proof. reflexivity. Qed.

Lemma GetTrustedRoot_fresh_witness :
  ∃ p at_, run 10 ToyCalls.events (begin 100) = Some p ∧ calls p !! 1%nat = Some (Answered 105 (Ok (Some "root"))) ∧
    fetch 10 100 ToyCalls.events "root" at_ ∧ 105 ≤ at_ + 10.
Proof.
  destruct (run 10 ToyCalls.events (begin 100)) as [p|] eqn:Hr; [|vm_compute in Hr; discriminate Hr].
  assert (Hi : calls p !! 1%nat = Some (Answered 105 (Ok (Some "root")))).
  { vm_compute in Hr. injection Hr as <-. reflexivity. }
  destruct (GetTrustedRoot_fresh 10 100 ToyCalls.events p Hr 1 105 (Ok (Some "root")) Hi) as (at_ & Hf & Hle).
  exists p, at_. split; [reflexivity|]. split; [exact Hi|]. split; [exact Hf|exact Hle].
Defined.
