(* ===== verification/TrustRoot.v ===== *)
(** The TrustRoot resource (pkg/apis/policy/v1alpha1/trustroot_types.go,
    trustroot_defaults.go, trustroot_validation.go). *)

From S2P Require Import Prelude.
From S2P Require Import Encoding.
From S2P Require Import FieldErrors.
From S2P Require Import PCConfig.
From S2P Require Import K8s.
From S2P Require Import Oci.
From S2P Require Tuf.

(** * Types *)

(** A []byte that is distinguished from nil is an option. *)
Record Remote := {
  rem_Root : option string;
  Mirror : URL;
  rem_Targets : string;
  rem_TrustedRootTarget : string
}.
Record Repository := {
  repo_Root : option string;
  MirrorFS : string;
  repo_Targets : string;
  repo_TrustedRootTarget : string
}.
Record TransparencyLogInstance := { BaseURL : URL; HashAlgorithm : string; PublicKeyPEM : string }.
Record DistinguishedName := { Organization : string; CommonName : string }.
Record CertificateAuthority := { Subject : DistinguishedName; URI : URL; CertChain : string }.
Record SigstoreKeys := {
  CertificateAuthorities : list CertificateAuthority;
  TLogs : list TransparencyLogInstance;
  CTLogs : list TransparencyLogInstance;
  TimeStampAuthorities : list CertificateAuthority
}.
Record TrustRootSpec := {
  spec_Remote : option Remote;
  spec_Repository : option Repository;
  spec_SigstoreKeys : option SigstoreKeys
}.
Record TrustRoot := {
  tr_TypeMeta : TypeMeta;
  tr_ObjectMeta : ObjectMeta;
  tr_Spec : TrustRootSpec;
  tr_Status : Status
}.

(** * Defaults *)

Definition SetDefaults_Spec (spec : TrustRootSpec) : TrustRootSpec :=
  {| spec_Repository :=
       match spec_Repository spec with
       | Some r =>
           Some (if repo_Targets r ==s ""
                 then {| repo_Root := repo_Root r; MirrorFS := MirrorFS r; repo_Targets := "targets";
                         repo_TrustedRootTarget := repo_TrustedRootTarget r |}
                 else r)
       | None => None
       end;
     spec_Remote :=
       match spec_Remote spec with
       | Some r =>
           Some (if rem_Targets r ==s ""
                 then {| rem_Root := rem_Root r; Mirror := Mirror r; rem_Targets := "targets";
                         rem_TrustedRootTarget := rem_TrustedRootTarget r |}
                 else r)
       | None => None
       end;
     spec_SigstoreKeys := spec_SigstoreKeys spec |}.
Definition SetDefaults (tr : TrustRoot) : TrustRoot :=
  {| tr_TypeMeta := tr_TypeMeta tr; tr_ObjectMeta := tr_ObjectMeta tr;
     tr_Spec := SetDefaults_Spec (tr_Spec tr); tr_Status := tr_Status tr |}.

(** * Validation *)

Definition DefaultTUFRepoPrefix : string := "/repository/".

Section Validation.
Context `{F : FieldErrors} `{J : JsonText} `{C : Certs} `{T : Tuf.TufPkg}.
(** encoding/json's error for a text that is no object. *)
Variable unmarshalError : string → string.
(** gzip and tar of a serialized mirror. *)
Variable untar : string → result string Tuf.Archive.

Definition ValidateRoot (rootJSON : option string) : option FieldError :=
  match rootJSON with
  | None => Some (ErrMissingField ["root"])
  | Some text =>
      let noSignatures := Some (ErrInvalidValue "missing signatures in root.json" "root" ["no signatures"]) in
      match jsonParse text with
      | Some JNull => noSignatures
      | Some (JObj root) =>
          match mapIndex "signatures" root with
          | None | Some JNull => noSignatures
          | Some _ => None
          end
      | _ => Some (ErrInvalidValue "failed to unmarshal" "root" [unmarshalError text])
      end
  end.

Definition Repository_Validate (repo : Repository) : option FieldError :=
  let errors := None in
  let errors := errors ⊕[ repo_Targets repo ==s "" ] ErrMissingField ["targets"] in
  let errors := errors ⊕ ValidateRoot (repo_Root repo) in
  if MirrorFS repo ==s "" then errors ⊕ Some (ErrMissingField ["repository"])
  else
    match errors with
    | Some _ => errors
    | None =>
        match Tuf.ClientFromSerializedMirror (untar (MirrorFS repo)) (default "" (repo_Root repo))
                (repo_Targets repo) DefaultTUFRepoPrefix with
        | Err err => errors ⊕ Some (ErrInvalidValue "failed to construct a TUF client" "mirrorFS" [err])
        | Ok c =>
            match (Tuf.GetTopLevelTargets c).2 with
            | Err err => errors ⊕ Some (ErrInvalidValue "failed to get targets from a TUF client" "mirrorFS" [err])
            | Ok targetFiles => errors
            end
        end
    end.

Definition Remote_Validate (remote : Remote) : option FieldError :=
  let errors := None in
  let errors := errors ⊕[ urlString (Mirror remote) ==s "" ] ErrMissingField ["mirror"] in
  errors ⊕ ValidateRoot (rem_Root remote).

Definition ValidateDistinguishedName (dn : DistinguishedName) : option FieldError :=
  let errors := None in
  let errors := errors ⊕[ Organization dn ==s "" ] ErrMissingField ["organization"] in
  errors ⊕[ CommonName dn ==s "" ] ErrMissingField ["commonName"].

Definition ValidateCertificateAuthority (ca : CertificateAuthority) : option FieldError :=
  let errors := None in
  let errors := ViaField "subject" (errors ⊕ ValidateDistinguishedName (Subject ca)) in
  let errors := errors ⊕[ urlString (URI ca) ==s "" ] ErrMissingField ["uri"] in
  errors ⊕[ CertChain ca ==s "" ] ErrMissingField ["certchain"].

(** The certificates of a chain: leaves, intermediates, roots. *)
Definition SplitPEMCertificateChain (pem : string) :
    result string (list Certificate * list Certificate * list Certificate) :=
  match UnmarshalCertificatesFromPEM pem with
  | Err err => Err err
  | Ok certs =>
      Ok (foldl (λ '(leaves, intermediates, roots) cert,
            if negb (IsCA cert) then (leaves ++ [cert], intermediates, roots)
            else if RawSubject cert ==s RawIssuer cert then (leaves, intermediates, roots ++ [cert])
            else (leaves, intermediates ++ [cert], roots)) ([], [], []) certs)
  end.

Definition ValidateTimeStampAuthority (ca : CertificateAuthority) : option FieldError :=
  let errors := None in
  let errors := ViaField "subject" (errors ⊕ ValidateDistinguishedName (Subject ca)) in
  let errors := errors ⊕[ urlString (URI ca) ==s "" ] ErrMissingField ["uri"] in
  let errors := errors ⊕[ CertChain ca ==s "" ] ErrMissingField ["certchain"] in
  match SplitPEMCertificateChain (CertChain ca) with
  | Err err => errors ⊕ Some (ErrInvalidValue "error splitting the certificates" "certChain" [err])
  | Ok (leaves, _, _) =>
      errors ⊕[ (1 <? length leaves)%nat ]
        ErrInvalidValue "certificate chain must contain at most one TSA certificate" "certChain" []
  end.

Definition ValidateTransparencyLogInstance (tli : TransparencyLogInstance) : option FieldError :=
  let errors := None in
  let errors := errors ⊕[ urlString (BaseURL tli) ==s "" ] ErrMissingField ["baseURL"] in
  let errors := errors ⊕[ HashAlgorithm tli ==s "" ] ErrMissingField ["hashAlgorithm"] in
  errors ⊕[ PublicKeyPEM tli ==s "" ] ErrMissingField ["publicKey"].

(** The loops assign: [errors = ...]. *)
Definition lastOf {A} (errors : option FieldError) (field : string) (l : list A)
    (validate : A → option FieldError) : option FieldError :=
  foldl (λ _ '(i, x), ViaFieldIndex field i (validate x)) errors (indexed l).

Definition SigstoreKeys_Validate (keys : SigstoreKeys) : option FieldError :=
  let errors := None in
  let errors :=
    if isEmpty (CertificateAuthorities keys) && isEmpty (TimeStampAuthorities keys)
    then errors ⊕ Some (ErrMissingOneOf ["certificateAuthority"; "timestampAuthorities"])
    else lastOf errors "certificateAuthority" (CertificateAuthorities keys) ValidateCertificateAuthority in
  let errors := lastOf errors "timestampAuthorities" (TimeStampAuthorities keys) ValidateTimeStampAuthority in
  let errors := lastOf errors "ctLogs" (CTLogs keys) ValidateTransparencyLogInstance in
  lastOf errors "tLogs" (TLogs keys) ValidateTransparencyLogInstance.

Definition TrustRootSpec_Validate (spec : TrustRootSpec) : option FieldError :=
  let oneOf := ["repository"; "remote"; "sigstoreKeys"] in
  if isNil (spec_Repository spec) && isNil (spec_Remote spec) && isNil (spec_SigstoreKeys spec)
  then Some (ErrMissingOneOf oneOf) else
  match spec_Repository spec with
  | Some repo =>
      if notNil (spec_Remote spec) || notNil (spec_SigstoreKeys spec) then Some (ErrMultipleOneOf oneOf)
      else ViaField "repository" (Repository_Validate repo)
  | None =>
      match spec_Remote spec with
      | Some remote =>
          if notNil (spec_SigstoreKeys spec) then Some (ErrMultipleOneOf oneOf)
          else ViaField "remote" (Remote_Validate remote)
      | None =>
          match spec_SigstoreKeys spec with
          | Some keys => ViaField "sigstoreKeys" (SigstoreKeys_Validate keys)
          | None => None
          end
      end
  end.

Definition Validate (ctx : Ctx) (tr : TrustRoot) : option FieldError :=
  if IsInStatusUpdate ctx then None else ViaField "spec" (TrustRootSpec_Validate (tr_Spec tr)).

End Validation.
