(* ===== verification/TrustKeys.v ===== *)
(** From a TrustRoot's keys to the protobuf trusted root of the webhook
    (pkg/apis/config/sigstore_keys.go): the PEM chains and keys are decoded, the
    ids of the logs computed. *)

From S2P Require Import Prelude.
From S2P Require Import Encoding.
From S2P Require Import K8s.
From S2P Require Import SigstoreKeys.
From S2P Require Import Pem.
From S2P Require Tuf.
From S2P Require TrustRoot.

(** * Keys *)

(** The type switch on a public key: an ECDSA curve, or the size of an RSA key as
    [Size] gives it, in bytes. *)
Inductive Curve := P256 | P384 | P521 | OtherCurve.
Inductive KeyKind := ECDSAKey (c : Curve) | RSAKey (Size : Z) | OtherKey.

(** crypto's types and cosign's [GetTransparencyLogID]; a nil key is [None]. *)
Class LogKeys `{P : Parsers} := {
  keyKind : PublicKey → KeyKind;
  GetTransparencyLogID : option PublicKey → result string string
}.

(** * DeserializeCertChain *)

(** The loop, with fuel; [None] when it is out of fuel. *)
Fixpoint DeserializeCertChain_loop (fuel : nat) (chain : string) (certs : list X509Certificate) :
    option (result string (list X509Certificate)) :=
  match fuel with
  | O => None
  | S fuel =>
      if chain ==s "" then Some (Ok certs) else
      match Decode chain with
      | None => Some (Err "failed to decode certificate chain PEM")
      | Some (block, chain) =>
          DeserializeCertChain_loop fuel chain (certs ++ [{| RawBytes := block_Bytes block |}])
      end
  end.
Definition DeserializeCertChain (chain : string) : result string (list X509Certificate) :=
  default (Err "") (DeserializeCertChain_loop (S (String.length chain)) chain []).

Section TrustKeys.
Context `{L : LogKeys}.

Definition epoch : option TimeRange :=
  Some {| tr_Start := Some {| Seconds := 0; Nanos := 0 |}; tr_End := None |}.

Definition keyDetails (pk : option PublicKey) : PublicKeyDetails :=
  match keyKind <$> pk with
  | Some (ECDSAKey c) =>
      match c with
      | P256 => PKIX_ECDSA_P256_SHA_256
      | P384 => PKIX_ECDSA_P384_SHA_384
      | P521 => PKIX_ECDSA_P521_SHA_512
      | OtherCurve => PUBLIC_KEY_DETAILS_UNSPECIFIED
      end
  | Some (RSAKey size) =>
      if (size =? 2048)%Z then PKIX_RSA_PSS_2048_SHA256
      else if (size =? 3072)%Z then PKIX_RSA_PSS_3072_SHA256
      else if (size =? 4096)%Z then PKIX_RSA_PSS_4096_SHA256
      else PUBLIC_KEY_DETAILS_UNSPECIFIED
  | _ => PUBLIC_KEY_DETAILS_UNSPECIFIED
  end.

Definition DeserializePublicKey (publicKey : string) : result string (PbPublicKey * option PublicKey) :=
  match Decode publicKey with
  | None => Err "failed to decode public key"
  | Some (block, _) =>
      match UnmarshalPEMToPublicKey publicKey with
      | Err err => Err ("failed to unmarshal public key: " +:+ err)
      | Ok pk =>
          Ok ({| pk_RawBytes := block_Bytes block; KeyDetails := keyDetails pk; pk_ValidFor := epoch |}, pk)
      end
  end.

Definition HashStringToHashAlgorithm (hash : string) : PbHashAlgorithm :=
  if (hash ==s "sha-256") || (hash ==s "sha256") then SHA2_256
  else if (hash ==s "sha-384") || (hash ==s "sha384") then SHA2_384
  else if (hash ==s "sha-512") || (hash ==s "sha512") then SHA2_512
  else HASH_ALGORITHM_UNSPECIFIED.

Definition ConvertCertificateAuthority (source : TrustRoot.CertificateAuthority) :
    result string CertificateAuthority :=
  certChain ← DeserializeCertChain (TrustRoot.CertChain source);
  Ok {| ca_Subject := Some {| Organization := TrustRoot.Organization (TrustRoot.Subject source);
                              CommonName := TrustRoot.CommonName (TrustRoot.Subject source) |};
        Uri := urlString (TrustRoot.URI source); CertChain := Some certChain; ca_ValidFor := epoch |}.

Definition ConvertTransparencyLogInstance (source : TrustRoot.TransparencyLogInstance) :
    result string TransparencyLogInstance :=
  '(pbpk, pk) ← DeserializePublicKey (TrustRoot.PublicKeyPEM source);
  logID ← GetTransparencyLogID pk;
  Ok {| BaseUrl := urlString (TrustRoot.BaseURL source);
        tl_HashAlgorithm := HashStringToHashAlgorithm (TrustRoot.HashAlgorithm source);
        tl_PublicKey := Some pbpk; LogId := Some logID |}.

(** The first error of each loop is returned. *)
Definition ConvertSigstoreKeys (source : TrustRoot.SigstoreKeys) : result string SigstoreKeys :=
  cas ← map_err (append "failed to convert certificate authority: ")
    (mapM ConvertCertificateAuthority (TrustRoot.CertificateAuthorities source));
  tlogs ← map_err (append "failed to convert transparency log instance: ")
    (mapM ConvertTransparencyLogInstance (TrustRoot.TLogs source));
  ctlogs ← map_err (append "failed to convert ct log instance: ")
    (mapM ConvertTransparencyLogInstance (TrustRoot.CTLogs source));
  tsas ← map_err (append "failed to convert timestamp authority: ")
    (mapM ConvertCertificateAuthority (TrustRoot.TimeStampAuthorities source));
  Ok {| MediaType := "application/vnd.dev.sigstore.trustedroot+json;version=0.1"; Tlogs := tlogs;
        CertificateAuthorities := cas; Ctlogs := ctlogs; TimestampAuthorities := tsas |}.

End TrustKeys.

(** * Chains *)

#[local] Arguments pem_EncodeToMemory : simpl never.

Lemma DeserializeCertChain_loop_total fuel chain certs : (String.length chain < fuel)%nat →
  is_Some (DeserializeCertChain_loop fuel chain certs).
Proof.
  revert chain certs. induction fuel as [|fuel IH]; intros chain certs Hf; [lia|]. cbn.
  destruct (chain ==s ""); [by eexists|]. destruct (Decode chain) as [[b rest]|] eqn:Hd; [|by eexists].
  apply Decode_length in Hd. apply IH. lia.
Qed.

Lemma DeserializeCertChain_loop_fuel fuel fuel' chain certs : (String.length chain < fuel)%nat →
  (String.length chain < fuel')%nat →
  DeserializeCertChain_loop fuel chain certs = DeserializeCertChain_loop fuel' chain certs.
Proof.
  revert fuel' chain certs. induction fuel as [|fuel IH]; intros [|fuel'] chain certs Hf Hf'; try lia. cbn.
  destruct (chain ==s ""); [done|]. destruct (Decode chain) as [[b rest]|] eqn:Hd; [|done].
  apply Decode_length in Hd. apply IH; lia.
Qed.

Lemma chainPEM_app acc certs :
  foldl (λ chain cert, chain +:+ pem_EncodeToMemory "CERTIFICATE" (RawBytes cert)) acc certs =
  acc +:+ chainPEM certs.
Proof.
  unfold chainPEM. revert acc.
  induction certs as [|c certs IH]; intros acc; cbn; [by rewrite string_app_nil_r|].
  rewrite IH, (IH (pem_EncodeToMemory _ _)), string_app_assoc. done.
Qed.

Lemma DeserializeCertChain_loop_serialized fuel certs acc :
  (String.length (chainPEM certs) < fuel)%nat →
  DeserializeCertChain_loop fuel (chainPEM certs) acc = Some (Ok (acc ++ certs)).
Proof.
  revert fuel acc. induction certs as [|c certs IH]; intros [|fuel] acc Hf; try lia.
  { cbn. by rewrite app_nil_r. }
  assert (He : chainPEM (c :: certs) =
    pem_EncodeToMemory "CERTIFICATE" (RawBytes c) +:+ chainPEM certs)
    by exact (chainPEM_app (pem_EncodeToMemory "CERTIFICATE" (RawBytes c)) certs).
  rewrite He in *. cbn [DeserializeCertChain_loop].
  assert (((pem_EncodeToMemory "CERTIFICATE" (RawBytes c) +:+ chainPEM certs) ==s "") = false) as -> by done.
  rewrite Decode_EncodeToMemory by by left. cbn [block_Bytes]. rewrite IH.
  - rewrite <-app_assoc. by destruct c.
  - rewrite string_length_app in Hf. assert (0 < String.length (pem_EncodeToMemory "CERTIFICATE" (RawBytes c)))%nat
      by (unfold pem_EncodeToMemory; cbn; lia). lia.
Qed.

(** C35: reading a PEM chain terminates on every input, since every decoded block
    is consumed: any fuel beyond the length of the text gives the same result, and
    the reading does not depend on it. *)
Theorem DeserializeCertChain_terminates (chain : string) (fuel : nat)
    (Hfuel : (String.length chain < fuel)%nat) :
  DeserializeCertChain_loop fuel chain [] = Some (DeserializeCertChain chain).
Proof.
  unfold DeserializeCertChain.
  destruct (DeserializeCertChain_loop_total (S (String.length chain)) chain []) as [r Hr]; [lia|].
  rewrite Hr. cbn. rewrite <-Hr. apply DeserializeCertChain_loop_fuel; lia.
Qed.

(** The chain the webhook writes for cosign is read back as the certificates it
    was made of, whatever their bytes. *)
Theorem cert_chain_roundtrip (certs : list X509Certificate) :
  DeserializeCertChain (chainPEM certs) = Ok certs.
Proof. unfold DeserializeCertChain. by rewrite DeserializeCertChain_loop_serialized by lia. Qed.

Lemma DeserializeCertChain_terminates_witness :
  DeserializeCertChain_loop 9 "not PEM" [] = Some (Err "failed to decode certificate chain PEM").
Proof. rewrite (DeserializeCertChain_terminates "not PEM" 9) by (vm_compute; lia). vm_compute. reflexivity. Defined.

Section Facts.
Context `{L : LogKeys}.

(** The details of an RSA key are never given: the switch compares the size in
    bytes with 2048, 3072 and 4096, which no key of these many bits has. *)
Theorem rsa_details_unspecified (publicKey : string) (pk : PublicKey) (bits : Z)
    (Hkey : UnmarshalPEMToPublicKey publicKey = Ok (Some pk)) (Hrsa : keyKind pk = RSAKey (bits / 8)%Z)
    (Hbits : bits = 2048%Z ∨ bits = 3072%Z ∨ bits = 4096%Z) :
  ∀ pb pk', DeserializePublicKey publicKey = Ok (pb, pk') → KeyDetails pb = PUBLIC_KEY_DETAILS_UNSPECIFIED.
Proof.
  intros pb pk'. unfold DeserializePublicKey. destruct (Decode publicKey) as [[b rest]|]; [|done].
  rewrite Hkey. intros [= <- <-]. cbn. unfold keyDetails. cbn. rewrite Hrsa.
  by destruct Hbits as [->|[->| ->]].
Qed.

(** What is written for a key is read back as its bytes. *)
Lemma DeserializePublicKey_serialized pk pb key :
  DeserializePublicKey (keyPEM pk) = Ok (pb, key) → pk_RawBytes pb = pk_RawBytes pk.
Proof.
  unfold DeserializePublicKey, keyPEM.
  pose proof (Decode_EncodeToMemory "PUBLIC KEY" (pk_RawBytes pk) "" ltac:(by right)) as Hd.
  rewrite string_app_nil_r in Hd. rewrite Hd. destruct (UnmarshalPEMToPublicKey _); [|done].
  by intros [= <- <-].
Qed.

End Facts.

(** * Concrete keys *)

(** A key is its PEM text; keys over 300 bytes are 2048-bit RSA keys, others ECDSA. *)
Module ToyKeys.

#[export] Instance parsers : Parsers := {|
  systemNamespace := systemNamespace (Parsers := ToyParsers.parsers);
  apis_HTTPS := apis_HTTPS (Parsers := ToyParsers.parsers);
  PublicKey := string;
  UnmarshalPEMToPublicKey s :=
    if HasPrefix s "-----BEGIN PUBLIC KEY-----" then Ok (Some s) else Err "no public key";
  awsReferenceScheme := awsReferenceScheme (Parsers := ToyParsers.parsers);
  azureReferenceScheme := azureReferenceScheme (Parsers := ToyParsers.parsers);
  hashivaultReferenceScheme := hashivaultReferenceScheme (Parsers := ToyParsers.parsers);
  gcpReferenceScheme := gcpReferenceScheme (Parsers := ToyParsers.parsers);
  arnParse := arnParse (Parsers := ToyParsers.parsers);
  SplitHostPort := SplitHostPort (Parsers := ToyParsers.parsers);
  urlParse := urlParse (Parsers := ToyParsers.parsers);
  ParseRequestURI := ParseRequestURI (Parsers := ToyParsers.parsers);
  regexpCompile := regexpCompile (Parsers := ToyParsers.parsers);
  filepathMatchEmpty := filepathMatchEmpty (Parsers := ToyParsers.parsers)
|}.

Definition kindOf (k : string) : KeyKind :=
  if (300 <? String.length k)%nat then RSAKey 256 else ECDSAKey P256.
Definition idOf (k : option string) : result string string :=
  match k with Some k => Ok ("id of " +:+ k) | None => Err "no key" end.

#[export] Instance logKeys : LogKeys (P := parsers) :=
  {| keyKind := kindOf : PublicKey (Parsers := parsers) → KeyKind;
     GetTransparencyLogID := idOf : option (PublicKey (Parsers := parsers)) → result string string |}.

Definition ecdsa : string := pem_EncodeToMemory "PUBLIC KEY" "ecdsa".
Definition rsa : string := pem_EncodeToMemory "PUBLIC KEY" (Tuf.zeros 256).

End ToyKeys.

#[local] Existing Instances ToyKeys.parsers ToyKeys.logKeys.

Lemma rsa_details_unspecified_witness :
  ∃ pb pk, DeserializePublicKey ToyKeys.rsa = Ok (pb, pk) ∧ KeyDetails pb = PUBLIC_KEY_DETAILS_UNSPECIFIED.
Proof.
  destruct (DeserializePublicKey ToyKeys.rsa) as [[pb pk]|err] eqn:Hd.
  - exists pb, pk. split; [reflexivity|].
    refine (rsa_details_unspecified ToyKeys.rsa ToyKeys.rsa 2048 _ _ _ pb pk Hd).
    + vm_compute. reflexivity.
    + vm_compute. reflexivity.
    + left. reflexivity.
  - exfalso. revert Hd. vm_compute. discriminate.
Defined.
