(* ===== verification/Cosign.v ===== *)
(** cosign's verification interface, as the webhook uses it: the options of a
    verification, and the operations that look signatures and attestations up
    and check them. All are parameters; what a verification was asked for is
    the [CheckOpts] it is given. *)

From S2P Require Import Prelude.
From S2P Require Import Names.
From S2P Require Import Encoding.
From S2P Require Import K8s.
From S2P Require Import Common.
From S2P Require Import Oci.
From S2P Require Import SigstoreKeys.
From S2P Require Import WebhookTypes.

Class CosignTypes := {
  Verifier : Type;
  TrustedRoot : Type;
  RekorClient : Type
}.

(** [cosign.Identity] *)
Record CosignIdentity := {
  ci_Issuer : string; ci_Subject : string; ci_IssuerRegExp : string; ci_SubjectRegExp : string
}.

(** [cosign.SimpleClaimVerifier] and [cosign.IntotoSubjectClaimVerifier] *)
Inductive ClaimVerifier := SimpleClaimVerifier | IntotoSubjectClaimVerifier.

Section CheckOpts.
Context `{P : Parsers} `{C : Certs} `{T : CosignTypes}.

(** [cosign.TrustedTransparencyLogPubKeys]: the active keys by log id. *)
Definition LogPubKeys : Type := gmap string PublicKey.

(** [cosign.CheckOpts]: the fields the webhook sets. *)
Record CheckOpts := {
  RegistryClientOpts : list RemoteOption;
  NewBundleFormat : bool;
  ExperimentalOCI11 : bool;
  co_Identities : list CosignIdentity;
  TrustedMaterial : option TrustedRoot;
  IgnoreSCT : bool;
  UseSignedTimestamps : bool;
  IgnoreTlog : bool;
  Offline : bool;
  RootCerts : option (list Certificate);
  IntermediateCerts : option (list Certificate);
  CTLogPubKeys : option LogPubKeys;
  co_RekorClient : option RekorClient;
  RekorPubKeys : option LogPubKeys;
  TSACertificate : option Certificate;
  TSAIntermediateCertificates : list Certificate;
  TSARootCertificates : list Certificate;
  SigVerifier : option Verifier;
  co_ClaimVerifier : option ClaimVerifier
}.

End CheckOpts.

(** A referrer's descriptor and the layers of the artifact behind it. *)
Record Descriptor := { ArtifactType : string; desc_Digest : string }.

Class Cosign `{N : NamePkg} `{P : Parsers} `{C : Certs} `{T : CosignTypes} := {
  (** sigstore's [signature.LoadVerifier], [tuf], [fulcioroots], rekor's client *)
  LoadVerifier : option PublicKey → Hash → result string Verifier;
  NewTrustedRootFromProtobuf : SigstoreKeys → result string TrustedRoot;
  GetRekorClient : string → result string RekorClient;
  GetRekorPubs : result string LogPubKeys;
  GetCTLogPubs : result string LogPubKeys;
  fulcioroots_Get : result string (list Certificate);
  fulcioroots_GetIntermediates : result string (list Certificate);
  (** the type assertion [pk.( *ecdsa.PublicKey)] *)
  isECDSA : PublicKey → bool;
  VerifyImageSignatures : Reference → CheckOpts → result string (list Signature);
  VerifyImageAttestations : Reference → CheckOpts → result string (list Signature);
  (** discovery: [ociremote.SignedEntity(...).Signatures().Get()] *)
  SignedEntitySignatures : Reference → list RemoteOption → result string (list Signature);
  (** [ociremote.ResolveDigest]: the digest reference's [String()] and [DigestStr()] *)
  ResolveDigest : Reference → list RemoteOption → result string (string * string);
  (** [ociremote.Referrers] of a digest: the manifests of the index *)
  Referrers : string → list RemoteOption → result string (list Descriptor);
  (** the repository of a digest reference, as [%s] prints it *)
  RepositoryOf : string → string;
  (** [ociremote.SignedImage(ref)], its [Layers()], and each one's bytes *)
  SignedImageLayers : Reference → list RemoteOption →
    result string (result string (list (result string string)));
  (** [static.NewSignature(payload, b64sig)] *)
  static_NewSignature : string → string → result string Signature;
  (** [policy.AttestationToPayloadJSON]: the predicate type it got, and the payload
      ([Ok None]: not of the wanted type) *)
  AttestationToPayloadJSON : string → Signature → string * result string (option string);
  (** [policy.EvaluatePolicyAgainstJSON(name, type, data, json)]: (warn, err) *)
  EvaluatePolicyAgainstJSON : string → string → string → string → option string * option string
}.

(** A concrete instance: a signature verifies unless the key is "bad"; a policy
    is satisfied unless its text is "deny". *)
Module ToyCosign.

#[export] Instance types : CosignTypes := {| Verifier := string; TrustedRoot := unit; RekorClient := string |}.
#[local] Existing Instances ToyNames.names ToyParsers.parsers ToyCerts.certs.

Definition signature : Signature :=
  {| Annotations := Ok ∅; Base64Signature := Ok ""; Payload := Ok ""; SignatureBytes := Ok "s";
     Cert := Ok None; Digest := Ok "sha256:d" |}.
Definition verify (co : CheckOpts) : result string (list Signature) :=
  match SigVerifier co with
  | Some v => if (v : string) ==s "bad" then Err "no matching signatures" else Ok [signature]
  | None => Ok [signature]
  end.

#[export] Instance cosign : Cosign := {|
  LoadVerifier k _ := match k with Some k => Ok k | None => Err "no key" end;
  NewTrustedRootFromProtobuf _ := Ok tt;
  GetRekorClient u := Ok u;
  GetRekorPubs := Ok {[ "log" := "key" ]};
  GetCTLogPubs := Ok {[ "ctlog" := "key" ]};
  fulcioroots_Get := Ok ["root"];
  fulcioroots_GetIntermediates := Ok [];
  isECDSA _ := true;
  VerifyImageSignatures _ co := verify co;
  VerifyImageAttestations _ co := verify co;
  SignedEntitySignatures _ _ := Ok [signature];
  ResolveDigest r _ := match ToyNames.after_at r with
    | Some d => Ok (r, d) | None => Ok (r +:+ "@sha256:d", "sha256:d") end;
  Referrers _ _ := Ok [{| ArtifactType := "application/vnd.in-toto+json"; desc_Digest := "sha256:r" |}];
  RepositoryOf s := s;
  SignedImageLayers _ _ := Ok (Ok [Ok "envelope"]);
  static_NewSignature _ _ := Ok signature;
  AttestationToPayloadJSON t _ := (t, Ok (Some "{}"));
  EvaluatePolicyAgainstJSON _ _ data _ := if data ==s "deny" then (None, Some "denied") else (None, None)
|}.

End ToyCosign.
