(* ===== verification/ImagePolicies.v ===== *)
(** The policies the webhook has read (pkg/apis/config/image_policies.go,
    pkg/apis/config/store.go), and which of them apply to an image. *)

From S2P Require Import Prelude.
From S2P Require Import Names.
From S2P Require Glob.
From S2P Require Import Encoding.
From S2P Require Import K8s.
From S2P Require V1alpha1.
From S2P Require Import SigstoreKeys.
From S2P Require Import WebhookTypes.
From S2P Require Import WebhookJSON.

(** k8s.io/apimachinery and sigs.k8s.io/yaml. *)
Class K8sMeta := {
  (** [schema.ParseGroupVersion]: group and version *)
  ParseGroupVersion : string → result string (string * string);
  (** [meta.UnsafeGuessKindToResource]: the plural resource of a kind *)
  UnsafeGuessKindToResource : string → string;
  (** [metav1.LabelSelectorAsSelector] and the selector's [Matches] *)
  LabelSelectorAsSelector : LabelSelector → result string (gmap string string → bool);
  (** [yaml.YAMLToJSON] and the value of the text it gives *)
  YAMLToJSON : string → result string (result string json)
}.

Section ImagePolicies.
Context `{N : NamePkg} `{P : Parsers} `{M : K8sMeta}.

(** [ImagePolicyConfig]: its field [Policies]. *)
Record ImagePolicyConfig := { Policies : gmap string ClusterImagePolicy }.

(** [config.Config]: what the store attaches to a request's context. *)
Record Config := {
  cfg_ImagePolicyConfig : option ImagePolicyConfig;
  cfg_SigstoreKeysConfig : option SigstoreKeysMap
}.

(** ** Matching *)

Record GVR := { gvr_Group : string; gvr_Version : string; gvr_Resource : string }.

(** One pass of the loop over [v.Match]: whether this match applies. *)
Definition matchApplies (gvr : GVR) (labels : gmap string string) (m : V1alpha1.MatchResource) :
    result string bool :=
  let r := V1alpha1.mr_GroupVersionResource m in
  if Resource r !=s gvr_Resource gvr then Ok false
  else if (Version r !=s gvr_Version gvr) && (Version r !=s "*") then Ok false
  else if Group r !=s gvr_Group gvr then Ok false
  else
    match V1alpha1.ResourceSelector m with
    | None => Ok true
    | Some s =>
        match LabelSelectorAsSelector s with
        | Err _ => Err "policy with wrong match label selector"
        | Ok matches => Ok (matches labels)
        end
    end.

(** The loop, which stops at the first match that applies. *)
Fixpoint findMatch (gvr : GVR) (labels : gmap string string) (ms : list V1alpha1.MatchResource) :
    result string bool :=
  match ms with
  | [] => Ok false
  | m :: rest =>
      match matchApplies gvr labels m with
      | Err err => Err err
      | Ok true => Ok true
      | Ok false => findMatch gvr labels rest
      end
  end.

(** The loop over a policy's image patterns: whether one matches, and the last
    error of [glob.Match]. *)
Fixpoint matchImages (image : string) (patterns : list V1alpha1.ImagePattern) (matched : bool)
    (lastError : option string) : bool * option string :=
  match patterns with
  | [] => (matched, lastError)
  | p :: rest =>
      if V1alpha1.Glob p !=s "" then
        match Glob.Match (V1alpha1.Glob p) image with
        | Err err => matchImages image rest matched (Some err)
        | Ok true => matchImages image rest true lastError
        | Ok false => matchImages image rest matched lastError
        end
      else matchImages image rest matched lastError
  end.

Fixpoint GetMatchingPolicies_loop (image : string) (gvr : GVR) (labels : gmap string string)
    (order : list (string * ClusterImagePolicy)) (ret : gmap string ClusterImagePolicy)
    (lastError : option string) :
    result string (gmap string ClusterImagePolicy * option string) :=
  match order with
  | [] => Ok (ret, lastError)
  | (k, v) :: rest =>
      match (if isEmpty (cip_Match v) then Ok true else findMatch gvr labels (cip_Match v)) with
      | Err err => Err err
      | Ok false => GetMatchingPolicies_loop image gvr labels rest ret lastError
      | Ok true =>
          let '(matched, lastError) := matchImages image (Images v) false lastError in
          GetMatchingPolicies_loop image gvr labels rest
            (if matched then <[k := v]> ret else ret) lastError
      end
  end.

(** The pair of results: the map (nil with the early errors) and the error.
    [order] is the order the map of policies is ranged over. *)
Definition GetMatchingPolicies (p : option ImagePolicyConfig)
    (order : list (string * ClusterImagePolicy)) (image kind apiVersion : string)
    (labels : gmap string string) : gmap string ClusterImagePolicy * option string :=
  match p with
  | None => (∅, Some "config is nil")
  | Some p =>
      match ParseGroupVersion apiVersion with
      | Err err => (∅, Some err)
      | Ok (group, version) =>
          let gvr := {| gvr_Group := group; gvr_Version := version;
                        gvr_Resource := UnsafeGuessKindToResource kind |} in
          match GetMatchingPolicies_loop image gvr labels order ∅ None with
          | Err err => (∅, Some err)
          | Ok (ret, lastError) => (ret, lastError)
          end
      end
  end.

(** * When a policy applies *)

(** The resource is of the match's kind and carries the labels it selects. *)
Definition selects (gvr : GVR) (labels : gmap string string) (m : V1alpha1.MatchResource) : Prop :=
  let r := V1alpha1.mr_GroupVersionResource m in
  Resource r = gvr_Resource gvr ∧ (Version r = gvr_Version gvr ∨ Version r = "*") ∧
  Group r = gvr_Group gvr ∧
  ∀ s, V1alpha1.ResourceSelector m = Some s →
    ∃ matches, LabelSelectorAsSelector s = Ok matches ∧ matches labels = true.

Definition applies (image : string) (gvr : GVR) (labels : gmap string string)
    (v : ClusterImagePolicy) : Prop :=
  (cip_Match v = [] ∨ Exists (selects gvr labels) (cip_Match v)) ∧
  Exists (λ p, V1alpha1.Glob p ≠ "" ∧ Glob.Match (V1alpha1.Glob p) image = Ok true) (Images v).

Lemma matchApplies_true gvr labels m :
  matchApplies gvr labels m = Ok true ↔ selects gvr labels m.
Proof.
  unfold matchApplies, selects.
  destruct (String.eqb_spec (Resource (V1alpha1.mr_GroupVersionResource m)) (gvr_Resource gvr)),
    (String.eqb_spec (Version (V1alpha1.mr_GroupVersionResource m)) (gvr_Version gvr)),
    (String.eqb_spec (Version (V1alpha1.mr_GroupVersionResource m)) "*"),
    (String.eqb_spec (Group (V1alpha1.mr_GroupVersionResource m)) (gvr_Group gvr));
    cbn [negb andb]; try (intuition congruence).
  all: destruct (V1alpha1.ResourceSelector m) as [s|]; [|intuition congruence].
  all: destruct (LabelSelectorAsSelector s) as [f|] eqn:Hs; split; try done.
  all: try (intros [= Hf]; split_and!; auto; intros ? [= <-]; by exists f).
  all: intros (_ & _ & _ & H); destruct (H s eq_refl) as (g & Hg & ?); congruence.
Qed.

Lemma findMatch_true gvr labels ms : (∀ e, findMatch gvr labels ms ≠ Err e) →
  findMatch gvr labels ms = Ok true ↔ Exists (selects gvr labels) ms.
Proof.
  induction ms as [|m ms IH]; cbn; intros He.
  - rewrite Exists_nil. done.
  - rewrite Exists_cons, <-matchApplies_true.
    destruct (matchApplies gvr labels m) as [[]|e].
    + intuition.
    + rewrite IH by done. intuition congruence.
    + by destruct (He e).
Qed.

Lemma matchImages_fst image ps b e :
  (matchImages image ps b e).1 = true ↔ b = true ∨
  Exists (λ p, V1alpha1.Glob p ≠ "" ∧ Glob.Match (V1alpha1.Glob p) image = Ok true) ps.
Proof.
  revert b e. induction ps as [|p ps IH]; intros b e; cbn; [rewrite Exists_nil; tauto|].
  rewrite Exists_cons. destruct (String.eqb_spec (V1alpha1.Glob p) ""); cbn [negb].
  - rewrite IH. tauto.
  - destruct (Glob.Match (V1alpha1.Glob p) image) as [[]|err]; rewrite IH; intuition congruence.
Qed.

(** The first half of the loop's body. *)
Definition candidate (gvr : GVR) (labels : gmap string string) (v : ClusterImagePolicy) :
    result string bool :=
  if isEmpty (cip_Match v) then Ok true else findMatch gvr labels (cip_Match v).

Lemma GetMatchingPolicies_loop_ok image gvr labels order ret e :
  NoDup order.*1 →
  (∀ k v err, (k, v) ∈ order → candidate gvr labels v ≠ Err err) →
  ∃ ret' e', GetMatchingPolicies_loop image gvr labels order ret e = Ok (ret', e') ∧
    ∀ k v, ret' !! k = Some v ↔
      ((k, v) ∈ order ∧ applies image gvr labels v) ∨
      (ret !! k = Some v ∧ ∀ w, (k, w) ∈ order → ¬ applies image gvr labels w).
Proof.
  revert ret e. induction order as [|[k0 v0] order IH]; intros ret e Hnd Hok; cbn.
  { exists ret, e. split; [done|]. intros k v. split.
    - intros ?. right. split; [done|]. by intros w ?%not_elem_of_nil.
    - by intros [[?%not_elem_of_nil _]|[? _]]. }
  apply NoDup_cons in Hnd as [Hk0 Hnd].
  assert (∀ w, (k0, w) ∈ order → Logic.False) as Hno.
  { intros w Hw. apply Hk0. apply list_elem_of_fmap. by exists (k0, w). }
  assert (∀ k v err, (k, v) ∈ order → candidate gvr labels v ≠ Err err) as Hok'
    by (intros k v err ?; apply (Hok k); by right).
  assert (∀ b, candidate gvr labels v0 = Ok b → (b = true ↔
    cip_Match v0 = [] ∨ Exists (selects gvr labels) (cip_Match v0))) as Hcand.
  { unfold candidate. intros b. destruct (cip_Match v0) as [|m ms] eqn:Hm; cbn [isEmpty nonEmpty negb].
    - intros [= <-]. intuition.
    - intros Hf. rewrite <-(findMatch_true gvr labels (m :: ms)).
      + split; [intros ->; by right|]. intros [?|Ht]; congruence.
      + intros err He. congruence. }
  fold (candidate gvr labels v0).
  destruct (candidate gvr labels v0) as [b|err] eqn:Hc;
    [|by destruct (Hok k0 v0 err); [left|]].
  specialize (Hcand b eq_refl).
  pose proof (matchImages_fst image (Images v0) false e) as Himg.
  assert (∀ ret1 e1 (H : ∃ matched, ret1 = (if matched : bool then <[k0 := v0]> ret else ret) ∧
      (matched = true ↔ applies image gvr labels v0)),
    ∃ ret' e', GetMatchingPolicies_loop image gvr labels order ret1 e1 = Ok (ret', e') ∧
    ∀ k v, ret' !! k = Some v ↔
      ((k, v) ∈ (k0, v0) :: order ∧ applies image gvr labels v) ∨
      (ret !! k = Some v ∧ ∀ w, (k, w) ∈ (k0, v0) :: order → ¬ applies image gvr labels w)) as Hstep.
  { intros ret1 e1 (matched & -> & Hm).
    destruct (IH (if matched then <[k0:=v0]> ret else ret) e1 Hnd Hok') as (ret' & e' & Hl & Hr).
    exists ret', e'. split; [done|]. intros k v. rewrite Hr. clear Hr Hl IH.
    setoid_rewrite elem_of_cons. destruct (decide (k = k0)) as [->|Hk].
    - assert ((if matched then <[k0:=v0]> ret else ret) !! k0 =
        if matched then Some v0 else ret !! k0) as ->
        by (destruct matched; [apply lookup_insert_eq|done]).
      destruct matched.
      + split.
        * intros [[? _]|[[= ->] _]]; [by destruct (Hno v)|]. left. split; [by left|]. by apply Hm.
        * intros [[[[= ->]|?] ?]|[? Hw]]; [|by destruct (Hno v)|].
          -- right. split; [done|]. intros w ?. by destruct (Hno w).
          -- by destruct (Hw v0 (or_introl eq_refl)); apply Hm.
      + assert (¬ applies image gvr labels v0) as Hna by (intros H; by apply Hm in H). split.
        * intros [[? _]|[? _]]; [by destruct (Hno v)|]. right. split; [done|].
          intros w [[= ->]|?]; [done|by destruct (Hno w)].
        * intros [[[[= ->]|?] ?]|[? _]]; [done|by destruct (Hno v)|]. right. split; [done|].
          intros w ?. by destruct (Hno w).
    - assert ((if matched then <[k0:=v0]> ret else ret) !! k = ret !! k) as ->
        by (destruct matched; [by apply lookup_insert_ne|done]).
      assert (∀ w, (k, w) = (k0, v0) ∨ (k, w) ∈ order ↔ (k, w) ∈ order) as Heq
        by (intros w; split; [by intros [[= ? _]|?]|by right]).
      setoid_rewrite Heq. done. }
  destruct b; [|apply Hstep; exists false; split; [done|]; unfold applies; intuition congruence].
  destruct (matchImages image (Images v0) false e) as [matched e1]. apply Hstep.
  exists matched. split; [done|]. unfold applies. cbn in Himg. intuition congruence.
Qed.

(** Deciding whether the policy applies raises no error. *)
Definition decidable (image : string) (gvr : GVR) (labels : gmap string string)
    (v : ClusterImagePolicy) : Prop :=
  candidate gvr labels v = Ok false ∨
  candidate gvr labels v = Ok true ∧
  Forall (λ p, V1alpha1.Glob p = "" ∨ is_Ok (Glob.Match (V1alpha1.Glob p) image)) (Images v).

Lemma matchImages_snd image ps b e :
  (matchImages image ps b e).2 = None ↔ e = None ∧
  Forall (λ p, V1alpha1.Glob p = "" ∨ is_Ok (Glob.Match (V1alpha1.Glob p) image)) ps.
Proof.
  revert b e. induction ps as [|p ps IH]; intros b e; cbn; [rewrite Forall_nil; tauto|].
  rewrite Forall_cons. destruct (String.eqb_spec (V1alpha1.Glob p) ""); cbn [negb].
  - rewrite IH. tauto.
  - destruct (Glob.Match (V1alpha1.Glob p) image) as [m|err].
    + assert (is_Ok (Ok m : result string bool)) by by eexists.
      destruct m; rewrite IH; tauto.
    + rewrite IH. split; [by intros [? _]|]. intros (_ & [?|[? ?]] & _); done.
Qed.

Lemma GetMatchingPolicies_loop_error image gvr labels order ret e :
  (∃ ret', GetMatchingPolicies_loop image gvr labels order ret e = Ok (ret', None)) ↔
  e = None ∧ Forall (λ kv, decidable image gvr labels kv.2) order.
Proof.
  revert ret e. induction order as [|[k v] order IH]; intros ret e; cbn.
  { rewrite Forall_nil. split; [intros [? [= _ ->]]; done|]. intros [-> _]. by eexists. }
  fold (candidate gvr labels v). rewrite Forall_cons. unfold decidable at 1. cbn [snd].
  destruct (candidate gvr labels v) as [[]|err].
  - pose proof (matchImages_snd image (Images v) false e) as Hm.
    destruct (matchImages image (Images v) false e) as [matched e1]. cbn [snd] in Hm.
    rewrite IH, Hm. intuition congruence.
  - rewrite IH. intuition.
  - split; [by intros [? ?]|]. intros (_ & [?|[? _]] & _); done.
Qed.

Lemma GetMatchingPolicies_lemma (p : ImagePolicyConfig)
    (order : list (string * ClusterImagePolicy)) (image kind apiVersion group version : string)
    (labels : gmap string string)
    (Horder : order ≡ₚ map_to_list (Policies p))
    (Hgv : ParseGroupVersion apiVersion = Ok (group, version)) :
  let gvr := {| gvr_Group := group; gvr_Version := version;
                gvr_Resource := UnsafeGuessKindToResource kind |} in
  let '(ret, err) := GetMatchingPolicies (Some p) order image kind apiVersion labels in
  (err = None ↔ map_Forall (λ _ v, decidable image gvr labels v) (Policies p)) ∧
  (map_Forall (λ _ v, is_Ok (candidate gvr labels v)) (Policies p) →
   ∀ k v, ret !! k = Some v ↔ Policies p !! k = Some v ∧ applies image gvr labels v).
Proof.
  unfold GetMatchingPolicies. rewrite Hgv. cbv zeta.
  set (gvr := {| gvr_Group := group |}).
  assert (map_Forall (λ _ v, decidable image gvr labels v) (Policies p) ↔
    Forall (λ kv, decidable image gvr labels kv.2) order) as Hiff.
  { rewrite map_Forall_to_list, Horder. apply Forall_iff. by intros []. }
  pose proof (GetMatchingPolicies_loop_error image gvr labels order ∅ None) as He.
  destruct (GetMatchingPolicies_loop image gvr labels order ∅ None) as [[ret e]|err] eqn:Hl; split.
  - rewrite Hiff. split.
    + intros ->. apply He. by eexists.
    + intros Ho. destruct (proj2 He (conj eq_refl Ho)) as [? [= _ ->]]. done.
  - intros Hsel. destruct (GetMatchingPolicies_loop_ok image gvr labels order ∅ None)
      as (ret' & e' & Hl' & Hr).
    + rewrite Horder. apply NoDup_fst_map_to_list.
    + intros k v err. rewrite Horder, elem_of_map_to_list. intros [b ->]%Hsel. done.
    + rewrite Hl in Hl'. injection Hl' as <- <-. intros k v.
      rewrite Hr, Horder, elem_of_map_to_list, lookup_empty. intuition congruence.
  - rewrite Hiff. split; [done|]. intros Ho. destruct (proj2 He (conj eq_refl Ho)) as [? [=]].
  - intros Hsel. destruct (GetMatchingPolicies_loop_ok image gvr labels order ∅ None)
      as (ret' & e' & Hl' & Hr); [rewrite Horder; apply NoDup_fst_map_to_list| |congruence].
    intros k v e. rewrite Horder, elem_of_map_to_list. intros [b ->]%Hsel. done.
Qed.

(** C22: exactly the policies that apply are returned, and no error is hidden: a
    policy is in the result if and only if it is configured, its match list is
    empty or selects the resource, and one of its patterns matches the image
    (unless a label selector is bad, when nothing is returned); and the error is
    nil exactly when every selector and every pattern that had to be tried was
    good. The order in which the map of policies is ranged over is irrelevant. *)
Theorem GetMatchingPolicies_spec (p : ImagePolicyConfig)
    (order : list (string * ClusterImagePolicy)) (image kind apiVersion group version : string)
    (labels : gmap string string)
    (Horder : order ≡ₚ map_to_list (Policies p))
    (Hgv : ParseGroupVersion apiVersion = Ok (group, version)) :
  let gvr := {| gvr_Group := group; gvr_Version := version;
                gvr_Resource := UnsafeGuessKindToResource kind |} in
  let '(ret, err) := GetMatchingPolicies (Some p) order image kind apiVersion labels in
  (err = None ↔ map_Forall (λ _ v, decidable image gvr labels v) (Policies p)) ∧
  (map_Forall (λ _ v, is_Ok (candidate gvr labels v)) (Policies p) →
   ∀ k v, ret !! k = Some v ↔ Policies p !! k = Some v ∧ applies image gvr labels v).
Proof. by apply GetMatchingPolicies_lemma. Qed.

End ImagePolicies.

(** * Reading the ConfigMap *)

Section Reading.
Context `{N : NamePkg} `{P : Parsers} `{M : K8sMeta}.
Variable parseURL : string → result string URL.

Definition parseEntry (entry : string) : result string ClusterImagePolicy :=
  match YAMLToJSON entry with
  | Err err => Err ("config's value could not be converted to JSON: " +:+ err +:+ " : " +:+ entry)
  | Ok j => j ← j; decode_ClusterImagePolicy parseURL j
  end.

(** The loop over the data, in the order [order] the map is ranged over. *)
Fixpoint NewImagePoliciesConfigFromMap_loop (order : list (string * string))
    (ret : gmap string ClusterImagePolicy) : result string ImagePolicyConfig :=
  match order with
  | [] => Ok {| Policies := ret |}
  | (k, v) :: rest =>
      if k ==s "_example" then NewImagePoliciesConfigFromMap_loop rest ret
      else if v ==s "" then Err ("configmap has an entry " +:+ quote k +:+ " but no value")
      else
        match parseEntry v with
        | Err err => Err ("failed to parse the entry " +:+ quote k +:+ " : " +:+ quote v +:+
                          " : " +:+ err)
        | Ok clusterImagePolicy =>
            NewImagePoliciesConfigFromMap_loop rest (<[k := clusterImagePolicy]> ret)
        end
  end.
Definition NewImagePoliciesConfigFromMap (order : list (string * string)) :
    result string ImagePolicyConfig := NewImagePoliciesConfigFromMap_loop order ∅.

(** An entry that can be read. *)
Definition goodEntry (kv : string * string) : Prop :=
  kv.1 = "_example" ∨ kv.2 ≠ "" ∧ is_Ok (parseEntry kv.2).

Lemma FromMap_loop_spec order ret : NoDup order.*1 →
  match NewImagePoliciesConfigFromMap_loop order ret with
  | Ok c =>
      Forall goodEntry order ∧
      ∀ k p, Policies c !! k = Some p ↔
        (k ≠ "_example" ∧ ∃ v, (k, v) ∈ order ∧ parseEntry v = Ok p) ∨
        (ret !! k = Some p ∧ (k = "_example" ∨ k ∉ order.*1))
  | Err _ => Exists (λ kv, ¬ goodEntry kv) order
  end.
Proof.
  revert ret. induction order as [|[k0 v0] order IH]; intros ret Hnd; cbn [fmap list_fmap fst] in *.
  { cbn. split; [constructor|]. intros k p. split.
    - intros ?. right. split; [done|]. right. apply not_elem_of_nil.
    - by intros [(_ & v & ?%not_elem_of_nil & _)|[? _]]. }
  apply NoDup_cons in Hnd as [Hk0 Hnd]. specialize (fun r => IH r Hnd).
  assert (∀ v, (k0, v) ∈ order → k0 ∈ order.*1) as Hin
    by (intros v ?; apply list_elem_of_fmap; by exists (k0, v)).
  cbn [NewImagePoliciesConfigFromMap_loop].
  destruct (String.eqb_spec k0 "_example") as [->|Hk].
  - specialize (IH ret). destruct (NewImagePoliciesConfigFromMap_loop order ret) as [c|err];
      [|by right]. destruct IH as [H1 H2]. split; [by constructor; [left|]|].
    intros k p. rewrite H2. setoid_rewrite elem_of_cons.
    destruct (decide (k = "_example")) as [->|Hne]; [intuition congruence|]. split.
    + intros [(? & v & ? & ?)|[? [?|Hn]]]; [left; eauto|done|]. right. split; [done|]. right.
      intros [?|?]; done.
    + intros [(? & v & [[= ? _]|?] & ?)|[? [?|Hn]]]; [done|left; eauto|done|]. right.
      split; [done|]. right. intros ?. apply Hn. by right.
  - destruct (String.eqb_spec v0 "") as [->|Hv]; [left; by intros [?|[? _]]|].
    destruct (parseEntry v0) as [p0|err] eqn:Hp.
    2: { left. intros [?|[_ [? ?]]]; [done|]. cbn in *. congruence. }
    specialize (IH (<[k0:=p0]> ret)).
    destruct (NewImagePoliciesConfigFromMap_loop order (<[k0:=p0]> ret)) as [c|err]; [|by right].
    destruct IH as [H1 H2]. split.
    { constructor; [|done]. right. split; [done|]. cbn. rewrite Hp. by eexists. }
    intros k p. rewrite H2. setoid_rewrite elem_of_cons.
    destruct (decide (k = k0)) as [->|Hne].
    + rewrite lookup_insert_eq. split.
      * intros [(_ & v & ? & _)|[[= ->] _]]; [by destruct Hk0; eapply Hin|].
        left. split; [done|]. exists v0. auto.
      * intros [(_ & v & [[= ->]|?] & Hv')|[_ [?|Hn]]]; [|by destruct Hk0; eapply Hin|done|].
        -- right. split; [congruence|]. by right.
        -- destruct Hn. by left.
    + rewrite lookup_insert_ne by done. split.
      * intros [(? & v & ? & ?)|[? Hn]]; [left; eauto|]. right. split; [done|].
        destruct Hn as [?|Hn]; [by left|]. right. intros [?|?]; done.
      * intros [(? & v & [[= ? _]|?] & ?)|[? [?|Hn]]]; [done|left; eauto|right; auto|].
        right. split; [done|]. right. intros ?. apply Hn. by right.
Qed.

(** The ConfigMap is read completely or not at all: the configuration holds
    exactly the entries of the ConfigMap (but for the example), each decoded from
    its text, and it is refused as soon as one entry is empty or does not decode,
    whatever the order the data is ranged over. *)
Lemma FromMap_spec (data : gmap string string)
    (order : list (string * string)) (Horder : order ≡ₚ map_to_list data) :
  match NewImagePoliciesConfigFromMap order with
  | Ok c => ∀ k p, Policies c !! k = Some p ↔
      k ≠ "_example" ∧ ∃ v, data !! k = Some v ∧ parseEntry v = Ok p
  | Err _ => ∃ k v, data !! k = Some v ∧ k ≠ "_example" ∧ (v = "" ∨ is_Err (parseEntry v))
  end.
Proof.
  assert (NoDup order.*1) as Hnd by (rewrite Horder; apply NoDup_fst_map_to_list).
  pose proof (FromMap_loop_spec order ∅ Hnd) as H. unfold NewImagePoliciesConfigFromMap.
  destruct (NewImagePoliciesConfigFromMap_loop order ∅) as [c|err].
  - destruct H as [_ H]. intros k p. rewrite H, lookup_empty.
    setoid_rewrite Horder. setoid_rewrite elem_of_map_to_list. intuition congruence.
  - apply Exists_exists in H as ([k v] & Hin & Hg). rewrite Horder, elem_of_map_to_list in Hin.
    exists k, v. split; [done|]. unfold goodEntry in Hg. cbn in Hg. split; [tauto|].
    destruct (decide (v = "")) as [|Hv]; [by left|]. right.
    destruct (is_Ok_or_Err (parseEntry v)) as [|]; [|done]. destruct Hg. by right.
Qed.

End Reading.

(** * A concrete configuration *)

Module ToyMeta.

#[export] Instance meta : K8sMeta := {|
  ParseGroupVersion s := if Contains s "//" then Err "unexpected GroupVersion" else
    match SplitN2 s "/" with [g; v] => Ok (g, v) | _ => Ok ("", s) end;
  UnsafeGuessKindToResource k := ToLower k +:+ "s";
  LabelSelectorAsSelector s :=
    Ok (λ labels, bool_decide (map_Forall (λ k v, labels !! k = Some v) (MatchLabels s)));
  YAMLToJSON s := if s ==s "bad" then Err "not YAML" else
    Ok (Ok (JObj [("uid", JStr s); ("images", JArr [JObj [("glob", JStr "ghcr.io/**")]])]))
|}.

Definition policy (match_ : list V1alpha1.MatchResource) : ClusterImagePolicy (P := ToyParsers.parsers) :=
  {| UID := "u"; ResourceVersion := "1"; Images := [{| V1alpha1.Glob := "ghcr.io/**" |}];
     Authorities := []; cip_Policy := None; Mode := ""; cip_Match := match_ |}.

(** One policy for every resource, one for cron jobs only. *)
Definition config : ImagePolicyConfig (P := ToyParsers.parsers) :=
  {| Policies := {[ "all" := policy []; "cronjobs" := policy
       [{| V1alpha1.mr_GroupVersionResource :=
             {| Group := "batch"; Version := "*"; Resource := "cronjobs" |};
           V1alpha1.ResourceSelector := None |}] ]} |}.

End ToyMeta.

#[local] Existing Instances ToyNames.names ToyParsers.parsers ToyMeta.meta.

Lemma GetMatchingPolicies_spec_witness :
  let r := GetMatchingPolicies (Some ToyMeta.config) (map_to_list (Policies ToyMeta.config))
    "ghcr.io/org/app" "Pod" "v1" ∅ in
  r.1 !! "all" = Some (ToyMeta.policy []) ∧ r.2 = None.
Proof.
  intros r. assert (r.2 = None) as He by (vm_compute; reflexivity).
  pose proof (GetMatchingPolicies_spec ToyMeta.config (map_to_list (Policies ToyMeta.config))
    "ghcr.io/org/app" "Pod" "v1" "" "v1" ∅ (reflexivity _) eq_refl) as H.
  cbv zeta in H. fold r in H. clearbody r. destruct r as [ret err].
  destruct H as [_ H2]. split; [|exact He]. apply H2; [|split; [reflexivity|]].
  - intros k v Hk. destruct (candidate _ _ v) eqn:Hc; [by eexists|].
    exfalso. revert Hk Hc. unfold ToyMeta.config. cbn [Policies].
    intros [[<- <-]|[_ Hk]]%lookup_insert_Some; [vm_compute; discriminate|].
    apply lookup_singleton_Some in Hk as [<- <-]. vm_compute. discriminate.
  - split; [left; reflexivity|]. constructor. split; [discriminate|vm_compute; reflexivity].
Defined.
