(* ===== verification/CheckOpts.v ===== *)
(** The options cosign is called with for an authority
    (pkg/webhook/validator.go, [checkOptsFromAuthority] and what it calls): which
    certificates, transparency logs and timestamp authorities a signature is
    checked against.

    [SigstoreKeysConfig] is the trust roots of the configuration attached to the
    context, if any; [tufRoot] is what [pctuf.GetTrustedRoot] gives. *)

From S2P Require Import Prelude.
From S2P Require Import Names.
From S2P Require Import Encoding.
From S2P Require Import K8s.
From S2P Require Import PCConfig.
From S2P Require Import Common.
From S2P Require V1alpha1.
From S2P Require Import Oci.
From S2P Require Import SigstoreKeys.
From S2P Require Import WebhookTypes.
From S2P Require Import Cosign.
From S2P Require Import ImagePolicies.

Section CheckOpts.
Context `{N : NamePkg} `{P : Parsers} `{C : Certs} `{T : CosignTypes} `{G : !Cosign}.

(** What the functions below take from the context. *)
Record TrustCtx := {
  tc_pcConfig : PolicyControllerConfig;
  tc_config : option Config;
  tufRoot : result string TrustedRoot
}.

Definition sigstoreKeysFromContext (ctx : TrustCtx) (trustRootRef : string) :
    result string SigstoreKeysMap :=
  match tc_config ctx with
  | None => Err ("trustRootRef " +:+ trustRootRef +:+ " not found, config missing")
  | Some config =>
      match cfg_SigstoreKeysConfig config with
      | None => Err ("trustRootRef " +:+ trustRootRef +:+ " not found, SigstoreKeys missing")
      | Some keys => Ok keys
      end
  end.

Definition notFound (trustRootRef : string) : string :=
  "trustRootRef " +:+ trustRootRef +:+ " not found".

(** ** Fulcio *)

Definition isSelfSigned (cert : Certificate) : bool := RawSubject cert ==s RawIssuer cert.

(** The certificates of the authorities: self-signed ones are roots. Here and below, the
    error [nilDereference] stands for the panic on a nil message, which nothing
    recovers: it ends the process, so that the request has no answer. *)
Fixpoint fulcioPools (cas : list CertificateAuthority) (roots intermediates : list Certificate) :
    result string (list Certificate * list Certificate) :=
  match cas with
  | [] => Ok (roots, intermediates)
  | ca :: rest =>
      match SerializeCertChain (CertChain ca) with
      | None => Err nilDereference
      | Some pem =>
      match UnmarshalCertificatesFromPEM pem with
      | Err err => Err ("error unmarshalling certificates: " +:+ err)
      | Ok certs =>
          fulcioPools rest (roots ++ filter (λ c, isSelfSigned c = true) certs)
            (intermediates ++ filter (λ c, isSelfSigned c = false) certs)
      end end
  end.

(** The public key of each log, by log id (UnmarshalPEMToPublicKey returns no nil
    key without an error). [check] is applied to the key of the [i]-th log. *)
Fixpoint logKeys (check : nat → PublicKey → option string) (i : nat)
    (logs : list TransparencyLogInstance) (keys : gmap string PublicKey) :
    result string (gmap string PublicKey) :=
  match logs with
  | [] => Ok keys
  | log :: rest =>
      match SerializePublicKey (tl_PublicKey log) with
      | None => Err nilDereference
      | Some pem =>
      match UnmarshalPEMToPublicKey pem with
      | Err err => Err ("unmarshaling public key " +:+ pretty i +:+ " failed: " +:+ err)
      | Ok None => Err ("public key " +:+ pretty i +:+ " is nil")
      | Ok (Some pk) =>
          match check i pk with
          | Some err => Err err
          | None =>
              match LogId log with
              | None => Err nilDereference
              | Some KeyId => logKeys check (S i) rest (<[KeyId := pk]> keys)
              end
          end
      end end
  end.

Definition fulcioCertsFromAuthority (ctx : TrustCtx) (keylessRef : KeylessRef) :
    result string (list Certificate * list Certificate * option LogPubKeys) :=
  if keyless_TrustRootRef keylessRef ==s "" then
    match fulcioroots_Get with
    | Err err => Err ("failed to fetch Fulcio roots: " +:+ err)
    | Ok roots =>
    match fulcioroots_GetIntermediates with
    | Err err => Err ("failed to fetch Fulcio intermediates: " +:+ err)
    | Ok intermediates =>
    match GetCTLogPubs with
    | Err err => Err ("failed to fetch CTLog public keys: " +:+ err)
    | Ok ctPubs => Ok (roots, intermediates, Some ctPubs)
    end end end
  else
    let trustRootRef := keyless_TrustRootRef keylessRef in
    match sigstoreKeysFromContext ctx trustRootRef with
    | Err err => Err ("getting SigstoreKeys: " +:+ err)
    | Ok sigstoreKeys =>
    match sigstoreKeys !! trustRootRef with
    | None => Err (notFound trustRootRef)
    | Some sk =>
    match fulcioPools (CertificateAuthorities sk) [] [] with
    | Err err => Err err
    | Ok (rootCertsPool, intermediateCertsPool) =>
    match logKeys (λ _ _, None) 0 (Ctlogs sk) ∅ with
    | Err err => Err err
    | Ok ctlogKeys =>
        Ok (rootCertsPool, intermediateCertsPool,
            if decide (ctlogKeys = ∅) then None else Some ctlogKeys)
    end end end end.

(** ** Rekor *)

(** The URL is the last log's; a log key must be ECDSA. *)
Definition rekorKeysFromTrustRef (ctx : TrustCtx) (trustRootRef : string) :
    result string (LogPubKeys * string) :=
  match sigstoreKeysFromContext ctx trustRootRef with
  | Err err => Err ("getting SigstoreKeys: " +:+ err)
  | Ok sigstoreKeys =>
  match sigstoreKeys !! trustRootRef with
  | None => Err (notFound trustRootRef)
  | Some sk =>
  match logKeys (λ i pk, if isECDSA pk then None
          else Some ("public key " +:+ pretty i +:+ " is not ecdsa.PublicKey")) 0 (Tlogs sk) ∅ with
  | Err err => Err err
  | Ok keys => Ok (keys, default "" (BaseUrl <$> last (Tlogs sk)))
  end end end.

Definition rekorClientAndKeysFromAuthority (ctx : TrustCtx) (authority : Authority) :
    result string (option RekorClient * option LogPubKeys) :=
  let publicRekor := match Keyless authority with
    | Some keyless => (keyless_TrustRootRef keyless ==s "") && isNil (CTLog authority)
    | None => false
    end in
  if publicRekor then
    match GetRekorPubs with
    | Err err => Err ("getting Rekor public keys: " +:+ err)
    | Ok rekorPubKeys => Ok (None, Some rekorPubKeys)
    end
  else
    match CTLog authority with
    | None => Ok (None, None)
    | Some tlog =>
        if V1alpha1.tlog_TrustRootRef tlog !=s "" then
          match rekorKeysFromTrustRef ctx (V1alpha1.tlog_TrustRootRef tlog) with
          | Err err => Err ("fetching keys for trustRootRef: " +:+ err)
          | Ok (rekorPubKeys, rekorURL) =>
              let rekorURL := match V1alpha1.tlog_URL tlog with
                | Some u => if rekorURL ==s "" then urlString u else rekorURL
                | None => rekorURL
                end in
              match GetRekorClient rekorURL with
              | Err err => Err ("creating Rekor client: " +:+ err)
              | Ok rekorClient => Ok (Some rekorClient, Some rekorPubKeys)
              end
          end
        else
          match V1alpha1.tlog_URL tlog with
          | None => Ok (None, None)
          | Some u =>
              match GetRekorClient (urlString u) with
              | Err err => Err ("creating Rekor client: " +:+ err)
              | Ok rekorClient =>
                  match GetRekorPubs with
                  | Err err => Err ("getting Rekor public keys: " +:+ err)
                  | Ok rekorPubKeys => Ok (Some rekorClient, Some rekorPubKeys)
                  end
              end
          end
    end.

(** ** Timestamp authorities *)

Definition splitPEMCertificateChain (pem : string) :
    result string (list Certificate * list Certificate * list Certificate) :=
  match UnmarshalCertificatesFromPEM pem with
  | Err err => Err err
  | Ok certs =>
      Ok (filter (λ c, IsCA c = false) certs,
          filter (λ c, IsCA c = true ∧ isSelfSigned c = false) certs,
          filter (λ c, IsCA c = true ∧ isSelfSigned c = true) certs)
  end.

(** The last authority of the trust root wins, except that one without a leaf
    leaves the certificate of an earlier one. *)
Fixpoint tsaCertificates (tsas : list CertificateAuthority)
    (cert : option Certificate) (intermediates roots : list Certificate) :
    result string (option Certificate * list Certificate * list Certificate) :=
  match tsas with
  | [] => Ok (cert, intermediates, roots)
  | tsa :: rest =>
      match SerializeCertChain (CertChain tsa) with
      | None => Err nilDereference
      | Some pem =>
      match splitPEMCertificateChain pem with
      | Err err => Err ("error splitting certificates: " +:+ err)
      | Ok (leaves, intermediates, roots) =>
          match leaves with
          | _ :: _ :: _ => Err "certificate chain must contain at most one TSA certificate"
          | [leaf] => tsaCertificates rest (Some leaf) intermediates roots
          | [] => tsaCertificates rest cert intermediates roots
          end
      end end
  end.

(** ** checkOptsFromAuthority *)

Definition convertIdentity (id : V1alpha1.Identity) : CosignIdentity :=
  {| ci_Issuer := V1alpha1.Issuer id; ci_Subject := V1alpha1.Subject id;
     ci_IssuerRegExp := V1alpha1.IssuerRegExp id; ci_SubjectRegExp := V1alpha1.SubjectRegExp id |}.

Definition identities (authority : Authority) : list CosignIdentity :=
  match Keyless authority with
  | Some keyless => convertIdentity <$> Identities keyless
  | None => []
  end.

(** The options before any verification material is added. *)
Definition baseOpts (ctx : TrustCtx) (authority : Authority) (remoteOpts : list RemoteOption) :
    CheckOpts :=
  {| RegistryClientOpts := remoteOpts;
     NewBundleFormat := SignatureFormat authority ==s "bundle";
     ExperimentalOCI11 := EnableOCI11 (tc_pcConfig ctx);
     co_Identities := identities authority;
     TrustedMaterial := None; IgnoreSCT := false; UseSignedTimestamps := false;
     IgnoreTlog := false; Offline := false; RootCerts := None; IntermediateCerts := None;
     CTLogPubKeys := None; co_RekorClient := None; RekorPubKeys := None;
     TSACertificate := None; TSAIntermediateCertificates := []; TSARootCertificates := [];
     SigVerifier := None; co_ClaimVerifier := None |}.

Definition errTSATrustRoot : string :=
  "when using the new bundle format, the trustRootRef for the TSA must be the same as the trustRootRef for the Keyless authority".
Definition errTLogTrustRoot : string :=
  "when using the new bundle format, the trustRootRef for the TLog must be the same as the trustRootRef for the Keyless authority".

(** The trusted material of the new bundle format. *)
Definition bundleMaterial (ctx : TrustCtx) (trustRootRef : string) : result string TrustedRoot :=
  if trustRootRef !=s "" then
    match sigstoreKeysFromContext ctx trustRootRef with
    | Err err => Err ("getting SigstoreKeys: " +:+ err)
    | Ok sigstoreKeys =>
        match sigstoreKeys !! trustRootRef with
        | None => Err (notFound trustRootRef)
        | Some sk =>
            map_err (λ err, "failed to create trusted root from protobuf: " +:+ err)
              (NewTrustedRootFromProtobuf sk)
        end
    end
  else map_err (λ err, "failed to fetch trusted root: " +:+ err) (tufRoot ctx).

Definition bundleOpts (ctx : TrustCtx) (authority : Authority) (ret : CheckOpts) :
    result string CheckOpts :=
  match Keyless authority with
  | None => Err "when using the new bundle format, the authority must be keyless"
  | Some keyless =>
  match bundleMaterial ctx (keyless_TrustRootRef keyless) with
  | Err err => Err err
  | Ok material =>
      let tsa := auth_RFC3161Timestamp authority in
      let badTSA := match tsa with
        | Some t => tsa_TrustRootRef t !=s keyless_TrustRootRef keyless | None => false end in
      let badTLog := match CTLog authority with
        | Some t => V1alpha1.tlog_TrustRootRef t !=s keyless_TrustRootRef keyless
        | None => false end in
      if badTSA then Err errTSATrustRoot
      else if badTLog then Err errTLogTrustRoot
      else Ok {| RegistryClientOpts := RegistryClientOpts ret; NewBundleFormat := NewBundleFormat ret;
                 ExperimentalOCI11 := ExperimentalOCI11 ret; co_Identities := co_Identities ret;
                 TrustedMaterial := Some material;
                 IgnoreSCT := isTrue (InsecureIgnoreSCT keyless);
                 UseSignedTimestamps := notNil tsa; IgnoreTlog := notNil tsa;
                 Offline := Offline ret; RootCerts := RootCerts ret;
                 IntermediateCerts := IntermediateCerts ret; CTLogPubKeys := CTLogPubKeys ret;
                 co_RekorClient := co_RekorClient ret; RekorPubKeys := RekorPubKeys ret;
                 TSACertificate := TSACertificate ret;
                 TSAIntermediateCertificates := TSAIntermediateCertificates ret;
                 TSARootCertificates := TSARootCertificates ret;
                 SigVerifier := SigVerifier ret; co_ClaimVerifier := co_ClaimVerifier ret |}
  end end.

(** The timestamp authorities of an authority that names a trust root. *)
Definition tsaOf (ctx : TrustCtx) (authority : Authority) :
    result string (option (option Certificate * list Certificate * list Certificate)) :=
  match auth_RFC3161Timestamp authority with
  | Some tsa =>
      if tsa_TrustRootRef tsa !=s "" then
        match sigstoreKeysFromContext ctx (tsa_TrustRootRef tsa) with
        | Err err => Err err
        | Ok sigstoreKeys =>
            match sigstoreKeys !! tsa_TrustRootRef tsa with
            | None => Err (notFound (tsa_TrustRootRef tsa))
            | Some sk => Some <$> tsaCertificates (TimestampAuthorities sk) None [] []
            end
        end
      else Ok None
  | None => Ok None
  end.

(** Fulcio's part, for a keyless authority. *)
Definition fulcioOf (ctx : TrustCtx) (authority : Authority) :
    result string (option (list Certificate * list Certificate * option LogPubKeys)) :=
  match Keyless authority with
  | Some keyless =>
      map_err (λ err, "getting Fulcio certs: " +:+ auth_Name authority +:+ ": " +:+ err)
        (Some <$> fulcioCertsFromAuthority ctx keyless)
  | None => Ok None
  end.

Definition checkOptsFromAuthority (ctx : TrustCtx) (authority : Authority)
    (remoteOpts : list RemoteOption) : result string CheckOpts :=
  let ret := baseOpts ctx authority remoteOpts in
  if NewBundleFormat ret then bundleOpts ctx authority ret else
  match fulcioOf ctx authority with
  | Err err => Err err
  | Ok fulcio =>
  match rekorClientAndKeysFromAuthority ctx authority with
  | Err err => Err ("getting Rekor public keys: " +:+ auth_Name authority +:+ ": " +:+ err)
  | Ok (rekorClient, rekorPubKeys) =>
  match tsaOf ctx authority with
  | Err err => Err err
  | Ok tsa =>
      Ok {| RegistryClientOpts := RegistryClientOpts ret; NewBundleFormat := NewBundleFormat ret;
            ExperimentalOCI11 := ExperimentalOCI11 ret; co_Identities := co_Identities ret;
            TrustedMaterial := None;
            IgnoreSCT := match Keyless authority with
              | Some keyless => isTrue (InsecureIgnoreSCT keyless) | None => false end;
            UseSignedTimestamps := notNil tsa;
            IgnoreTlog := (isNil rekorClient && isNil rekorPubKeys) || notNil tsa;
            Offline := isNil rekorClient && notNil rekorPubKeys;
            RootCerts := (λ '(roots, _, _), roots) <$> fulcio;
            IntermediateCerts := (λ '(_, intermediates, _), intermediates) <$> fulcio;
            CTLogPubKeys := fulcio ≫= λ '(_, _, ctlog), ctlog;
            co_RekorClient := rekorClient; RekorPubKeys := rekorPubKeys;
            TSACertificate := tsa ≫= λ '(cert, _, _), cert;
            TSAIntermediateCertificates := match tsa with Some (_, i, _) => i | None => [] end;
            TSARootCertificates := match tsa with Some (_, _, r) => r | None => [] end;
            SigVerifier := None; co_ClaimVerifier := None |}
  end end end.

(** * Which evidence is required *)

(** The authority asks for a transparency log: the public one, by being keyless
    with neither a trust root nor a log, or the one it names. *)
Definition requiresTlog (a : Authority) : Prop :=
  (∃ k, Keyless a = Some k ∧ keyless_TrustRootRef k = "" ∧ CTLog a = None) ∨
  ∃ t, CTLog a = Some t ∧ (V1alpha1.tlog_TrustRootRef t ≠ "" ∨ V1alpha1.tlog_URL t ≠ None).

Definition requiresTimestamp (a : Authority) : Prop :=
  ∃ t, auth_RFC3161Timestamp a = Some t ∧ tsa_TrustRootRef t ≠ "".

Lemma rekor_spec ctx a rekorClient rekorPubKeys :
  rekorClientAndKeysFromAuthority ctx a = Ok (rekorClient, rekorPubKeys) →
  (rekorPubKeys ≠ None ↔ requiresTlog a) ∧ (rekorClient ≠ None → rekorPubKeys ≠ None).
Proof.
  unfold rekorClientAndKeysFromAuthority, requiresTlog.
  destruct (CTLog a) as [t|] eqn:Ht.
  - assert (match Keyless a with
      | Some keyless => (keyless_TrustRootRef keyless ==s "") && isNil (Some t)
      | None => false end = false) as -> by (destruct (Keyless a); [apply andb_false_r|done]).
    assert ((∃ k, Keyless a = Some k ∧ keyless_TrustRootRef k = "" ∧ Some t = None) ↔ Logic.False) as ->
      by (split; [by intros (? & _ & _ & ?)|done]).
    assert ((∃ t0, Some t = Some t0 ∧
        (V1alpha1.tlog_TrustRootRef t0 ≠ "" ∨ V1alpha1.tlog_URL t0 ≠ None)) ↔
      V1alpha1.tlog_TrustRootRef t ≠ "" ∨ V1alpha1.tlog_URL t ≠ None) as ->
      by (split; [by intros (? & [= <-] & ?)|by exists t]).
    destruct (String.eqb_spec (V1alpha1.tlog_TrustRootRef t) "") as [He|He]; cbn [negb].
    + destruct (V1alpha1.tlog_URL t) as [u|]; [|intros [= <- <-]; intuition congruence].
      destruct (GetRekorClient _), GetRekorPubs; try done. intros [= <- <-]. intuition congruence.
    + destruct (rekorKeysFromTrustRef _ _) as [[keys url]|]; [|done].
      destruct (GetRekorClient _); [|done]. intros [= <- <-]. intuition congruence.
  - assert ((∃ t, None = Some t ∧ (V1alpha1.tlog_TrustRootRef t ≠ "" ∨ V1alpha1.tlog_URL t ≠ None)) ↔
      Logic.False) as -> by (split; [by intros (? & ? & _)|done]).
    destruct (Keyless a) as [k|].
    + destruct (String.eqb_spec (keyless_TrustRootRef k) "") as [He|He]; cbn [isNil notNil negb andb].
      * destruct GetRekorPubs; [|done]. intros [= <- <-]. split; [|done].
        split; [|done]. intros _. left. by exists k.
      * intros [= <- <-]. split; [|done]. split; [done|].
        intros [(k' & [= <-] & ? & _)|[]]. done.
    + intros [= <- <-]. split; [|done]. split; [done|]. by intros [(? & ? & _)|[]].
Qed.

Lemma tsaOf_spec ctx a tsa : tsaOf ctx a = Ok tsa → tsa ≠ None ↔ requiresTimestamp a.
Proof.
  unfold tsaOf, requiresTimestamp. destruct (auth_RFC3161Timestamp a) as [t|].
  - assert ((∃ t0, Some t = Some t0 ∧ tsa_TrustRootRef t0 ≠ "") ↔ tsa_TrustRootRef t ≠ "") as ->
      by (split; [by intros (? & [= <-] & ?)|by exists t]).
    destruct (String.eqb_spec (tsa_TrustRootRef t) ""); cbn [negb]; [by intros [= <-]|].
    destruct (sigstoreKeysFromContext _ _) as [keys|]; [|done].
    destruct (keys !! _) as [sk|]; [|done].
    destruct (tsaCertificates _ _ _ _); intros [= <-]; done.
  - intros [= <-]. split; [done|]. by intros (? & ? & _).
Qed.

(** C32: what evidence a signature needs, besides the certificate or key. For an
    authority in the classic format, the transparency log is ignored exactly
    when a timestamp is required instead or the authority asks for no log; when
    it asks for one, log keys are always set, and the verification is offline
    only without a client; the identities are those of the authority, and Fulcio
    roots are set exactly for keyless authorities. *)
Theorem checkOpts_evidence (ctx : TrustCtx) (a : Authority) (remoteOpts : list RemoteOption)
    (co : CheckOpts) (Hformat : SignatureFormat a ≠ "bundle")
    (Hco : checkOptsFromAuthority ctx a remoteOpts = Ok co) :
  (IgnoreTlog co = true ↔ requiresTimestamp a ∨ ¬ requiresTlog a) ∧
  (UseSignedTimestamps co = true ↔ requiresTimestamp a) ∧
  (RekorPubKeys co ≠ None ↔ requiresTlog a) ∧
  (Offline co = true ↔ requiresTlog a ∧ co_RekorClient co = None) ∧
  co_Identities co = identities a ∧ (RootCerts co ≠ None ↔ Keyless a ≠ None) ∧
  RegistryClientOpts co = remoteOpts.
Proof.
  unfold checkOptsFromAuthority in Hco. cbv zeta in Hco. cbn [baseOpts NewBundleFormat] in Hco.
  apply String.eqb_neq in Hformat. rewrite Hformat in Hco.
  destruct (fulcioOf ctx a) as [fulcio|] eqn:Hf; [|done].
  destruct (rekorClientAndKeysFromAuthority ctx a) as [[client keys]|] eqn:Hr; [|done].
  destruct (tsaOf ctx a) as [tsa|] eqn:Ht; [|done]. injection Hco as <-.
  apply rekor_spec in Hr as [Hk Hc]. apply tsaOf_spec in Ht.
  assert (fulcio ≠ None ↔ Keyless a ≠ None) as Hful.
  { unfold fulcioOf in Hf. destruct (Keyless a); [|by injection Hf as <-].
    destruct (fulcioCertsFromAuthority _ _); [|done]. by injection Hf as <-. }
  cbn [IgnoreTlog UseSignedTimestamps RekorPubKeys Offline co_RekorClient co_Identities RootCerts
    RegistryClientOpts baseOpts].
  rewrite orb_true_iff, !andb_true_iff, !isNil_true, !notNil_true, <-!not_eq_None_Some, <-Hk, <-Ht.
  assert ((λ '(roots, _, _), roots) <$> fulcio ≠ None ↔ fulcio ≠ None) as ->
    by (destruct fulcio as [[[]]|]; done).
  destruct client, keys; intuition congruence.
Qed.

End CheckOpts.

Lemma checkOpts_evidence_witness :
  let a : Authority (P := ToyParsers.parsers) :=
    {| auth_Name := "a"; Key := Some {| key_Data := "PEM"; key_HashAlgorithm := "sha256";
         HashAlgorithmCode := SHA256; PublicKeys := [] |};
       Keyless := None; Static := None; Sources := []; CTLog := None; RemoteOpts := [];
       Attestations := []; auth_RFC3161Timestamp := None; GMSignature := None;
       SignatureFormat := "" |} in
  let ctx : TrustCtx (T := ToyCosign.types) :=
    {| tc_pcConfig := FromContextOrDefaults emptyCtx; tc_config := None; tufRoot := Err "offline" |} in
  match checkOptsFromAuthority (G := ToyCosign.cosign) ctx a [] with
  | Ok co => IgnoreTlog co = true
  | Err _ => Logic.False
  end.
Proof.
  intros a ctx. destruct (checkOptsFromAuthority (G := ToyCosign.cosign) ctx a []) as [co|] eqn:Hco.
  - destruct (checkOpts_evidence (G := ToyCosign.cosign) ctx a [] co) as [H _];
      [discriminate|exact Hco|]. apply H. right.
    intros [(k & Hk & _)|(t & Ht & _)]; discriminate.
  - discriminate Hco.
Defined.
