(* ===== verification/Results.v ===== *)
(** The results of validating a policy (pkg/webhook/validator_result.go,
    pkg/webhook/cache.go, pkg/webhook/nocache.go), their JSON form, which a CIP
    level policy is evaluated against, and the errors of the webhook. *)

From S2P Require Import Prelude.
From S2P Require Import FieldErrors.
From S2P Require Import Encoding.
From S2P Require Import WebhookJSON.

Record GithubExtensions := {
  WorkflowTrigger : string;
  WorkflowSHA : string;
  WorkflowName : string;
  WorkflowRepo : string;
  WorkflowRef : string
}.
Definition zeroGithubExtensions : GithubExtensions :=
  {| WorkflowTrigger := ""; WorkflowSHA := ""; WorkflowName := ""; WorkflowRepo := "";
     WorkflowRef := "" |}.

Record PolicySignature := {
  ID : string;
  Subject : string;
  Issuer : string;
  ps_GithubExtensions : GithubExtensions
}.

Record PolicyAttestation := {
  pa_PolicySignature : PolicySignature;
  pa_PredicateType : string;
  pa_Payload : string;
  pa_Digest : string
}.

Record AuthorityMatch := {
  Signatures : list PolicySignature;
  am_Attestations : gmap string (list PolicyAttestation);
  am_Static : bool
}.

(** The config file of an image, with the fields its platform is made of. *)
Record ConfigFile := {
  cf_OS : string; cf_Architecture : string; cf_OSVersion : string; cf_Variant : string;
  cf_json : json
}.

(** [Spec], [ObjectMeta] and [TypeMeta] are interface values: nil or something
    that marshals to the given JSON. *)
Record PolicyResult := {
  AuthorityMatches : gmap string AuthorityMatch;
  pr_Config : gmap string ConfigFile;
  pr_Spec : option json;
  pr_ObjectMeta : option json;
  pr_TypeMeta : option json
}.

(** * The JSON form *)

Definition omitempty_map {A} (name : string) (f : A → json) (m : gmap string A) :
    list (string * json) :=
  if decide (map_to_list m = []) then [] else [(name, encode_map f m)].
Definition omitempty_bool (name : string) (b : bool) : list (string * json) :=
  if b then [(name, JBool true)] else [].

Definition PolicySignature_fields (s : PolicySignature) : list (string * json) :=
  let g := ps_GithubExtensions s in
  omitempty_string "id" (ID s) ++ omitempty_string "subject" (Subject s) ++
  omitempty_string "issuer" (Issuer s) ++
  omitempty_string "githubWorkflowTrigger" (WorkflowTrigger g) ++
  omitempty_string "githubWorkflowSha" (WorkflowSHA g) ++
  omitempty_string "githubWorkflowName" (WorkflowName g) ++
  omitempty_string "githubWorkflowRepo" (WorkflowRepo g) ++
  omitempty_string "githubWorkflowRef" (WorkflowRef g).

Definition encode_PolicySignature (s : PolicySignature) : json := JObj (PolicySignature_fields s).

(** The payload is not marshalled. *)
Definition encode_PolicyAttestation (a : PolicyAttestation) : json :=
  JObj (PolicySignature_fields (pa_PolicySignature a) ++
        omitempty_string "predicateType" (pa_PredicateType a) ++
        omitempty_string "digest" (pa_Digest a)).

Definition encode_AuthorityMatch (m : AuthorityMatch) : json :=
  JObj (omitempty_list "signatures" encode_PolicySignature (Signatures m) ++
        omitempty_map "attestations" (λ l, JArr (encode_PolicyAttestation <$> l))
          (am_Attestations m) ++
        omitempty_bool "static" (am_Static m)).

Definition encode_PolicyResult (r : PolicyResult) : json :=
  JObj (omitempty_map "authorityMatches" encode_AuthorityMatch (AuthorityMatches r) ++
        omitempty_map "config" cf_json (pr_Config r) ++
        omitempty_ptr "spec" id (pr_Spec r) ++
        omitempty_ptr "metadata" id (pr_ObjectMeta r) ++
        omitempty_ptr "typemeta" id (pr_TypeMeta r)).

(** * Errors and cached results *)

Section Errors.
Context `{F : FieldErrors}.

(** An [error]: a field error (what [errors.As] finds) or any other. *)
Inductive goError := PlainError (msg : string) | FieldErr (fe : FieldError).

Record CacheResult := {
  cr_PolicyResult : option PolicyResult;
  cr_Errors : list goError
}.

(** The [ResultCache] interface: what [Get] answers, by image, uid and resource
    version. A call of [Set] is recorded as the [CacheWrite] it makes. *)
Record ResultCache := { cache_Get : string → string → string → option CacheResult }.
Record CacheWrite := {
  cw_image : string; cw_name : string; cw_uid : string; cw_resourceVersion : string;
  cw_result : CacheResult
}.

(** The cache used when none is configured. *)
Definition NoCache : ResultCache := {| cache_Get := λ _ _ _, None |}.

Definition ResultCache_FromContext (x : option ResultCache) : ResultCache := default NoCache x.

End Errors.
