(* ===== verification/Authority.v ===== *)
(** Validating one authority: the calls of cosign (pkg/webhook/validation.go) and
    the signatures and attestations of an authority (pkg/webhook/validator.go). *)

From S2P Require Import Prelude.
From S2P Require Import Names.
From S2P Require Import Encoding.
From S2P Require Import K8s.
From S2P Require Import PCConfig.
From S2P Require Import Common.
From S2P Require Import Oci.
From S2P Require Import SigstoreKeys.
From S2P Require Import WebhookTypes.
From S2P Require GM.
From S2P Require Import Cosign.
From S2P Require Import ImagePolicies.
From S2P Require Import CheckOpts.
From S2P Require Import Results.

Section Authority.
Context `{N : NamePkg} `{P : Parsers} `{J : JsonText} `{C : Certs} `{T : CosignTypes}
  `{G : !Cosign} `{L : GM.LRU}.

(** SHA-256 and SM3 of a byte string, and [http.NewRequestWithContext]'s check. *)
Variable sha256 : string → string.
Variable SM3 : string → string.
Variable newRequestError : string → option string.

(** What an authority's validation takes from the context. The GM verifier's
    cache is shared by concurrent validations; [vc_gmState] is what this call
    finds there. *)
Record VerifyCtx := {
  vc_trust : TrustCtx;
  vc_gmClient : option GM.HSM;
  vc_gmState : GM.VerifyState
}.

(** * validation.go *)

Definition withSigVerifier (co : CheckOpts) (v : Verifier) : CheckOpts :=
  {| RegistryClientOpts := RegistryClientOpts co; NewBundleFormat := NewBundleFormat co;
     ExperimentalOCI11 := ExperimentalOCI11 co; co_Identities := co_Identities co;
     TrustedMaterial := TrustedMaterial co; IgnoreSCT := IgnoreSCT co;
     UseSignedTimestamps := UseSignedTimestamps co; IgnoreTlog := IgnoreTlog co;
     Offline := Offline co; RootCerts := RootCerts co; IntermediateCerts := IntermediateCerts co;
     CTLogPubKeys := CTLogPubKeys co; co_RekorClient := co_RekorClient co;
     RekorPubKeys := RekorPubKeys co; TSACertificate := TSACertificate co;
     TSAIntermediateCertificates := TSAIntermediateCertificates co;
     TSARootCertificates := TSARootCertificates co; SigVerifier := Some v;
     co_ClaimVerifier := co_ClaimVerifier co |}.
Definition withClaimVerifier (co : CheckOpts) (v : ClaimVerifier) : CheckOpts :=
  {| RegistryClientOpts := RegistryClientOpts co; NewBundleFormat := NewBundleFormat co;
     ExperimentalOCI11 := ExperimentalOCI11 co; co_Identities := co_Identities co;
     TrustedMaterial := TrustedMaterial co; IgnoreSCT := IgnoreSCT co;
     UseSignedTimestamps := UseSignedTimestamps co; IgnoreTlog := IgnoreTlog co;
     Offline := Offline co; RootCerts := RootCerts co; IntermediateCerts := IntermediateCerts co;
     CTLogPubKeys := CTLogPubKeys co; co_RekorClient := co_RekorClient co;
     RekorPubKeys := RekorPubKeys co; TSACertificate := TSACertificate co;
     TSAIntermediateCertificates := TSAIntermediateCertificates co;
     TSARootCertificates := TSARootCertificates co; SigVerifier := SigVerifier co;
     co_ClaimVerifier := Some v |}.

Definition validSignatures (ref : Reference) (checkOpts : CheckOpts) :
    result string (list Signature) :=
  VerifyImageSignatures ref (withClaimVerifier checkOpts SimpleClaimVerifier).

(** The loop over the keys: the first that verifies wins, the last error is
    returned otherwise (nil, with no signature, only if there is no key). *)
Fixpoint valid_loop (ref : Reference) (keys : list (option PublicKey)) (hashAlgo : Hash)
    (checkOpts : CheckOpts) (lastErr : option string) : result string (list Signature) :=
  match keys with
  | [] => match lastErr with Some err => Err err | None => Ok [] end
  | k :: rest =>
      match LoadVerifier k hashAlgo with
      | Err err => valid_loop ref rest hashAlgo checkOpts (Some err)
      | Ok verifier =>
          let checkOpts := withSigVerifier checkOpts verifier in
          match validSignatures ref checkOpts with
          | Err err => valid_loop ref rest hashAlgo checkOpts (Some err)
          | Ok sps => Ok sps
          end
      end
  end.
Definition valid (ref : Reference) (keys : list (option PublicKey)) (hashAlgo : Hash)
    (checkOpts : CheckOpts) : result string (list Signature) :=
  if isEmpty keys then validSignatures ref checkOpts
  else valid_loop ref keys hashAlgo checkOpts None.

(** The envelope: its payload and the signatures' [sig]. *)
Definition decode_envelope (j : json) : option (string * list string) :=
  decode_struct (λ l,
    payload ← decode_string (field "payload" l);
    sigs ← decode_slice (λ s, decode_struct (λ l, decode_string (field "sig" l)) (Some s))
             (field "signatures" l);
    Some (payload, sigs)) (Some j).

Definition processAttestationArtifact (result : Descriptor) (repository : string)
    (registryOpts : list RemoteOption) : Prelude.result string (list Signature) :=
  match ParseReference [] (repository +:+ "@" +:+ desc_Digest result) with
  | Err err => Err err
  | Ok attRef =>
  match SignedImageLayers attRef registryOpts with
  | Err err => Err err
  | Ok layers =>
  match layers with
  | Err _ | Ok [] => Err "no layers found"
  | Ok (Err err :: _) => Err err
  | Ok (Ok dsseEnvelope :: _) =>
  match (j ← jsonParse dsseEnvelope; decode_envelope j) with
  | None => Err "invalid envelope"
  | Some (payload, sigs) =>
      let payloadBytes := jsonText (JObj [("payload", JStr payload)]) in
      Ok (omap (λ sig, match static_NewSignature payloadBytes sig with
                       | Ok ociSig => Some ociSig | Err _ => None end) sigs)
  end end end end.

(** The in-toto artifacts that can be processed, one after the other. *)
Definition attestationArtifacts (manifests : list Descriptor) (repository : string)
    (registryOpts : list RemoteOption) : list Signature :=
  concat ((λ manifest,
    if Contains (ArtifactType manifest) "in-toto" then
      match processAttestationArtifact manifest repository registryOpts with
      | Ok sigs => sigs | Err _ => []
      end
    else []) <$> manifests).

Definition discoverAttestationsOCI11 (ref : Reference) (checkOpts : CheckOpts) :
    result string (list Signature) :=
  match ResolveDigest ref (RegistryClientOpts checkOpts) with
  | Err err => Err err
  | Ok (digest, _) =>
  match Referrers digest (RegistryClientOpts checkOpts) with
  | Err err => Err err
  | Ok manifests =>
      let allSigs := attestationArtifacts manifests (RepositoryOf digest)
                       (RegistryClientOpts checkOpts) in
      if isEmpty allSigs then Err "no attestations found" else Ok allSigs
  end end.

Definition validAttestations (cfg : PolicyControllerConfig) (ref : Reference)
    (checkOpts : CheckOpts) : result string (list Signature) :=
  let verify := VerifyImageAttestations ref (withClaimVerifier checkOpts IntotoSubjectClaimVerifier) in
  if EnableOCI11 cfg then
    match discoverAttestationsOCI11 ref checkOpts with
    | Ok attestations => Ok attestations
    | Err _ => verify
    end
  else verify.

(** * Normalized results *)

(** [sha256(signature || certificate)], in hex. *)
Definition signatureID (sig : Signature) : result string string :=
  match SignatureBytes sig with
  | Err err => Err err
  | Ok s =>
  match Cert sig with
  | Err err => Err err
  | Ok None => Ok (hex_EncodeToString (sha256 s))
  | Ok (Some cert) =>
  match MarshalCertificateToPEM cert with
  | Err err => Err err
  | Ok c => Ok (hex_EncodeToString (sha256 (s +:+ c)))
  end end end.

(** The signature of [sig], whose id is [sigID]. *)
Definition policySignature (sigID : string) (sig : Signature) : PolicySignature :=
  match Cert sig with
  | Ok (Some cert) =>
      {| ID := sigID;
         Subject := match GetSubjectAlternateNames cert with san :: _ => san | [] => "" end;
         Issuer := GetIssuer cert;
         ps_GithubExtensions :=
           {| WorkflowTrigger := GetCertExtensionGithubWorkflowTrigger cert;
              WorkflowSHA := GetExtensionGithubWorkflowSha cert;
              WorkflowName := GetCertExtensionGithubWorkflowName cert;
              WorkflowRepo := GetCertExtensionGithubWorkflowRepository cert;
              WorkflowRef := GetCertExtensionGithubWorkflowRef cert |} |}
  | _ => {| ID := sigID; Subject := ""; Issuer := "";
            ps_GithubExtensions := zeroGithubExtensions |}
  end.

(** A signature whose id cannot be computed is skipped. *)
Definition ociSignatureToPolicySignature (sigs : list Signature) : list PolicySignature :=
  omap (λ ociSig, match signatureID ociSig with
                  | Ok sigID => Some (policySignature sigID ociSig) | Err _ => None end) sigs.

Record attestation := {
  att_Signature : Signature;
  att_PredicateType : string;
  att_Payload : string;
  att_Digest : string
}.

Definition attestationToPolicyAttestations (atts : list attestation) : list PolicyAttestation :=
  omap (λ att, match signatureID (att_Signature att) with
    | Ok sigID => Some {| pa_PolicySignature := policySignature sigID (att_Signature att);
                          pa_PredicateType := att_PredicateType att;
                          pa_Payload := att_Payload att; pa_Digest := att_Digest att |}
    | Err _ => None end) atts.

(** * Signatures of an authority *)

Definition ValidatePolicySignaturesForAuthority (ctx : VerifyCtx) (ref : Reference)
    (authority : Authority) (remoteOpts : list RemoteOption) : result string (list PolicySignature) :=
  let name := auth_Name authority in
  let at_ := name +:+ " for " +:+ Name ref +:+ ": " in
  match checkOptsFromAuthority (vc_trust ctx) authority remoteOpts with
  | Err err => Err ("constructing checkOpts for " +:+ name +:+ ": " +:+ err)
  | Ok checkOpts =>
  match Key authority with
  | Some key =>
      if isEmpty (PublicKeys key) then Err ("there are no public keys for authority " +:+ name)
      else
        match valid ref (PublicKeys key) (HashAlgorithmCode key) checkOpts with
        | Err err => Err ("signature key validation failed for authority " +:+ at_ +:+ err)
        | Ok sps => Ok (ociSignatureToPolicySignature sps)
        end
  | None =>
  match Keyless authority with
  | Some keyless =>
      match keyless_URL keyless with
      | Some _ =>
          match validSignatures ref checkOpts with
          | Err err => Err ("signature keyless validation failed for authority " +:+ at_ +:+ err)
          | Ok sps => Ok (ociSignatureToPolicySignature sps)
          end
      | None => Err "no Keyless URL specified"
      end
  | None =>
  match auth_RFC3161Timestamp authority with
  | Some _ =>
      match validSignatures ref checkOpts with
      | Err err => Err ("signature TSA validation failed for authority " +:+ at_ +:+ err)
      | Ok sps => Ok (ociSignatureToPolicySignature sps)
      end
  | None =>
  match GMSignature authority with
  | Some gm =>
      match (GM.Verify sha256 SM3 newRequestError (vc_gmClient ctx) ref (Some gm)
               (SignedEntitySignatures ref (RegistryClientOpts checkOpts)) (vc_gmState ctx)).1 with
      | Err err => Err ("GM signature validation failed for authority " +:+ at_ +:+ err)
      | Ok sps => Ok (ociSignatureToPolicySignature sps)
      end
  | None => Err "authority has neither key, keyless, or static specified"
  end end end end end.

(** * Attestations of an authority *)

(** All keys must verify: the first failure is returned. *)
Fixpoint attestationsOfKeys (cfg : PolicyControllerConfig) (ref : Reference) (name : string)
    (keys : list (option PublicKey)) (hashAlgo : Hash) (checkOpts : CheckOpts)
    (verified : list Signature) : result string (list Signature) :=
  match keys with
  | [] => Ok verified
  | k :: rest =>
      match LoadVerifier k hashAlgo with
      | Err err => Err ("creating verifier: " +:+ err)
      | Ok verifier =>
          let checkOpts := withSigVerifier checkOpts verifier in
          match validAttestations cfg ref checkOpts with
          | Err err => Err ("attestation key validation failed for authority " +:+ name +:+
                            " for " +:+ Name ref +:+ ": " +:+ err)
          | Ok va => attestationsOfKeys cfg ref name rest hashAlgo checkOpts (verified ++ va)
          end
      end
  end.

Definition verifiedAttestationsOf (cfg : PolicyControllerConfig) (ref : Reference)
    (authority : Authority) (checkOpts : CheckOpts) : result string (list Signature) :=
  let name := auth_Name authority in
  let at_ := name +:+ " for " +:+ Name ref +:+ ": " in
  match Key authority with
  | Some {| HashAlgorithmCode := code; PublicKeys := (_ :: _) as keys |} =>
      attestationsOfKeys cfg ref name keys code checkOpts []
  | _ =>
  match Keyless authority with
  | Some keyless =>
      match keyless_URL keyless with
      | Some _ =>
          map_err (λ err, "attestation keyless validation failed for authority " +:+ at_ +:+ err)
            (validAttestations cfg ref checkOpts)
      | None => Ok []
      end
  | None =>
  match auth_RFC3161Timestamp authority with
  | Some _ =>
      map_err (λ err, "signature TSA validAttestations failed for authority " +:+ at_ +:+ err)
        (validAttestations cfg ref checkOpts)
  | None => Ok []
  end end end.

(** The outcome of one verified attestation for a wanted one: kept, skipped with
    an error to stash, or skipped. *)
Inductive attOutcome := Kept (a : attestation) | Failed (err : string) | Skipped.

Definition checkAttestation (wanted : AttestationPolicy) (va : Signature) :
    attOutcome * list string :=
  match Digest va with
  | Err _ => (Skipped, [])
  | Ok attDigest =>
      let '(gotPredicateType, attBytes) := AttestationToPayloadJSON (ap_PredicateType wanted) va in
      let checked := if gotPredicateType !=s "" then [gotPredicateType] else [] in
      match attBytes with
      | Err err => (Failed err, checked)
      | Ok None => (Skipped, checked)
      | Ok (Some attBytes) =>
          let kept := Kept {| att_Signature := va; att_PredicateType := ap_PredicateType wanted;
                              att_Payload := attBytes; att_Digest := attDigest |} in
          if ap_Type wanted !=s "" then
            match EvaluatePolicyAgainstJSON (ap_Name wanted) (ap_Type wanted) (ap_Data wanted)
                    attBytes with
            | (_, Some err) => (Failed err, checked)
            | (Some warn, None) => (Failed warn, checked)
            | (None, None) => (kept, checked)
            end
          else (kept, checked)
      end
  end.

Fixpoint checkAttestations (wanted : AttestationPolicy) (vas : list Signature)
    (checkedAttestations : list attestation) (reterror : option string)
    (checkedPredicateTypes : gset string) :
    list attestation * option string * gset string :=
  match vas with
  | [] => (checkedAttestations, reterror, checkedPredicateTypes)
  | va :: rest =>
      let '(outcome, got) := checkAttestation wanted va in
      let types := list_to_set got ∪ checkedPredicateTypes in
      match outcome with
      | Kept a => checkAttestations wanted rest (checkedAttestations ++ [a]) reterror types
      | Failed err =>
          checkAttestations wanted rest checkedAttestations
            (match reterror with None => Some err | _ => reterror end) types
      | Skipped => checkAttestations wanted rest checkedAttestations reterror types
      end
  end.

(** The loop over the attestations the authority wants. The predicate types in
    the last error are listed in the order the map is ranged over ([elements]). *)
Fixpoint wantedAttestations (wanted : list AttestationPolicy) (vas : list Signature)
    (ret : gmap string (list PolicyAttestation)) (types : gset string) :
    result string (gmap string (list PolicyAttestation)) :=
  match wanted with
  | [] => Ok ret
  | w :: rest =>
      let '(checked, reterror, types) := checkAttestations w vas [] None types in
      match checked, reterror with
      | [], Some err => Err err
      | [], None =>
          Err ("no matching attestations with type " +:+ ap_PredicateType w +:+
               ", checked the following predicateTypes: " +:+ quote (Join (elements types) ","))
      | _, _ =>
          wantedAttestations rest vas
            (<[ap_Name w := attestationToPolicyAttestations checked]> ret) types
      end
  end.

Definition ValidatePolicyAttestationsForAuthority (ctx : VerifyCtx) (ref : Reference)
    (authority : Authority) (remoteOpts : list RemoteOption) :
    result string (gmap string (list PolicyAttestation)) :=
  match checkOptsFromAuthority (vc_trust ctx) authority remoteOpts with
  | Err err => Err ("creating CheckOpts: " +:+ err)
  | Ok checkOpts =>
  match verifiedAttestationsOf (tc_pcConfig (vc_trust ctx)) ref authority checkOpts with
  | Err err => Err err
  | Ok [] => Err ("no matching attestations for authority " +:+ auth_Name authority +:+ " for " +:+
                  Name ref)
  | Ok verifiedAttestations =>
      wantedAttestations (Attestations authority) verifiedAttestations ∅ ∅
  end end.

(** * Keys: the first that verifies *)

(** What verifying with one key gives. *)
Definition keyOutcome (ref : Reference) (hashAlgo : Hash) (checkOpts : CheckOpts)
    (k : option PublicKey) : result string (list Signature) :=
  LoadVerifier k hashAlgo ≫= λ v,
    VerifyImageSignatures ref (withClaimVerifier (withSigVerifier checkOpts v) SimpleClaimVerifier).

(** The [i]-th of [keys] is the first that verifies, and gives [sigs]. *)
Definition firstKey (ref : Reference) (hashAlgo : Hash) (checkOpts : CheckOpts)
    (keys : list (option PublicKey)) (i : nat) (sigs : list Signature) : Prop :=
  (∃ k, keys !! i = Some k ∧ keyOutcome ref hashAlgo checkOpts k = Ok sigs) ∧
  ∀ j k, j < i → keys !! j = Some k → is_Err (keyOutcome ref hashAlgo checkOpts k).

Lemma firstKey_cons ref h co k keys sigs :
  (∃ i, firstKey ref h co (k :: keys) i sigs) ↔
  keyOutcome ref h co k = Ok sigs ∨
  is_Err (keyOutcome ref h co k) ∧ ∃ i, firstKey ref h co keys i sigs.
Proof.
  unfold firstKey. split.
  - intros ([|i] & (k' & Hk & Ho) & Hearlier); cbn in Hk; [left; by injection Hk as <-|].
    right. split; [apply (Hearlier 0); [lia|done]|]. exists i. split; [by exists k'|].
    intros j kj Hj Hkj. apply (Hearlier (S j)); [lia|done].
  - intros [Ho|[He (i & Hi & Hearlier)]].
    + exists 0. split; [by exists k|]. intros; lia.
    + exists (S i). split; [done|]. intros [|j] kj Hj Hkj; [by injection Hkj as <-|].
      apply (Hearlier j); [lia|done].
Qed.

Lemma withSigVerifier_twice co v v' :
  withSigVerifier (withSigVerifier co v) v' = withSigVerifier co v'.
Proof. done. Qed.

Lemma keyOutcome_withSigVerifier ref h co v k :
  keyOutcome ref h (withSigVerifier co v) k = keyOutcome ref h co k.
Proof. done. Qed.

Lemma firstKey_withSigVerifier ref h co v keys i sigs :
  firstKey ref h (withSigVerifier co v) keys i sigs ↔ firstKey ref h co keys i sigs.
Proof. done. Qed.

Lemma firstKey_nil ref h co i sigs : ¬ firstKey ref h co [] i sigs.
Proof. intros [(k & Hk & _) _]. by rewrite lookup_nil in Hk. Qed.

Lemma valid_loop_spec ref keys h co lastErr sigs : (keys ≠ [] ∨ lastErr ≠ None) →
  valid_loop ref keys h co lastErr = Ok sigs ↔ ∃ i, firstKey ref h co keys i sigs.
Proof.
  revert co lastErr. induction keys as [|k keys IH]; intros co lastErr Hne.
  - destruct lastErr; [|by destruct Hne]. split; [done|]. by intros (i & ?%firstKey_nil).
  - rewrite firstKey_cons. cbn [valid_loop]. unfold keyOutcome, validSignatures.
    destruct (LoadVerifier k h) as [v|err]; cbn [mbind result_bind].
    + destruct (VerifyImageSignatures _ _) as [sps|err].
      * unfold is_Err. split; [intros [= ->]; by left|]. by intros [[= ->]|[[? ?] _]].
      * rewrite IH by (by right). setoid_rewrite firstKey_withSigVerifier. split.
        -- intros ?. right. split; [by eexists|done].
        -- by intros [?|[_ ?]].
    + rewrite IH by (by right). split; [|by intros [?|[_ ?]]].
      intros ?. right. split; [by eexists|done].
Qed.

Lemma valid_spec ref keys h co sigs : keys ≠ [] →
  valid ref keys h co = Ok sigs ↔ ∃ i, firstKey ref h co keys i sigs.
Proof. intros Hne. destruct keys; [done|]. apply valid_loop_spec. by left. Qed.

(** * What the signatures of an authority are *)

(** The evidence an authority asks for: one of its keys, a certificate of the
    identities in [co], a timestamp, or the answer of the GM service; the first
    of the four it names decides. *)
Inductive SignatureEvidence (ctx : VerifyCtx) (ref : Reference) (a : Authority) (co : CheckOpts) :
    list Signature → Prop :=
  | ByKey key i sigs :
      Key a = Some key →
      firstKey ref (HashAlgorithmCode key) co (PublicKeys key) i sigs →
      SignatureEvidence ctx ref a co sigs
  | ByCertificate keyless url sigs :
      Key a = None → Keyless a = Some keyless → keyless_URL keyless = Some url →
      VerifyImageSignatures ref (withClaimVerifier co SimpleClaimVerifier) = Ok sigs →
      SignatureEvidence ctx ref a co sigs
  | ByTimestamp tsa sigs :
      Key a = None → Keyless a = None → auth_RFC3161Timestamp a = Some tsa →
      VerifyImageSignatures ref (withClaimVerifier co SimpleClaimVerifier) = Ok sigs →
      SignatureEvidence ctx ref a co sigs
  | ByGM gm sigs :
      Key a = None → Keyless a = None → auth_RFC3161Timestamp a = None →
      GMSignature a = Some gm →
      (GM.Verify sha256 SM3 newRequestError (vc_gmClient ctx) ref (Some gm)
         (SignedEntitySignatures ref (RegistryClientOpts co)) (vc_gmState ctx)).1 = Ok sigs →
      SignatureEvidence ctx ref a co sigs.

(** C7: an authority is satisfied by signatures exactly when the evidence it
    asks for verified, with the options computed for this authority: a key
    authority when one of its keys (the first that does decides) loads and
    verifies the image's signatures, a keyless one when cosign accepts a
    certificate of its identities, and so on; nothing else is a success, and
    what is returned is the normal form of the verified signatures. *)
Theorem signatures_need_evidence (ctx : VerifyCtx) (ref : Reference) (a : Authority)
    (remoteOpts : list RemoteOption) (ret : list PolicySignature) :
  ValidatePolicySignaturesForAuthority ctx ref a remoteOpts = Ok ret ↔
  ∃ co sigs, checkOptsFromAuthority (vc_trust ctx) a remoteOpts = Ok co ∧
    SignatureEvidence ctx ref a co sigs ∧ ret = ociSignatureToPolicySignature sigs.
Proof.
  unfold ValidatePolicySignaturesForAuthority. cbv zeta.
  destruct (checkOptsFromAuthority (vc_trust ctx) a remoteOpts) as [co|err];
    [|split; [done|by intros (? & ? & ? & _)]].
  split.
  - destruct (Key a) as [key|] eqn:Hk.
    { destruct (PublicKeys key) as [|k ks] eqn:Hks; [done|]. cbn [isEmpty nonEmpty negb].
      rewrite <-Hks. destruct (valid ref _ _ co) as [sps|] eqn:Hv; [|done]. intros [= <-].
      apply valid_spec in Hv as [i Hi]; [|by rewrite Hks]. exists co, sps. eauto using ByKey. }
    destruct (Keyless a) as [kl|] eqn:Hkl.
    { destruct (keyless_URL kl) eqn:Hu; [|done]. unfold validSignatures.
      destruct (VerifyImageSignatures _ _) as [sps|] eqn:Hv; [|done]. intros [= <-].
      exists co, sps. eauto using ByCertificate. }
    destruct (auth_RFC3161Timestamp a) as [t|] eqn:Ht.
    { unfold validSignatures. destruct (VerifyImageSignatures _ _) as [sps|] eqn:Hv; [|done].
      intros [= <-]. exists co, sps. eauto using ByTimestamp. }
    destruct (GMSignature a) as [gm|] eqn:Hg; [|done].
    destruct (GM.Verify _ _ _ _ _ _ _ _) as [[sps|] st] eqn:Hv; cbn [fst]; [|done].
    intros [= <-]. exists co, sps. split_and!; [done| |done]. eapply ByGM; [done..|]. by rewrite Hv.
  - intros (? & sps & [= <-] & Hev & ->).
    unfold validSignatures.
    destruct Hev as [key i sigs Hk Hf|kl u ? Hk Hkl Hu Hv|t ? Hk Hkl Ht Hv|gm ? Hk Hkl Ht Hg Hv];
      rewrite Hk; [|rewrite Hkl, Hu, Hv; done|rewrite Hkl, Ht, Hv; done|
                    rewrite Hkl, Ht, Hg, Hv; done].
    assert (PublicKeys key ≠ []) as Hne
      by (intros He; rewrite He in Hf; by apply firstKey_nil in Hf).
    assert (valid ref (PublicKeys key) (HashAlgorithmCode key) co = Ok sigs) as Hv
      by (apply valid_spec; [done|by exists i]).
    rewrite Hv. by destruct (PublicKeys key).
Qed.

End Authority.

Section AttestationFacts.
Context `{N : NamePkg} `{P : Parsers} `{J : JsonText} `{C : Certs} `{T : CosignTypes}
  `{G : !Cosign} `{L : GM.LRU}.
(** * Attestations *)

(** The attestation is of the wanted type, can be read, and satisfies the wanted
    policy, if there is one. *)
Definition satisfies (wanted : AttestationPolicy) (va : Signature) : Prop :=
  ∃ digest t payload, Digest va = Ok digest ∧
    AttestationToPayloadJSON (ap_PredicateType wanted) va = (t, Ok (Some payload)) ∧
    (ap_Type wanted = "" ∨
     EvaluatePolicyAgainstJSON (ap_Name wanted) (ap_Type wanted) (ap_Data wanted) payload =
       (None, None)).

Lemma checkAttestation_Kept wanted va :
  (∃ a, (checkAttestation wanted va).1 = Kept a) ↔ satisfies wanted va.
Proof.
  unfold checkAttestation, satisfies. destruct (Digest va) as [d|err];
    [|split; [by intros (? & ?)|by intros (? & ? & ? & ? & _)]].
  destruct (AttestationToPayloadJSON _ _) as [t [[payload|]|err]];
    try (split; [by intros (? & ?)|by intros (? & ? & ? & _ & ? & _)]).
  destruct (String.eqb_spec (ap_Type wanted) "") as [He|He]; cbn [negb].
  { split; [|by eexists]. intros _. exists d, t, payload. auto. }
  destruct (EvaluatePolicyAgainstJSON _ _ _ _) as [[warn|] [err|]] eqn:Hev; cbn [fst]; split;
    try (by intros (? & ?)); try (intros (? & ? & ? & _ & [= _ <-] & [?|?]); congruence);
    try (by eexists).
  intros _. exists d, t, payload. auto.
Qed.

Lemma checkAttestations_spec wanted vas acc e types :
  let r := checkAttestations wanted vas acc e types in
  r.1.1 ≠ [] ↔ acc ≠ [] ∨ Exists (satisfies wanted) vas.
Proof.
  cbv zeta. revert acc e types. induction vas as [|va vas IH]; intros acc e types; cbn.
  { rewrite Exists_nil. tauto. }
  rewrite Exists_cons, <-checkAttestation_Kept.
  destruct (checkAttestation wanted va) as [[a|err|] got]; cbn [fst]; rewrite IH.
  - split; [intros _; right; left; by eexists|]. intros _. left. by destruct acc.
  - split; [tauto|]. intros [?|[[? ?]|?]]; [tauto|done|tauto].
  - split; [tauto|]. intros [?|[[? ?]|?]]; [tauto|done|tauto].
Qed.

Variable sha256 : string → string.

Lemma wantedAttestations_spec wanted vas ret types :
  (is_Ok (wantedAttestations sha256 wanted vas ret types) ↔
     Forall (λ w, Exists (satisfies w) vas) wanted) ∧
  ∀ ret', wantedAttestations sha256 wanted vas ret types = Ok ret' →
    dom ret' = dom ret ∪ list_to_set (ap_Name <$> wanted).
Proof.
  revert ret types. induction wanted as [|w wanted IH]; intros ret types; cbn.
  { split; [split; [by constructor|by eexists]|]. intros ? [= <-]. set_solver. }
  pose proof (checkAttestations_spec w vas [] None types) as Hc. cbv zeta in Hc.
  destruct (checkAttestations w vas [] None types) as [[checked e] types'].
  cbn [fst] in Hc. rewrite Forall_cons.
  destruct checked as [|a checked].
  - assert (¬ Exists (satisfies w) vas) as Hn by tauto.
    destruct e; (split; [|done]); split; try (by intros [? ?]); tauto.
  - assert (Exists (satisfies w) vas) as Hs by (destruct Hc as [[|] _]; done).
    destruct (IH (<[ap_Name w:=attestationToPolicyAttestations sha256 (a :: checked)]> ret) types')
      as [IH1 IH2].
    assert (∀ ret', wantedAttestations sha256 wanted vas
        (<[ap_Name w:=attestationToPolicyAttestations sha256 (a :: checked)]> ret) types' = Ok ret' →
      dom ret' = dom ret ∪ ({[ap_Name w]} ∪ list_to_set (ap_Name <$> wanted))) as Hd.
    { intros ret' ->%IH2. rewrite dom_insert_L. set_solver. }
    destruct e; (split; [rewrite IH1; tauto|exact Hd]).
Qed.

Lemma ValidatePolicyAttestations_spec (ctx : VerifyCtx) (ref : Reference) (a : Authority)
    (remoteOpts : list RemoteOption) :
  (is_Ok (ValidatePolicyAttestationsForAuthority sha256 ctx ref a remoteOpts) ↔
   ∃ co vas, checkOptsFromAuthority (vc_trust ctx) a remoteOpts = Ok co ∧
     verifiedAttestationsOf (tc_pcConfig (vc_trust ctx)) ref a co = Ok vas ∧ vas ≠ [] ∧
     Forall (λ wanted, Exists (satisfies wanted) vas) (Attestations a)) ∧
  ∀ ret, ValidatePolicyAttestationsForAuthority sha256 ctx ref a remoteOpts = Ok ret →
    dom ret = list_to_set (ap_Name <$> Attestations a).
Proof.
  unfold ValidatePolicyAttestationsForAuthority.
  destruct (checkOptsFromAuthority (vc_trust ctx) a remoteOpts) as [co|err];
    [|split; [split; [by intros [? ?]|by intros (? & ? & ? & _)]|done]].
  destruct (verifiedAttestationsOf _ ref a co) as [[|va vas]|err] eqn:Hv.
  - split; [|done]. split; [by intros [? ?]|]. intros (? & ? & [= <-] & Hv' & Hne & _).
    rewrite Hv in Hv'. by injection Hv' as <-.
  - destruct (wantedAttestations_spec (Attestations a) (va :: vas) ∅ ∅) as [H1 H2].
    rewrite H1. split.
    + split; [intros Hf; exists co, (va :: vas); by split_and!|].
      intros (? & ? & [= <-] & Hv' & _ & Hf). rewrite Hv in Hv'. by injection Hv' as <-.
    + intros ret ->%H2. rewrite dom_empty_L. by rewrite (left_id_L ∅ (∪)).
  - split; [|done]. split; [by intros [? ?]|]. intros (? & ? & [= <-] & Hv' & _).
    by rewrite Hv in Hv'.
Qed.

Lemma ValidatePolicyAttestations_names ctx ref a remoteOpts ret :
  ValidatePolicyAttestationsForAuthority sha256 ctx ref a remoteOpts = Ok ret →
  dom ret = list_to_set (ap_Name <$> Attestations a).
Proof. apply ValidatePolicyAttestations_spec. Qed.

(** C8: an authority is satisfied by attestations exactly when the options could
    be computed, verifying gave some attestations, and for every attestation the
    authority wants there is one among them of that predicate type that meets
    its policy; the result then has an entry for exactly the wanted names. *)
Theorem attestations_all_wanted (ctx : VerifyCtx) (ref : Reference) (a : Authority)
    (remoteOpts : list RemoteOption) :
  (is_Ok (ValidatePolicyAttestationsForAuthority sha256 ctx ref a remoteOpts) ↔
   ∃ co vas, checkOptsFromAuthority (vc_trust ctx) a remoteOpts = Ok co ∧
     verifiedAttestationsOf (tc_pcConfig (vc_trust ctx)) ref a co = Ok vas ∧ vas ≠ [] ∧
     Forall (λ wanted, Exists (satisfies wanted) vas) (Attestations a)) ∧
  ∀ ret, ValidatePolicyAttestationsForAuthority sha256 ctx ref a remoteOpts = Ok ret →
    dom ret = list_to_set (ap_Name <$> Attestations a).
Proof. apply ValidatePolicyAttestations_spec. Qed.

Lemma attestationArtifacts_elem (manifests : list Descriptor) repository opts m sigs sig :
  m ∈ manifests → Contains (ArtifactType m) "in-toto" = true →
  processAttestationArtifact m repository opts = Ok sigs → sig ∈ sigs →
  sig ∈ attestationArtifacts manifests repository opts.
Proof.
  intros Hm Ht Hp Hs. unfold attestationArtifacts. apply list_elem_of_In, in_concat.
  exists sigs. split; [|by apply list_elem_of_In]. apply list_elem_of_In, list_elem_of_fmap.
  exists m. by rewrite Ht, Hp.
Qed.

(** C39: with OCI 1.1 discovery on, attestations are taken as verified without
    being verified. When a referrer of the image holds an in-toto envelope that
    can be read, [validAttestations] returns what is in it whatever the options
    are: no key, certificate identity, trust root or transparency log of the
    authority is looked at, only the registry options are. *)
Theorem oci11_skips_verification (cfg : PolicyControllerConfig) (ref : Reference)
    (opts : list RemoteOption) (digest digestStr : string) (manifests : list Descriptor)
    (m : Descriptor) (sigs : list Signature)
    (Hon : EnableOCI11 cfg = true)
    (Hdigest : ResolveDigest ref opts = Ok (digest, digestStr))
    (Hreferrers : Referrers digest opts = Ok manifests)
    (Hm : m ∈ manifests) (Htype : Contains (ArtifactType m) "in-toto" = true)
    (Hread : processAttestationArtifact m (RepositoryOf digest) opts = Ok sigs)
    (Hsigs : sigs ≠ []) :
  ∃ attestations, sigs ⊆ attestations ∧
    ∀ checkOpts, RegistryClientOpts checkOpts = opts →
      validAttestations cfg ref checkOpts = Ok attestations.
Proof.
  exists (attestationArtifacts manifests (RepositoryOf digest) opts).
  assert (sigs ⊆ attestationArtifacts manifests (RepositoryOf digest) opts) as Hsub
    by (intros sig; by apply (attestationArtifacts_elem _ _ _ m sigs)).
  split; [done|]. intros checkOpts <-. unfold validAttestations, discoverAttestationsOCI11.
  rewrite Hon, Hdigest, Hreferrers.
  destruct (attestationArtifacts _ _ _) as [|a l] eqn:Ha; [|done].
  destruct sigs as [|sig sigs]; [done|].
  destruct (not_elem_of_nil sig). apply Hsub. left.
Qed.

End AttestationFacts.

(** * Concrete inputs *)

Module ToyEnvelope.

#[local] Existing Instances ToyNames.names ToyParsers.parsers ToyCerts.certs ToyCosign.types
  ToyCosign.cosign.

#[export] Instance jsonText : JsonText := {|
  jsonParse s := if s ==s "envelope" then
    Some (JObj [("payload", JStr "e30="); ("signatures", JArr [JObj [("sig", JStr "forged")]])])
    else None;
  jsonText _ := "{}"
|}.

Definition img : Reference := ("img" : string).

(** Options under which no signature and no attestation verifies. *)
Definition checkOpts : CheckOpts :=
  {| RegistryClientOpts := []; NewBundleFormat := false; ExperimentalOCI11 := true;
     co_Identities := []; TrustedMaterial := None; IgnoreSCT := false;
     UseSignedTimestamps := false; IgnoreTlog := false; Offline := false; RootCerts := None;
     IntermediateCerts := None; CTLogPubKeys := None; co_RekorClient := None;
     RekorPubKeys := None; TSACertificate := None; TSAIntermediateCertificates := [];
     TSARootCertificates := []; SigVerifier := Some "bad"; co_ClaimVerifier := None |}.

End ToyEnvelope.

#[local] Existing Instances ToyNames.names ToyParsers.parsers ToyCerts.certs ToyCosign.types
  ToyCosign.cosign ToyEnvelope.jsonText.

Lemma oci11_skips_verification_witness :
  is_Err (VerifyImageAttestations ToyEnvelope.img ToyEnvelope.checkOpts) ∧
  ∃ attestations, [ToyCosign.signature] ⊆ attestations ∧
    validAttestations {| NoMatchPolicy := DenyAll; FailOnEmptyAuthorities := true; EnableOCI11 := true |}
      ToyEnvelope.img ToyEnvelope.checkOpts = Ok attestations.
Proof.
  split; [eexists; reflexivity|].
  destruct (oci11_skips_verification
    {| NoMatchPolicy := DenyAll; FailOnEmptyAuthorities := true; EnableOCI11 := true |} ToyEnvelope.img []
    "img@sha256:d" "sha256:d"
    [{| ArtifactType := "application/vnd.in-toto+json"; desc_Digest := "sha256:r" |}]
    {| ArtifactType := "application/vnd.in-toto+json"; desc_Digest := "sha256:r" |}
    [ToyCosign.signature]) as (atts & Hsub & Hall); try reflexivity; [left|discriminate|].
  exists atts. split; [exact Hsub|]. apply Hall. reflexivity.
Defined.
