(* ===== verification/Gather.v ===== *)
(** Goroutines that each send one result on a buffered channel, and the loop
    that collects them: [for range tasks { select { case <-ctx.Done(): ...;
    case r := <-results: ... } }].

    The channel is buffered for all the results and never closed, so no sender
    blocks and the [!ok] branches of the loops are dead. A result can be received
    in any order, and once the context is done a round of the loop may take
    either case: both are the choices of a schedule, over which the theorems
    quantify. *)

From S2P Require Import Prelude.

(** One round of the loop: the context is done, or the [k]-th of the results not
    yet received (modulo their number) is. *)
Inductive Choice := CtxDone | Recv (k : nat).

(** The choices of a program's loops: a loop is named by the path of names that
    leads to it, its rounds are numbered. *)
Definition Schedule : Type := list string → nat → Choice.
Definition sub (s : Schedule) (name : string) : Schedule := λ path, s (name :: path).
Definition here (s : Schedule) : nat → Choice := s [].

(** No round of any loop takes the [ctx.Done()] case. *)
Definition NoCancel (s : Schedule) : Prop := ∀ path i, s path i ≠ CtxDone.

Lemma NoCancel_sub s name : NoCancel s → NoCancel (sub s name).
Proof. intros Hs path i. apply Hs. Qed.

Section gather.
Context {A : Type}.
Implicit Types (l chan : list A) (i n k : nat) (choices : nat → Choice).

Definition choose (k : nat) (chan : list A) : option (A * list A) :=
  let k := k mod length chan in
  match chan !! k with Some r => Some (r, delete k chan) | None => None end.

(** [n] rounds, from the [i]-th; [None] is a round that saw the context done. *)
Fixpoint rounds (choices : nat → Choice) (i n : nat) (chan : list A) : list (option A) :=
  match n with
  | O => []
  | S n =>
      match choices i with
      | CtxDone => None :: rounds choices (S i) n chan
      | Recv k =>
          match choose k chan with
          | Some (r, chan) => Some r :: rounds choices (S i) n chan
          | None => []
          end
      end
  end.
Definition gather (choices : nat → Choice) (results : list A) : list (option A) :=
  rounds choices 0 (length results) results.

Lemma choose_spec k chan : chan ≠ [] →
  ∃ r rest, choose k chan = Some (r, rest) ∧ chan ≡ₚ r :: rest ∧ length chan = S (length rest).
Proof.
  intros Hne. unfold choose. destruct (chan !! (k mod length chan)) as [r|] eqn:Hk.
  - exists r, (delete (k mod length chan) chan). split; [done|].
    assert (chan ≡ₚ r :: delete (k mod length chan) chan) as Hp by (by apply delete_Permutation).
    split; [done|]. by rewrite Hp at 1.
  - apply lookup_ge_None in Hk. destruct chan as [|a l]; [done|].
    pose proof (Nat.mod_upper_bound k (length (a :: l))). cbn [length] in *. lia.
Qed.

(** The loop ends after its [n] rounds: it never waits for a result that is not
    going to come. *)
Lemma length_rounds choices i n chan : (n ≤ length chan)%nat → length (rounds choices i n chan) = n.
Proof.
  revert i chan. induction n as [|n IH]; intros i chan Hn; [done|]. cbn [rounds].
  destruct (choices i) as [|k]; cbn [length]; [rewrite IH; lia|].
  destruct (choose_spec k chan) as (r & rest & -> & _ & Hl); [by intros ->; cbn in Hn; lia|].
  cbn [length]. rewrite IH; lia.
Qed.

Lemma length_gather choices results : length (gather choices results) = length results.
Proof. by apply length_rounds. Qed.

(** What is received was sent, once. *)
Lemma rounds_submseteq choices i n chan : omap id (rounds choices i n chan) ⊆+ chan.
Proof.
  revert i chan. induction n as [|n IH]; intros i chan; cbn; [apply submseteq_nil_l|].
  destruct (choices i) as [|k]; cbn; [apply IH|].
  destruct chan as [|a l] eqn:Hc; [apply submseteq_nil_l|].
  destruct (choose_spec k (a :: l)) as (r & rest & -> & Hp & _); [done|].
  cbn. rewrite Hp. by apply submseteq_skip.
Qed.

Lemma gather_elem choices results r : Some r ∈ gather choices results → r ∈ results.
Proof.
  intros Hr. assert (r ∈ omap id (gather choices results)) as Ho
    by (apply list_elem_of_omap; by exists (Some r)).
  by eapply elem_of_submseteq, rounds_submseteq.
Qed.

(** Without cancellation every result is received, in some order. *)
Lemma rounds_all choices i n chan : (∀ i, choices i ≠ CtxDone) → n = length chan →
  ∃ l, rounds choices i n chan = Some <$> l ∧ l ≡ₚ chan.
Proof.
  intros Hno. revert i chan. induction n as [|n IH]; intros i chan Hn; cbn [rounds].
  { exists []. split; [done|]. by destruct chan. }
  destruct (choices i) as [|k] eqn:Hi; [by destruct (Hno i)|].
  destruct (choose_spec k chan) as (r & rest & -> & Hp & Hl); [by intros ->|].
  destruct (IH (S i) rest) as (l & -> & Hp'); [lia|].
  exists (r :: l). split; [done|]. by rewrite Hp, Hp'.
Qed.

Lemma gather_all (s : Schedule) results : NoCancel s →
  ∃ l, gather (here s) results = Some <$> l ∧ l ≡ₚ results.
Proof. intros Hs. apply rounds_all; [apply Hs|done]. Qed.

(** A loop that never saw the context done received every result. *)
Lemma rounds_received choices i n chan : n = length chan →
  Forall is_Some (rounds choices i n chan) →
  ∃ l, rounds choices i n chan = Some <$> l ∧ l ≡ₚ chan.
Proof.
  revert i chan. induction n as [|n IH]; intros i chan Hn; cbn [rounds].
  { exists []. split; [done|]. by destruct chan. }
  destruct (choices i) as [|k]; [by intros [[? ?] _]%Forall_cons|].
  destruct (choose_spec k chan) as (r & rest & -> & Hp & Hl); [by intros ->|].
  intros [_ Hf]%Forall_cons. destruct (IH (S i) rest) as (l & -> & Hp'); [lia|done|].
  exists (r :: l). split; [done|]. by rewrite Hp, Hp'.
Qed.

(** The order a map is ranged over. *)
Fixpoint shuffle_from (choices : nat → Choice) (i n : nat) (l : list A) : list A :=
  match n with
  | O => l
  | S n =>
      match choose (match choices i with Recv k => k | CtxDone => 0 end) l with
      | Some (x, l) => x :: shuffle_from choices (S i) n l
      | None => l
      end
  end.
Definition shuffle (choices : nat → Choice) (l : list A) : list A :=
  shuffle_from choices 0 (length l) l.

Lemma shuffle_from_Permutation choices i n l : shuffle_from choices i n l ≡ₚ l.
Proof.
  revert i l. induction n as [|n IH]; intros i l; cbn; [done|].
  destruct l as [|a l]; [done|].
  destruct (choose_spec (match choices i with Recv k => k | CtxDone => 0 end) (a :: l))
    as (r & rest & -> & Hp & _); [done|]. by rewrite IH, Hp.
Qed.

Lemma shuffle_Permutation choices l : shuffle choices l ≡ₚ l.
Proof. apply shuffle_from_Permutation. Qed.

End gather.

(** ** Every outcome is possible *)

(** Every order of the results is the one of some schedule without cancellation. *)
Lemma rounds_surjective {A} (l chan : list A) (i : nat) : l ≡ₚ chan →
  ∃ choices : nat → Choice, (∀ j, choices j ≠ CtxDone) ∧
    rounds choices i (length chan) chan = Some <$> l.
Proof.
  revert chan i. induction l as [|a l IH]; intros chan i Hp.
  { apply Permutation_nil_l in Hp as <-. by exists (λ _, Recv 0). }
  assert (a ∈ chan) as [k Hk]%list_elem_of_lookup by (rewrite <-Hp; left).
  assert (chan ≡ₚ a :: delete k chan) as Hd by by apply delete_Permutation.
  rewrite Hd in Hp. apply Permutation_cons_inv in Hp.
  destruct (IH (delete k chan) (S i) Hp) as (choices & Hno & Hr).
  exists (λ j, if decide (j = i) then Recv k else choices j). split.
  { intros j. by destruct (decide (j = i)). }
  assert (length chan = S (length (delete k chan))) as -> by (exact (Permutation_length Hd)).
  cbn [rounds]. rewrite decide_True by done. unfold choose.
  rewrite Nat.mod_small by (by eapply lookup_lt_Some). rewrite Hk. cbn. f_equal. rewrite <-Hr.
  assert (∀ n j (c : list A), (i < j)%nat → rounds (λ j, if decide (j = i) then Recv k else choices j) j n c =
    rounds choices j n c) as Hext.
  { intros n. induction n as [|n IHn]; intros j c Hj; [done|]. cbn [rounds].
    rewrite decide_False by lia. destruct (choices j); rewrite ?IHn by lia; [done|].
    destruct (choose k0 c) as [[]|]; rewrite ?IHn by lia; done. }
  apply Hext. lia.
Qed.
