(* ===== verification/Policies.v ===== *)
(** Validating the policies that match an image (pkg/webhook/validator.go): each
    policy's authorities concurrently, the policy over their results, and the
    errors turned into the field error of a container. *)

From S2P Require Import Prelude.
From S2P Require Import Names.
From S2P Require Import FieldErrors.
From S2P Require Import PCConfig.
From S2P Require Import K8s.
From S2P Require Import Encoding.
From S2P Require Import Common.
From S2P Require Import Oci.
From S2P Require Import SigstoreKeys.
From S2P Require Import WebhookTypes.
From S2P Require GM.
From S2P Require Import Cosign.
From S2P Require Import ImagePolicies.
From S2P Require Import CheckOpts.
From S2P Require Import Results.
From S2P Require Import Authority.
From S2P Require Import Gather.

(** * What the registry serves *)

Inductive MediaType :=
  | OCIImageIndex | DockerManifestList | OCIManifestSchema1 | DockerManifestSchema2
  | OtherMediaType (s : string).

(** A [remote.Descriptor]: the digests of its [ImageIndex()]'s [IndexManifest()],
    and the [ConfigFile()] of its [Image()]. Each of the two calls can fail. *)
Record RemoteDescriptor := {
  rd_MediaType : MediaType;
  rd_ImageIndex : result string (result string (list string));
  rd_Image : result string (result string ConfigFile)
}.

(** The registry ([remote.Get] with the credentials of a keychain, ggcr's
    [v1.Platform.String] and how [%v] prints a media type) and the keychains. *)
Class Registry `{N : NamePkg} := {
  remote_Get : KeychainOptions → Reference → result string RemoteDescriptor;
  Platform_String : ConfigFile → string;
  MediaType_String : MediaType → string;
  (** [kauth.New]: the error of reading the pull secrets *)
  kauth_New : KeychainOptions → option string;
  (** the constant [kubernetes.NoServiceAccount] *)
  NoServiceAccount : string
}.

(** [registryauth.NewK8sKeychain]: the keychain of the pull secrets is tried
    before the ambient ones, which cannot fail to be built. *)
Definition NewK8sKeychain `{Registry} (opt : KeychainOptions) : option string :=
  match kauth_New opt with Some err => Some err | None => None end.

(** SHA-256 and SM3, [http.NewRequestWithContext]'s check, and what [ctx.Err()]
    prints once the context is done. *)
Class Host := {
  sha256 : string → string;
  SM3 : string → string;
  newRequestError : string → option string;
  ctxErr : string
}.

Section Policies.
Context `{N : NamePkg} `{F : FieldErrors} `{P : Parsers} `{J : JsonText} `{C : Certs}
  `{T : CosignTypes} `{G : !Cosign} `{L : GM.LRU} `{M : K8sMeta} `{R : !Registry} `{HO : Host}.

(** The context of a request: what verification takes from it, the cache, and
    the values attached for CIP level policies. *)
Record WebhookCtx := {
  wc_verify : VerifyCtx;
  wc_cache : option ResultCache;
  wc_spec : option json;
  wc_objectMeta : option json;
  wc_typeMeta : option json
}.
Definition wc_pcConfig (ctx : WebhookCtx) : PolicyControllerConfig :=
  tc_pcConfig (vc_trust (wc_verify ctx)).

(** ** The values attached to the context: the first one wins *)

Definition GetIncludeSpec (ctx : WebhookCtx) : option json := wc_spec ctx.
Definition IncludeSpec (ctx : WebhookCtx) (spec : json) : WebhookCtx :=
  if isNil (GetIncludeSpec ctx) then
    {| wc_verify := wc_verify ctx; wc_cache := wc_cache ctx; wc_spec := Some spec;
       wc_objectMeta := wc_objectMeta ctx; wc_typeMeta := wc_typeMeta ctx |}
  else ctx.

Definition GetIncludeObjectMeta (ctx : WebhookCtx) : option json := wc_objectMeta ctx.
Definition IncludeObjectMeta (ctx : WebhookCtx) (meta : json) : WebhookCtx :=
  if isNil (GetIncludeObjectMeta ctx) then
    {| wc_verify := wc_verify ctx; wc_cache := wc_cache ctx; wc_spec := wc_spec ctx;
       wc_objectMeta := Some meta; wc_typeMeta := wc_typeMeta ctx |}
  else ctx.

Definition GetIncludeTypeMeta (ctx : WebhookCtx) : option json := wc_typeMeta ctx.
Definition IncludeTypeMeta (ctx : WebhookCtx) (meta : json) : WebhookCtx :=
  if isNil (GetIncludeTypeMeta ctx) then
    {| wc_verify := wc_verify ctx; wc_cache := wc_cache ctx; wc_spec := wc_spec ctx;
       wc_objectMeta := wc_objectMeta ctx; wc_typeMeta := Some meta |}
  else ctx.

(** ** Config files *)

Definition normalizeArchitecture (cf : ConfigFile) : string := Platform_String cf.

Definition collectConfig (acc : list string * gmap string ConfigFile)
    (r : option (result (list string) (gmap string ConfigFile))) :
    list string * gmap string ConfigFile :=
  let '(errs, ret) := acc in
  match r with
  | None => (errs ++ ["context canceled"], ret)
  | Some (Err es) => (errs ++ ["failed to get a ConfigFile: [" +:+ Join es " " +:+ "]"], ret)
  | Some (Ok configs) => (errs, configs ∪ ret)
  end.

(** An index is followed to its manifests. A digest is the hash of what it
    names, so an index is not below itself: a depth bounds the recursion. *)
Fixpoint getConfigs (depth : nat) (sched : Schedule) (kc : KeychainOptions) (ref : Reference) :
    result (list string) (gmap string ConfigFile) :=
  match depth with
  | O => Err ["nested too deep"]
  | S depth =>
  match remote_Get kc ref with
  | Err err => Err ["failed to get ref " +:+ RefString ref +:+ " : " +:+ err]
  | Ok descriptor =>
  match rd_MediaType descriptor with
  | OCIImageIndex | DockerManifestList =>
      match rd_ImageIndex descriptor with
      | Err err => Err ["getting ImageIndex for " +:+ RefString ref +:+ " : " +:+ err]
      | Ok (Err err) => Err ["getting IndexManifest for " +:+ RefString ref +:+ " : " +:+ err]
      | Ok (Ok manifests) =>
          let results := (λ digest,
            let newRefString := ContextDigest ref digest in
            match ParseReference [] newRefString with
            | Err err => Err ["failed to ParseReference for: " +:+ newRefString +:+ ": " +:+ err]
            | Ok newRef => getConfigs depth (sub sched digest) kc newRef
            end) <$> manifests in
          let '(errs, ret) := foldl collectConfig ([], ∅) (gather (here sched) results) in
          if nonEmpty errs then Err errs else Ok ret
      end
  | OCIManifestSchema1 | DockerManifestSchema2 =>
      match rd_Image descriptor with
      | Err err => Err ["getting Image for " +:+ RefString ref +:+ ": " +:+ err]
      | Ok (Err err) => Err ["getting ConfigFile for " +:+ RefString ref +:+ ": " +:+ err]
      | Ok (Ok cf) => Ok {[ normalizeArchitecture cf := cf ]}
      end
  | OtherMediaType _ as mt =>
      Err ["unknown mime type for " +:+ RefString ref +:+ ": " +:+ MediaType_String mt]
  end end end.

(** ** One authority *)

Record AuthorityResult := {
  ar_name : string;
  ar_static : bool;
  ar_attestations : gmap string (list PolicyAttestation);
  ar_signatures : list PolicySignature;
  ar_err : option string
}.

(** The goroutine of an authority. [remoteOpts] comes from a call with exactly
    its elements, so the goroutines' [append]s do not share a backing array. *)
Definition validateAuthority (ctx : WebhookCtx) (namespace : string) (ref : Reference)
    (remoteOpts : list RemoteOption) (authority : Authority) : AuthorityResult :=
  let failed err := {| ar_name := auth_Name authority; ar_static := false; ar_attestations := ∅;
                       ar_signatures := []; ar_err := Some err |} in
  match SourceSignaturePullSecretsOpts NoServiceAccount NewK8sKeychain authority namespace with
  | Err err => failed err
  | Ok signaturePullSecretsOpts =>
      let authorityRemoteOpts := remoteOpts ++ RemoteOpts authority ++ signaturePullSecretsOpts in
      match Static authority with
      | Some static =>
          if Action static ==s "fail" then
            failed ("disallowed by static policy: " +:+ static_Message static)
          else {| ar_name := auth_Name authority; ar_static := true; ar_attestations := ∅;
                  ar_signatures := []; ar_err := None |}
      | None =>
          if nonEmpty (Attestations authority) then
            match ValidatePolicyAttestationsForAuthority sha256 (wc_verify ctx) ref authority
                    authorityRemoteOpts with
            | Err err => failed err
            | Ok attestations =>
                {| ar_name := auth_Name authority; ar_static := false;
                   ar_attestations := attestations; ar_signatures := []; ar_err := None |}
            end
          else
            match ValidatePolicySignaturesForAuthority sha256 SM3 newRequestError (wc_verify ctx)
                    ref authority authorityRemoteOpts with
            | Err err => failed err
            | Ok signatures =>
                {| ar_name := auth_Name authority; ar_static := false; ar_attestations := ∅;
                   ar_signatures := signatures; ar_err := None |}
            end
      end
  end.

(** ** One policy *)

(** The result is never nil: neither is the error literal. *)
Definition asFieldError (warn : bool) (err : string) : FieldError :=
  let r := newFieldError err [] in
  default r (At (if warn then WarningLevel else ErrorLevel) (Some r)).

Definition emptyMatch : AuthorityMatch :=
  {| Signatures := []; am_Attestations := ∅; am_Static := false |}.

(** How a result counts: as a match, or as an error. *)
Definition authorityMatch (r : AuthorityResult) : option AuthorityMatch :=
  if notNil (ar_err r) then None
  else if nonEmpty (ar_signatures r) then
    Some {| Signatures := ar_signatures r; am_Attestations := ∅; am_Static := false |}
  else if negb (size (ar_attestations r) =? 0)%nat then
    Some {| Signatures := []; am_Attestations := ar_attestations r; am_Static := false |}
  else if ar_static r then Some {| Signatures := []; am_Attestations := ∅; am_Static := true |}
  else None.
Definition authorityError (warn : bool) (r : AuthorityResult) : goError :=
  match ar_err r with
  | Some err => FieldErr (asFieldError warn err)
  | None => PlainError ("failed to process authority: " +:+ ar_name r)
  end.

Definition collectAuthority (warn : bool) (acc : list goError * gmap string AuthorityMatch)
    (r : option AuthorityResult) : list goError * gmap string AuthorityMatch :=
  let '(authorityErrors, matches) := acc in
  match r with
  | None => (authorityErrors ++ [PlainError (ctxErr +:+ " before validation completed")], matches)
  | Some r =>
      match authorityMatch r with
      | Some m => (authorityErrors, <[ar_name r := m]> matches)
      | None => (authorityErrors ++ [authorityError warn r], matches)
      end
  end.

(** [json.Marshal] of a [PolicyResult] cannot fail: it holds strings, maps and
    what the API server's JSON was decoded into. *)
Definition json_Marshal (j : json) : result string string := Ok (jsonText j).

(** What the CIP level policy is evaluated against. *)
Definition includeInResult (ctx : WebhookCtx) (p : AttestationPolicy)
    (configs : gmap string ConfigFile) (matches : gmap string AuthorityMatch) : PolicyResult :=
  {| AuthorityMatches := matches; pr_Config := configs;
     pr_Spec := if isTrue (WebhookTypes.IncludeSpec p) then GetIncludeSpec ctx else None;
     pr_ObjectMeta :=
       if isTrue (WebhookTypes.IncludeObjectMeta p) then GetIncludeObjectMeta ctx else None;
     pr_TypeMeta := if isTrue (WebhookTypes.IncludeTypeMeta p) then GetIncludeTypeMeta ctx else None |}.

Definition evaluateCIPPolicy (warn : bool) (p : AttestationPolicy) (policyResult : PolicyResult)
    (authorityErrors : list goError) : option PolicyResult * list goError :=
  match json_Marshal (encode_PolicyResult policyResult) with
  | Err err => (None, authorityErrors ++ [PlainError err])
  | Ok policyJSON =>
      match EvaluatePolicyAgainstJSON "ClusterImagePolicy" (ap_Type p) (ap_Data p) policyJSON with
      | (_, Some err) => (None, authorityErrors ++ [FieldErr (asFieldError warn err)])
      | (Some w, None) => (None, authorityErrors ++ [FieldErr (asFieldError warn w)])
      | (None, None) => (Some policyResult, authorityErrors)
      end
  end.

Definition validateCIPPolicy (depth : nat) (sched : Schedule) (ctx : WebhookCtx) (ref : Reference)
    (warn : bool) (p : AttestationPolicy) (kc : KeychainOptions)
    (authorityErrors : list goError) (matches : gmap string AuthorityMatch) :
    option PolicyResult * list goError :=
  if isTrue (FetchConfigFile p) then
    match getConfigs depth (sub sched "configs") kc ref with
    | Err errs => (None, authorityErrors ++ ((λ e, FieldErr (asFieldError warn e)) <$> errs))
    | Ok configFiles =>
        evaluateCIPPolicy warn p (includeInResult ctx p configFiles matches) authorityErrors
    end
  else evaluateCIPPolicy warn p (includeInResult ctx p ∅ matches) authorityErrors.

Definition gatherAuthorities (sched : Schedule) (ctx : WebhookCtx) (namespace : string)
    (ref : Reference) (cip : ClusterImagePolicy) (remoteOpts : list RemoteOption) :
    list goError * gmap string AuthorityMatch :=
  foldl (collectAuthority (Mode cip ==s "warn")) ([], ∅)
    (gather (here sched) (validateAuthority ctx namespace ref remoteOpts <$> Authorities cip)).

Definition ValidatePolicy (depth : nat) (sched : Schedule) (ctx : WebhookCtx) (namespace : string)
    (ref : Reference) (cip : ClusterImagePolicy) (kc : KeychainOptions)
    (remoteOpts : list RemoteOption) : option PolicyResult * list goError :=
  match cache_Get (ResultCache_FromContext (wc_cache ctx)) (RefString ref) (UID cip)
          (ResourceVersion cip) with
  | Some cacheResult => (cr_PolicyResult cacheResult, cr_Errors cacheResult)
  | None =>
      let '(authorityErrors, matches) :=
        gatherAuthorities sched ctx namespace ref cip remoteOpts in
      if (size matches =? 0)%nat then (None, authorityErrors)
      else
        match cip_Policy cip with
        | Some p => validateCIPPolicy depth sched ctx ref (Mode cip ==s "warn") p kc
                      authorityErrors matches
        | None =>
            (Some {| AuthorityMatches := matches; pr_Config := ∅; pr_Spec := None;
                     pr_ObjectMeta := None; pr_TypeMeta := None |}, authorityErrors)
        end
  end.

(** ** All policies *)

Record PolicyOutcome := {
  po_name : string;
  po_policyResult : option PolicyResult;
  po_errors : list goError
}.

(** The goroutine of a policy: its result, and what it puts in the cache. *)
Definition validateNamedPolicy (depth : nat) (sched : Schedule) (ctx : WebhookCtx)
    (namespace : string) (ref : Reference) (kc : KeychainOptions) (remoteOpts : list RemoteOption)
    (cip : string * ClusterImagePolicy) : PolicyOutcome * CacheWrite :=
  let '(cipName, cip) := cip in
  let '(policyResult, errors) :=
    ValidatePolicy depth (sub sched cipName) ctx namespace ref cip kc remoteOpts in
  ({| po_name := cipName; po_policyResult := policyResult; po_errors := errors |},
   {| cw_image := Name ref; cw_name := cipName; cw_uid := UID cip;
      cw_resourceVersion := ResourceVersion cip;
      cw_result := {| cr_PolicyResult := policyResult; cr_Errors := errors |} |}).

(** [ret[name] = append(ret[name], errs...)] *)
Definition appendErrors (ret : gmap string (list goError)) (name : string) (errs : list goError) :
    gmap string (list goError) :=
  <[name := default [] (ret !! name) ++ errs]> ret.

Definition collectPolicy (acc : gmap string PolicyResult * gmap string (list goError))
    (r : option PolicyOutcome) : gmap string PolicyResult * gmap string (list goError) :=
  let '(policyResults, ret) := acc in
  match r with
  | None =>
      (policyResults, appendErrors ret "internalerror"
         [PlainError "context was canceled before validation completed"])
  | Some result =>
      match po_policyResult result with
      | Some policyResult => (<[po_name result := policyResult]> policyResults, ret)
      | None =>
          if nonEmpty (po_errors result) then
            (policyResults, appendErrors ret (po_name result) (po_errors result))
          else
            (policyResults, appendErrors ret (po_name result)
               [PlainError ("failed to process policy: " +:+ po_name result)])
      end
  end.

(** The results, the errors, and the writes to the cache. *)
Definition validatePolicies (depth : nat) (sched : Schedule) (ctx : WebhookCtx)
    (namespace : string) (ref : Reference) (policies : gmap string ClusterImagePolicy)
    (kc : KeychainOptions) (remoteOpts : list RemoteOption) :
    gmap string PolicyResult * gmap string (list goError) * list CacheWrite :=
  let outcomes := validateNamedPolicy depth sched ctx namespace ref kc remoteOpts <$>
                    map_to_list policies in
  (foldl collectPolicy (∅, ∅) (gather (here sched) (fst <$> outcomes)), snd <$> outcomes).

(** ** Errors of an image *)

Definition failedPolicy (failingPolicy field : string) (index : nat) (details : string) :
    option FieldError :=
  setDetails details <$>
    ViaFieldIndex field index (Some (ErrGeneric ("failed policy: " +:+ failingPolicy) ["image"])).

(** One pass of the inner loop, over (errDetails, warnDetails, hasWarnings, hasErrors). *)
Definition addPolicyError (acc : string * string * bool * bool) (policyErr : goError) :
    string * string * bool * bool :=
  let '(errDetails, warnDetails, hasWarnings, hasErrors) := acc in
  match policyErr with
  | FieldErr fe =>
      if notNil (Filter WarningLevel (Some fe)) then
        (errDetails, warnDetails +:+ " " +:+ feMessage fe, true, hasErrors)
      else (errDetails +:+ " " +:+ feMessage fe, warnDetails, hasWarnings, true)
  | PlainError msg => (errDetails +:+ " " +:+ msg, warnDetails, hasWarnings, hasErrors)
  end.

(** One pass of the outer loop: the two flags are those of all the policies so far. *)
Definition addFailingPolicy (image field : string) (index : nat)
    (acc : option FieldError * bool * bool) (failing : string * list goError) :
    option FieldError * bool * bool :=
  let '(errs, hasWarnings, hasErrors) := acc in
  let '(failingPolicy, policyErrs) := failing in
  let '(errDetails, warnDetails, hasWarnings, hasErrors) :=
    foldl addPolicyError (image, image, hasWarnings, hasErrors) policyErrs in
  let errs := if hasWarnings
    then At WarningLevel (errs ⊕ failedPolicy failingPolicy field index warnDetails) else errs in
  let errs := if hasErrors
    then errs ⊕ failedPolicy failingPolicy field index errDetails else errs in
  (errs, hasWarnings, hasErrors).

(** [order] is the order the map of errors is ranged over. *)
Definition errorsToFieldErrors (image field : string) (index : nat)
    (order : list (string * list goError)) : option FieldError :=
  (foldl (addFailingPolicy image field index) (None, false, false) order).1.1.

(** [FromContextOrDefaults] gives no nil configuration; anything that is not one
    of the three policies fails closed. *)
Definition setNoMatchingPoliciesError (ctx : WebhookCtx) (image field : string) (index : nat) :
    option FieldError :=
  let pcConfig := wc_pcConfig ctx in
  let noMatchingPolicyError := setDetails image <$>
    ViaFieldIndex field index (Some (ErrGeneric "no matching policies" ["image"])) in
  if NoMatchPolicy pcConfig ==s AllowAll then None
  else if NoMatchPolicy pcConfig ==s DenyAll then noMatchingPolicyError
  else if NoMatchPolicy pcConfig ==s WarnAll then At WarningLevel noMatchingPolicyError
  else noMatchingPolicyError.

Definition refOrFieldError (image field : string) (index : nat) : option FieldError :=
  match ParseReference [] image with
  | Err err => ViaFieldIndex field index (Some (ErrGeneric err ["image"]))
  | Ok ref =>
      match refKind ref with
      | DigestRef _ => None
      | TagRef => ViaFieldIndex field index
                    (Some (ErrInvalidValue (image +:+ " must be an image digest") "image" []))
      end
  end.

(** The policies that match, and the error of the search. *)
Definition matchingPolicies (sched : Schedule) (config : Config) (ref : Reference)
    (kind apiVersion : string) (labels : gmap string string) :
    gmap string ClusterImagePolicy * option string :=
  let p := cfg_ImagePolicyConfig config in
  let order := match p with
    | Some p => shuffle (here (sub sched "matching")) (map_to_list (ImagePolicies.Policies p))
    | None => [] end in
  GetMatchingPolicies p order (Name ref) kind apiVersion labels.

(** The error of a container image; the cache writes are those of [validatePolicies]. *)
Definition validateContainerImage (depth : nat) (sched : Schedule) (ctx : WebhookCtx)
    (containerImage namespace field : string) (index : nat) (kind apiVersion : string)
    (labels : gmap string string) (kc : KeychainOptions) (ociRemoteOpts : list RemoteOption) :
    option FieldError :=
  match ParseReference [] containerImage with
  | Err err => ViaFieldIndex field index (Some (ErrGeneric err ["image"]))
  | Ok ref =>
  match tc_config (vc_trust (wc_verify ctx)) with
  | None => None
  | Some config =>
      match matchingPolicies sched config ref kind apiVersion labels with
      | (_, Some err) =>
          setDetails containerImage <$> ViaFieldIndex field index (Some (ErrGeneric err ["image"]))
      | (policies, None) =>
          if negb (size policies =? 0)%nat then
            let '(_, fieldErrors, _) :=
              validatePolicies depth (sub sched "policies") ctx namespace ref policies kc
                ociRemoteOpts in
            errorsToFieldErrors containerImage field index
              (shuffle (here (sub sched "errors")) (map_to_list fieldErrors))
          else setNoMatchingPoliciesError ctx containerImage field index
      end
  end end.

End Policies.
