(* ===== verification/PoliciesSpec.v ===== *)
(** What the validation of an image's policies guarantees, over every schedule of
    its goroutines (definitions in Policies). *)

From S2P Require Import Prelude.
From S2P Require Import Names.
From S2P Require Import FieldErrors.
From S2P Require Import PCConfig.
From S2P Require Import K8s.
From S2P Require Import Encoding.
From S2P Require Import Common.
From S2P Require Import Oci.
From S2P Require Import SigstoreKeys.
From S2P Require Import WebhookTypes.
From S2P Require GM.
From S2P Require Import Cosign.
From S2P Require Import ImagePolicies.
From S2P Require Import CheckOpts.
From S2P Require Import Results.
From S2P Require Import Authority.
From S2P Require Import Gather.
From S2P Require Import Policies.

#[local] Set Default Proof Using "Type*".

(** * Errors to field errors *)

Section Errors.
Context `{F : FieldErrors}.

(** A policy's error that counts against the image: a field error without a
    warning. Any other error is not counted. *)
Definition blocking (e : goError) : Prop :=
  match e with FieldErr fe => ¬ has WarningLevel (Some fe) | PlainError _ => False end.

#[export] Instance blocking_dec e : Decision (blocking e).
Proof. destruct e; unfold blocking; apply _. Defined.

(** A generic error of an image, with details. *)
Lemma has_detailed l m field index d :
  has l (setDetails d <$> ViaFieldIndex field index (Some (ErrGeneric m ["image"]))) ↔ l = ErrorLevel.
Proof.
  set (g := ErrGeneric _ _).
  assert (Level <$> diagnostics (ViaFieldIndex field index (Some g)) = [ErrorLevel]) as Hl
    by (unfold g; by rewrite ViaFieldIndex_levels, ErrGeneric_diag).
  destruct (ViaFieldIndex field index (Some g)) as [fe|] eqn:Hv; cbn.
  - destruct (diagnostics (Some fe)) as [|dg [|]] eqn:Hd; [done| |done].
    rewrite (has_setDetails _ _ _ _ Hd), (has_single _ _ _ Hd). cbn in Hl. injection Hl as ->. done.
  - rewrite (proj2 (diagnostics_nil None) eq_refl) in Hl. done.
Qed.

Lemma has_failedPolicy l p field index d :
  has l (failedPolicy p field index d) ↔ l = ErrorLevel.
Proof. apply has_detailed. Qed.

Lemma addPolicyError_flags errs acc :
  let '(_, _, w, e) := acc in
  let '(_, _, w', e') := foldl addPolicyError acc errs in
  (e' = true ↔ e = true ∨ Exists blocking errs) ∧ (w = true → w' = true).
Proof.
  revert acc. induction errs as [|x errs IH]; intros [[[ed wd] w] e]; cbn [foldl].
  { rewrite Exists_nil. tauto. }
  specialize (IH (addPolicyError (ed, wd, w, e) x)).
  assert (let '(_, _, w', e') := addPolicyError (ed, wd, w, e) x in
    (e' = true ↔ e = true ∨ blocking x) ∧ (w = true → w' = true)) as Hx.
  { destruct x as [msg|fe]; cbn; [tauto|].
    pose proof (Filter_None WarningLevel (Some fe)) as Hf.
    destruct (Filter WarningLevel (Some fe)); cbn [notNil].
    - assert (¬ ¬ has WarningLevel (Some fe)) by (intros Hn; by apply Hf in Hn). tauto.
    - assert (¬ has WarningLevel (Some fe)) by by apply Hf. tauto. }
  destruct (addPolicyError (ed, wd, w, e) x) as [[[? ?] w1] e1].
  destruct (foldl _ _ errs) as [[[? ?] ?] ?]. rewrite Exists_cons. tauto.
Qed.

Lemma errorsToFieldErrors_flags image field index order acc :
  let r := foldl (addFailingPolicy image field index) acc order in
  (Rejects acc.1.1 ↔ acc.2 = true) →
  (Rejects r.1.1 ↔ r.2 = true) ∧
  (r.2 = true ↔ acc.2 = true ∨ Exists (λ pe, Exists blocking pe.2) order).
Proof.
  cbv zeta. revert acc. induction order as [|[p errs] order IH]; intros [[fe w] e] Hacc; cbn [foldl].
  { rewrite Exists_nil. tauto. }
  rewrite Exists_cons. cbn [fst snd] in *.
  pose proof (addPolicyError_flags errs (image, image, w, e)) as Hf.
  destruct (foldl addPolicyError (image, image, w, e) errs) as [[[ed wd] w'] e'] eqn:Hfold.
  destruct Hf as [He Hw].
  destruct (IH (addFailingPolicy image field index (fe, w, e) (p, errs))) as [IH1 IH2].
  { unfold addFailingPolicy. rewrite Hfold. cbn [fst snd]. unfold Rejects in *.
    destruct w', e'; rewrite ?has_Also, ?has_At, ?has_failedPolicy.
    - tauto.
    - split; [by intros [? _]|done].
    - tauto.
    - rewrite Hacc. destruct e; [|done]. split; [intros _; by apply He; left|done]. }
  split; [exact IH1|]. rewrite IH2. unfold addFailingPolicy. rewrite Hfold. cbn [snd].
  rewrite He. tauto.
Qed.

End Errors.

(** * Authorities of a policy *)

Section Authorities.
Context `{F : FieldErrors} `{HO : Host}.

Lemma asFieldError_At warn err :
  Some (asFieldError warn err) = At (if warn then WarningLevel else ErrorLevel)
                                   (Some (newFieldError err [])).
Proof.
  unfold asFieldError. cbv zeta. destruct (At _ _) as [fe|] eqn:Ha; [done|].
  by apply At_None in Ha.
Qed.

Lemma blocking_asFieldError warn err : blocking (FieldErr (asFieldError warn err)) ↔ warn = false.
Proof.
  unfold blocking. rewrite asFieldError_At, has_At. destruct warn; intuition congruence.
Qed.

(** The matches of results received in order. *)
Definition matchesOf (rs : list AuthorityResult) (ms : gmap string AuthorityMatch) :
    gmap string AuthorityMatch :=
  foldl (λ ms r, match authorityMatch r with Some m => <[ar_name r := m]> ms | None => ms end) ms rs.

Lemma matchesOf_cons r rs ms :
  matchesOf (r :: rs) ms =
  matchesOf rs (match authorityMatch r with Some m => <[ar_name r := m]> ms | None => ms end).
Proof. done. Qed.

Definition errorsOf (warn : bool) (rs : list AuthorityResult) : list goError :=
  omap (λ r, match authorityMatch r with Some _ => None | None => Some (authorityError warn r) end) rs.

Lemma collectAuthority_all warn rs errs ms :
  foldl (collectAuthority warn) (errs, ms) (Some <$> rs) =
  (errs ++ errorsOf warn rs, matchesOf rs ms).
Proof.
  revert errs ms. induction rs as [|r rs IH]; intros errs ms; cbn; [by rewrite app_nil_r|].
  destruct (authorityMatch r) as [m|]; rewrite IH; cbn; [done|]. by rewrite <-app_assoc.
Qed.

Lemma collectAuthority_sound warn rs errs ms name m :
  (foldl (collectAuthority warn) (errs, ms) rs).2 !! name = Some m →
  ms !! name = Some m ∨ ∃ r, Some r ∈ rs ∧ ar_name r = name ∧ authorityMatch r = Some m.
Proof.
  revert errs ms. induction rs as [|[r|] rs IH]; intros errs ms; cbn [foldl]; [by left| |].
  - cbn [collectAuthority]. destruct (authorityMatch r) as [m'|] eqn:Hm; intros H; apply IH in H.
    + destruct H as [[[<- <-]|[_ ?]]%lookup_insert_Some|(r' & ? & ? & ?)]; [|by left|].
      * right. exists r. split; [by left|done].
      * right. exists r'. split; [by right|done].
    + destruct H as [?|(r' & ? & ? & ?)]; [by left|]. right. exists r'. split; [by right|done].
  - intros H. apply IH in H as [?|(r' & ? & ? & ?)]; [by left|].
    right. exists r'. split; [by right|done].
Qed.

Lemma matchesOf_lookup rs ms name m : NoDup (ar_name <$> rs) →
  matchesOf rs ms !! name = Some m ↔
  (∃ r, r ∈ rs ∧ ar_name r = name ∧ authorityMatch r = Some m) ∨
  (ms !! name = Some m ∧ ∀ r, r ∈ rs → ar_name r = name → authorityMatch r = None).
Proof.
  revert ms. induction rs as [|r rs IH]; intros ms; cbn [fmap list_fmap].
  { intros _. cbn. split; [intros ?; right; split; [done|]; by intros ? ?%not_elem_of_nil|].
    intros [(? & ?%not_elem_of_nil & _)|[? _]]; done. }
  intros [Hr Hnd]%NoDup_cons. rewrite matchesOf_cons, (IH _ Hnd). clear IH.
  assert (∀ r', r' ∈ rs → ar_name r' = ar_name r → False) as Hno.
  { intros r' ? He. apply Hr. rewrite <-He. by apply list_elem_of_fmap_2. }
  setoid_rewrite elem_of_cons. destruct (authorityMatch r) as [m'|] eqn:Hm.
  - split.
    + intros [(r' & ? & ? & ?)|[[[<- <-]|[? ?]]%lookup_insert_Some Hn]].
      * left. exists r'. auto.
      * left. exists r. auto.
      * right. split; [done|]. intros r' [->|?] ?; [congruence|auto].
    + intros [(r' & [->|?] & <- & Hm')|[Hms Hn]].
      * right. rewrite Hm in Hm'. injection Hm' as <-. split; [by rewrite lookup_insert_eq|].
        intros r' ? ?. by destruct (Hno r').
      * left. eauto.
      * right. destruct (decide (ar_name r = name)) as [He|He].
        -- rewrite (Hn r) in Hm by auto. done.
        -- rewrite lookup_insert_ne by done. split; [done|]. auto.
  - split.
    + intros [(r' & ? & ? & ?)|[? Hn]]; [left; exists r'; auto|].
      right. split; [done|]. intros r' [->|?] ?; auto.
    + intros [(r' & [->|?] & <- & Hm')|[Hms Hn]]; [congruence| |].
      * left. eauto.
      * right. split; [done|]. auto.
Qed.

Lemma matchesOf_Permutation rs rs' ms : NoDup (ar_name <$> rs) → rs ≡ₚ rs' →
  matchesOf rs ms = matchesOf rs' ms.
Proof.
  intros Hnd Hp. apply map_eq. intros name.
  assert (NoDup (ar_name <$> rs')) as Hnd' by by rewrite <-Hp.
  apply option_eq. intros m. rewrite !matchesOf_lookup by done. by setoid_rewrite Hp.
Qed.

Lemma matchesOf_empty rs : matchesOf rs ∅ = ∅ ↔ Forall (λ r, authorityMatch r = None) rs.
Proof.
  assert (∀ ms, matchesOf rs ms = ∅ ↔ ms = ∅ ∧ Forall (λ r, authorityMatch r = None) rs) as H.
  { induction rs as [|r rs IH]; intros ms; [cbn; rewrite Forall_nil; tauto|].
    rewrite Forall_cons, matchesOf_cons, IH.
    destruct (authorityMatch r); [|tauto]. split; [|by intros (_ & ? & _)].
    intros [Hi _]. by apply insert_non_empty in Hi. }
  rewrite H. tauto.
Qed.

Lemma errorsOf_Permutation warn rs rs' : rs ≡ₚ rs' → errorsOf warn rs ≡ₚ errorsOf warn rs'.
Proof. intros Hp. unfold errorsOf. by rewrite Hp. Qed.

End Authorities.

Section Policy.
Context `{N : NamePkg} `{F : FieldErrors} `{P : Parsers} `{J : JsonText} `{C : Certs}
  `{T : CosignTypes} `{G : !Cosign} `{L : GM.LRU} `{M : K8sMeta} `{R : !Registry} `{HO : Host}.
(** An authority is satisfied, with the match [m]: its action is not to fail, or
    all the attestations it wants verify, or some signature does. *)
Definition authoritySatisfied (ctx : WebhookCtx) (namespace : string) (ref : Reference)
    (remoteOpts : list RemoteOption) (a : Authority) (m : AuthorityMatch) : Prop :=
  ∃ pullSecrets, SourceSignaturePullSecretsOpts NoServiceAccount NewK8sKeychain a namespace =
      Ok pullSecrets ∧
    let opts := remoteOpts ++ RemoteOpts a ++ pullSecrets in
    match Static a with
    | Some static => Action static ≠ "fail" ∧
        m = {| Signatures := []; am_Attestations := ∅; am_Static := true |}
    | None =>
        if nonEmpty (Attestations a) then
          ∃ atts, ValidatePolicyAttestationsForAuthority sha256 (wc_verify ctx) ref a opts = Ok atts ∧
            atts ≠ ∅ ∧ m = {| Signatures := []; am_Attestations := atts; am_Static := false |}
        else
          ∃ sigs, ValidatePolicySignaturesForAuthority sha256 SM3 newRequestError (wc_verify ctx)
              ref a opts = Ok sigs ∧
            sigs ≠ [] ∧ m = {| Signatures := sigs; am_Attestations := ∅; am_Static := false |}
    end.

Lemma authorityMatch_satisfied ctx ns ref opts a m :
  authorityMatch (validateAuthority ctx ns ref opts a) = Some m ↔
  authoritySatisfied ctx ns ref opts a m.
Proof.
  unfold validateAuthority, authoritySatisfied, authorityMatch. cbv zeta.
  destruct (SourceSignaturePullSecretsOpts _ _ a ns) as [pull|err];
    [|split; [done|by intros (? & ? & _)]].
  assert (∀ Q : list RemoteOption → Prop, (∃ p, Ok (E := string) pull = Ok p ∧ Q p) ↔ Q pull) as HQ
    by (intros Q; split; [by intros (? & [= <-] & ?)|by exists pull]).
  rewrite (HQ (λ p, _)). clear HQ.
  destruct (Static a) as [st|].
  { destruct (String.eqb_spec (Action st) "fail"); cbn; [intuition congruence|].
    split; [intros [= <-]; done|]. by intros [_ ->]. }
  destruct (nonEmpty (Attestations a)).
  - destruct (ValidatePolicyAttestationsForAuthority _ _ _ _ _) as [atts|err]; cbn;
      [|split; [done|by intros (? & ? & _)]].
    destruct (Nat.eqb_spec (size atts) 0) as [Hs|Hs]; cbn.
    + apply map_size_empty_inv in Hs as ->. split; [done|]. by intros (? & [= <-] & ? & _).
    + split; [intros [= <-]; exists atts; split_and!; [done| |done]; intros ->; by rewrite map_size_empty in Hs|].
      by intros (? & [= <-] & _ & ->).
  - destruct (ValidatePolicySignaturesForAuthority _ _ _ _ _ _ _) as [sigs|err]; cbn;
      [|split; [done|by intros (? & ? & _)]].
    destruct sigs; cbn; split; try done.
    + by intros (? & [= <-] & ? & _).
    + intros [= <-]. by eexists.
    + by intros (? & [= <-] & _ & ->).
Qed.

Lemma ar_name_validateAuthority ctx ns ref opts a :
  ar_name (validateAuthority ctx ns ref opts a) = auth_Name a.
Proof.
  unfold validateAuthority. cbv zeta. by repeat case_match.
Qed.

(** ** One policy *)

(** The policy over the results of the authorities accepts [r]. *)
Definition cipPolicyAccepts (cip : ClusterImagePolicy) (r : PolicyResult) : Prop :=
  ∀ p, cip_Policy cip = Some p →
    EvaluatePolicyAgainstJSON "ClusterImagePolicy" (ap_Type p) (ap_Data p)
      (jsonText (encode_PolicyResult r)) = (None, None).

Definition cacheMiss (ctx : WebhookCtx) (ref : Reference) (cip : ClusterImagePolicy) : Prop :=
  cache_Get (ResultCache_FromContext (wc_cache ctx)) (RefString ref) (UID cip)
    (ResourceVersion cip) = None.

Definition outcomes (ctx : WebhookCtx) (ns : string) (ref : Reference) (cip : ClusterImagePolicy)
    (opts : list RemoteOption) : list AuthorityResult :=
  validateAuthority ctx ns ref opts <$> Authorities cip.

Lemma evaluateCIPPolicy_Some warn p r errs r' errs' :
  evaluateCIPPolicy warn p r errs = (Some r', errs') ↔
  r' = r ∧ errs' = errs ∧ EvaluatePolicyAgainstJSON "ClusterImagePolicy" (ap_Type p) (ap_Data p)
    (jsonText (encode_PolicyResult r)) = (None, None).
Proof.
  unfold evaluateCIPPolicy, json_Marshal.
  destruct (EvaluatePolicyAgainstJSON _ _ _ _) as [[w|] [err|]];
    try (split; [by intros [=]|by intros (_ & _ & ?)]).
  split; [by intros [= <- <-]|by intros (-> & -> & _)].
Qed.

Lemma ValidatePolicy_Some depth s ctx ns ref cip kc opts r errs : cacheMiss ctx ref cip →
  ValidatePolicy depth s ctx ns ref cip kc opts = (Some r, errs) →
  let '(errs', matches) := gatherAuthorities s ctx ns ref cip opts in
  AuthorityMatches r = matches ∧ matches ≠ ∅ ∧ errs = errs' ∧ cipPolicyAccepts cip r.
Proof.
  intros Hmiss. unfold ValidatePolicy, cipPolicyAccepts. rewrite Hmiss.
  destruct (gatherAuthorities s ctx ns ref cip opts) as [errs' matches].
  destruct (Nat.eqb_spec (size matches) 0) as [Hs|Hs]; [done|].
  assert (matches ≠ ∅) as Hne by (intros ->; by rewrite map_size_empty in Hs).
  destruct (cip_Policy cip) as [p|].
  - unfold validateCIPPolicy. intros Hev.
    assert (∃ configs, evaluateCIPPolicy (Mode cip ==s "warn") p
      (includeInResult ctx p configs matches) errs' = (Some r, errs)) as [configs He].
    { destruct (isTrue (FetchConfigFile p)); [|by exists ∅].
      destruct (getConfigs _ _ _ _) as [configs|]; [by exists configs|done]. }
    apply evaluateCIPPolicy_Some in He as (-> & -> & He). split_and!; try done. by intros ? [= <-].
  - by intros [= <- <-].
Qed.

Lemma gatherAuthorities_sound s ctx ns ref cip opts name m :
  (gatherAuthorities s ctx ns ref cip opts).2 !! name = Some m →
  ∃ a, a ∈ Authorities cip ∧ auth_Name a = name ∧ authoritySatisfied ctx ns ref opts a m.
Proof.
  unfold gatherAuthorities. intros [?|(r & Hr & Hn & Hm)]%collectAuthority_sound; [done|].
  apply gather_elem, list_elem_of_fmap in Hr as (a & -> & Ha).
  rewrite ar_name_validateAuthority in Hn. exists a. split_and!; [done..|].
  by apply authorityMatch_satisfied.
Qed.

(** A policy that is not answered from the cache passes only with evidence,
    whatever the order in which its authorities finish and even if the context
    is cancelled: the result names at least one authority, every authority it
    names is one of the policy that was satisfied as recorded, and the CIP level
    policy, if there is one, accepts the result without error or warning. *)
Theorem ValidatePolicy_sound (depth : nat) (s : Schedule) (ctx : WebhookCtx) (ns : string)
    (ref : Reference) (cip : ClusterImagePolicy) (kc : KeychainOptions) (opts : list RemoteOption)
    (r : PolicyResult) (errs : list goError)
    (Hmiss : cacheMiss ctx ref cip)
    (Hr : ValidatePolicy depth s ctx ns ref cip kc opts = (Some r, errs)) :
  AuthorityMatches r ≠ ∅ ∧
  (∀ name m, AuthorityMatches r !! name = Some m →
     ∃ a, a ∈ Authorities cip ∧ auth_Name a = name ∧ authoritySatisfied ctx ns ref opts a m) ∧
  cipPolicyAccepts cip r.
Proof.
  pose proof (ValidatePolicy_Some _ _ _ _ _ _ _ _ _ _ Hmiss Hr) as Hg.
  destruct (gatherAuthorities s ctx ns ref cip opts) as [errs' matches] eqn:Hga.
  destruct Hg as (-> & Hne & _ & Hp). split_and!; [done| |done].
  intros name m Hm. eapply (gatherAuthorities_sound s). by rewrite Hga.
Qed.

Lemma gatherAuthorities_all s ctx ns ref cip opts : NoCancel s →
  ∃ rs, rs ≡ₚ outcomes ctx ns ref cip opts ∧
    gatherAuthorities s ctx ns ref cip opts =
    (errorsOf (Mode cip ==s "warn") rs, matchesOf rs ∅).
Proof.
  intros Hs. unfold gatherAuthorities.
  destruct (gather_all s (outcomes ctx ns ref cip opts) Hs) as (rs & Hg & Hp).
  exists rs. split; [done|]. unfold outcomes in Hg. by rewrite Hg, collectAuthority_all.
Qed.

Lemma ar_name_outcomes ctx ns ref cip opts :
  ar_name <$> outcomes ctx ns ref cip opts = auth_Name <$> Authorities cip.
Proof.
  unfold outcomes. rewrite <-list_fmap_compose. apply list_fmap_ext. intros i a _.
  apply ar_name_validateAuthority.
Qed.

(** C29: the verdict on a policy does not depend on the schedule. If its
    authorities have distinct names, it fetches no config files and the context
    is not cancelled, any two orders in which the authorities finish give the
    same result, with the same errors up to their order. *)
Theorem ValidatePolicy_schedule (depth : nat) (s s' : Schedule) (ctx : WebhookCtx) (ns : string)
    (ref : Reference) (cip : ClusterImagePolicy) (kc : KeychainOptions) (opts : list RemoteOption)
    (Hs : NoCancel s) (Hs' : NoCancel s')
    (Hnames : NoDup (auth_Name <$> Authorities cip))
    (Hfetch : ∀ p, cip_Policy cip = Some p → isTrue (FetchConfigFile p) = false) :
  let r := ValidatePolicy depth s ctx ns ref cip kc opts in
  let r' := ValidatePolicy depth s' ctx ns ref cip kc opts in
  r.1 = r'.1 ∧ r.2 ≡ₚ r'.2.
Proof.
  cbv zeta. unfold ValidatePolicy. destruct (cache_Get _ _ _ _); [done|].
  destruct (gatherAuthorities_all s ctx ns ref cip opts Hs) as (rs & Hp & ->).
  destruct (gatherAuthorities_all s' ctx ns ref cip opts Hs') as (rs' & Hp' & ->).
  rewrite <-(ar_name_outcomes ctx ns ref cip opts) in Hnames.
  assert (NoDup (ar_name <$> rs)) as Hnd by by rewrite Hp.
  assert (rs ≡ₚ rs') as Hrs by by rewrite Hp, Hp'.
  rewrite (matchesOf_Permutation rs rs' ∅ Hnd Hrs).
  pose proof (errorsOf_Permutation (Mode cip ==s "warn") _ _ Hrs) as He.
  destruct (size _ =? 0)%nat; [done|]. destruct (cip_Policy cip) as [p|]; [|done].
  unfold validateCIPPolicy. rewrite (Hfetch p eq_refl). unfold evaluateCIPPolicy, json_Marshal.
  destruct (EvaluatePolicyAgainstJSON _ _ _ _) as [[w|] [err|]]; cbn; rewrite ?He; done.
Qed.

(** One satisfied authority is enough for a policy without a CIP level
    policy, whatever the others did, unless the context is cancelled; and a
    policy none of whose authorities is satisfied fails. *)
Theorem ValidatePolicy_complete (depth : nat) (s : Schedule) (ctx : WebhookCtx) (ns : string)
    (ref : Reference) (cip : ClusterImagePolicy) (kc : KeychainOptions) (opts : list RemoteOption)
    (Hs : NoCancel s) (Hmiss : cacheMiss ctx ref cip) (Hpolicy : cip_Policy cip = None) :
  is_Some (ValidatePolicy depth s ctx ns ref cip kc opts).1 ↔
  Exists (λ a, ∃ m, authoritySatisfied ctx ns ref opts a m) (Authorities cip).
Proof.
  unfold ValidatePolicy. rewrite Hmiss, Hpolicy.
  destruct (gatherAuthorities_all s ctx ns ref cip opts Hs) as (rs & Hp & ->).
  assert (Exists (λ a, ∃ m, authoritySatisfied ctx ns ref opts a m) (Authorities cip) ↔
    ¬ Forall (λ r, authorityMatch r = None) rs) as ->.
  { rewrite Hp. unfold outcomes. rewrite Forall_fmap. split.
    - intros (a & Ha & m & Hm%authorityMatch_satisfied)%Exists_exists Hf.
      rewrite Forall_forall in Hf. specialize (Hf a Ha). cbn in Hf. congruence.
    - intros (a & Ha & Hm)%not_Forall_Exists%Exists_exists; [|intros a; cbn; apply _].
      apply Exists_exists. exists a. split; [done|]. cbn in Hm.
      destruct (authorityMatch _) as [m|] eqn:He; [|done]. exists m. by apply authorityMatch_satisfied. }
  rewrite <-matchesOf_empty, <-(map_size_empty_iff (matchesOf rs ∅)).
  destruct (Nat.eqb_spec (size (matchesOf rs ∅)) 0); cbn; unfold is_Some; [|naive_solver].
  split; [by intros [? ?]|done].
Qed.

(** ** All policies *)

(** What the errors of a policy are, when it has no result. *)
Definition reportedErrors (name : string) (errs : list goError) : list goError :=
  if nonEmpty errs then errs else [PlainError ("failed to process policy: " +:+ name)].

Lemma collectPolicy_all (l : list PolicyOutcome) rs es : NoDup (po_name <$> l) →
  (∀ o, o ∈ l → rs !! po_name o = None ∧ es !! po_name o = None) →
  let '(rs', es') := foldl collectPolicy (rs, es) (Some <$> l) in
  (∀ o, o ∈ l → rs' !! po_name o = po_policyResult o ∧
     es' !! po_name o = match po_policyResult o with
       | Some _ => None | None => Some (reportedErrors (po_name o) (po_errors o)) end) ∧
  (∀ name, name ∉ po_name <$> l → rs' !! name = rs !! name ∧ es' !! name = es !! name).
Proof.
  revert rs es. induction l as [|o l IH]; intros rs es; cbn [fmap list_fmap foldl].
  { intros _ _. split; [by intros ? ?%not_elem_of_nil|done]. }
  intros [Ho Hnd]%NoDup_cons Hfresh.
  assert (rs !! po_name o = None ∧ es !! po_name o = None) as [Hrs Hes]
    by (apply Hfresh; left).
  destruct (collectPolicy (rs, es) (Some o)) as [rs1 es1] eqn:Hc.
  assert (rs1 !! po_name o = po_policyResult o ∧
    es1 !! po_name o = match po_policyResult o with
      | Some _ => None | None => Some (reportedErrors (po_name o) (po_errors o)) end ∧
    ∀ name, name ≠ po_name o → rs1 !! name = rs !! name ∧ es1 !! name = es !! name)
    as (Hr1 & He1 & Hother).
  { cbn in Hc. unfold appendErrors, reportedErrors in *. rewrite Hes in Hc.
    destruct (po_policyResult o) as [r|]; [|destruct (nonEmpty (po_errors o))];
      injection Hc as <- <-; rewrite ?lookup_insert_eq; split_and!; try done;
      intros name Hn; by rewrite ?lookup_insert_ne. }
  assert (∀ o', o' ∈ l → po_name o' ≠ po_name o) as Hne.
  { intros o' Ho' He. apply Ho. rewrite <-He. by apply list_elem_of_fmap_2. }
  specialize (IH rs1 es1 Hnd).
  destruct (foldl collectPolicy (rs1, es1) (Some <$> l)) as [rs2 es2].
  destruct IH as [IH1 IH2].
  { intros o' Ho'. destruct (Hother (po_name o')) as [-> ->]; [by apply Hne|].
    apply Hfresh. by right. }
  destruct (IH2 (po_name o) Ho) as [Hr2 He2]. split.
  - intros o' [->|?]%elem_of_cons; [|by apply IH1]. by rewrite Hr2, He2, Hr1, He1.
  - intros name [Hn Hnl]%not_elem_of_cons. destruct (IH2 name Hnl) as [-> ->]. by apply Hother.
Qed.

Lemma validatePolicies_lookup (depth : nat) (s : Schedule) (ctx : WebhookCtx) (ns : string)
    (ref : Reference) (policies : gmap string ClusterImagePolicy) (kc : KeychainOptions)
    (opts : list RemoteOption) (Hs : NoCancel s) :
  let '(results, errors, writes) := validatePolicies depth s ctx ns ref policies kc opts in
  (∀ name cip, policies !! name = Some cip →
     let '(result, errs) := ValidatePolicy depth (sub s name) ctx ns ref cip kc opts in
     results !! name = result ∧
     errors !! name = match result with
       | Some _ => None | None => Some (reportedErrors name errs) end ∧
     {| cw_image := Name ref; cw_name := name; cw_uid := UID cip;
        cw_resourceVersion := ResourceVersion cip;
        cw_result := {| cr_PolicyResult := result; cr_Errors := errs |} |} ∈ writes) ∧
  (∀ name, policies !! name = None → results !! name = None ∧ errors !! name = None) ∧
  length writes = size policies.
Proof.
  unfold validatePolicies. set (f := validateNamedPolicy depth s ctx ns ref kc opts).
  set (l := map_to_list policies).
  destruct (gather_all s (fst <$> (f <$> l)) Hs) as (rcv & -> & Hp).
  assert (∀ x, po_name (f x).1 = x.1) as Hname.
  { intros [name cip]. unfold f, validateNamedPolicy. by destruct (ValidatePolicy _ _ _ _ _ _ _ _). }
  assert (po_name <$> (fst <$> (f <$> l)) = l.*1) as Hnames.
  { rewrite <-!list_fmap_compose. apply list_fmap_ext. intros i x _. apply Hname. }
  assert (NoDup (po_name <$> rcv)) as Hnd.
  { rewrite Hp, Hnames. apply NoDup_fst_map_to_list. }
  pose proof (collectPolicy_all rcv ∅ ∅ Hnd) as Hc.
  destruct (foldl collectPolicy (∅, ∅) (Some <$> rcv)) as [results errors].
  destruct Hc as [Hc1 Hc2]; [done|]. split_and!.
  - intros name cip Hn. assert ((name, cip) ∈ l) as Hl by by apply elem_of_map_to_list.
    destruct (ValidatePolicy depth (sub s name) ctx ns ref cip kc opts) as [result errs] eqn:Hv.
    assert ((f (name, cip)).1 ∈ rcv) as Hin.
    { rewrite Hp. by do 2 apply list_elem_of_fmap_2. }
    destruct (Hc1 _ Hin) as [H1 H2]. unfold f, validateNamedPolicy in H1, H2. rewrite Hv in H1, H2.
    cbn in H1, H2. split_and!; [done|done|].
    apply list_elem_of_fmap. exists (f (name, cip)). split; [|by apply list_elem_of_fmap_2].
    unfold f, validateNamedPolicy. by rewrite Hv.
  - intros name Hn. apply Hc2. rewrite Hp, Hnames. intros ((? & cip) & -> & Hin)%list_elem_of_fmap.
    cbn in Hn. apply elem_of_map_to_list in Hin. congruence.
  - rewrite !length_fmap. unfold l. apply length_map_to_list.
Qed.

(** Every matching policy is accounted for. Unless the context is cancelled,
    a policy appears in the results if it passed, and with its errors (never an
    empty list) if it did not, never in both; no other name appears in either;
    and each policy's verdict is written to the cache. *)
Theorem validatePolicies_accounts (depth : nat) (s : Schedule) (ctx : WebhookCtx) (ns : string)
    (ref : Reference) (policies : gmap string ClusterImagePolicy) (kc : KeychainOptions)
    (opts : list RemoteOption) (Hs : NoCancel s) :
  let '(results, errors, writes) := validatePolicies depth s ctx ns ref policies kc opts in
  (∀ name cip, policies !! name = Some cip →
     let '(result, errs) := ValidatePolicy depth (sub s name) ctx ns ref cip kc opts in
     results !! name = result ∧
     errors !! name = match result with
       | Some _ => None | None => Some (reportedErrors name errs) end ∧
     {| cw_image := Name ref; cw_name := name; cw_uid := UID cip;
        cw_resourceVersion := ResourceVersion cip;
        cw_result := {| cr_PolicyResult := result; cr_Errors := errs |} |} ∈ writes) ∧
  (∀ name, policies !! name = None → results !! name = None ∧ errors !! name = None) ∧
  length writes = size policies.
Proof. by apply validatePolicies_lookup. Qed.

(** ** An image *)

Lemma errorsToFieldErrors_rejects image field index order :
  Rejects (errorsToFieldErrors image field index order) ↔
  ∃ name errs, (name, errs) ∈ order ∧ Exists blocking errs.
Proof.
  unfold errorsToFieldErrors.
  destruct (errorsToFieldErrors_flags image field index order (None, false, false)) as [-> ->].
  { cbn. split; [|done]. by intros ?%has_nil. }
  cbn. rewrite Exists_exists. split.
  - intros [?|([name errs] & ? & ?)]; [done|]. by exists name, errs.
  - intros (name & errs & ? & ?). right. by exists (name, errs).
Qed.

(** The verdict on one matching policy of an image. *)
Definition verdict (depth : nat) (s : Schedule) (ctx : WebhookCtx) (ns : string) (ref : Reference)
    (kc : KeychainOptions) (opts : list RemoteOption) (name : string) (cip : ClusterImagePolicy) :
    option PolicyResult * list goError :=
  ValidatePolicy depth (sub (sub s "policies") name) ctx ns ref cip kc opts.

Lemma image_rejected_lemma (depth : nat) (s : Schedule) (ctx : WebhookCtx)
    (image ns field : string) (index : nat) (kind apiVersion : string)
    (labels : gmap string string) (kc : KeychainOptions) (opts : list RemoteOption)
    (ref : Reference) (config : Config) (policies : gmap string ClusterImagePolicy)
    (Hs : NoCancel s)
    (Hparse : ParseReference [] image = Ok ref)
    (Hconfig : tc_config (vc_trust (wc_verify ctx)) = Some config)
    (Hmatch : matchingPolicies s config ref kind apiVersion labels = (policies, None))
    (Hne : policies ≠ ∅) :
  Rejects (validateContainerImage depth s ctx image ns field index kind apiVersion labels kc opts) ↔
  ∃ name cip, policies !! name = Some cip ∧
    (verdict depth s ctx ns ref kc opts name cip).1 = None ∧
    Exists blocking (verdict depth s ctx ns ref kc opts name cip).2.
Proof.
  unfold validateContainerImage. rewrite Hparse, Hconfig, Hmatch.
  destruct (Nat.eqb_spec (size policies) 0) as [Hz|_]; [by apply map_size_empty_inv in Hz|]. cbn [negb].
  pose proof (validatePolicies_lookup depth (sub s "policies") ctx ns ref policies kc opts
    (NoCancel_sub s _ Hs)) as Hv.
  destruct (validatePolicies depth (sub s "policies") ctx ns ref policies kc opts)
    as [[results errors] writes]. destruct Hv as (Hin & Hout & _).
  rewrite errorsToFieldErrors_rejects. setoid_rewrite shuffle_Permutation.
  setoid_rewrite elem_of_map_to_list. unfold verdict. split.
  - intros (name & errs & Hl & Hb). destruct (policies !! name) as [cip|] eqn:Hn.
    + exists name, cip. specialize (Hin name cip Hn).
      destruct (ValidatePolicy _ _ _ _ _ _ _ _) as [[r|] es]; destruct Hin as (_ & He & _);
        rewrite Hl in He; [done|]. injection He as ->. split_and!; [done..|]. cbn.
      unfold reportedErrors in Hb. destruct es; [|done]. cbn in Hb.
      by apply Exists_cons in Hb as [[]|?%Exists_nil].
    + destruct (Hout name Hn) as [_ He]. congruence.
  - intros (name & cip & Hn & Hr & Hb). specialize (Hin name cip Hn).
    destruct (ValidatePolicy _ _ _ _ _ _ _ _) as [[r|] es]; [done|]. destruct Hin as (_ & He & _).
    exists name, es. cbn in Hb. split; [|done]. rewrite He. unfold reportedErrors.
    destruct es; [by apply Exists_nil in Hb|done].
Qed.

(** C9: an image that some policy matches is rejected exactly when some matching
    policy has no result and one of its errors is a field error that is not a
    warning. The order of the policies, of their errors and of the goroutines
    does not matter, although the messages depend on it. *)
Theorem image_rejected_iff (depth : nat) (s : Schedule) (ctx : WebhookCtx)
    (image ns field : string) (index : nat) (kind apiVersion : string)
    (labels : gmap string string) (kc : KeychainOptions) (opts : list RemoteOption)
    (ref : Reference) (config : Config) (policies : gmap string ClusterImagePolicy)
    (Hs : NoCancel s)
    (Hparse : ParseReference [] image = Ok ref)
    (Hconfig : tc_config (vc_trust (wc_verify ctx)) = Some config)
    (Hmatch : matchingPolicies s config ref kind apiVersion labels = (policies, None))
    (Hne : policies ≠ ∅) :
  Rejects (validateContainerImage depth s ctx image ns field index kind apiVersion labels kc opts) ↔
  ∃ name cip, policies !! name = Some cip ∧
    (verdict depth s ctx ns ref kc opts name cip).1 = None ∧
    Exists blocking (verdict depth s ctx ns ref kc opts name cip).2.
Proof. by apply (image_rejected_lemma _ _ _ _ _ _ _ _ _ _ _ _ _ config policies). Qed.

Lemma getConfigs_errors depth s kc ref errs : getConfigs depth s kc ref = Err errs → errs ≠ [].
Proof.
  destruct depth as [|depth]; cbn [getConfigs]; [by intros [= <-]|].
  destruct (remote_Get kc ref) as [d|]; [|by intros [= <-]].
  destruct (rd_MediaType d); try (by intros [= <-]).
  1,2: destruct (rd_ImageIndex d) as [[ms|]|]; try (by intros [= <-]);
    destruct (foldl _ _ _) as [es ret]; destruct es; [done|by intros [= <-]].
  1,2: destruct (rd_Image d) as [[cf|]|]; by intros [= <-].
Qed.

(** Cosign gives this authority signatures when it gives no error, each with a
    readable digest: otherwise the authority is neither satisfied nor an error.
    Attestations and static actions always are one or the other. *)
Definition answers (ctx : WebhookCtx) (ns : string) (ref : Reference) (opts : list RemoteOption)
    (a : Authority) : Prop :=
  Static a = None → Attestations a = [] → ∀ pullSecrets,
    ValidatePolicySignaturesForAuthority sha256 SM3 newRequestError (wc_verify ctx) ref a
      (opts ++ RemoteOpts a ++ pullSecrets) ≠ Ok [].

Lemma answers_spec ctx ns ref opts a : answers ctx ns ref opts a →
  authorityMatch (validateAuthority ctx ns ref opts a) = None →
  is_Some (ar_err (validateAuthority ctx ns ref opts a)).
Proof.
  unfold answers, validateAuthority, authorityMatch. cbv zeta. intros Hans.
  destruct (SourceSignaturePullSecretsOpts _ _ a ns) as [pull|err]; [|by eexists].
  destruct (Static a) as [st|]; [destruct (Action st ==s "fail"); cbn; [by eexists|done]|].
  destruct (Attestations a) as [|w ws] eqn:Hatt; cbn [nonEmpty].
  - specialize (Hans eq_refl eq_refl pull).
    destruct (ValidatePolicySignaturesForAuthority _ _ _ _ _ _ _) as [[|]|]; cbn; [done|done|by eexists].
  - destruct (ValidatePolicyAttestationsForAuthority _ _ _ _ _) as [atts|] eqn:Hv; cbn; [|by eexists].
    assert (atts ≠ ∅) as Hne.
    { apply (ValidatePolicyAttestations_names sha256) in Hv. rewrite Hatt in Hv. intros ->.
      rewrite dom_empty_L in Hv. cbn in Hv. set_solver. }
    destruct (Nat.eqb_spec (size atts) 0) as [Hz|]; [by apply map_size_empty_inv in Hz|done].
Qed.

Lemma failed_policy_blocks depth s ctx ns ref cip kc opts errs :
  NoCancel s → cacheMiss ctx ref cip → Mode cip ≠ "warn" → Authorities cip ≠ [] →
  Forall (answers ctx ns ref opts) (Authorities cip) →
  ValidatePolicy depth s ctx ns ref cip kc opts = (None, errs) → Exists blocking errs.
Proof.
  intros Hs Hmiss Hmode Hne Hans. unfold ValidatePolicy. rewrite Hmiss.
  apply String.eqb_neq in Hmode. rewrite Hmode.
  destruct (gatherAuthorities_all s ctx ns ref cip opts Hs) as (rs & Hp & ->). rewrite Hmode.
  destruct (Nat.eqb_spec (size (matchesOf rs ∅)) 0) as [Hz|Hz].
  - intros [= <-]. apply map_size_empty_inv, matchesOf_empty in Hz.
    destruct rs as [|r rs].
    { apply Permutation_nil_l in Hp. unfold outcomes in Hp. by destruct (Authorities cip). }
    assert (r ∈ outcomes ctx ns ref cip opts) as (a & -> & Ha)%list_elem_of_fmap
      by (rewrite <-Hp; left).
    apply Forall_cons in Hz as [Hz _]. rewrite Forall_forall in Hans.
    destruct (answers_spec _ _ _ _ _ (Hans a Ha) Hz) as [err He].
    unfold errorsOf. cbn. rewrite Hz. apply Exists_cons. left. unfold authorityError.
    rewrite He. by apply blocking_asFieldError.
  - destruct (cip_Policy cip) as [p|]; [|done]. unfold validateCIPPolicy, evaluateCIPPolicy, json_Marshal.
    assert (∀ err, blocking (FieldErr (asFieldError false err))) as Hb
      by (intros err; by apply blocking_asFieldError).
    assert (∀ r es, (match EvaluatePolicyAgainstJSON "ClusterImagePolicy" (ap_Type p) (ap_Data p)
        (jsonText (encode_PolicyResult r)) with
      | (_, Some err) => (None, es ++ [FieldErr (asFieldError false err)])
      | (Some w, None) => (None, es ++ [FieldErr (asFieldError false w)])
      | (None, None) => (Some r, es) end) = (None, errs) → Exists blocking errs) as Hev.
    { intros r es. destruct (EvaluatePolicyAgainstJSON _ _ _ _) as [[w|] [err|]]; try done;
        intros [= <-]; apply Exists_app; right; by apply Exists_cons; left. }
    destruct (isTrue (FetchConfigFile p)); [|apply Hev].
    destruct (getConfigs _ _ _ _) as [configs|es] eqn:Hc; [apply Hev|]. intros [= <-].
    apply getConfigs_errors in Hc. destruct es as [|e es]; [done|].
    apply Exists_app. right. cbn. apply Exists_cons. by left.
Qed.

Lemma accepted_image_lemma (depth : nat) (s : Schedule) (ctx : WebhookCtx)
    (image ns field : string) (index : nat) (kind apiVersion : string)
    (labels : gmap string string) (kc : KeychainOptions) (opts : list RemoteOption)
    (ref : Reference) (config : Config) (policies : gmap string ClusterImagePolicy)
    (name : string) (cip : ClusterImagePolicy)
    (Hs : NoCancel s)
    (Hparse : ParseReference [] image = Ok ref)
    (Hconfig : tc_config (vc_trust (wc_verify ctx)) = Some config)
    (Hmatch : matchingPolicies s config ref kind apiVersion labels = (policies, None))
    (Hcip : policies !! name = Some cip) (Hmode : Mode cip ≠ "warn")
    (Hauthorities : Authorities cip ≠ []) (Hmiss : cacheMiss ctx ref cip)
    (Hanswers : Forall (answers ctx ns ref opts) (Authorities cip))
    (Haccepted : Accepts
       (validateContainerImage depth s ctx image ns field index kind apiVersion labels kc opts)) :
  ∃ r, (verdict depth s ctx ns ref kc opts name cip).1 = Some r ∧
    (∃ a m, a ∈ Authorities cip ∧ authoritySatisfied ctx ns ref opts a m ∧
       AuthorityMatches r !! auth_Name a = Some m) ∧
    cipPolicyAccepts cip r.
Proof.
  destruct (verdict depth s ctx ns ref kc opts name cip) as [[r|] errs] eqn:Hv.
  - exists r. split; [done|]. unfold verdict in Hv.
    apply (ValidatePolicy_Some _ _ _ _ _ _ _ _ _ _ Hmiss) in Hv.
    destruct (gatherAuthorities _ ctx ns ref cip opts) as [errs' matches] eqn:Hg.
    destruct Hv as (-> & Hne & _ & Hp). split; [|done].
    apply map_choose in Hne as (n & m & Hm).
    destruct (gatherAuthorities_sound (sub (sub s "policies") name) ctx ns ref cip opts n m)
      as (a & Ha & <- & Hsat); [by rewrite Hg|]. by exists a, m.
  - exfalso. apply Haccepted. eapply image_rejected_lemma; [done..| |].
    + intros ->. by rewrite lookup_empty in Hcip.
    + exists name, cip. rewrite Hv. split_and!; [done|done|]. cbn. unfold verdict in Hv.
      eapply failed_policy_blocks; [|done..]. by do 2 apply NoCancel_sub.
Qed.

(** C4: an accepted image satisfies every matching policy that is enforced. If
    the image is not rejected, then each policy that matches it, is not in warn
    mode, has authorities and is not answered from the cache has an authority
    that was satisfied, and its CIP level policy accepted the result. This
    supposes that the context was not cancelled and that cosign answers: those
    failures are not counted (see [uncounted_errors_admit]). *)
Theorem accepted_image_satisfies (depth : nat) (s : Schedule) (ctx : WebhookCtx)
    (image ns field : string) (index : nat) (kind apiVersion : string)
    (labels : gmap string string) (kc : KeychainOptions) (opts : list RemoteOption)
    (ref : Reference) (config : Config) (policies : gmap string ClusterImagePolicy)
    (name : string) (cip : ClusterImagePolicy)
    (Hs : NoCancel s)
    (Hparse : ParseReference [] image = Ok ref)
    (Hconfig : tc_config (vc_trust (wc_verify ctx)) = Some config)
    (Hmatch : matchingPolicies s config ref kind apiVersion labels = (policies, None))
    (Hcip : policies !! name = Some cip) (Hmode : Mode cip ≠ "warn")
    (Hauthorities : Authorities cip ≠ []) (Hmiss : cacheMiss ctx ref cip)
    (Hanswers : Forall (answers ctx ns ref opts) (Authorities cip))
    (Haccepted : Accepts
       (validateContainerImage depth s ctx image ns field index kind apiVersion labels kc opts)) :
  ∃ r, (verdict depth s ctx ns ref kc opts name cip).1 = Some r ∧
    (∃ a m, a ∈ Authorities cip ∧ authoritySatisfied ctx ns ref opts a m ∧
       AuthorityMatches r !! auth_Name a = Some m) ∧
    cipPolicyAccepts cip r.
Proof. by eapply accepted_image_lemma. Qed.

(** ** Errors that are not counted *)

Definition plain (e : goError) : Prop := match e with PlainError _ => True | FieldErr _ => False end.

Lemma addPolicyError_plain errs ed wd w e : Forall plain errs →
  ∃ ed' wd', foldl addPolicyError (ed, wd, w, e) errs = (ed', wd', w, e).
Proof.
  revert ed wd. induction errs as [|x errs IH]; intros ed wd; [intros _; by exists ed, wd|].
  intros [Hx Hf]%Forall_cons. destruct x; [|done]. cbn. by apply IH.
Qed.

Lemma errorsToFieldErrors_plain image field index order :
  Forall (λ pe, Forall plain pe.2) order → errorsToFieldErrors image field index order = None.
Proof.
  unfold errorsToFieldErrors. intros Hf.
  assert (foldl (addFailingPolicy image field index) (None, false, false) order =
    (None, false, false)) as ->; [|done].
  induction order as [|[name errs] order IH]; [done|].
  apply Forall_cons in Hf as [He Hf]. cbn [foldl addFailingPolicy].
  destruct (addPolicyError_plain errs image image false false He) as (ed & wd & ->). by apply IH.
Qed.

Lemma appendErrors_plain es name errs : map_Forall (λ _, Forall plain) es → Forall plain errs →
  map_Forall (λ _, Forall plain) (appendErrors es name errs).
Proof.
  intros Hes He. unfold appendErrors. apply map_Forall_insert_2; [|done].
  apply Forall_app. split; [|done]. destruct (es !! name) as [l|] eqn:Hl; [|constructor].
  by apply (Hes name).
Qed.

Lemma collectPolicy_plain (l : list (option PolicyOutcome)) rs es :
  map_Forall (λ _, Forall plain) es →
  Forall (λ o, ∀ p, o = Some p → Forall plain (po_errors p)) l →
  map_Forall (λ _, Forall plain) (foldl collectPolicy (rs, es) l).2.
Proof.
  revert rs es. induction l as [|o l IH]; intros rs es Hes; [done|].
  intros [Ho Hl]%Forall_cons. cbn [foldl].
  destruct (collectPolicy (rs, es) o) as [rs1 es1] eqn:Hc. apply IH; [|done].
  destruct o as [o|]; cbn in Hc.
  - specialize (Ho o eq_refl). destruct (po_policyResult o); [by injection Hc as <- <-|].
    destruct (nonEmpty (po_errors o)); injection Hc as <- <-; apply appendErrors_plain; try done.
    by repeat constructor.
  - injection Hc as <- <-. apply appendErrors_plain; [done|]. by repeat constructor.
Qed.

Lemma rounds_done {A} (choices : nat → Choice) i n (chan : list A) : (∀ j, choices j = CtxDone) →
  rounds choices i n chan = replicate n None.
Proof. intros Hd. revert i. induction n as [|n IH]; intros i; cbn; [done|]. by rewrite Hd, IH. Qed.

Lemma ValidatePolicy_no_authorities depth s ctx ns ref cip kc opts : cacheMiss ctx ref cip →
  Authorities cip = [] → ValidatePolicy depth s ctx ns ref cip kc opts = (None, []).
Proof. intros Hmiss Ha. unfold ValidatePolicy, gatherAuthorities. by rewrite Hmiss, Ha. Qed.

(** C30: failures that are not field errors do not reject an image. When every
    round of every loop finds the context done, or when the matching policies
    have no authorities (which fail-on-empty-authorities set to false permits),
    no policy is validated, the only errors are plain ones, and the image is
    admitted, without a warning, although some policy matches it. *)
Theorem uncounted_errors_admit (depth : nat) (s : Schedule) (ctx : WebhookCtx)
    (image ns field : string) (index : nat) (kind apiVersion : string)
    (labels : gmap string string) (kc : KeychainOptions) (opts : list RemoteOption)
    (ref : Reference) (config : Config) (policies : gmap string ClusterImagePolicy)
    (Hparse : ParseReference [] image = Ok ref)
    (Hconfig : tc_config (vc_trust (wc_verify ctx)) = Some config)
    (Hmatch : matchingPolicies s config ref kind apiVersion labels = (policies, None))
    (Hne : policies ≠ ∅)
    (Hplain : (∀ path i, s path i = CtxDone) ∨
      map_Forall (λ _ cip, Authorities cip = [] ∧ cacheMiss ctx ref cip) policies) :
  validateContainerImage depth s ctx image ns field index kind apiVersion labels kc opts = None ∧
  (validatePolicies depth (sub s "policies") ctx ns ref policies kc opts).1.1 = ∅.
Proof.
  set (f := validateNamedPolicy depth (sub s "policies") ctx ns ref kc opts).
  set (rcv := gather (here (sub s "policies")) (fst <$> (f <$> map_to_list policies))).
  assert (Forall (λ o, ∀ p, o = Some p → po_policyResult p = None ∧ po_errors p = []) rcv) as Hrcv.
  { apply Forall_forall. intros o Ho p ->. destruct Hplain as [Hd|Hem].
    - unfold rcv, gather in Ho. rewrite rounds_done in Ho by (intros j; apply Hd).
      by apply elem_of_replicate in Ho as [? _].
    - apply gather_elem, list_elem_of_fmap in Ho as (x & -> & Hx).
      apply list_elem_of_fmap in Hx as ([name cip] & -> & Hin%elem_of_map_to_list).
      destruct (Hem name cip Hin) as [Ha Hmiss]. unfold f, validateNamedPolicy.
      by rewrite ValidatePolicy_no_authorities. }
  assert (∀ rs es, (foldl collectPolicy (rs, es) rcv).1 = rs) as Hres.
  { induction Hrcv as [|o l Ho _ IH]; intros rs es; cbn [foldl]; [done|].
    destruct o as [o|]; cbn [collectPolicy]; [|apply IH].
    destruct (Ho o eq_refl) as [-> ->]. apply IH. }
  assert (validatePolicies depth (sub s "policies") ctx ns ref policies kc opts =
    (foldl collectPolicy (∅, ∅) rcv, snd <$> (f <$> map_to_list policies))) as Hv by done.
  split; [|rewrite Hv; apply Hres].
  unfold validateContainerImage. rewrite Hparse, Hconfig, Hmatch, Hv.
  destruct (Nat.eqb_spec (size policies) 0) as [Hz|_]; [by apply map_size_empty_inv in Hz|]. cbn [negb].
  destruct (foldl collectPolicy (∅, ∅) rcv) as [results errors] eqn:Hf.
  apply errorsToFieldErrors_plain. rewrite shuffle_Permutation.
  apply Forall_forall. intros [name errs] Hin%elem_of_map_to_list.
  assert (map_Forall (λ _, Forall plain) (foldl collectPolicy (∅, ∅) rcv).2) as Hp.
  { apply collectPolicy_plain; [apply map_Forall_empty|]. eapply Forall_impl; [exact Hrcv|].
    intros o Ho p Hop. destruct (Ho p Hop) as [_ ->]. constructor. }
  rewrite Hf in Hp. by apply (Hp name).
Qed.

End Policy.

(** * Concrete inputs *)

Module ToyWebhook.

#[local] Existing Instances ToyNames.names ToyParsers.parsers ToyCerts.certs ToyCosign.types
  ToyCosign.cosign ToyEnvelope.jsonText GM.ToyGM.lru_instance ToyMeta.meta
  ListFieldErrors.fieldErrors.

#[export] Instance registry : Registry := {|
  remote_Get _ _ := Ok {| rd_MediaType := OCIManifestSchema1; rd_ImageIndex := Err "not an index";
    rd_Image := Ok (Ok {| cf_OS := "linux"; cf_Architecture := "arm64"; cf_OSVersion := "";
                          cf_Variant := ""; cf_json := JNull |}) |};
  Platform_String cf := cf_OS cf +:+ "/" +:+ cf_Architecture cf;
  MediaType_String _ := "media type";
  kauth_New _ := None;
  NoServiceAccount := "no service account"
|}.

#[export] Instance host : Host := {|
  sha256 s := s; SM3 s := s; newRequestError _ := None; ctxErr := "context canceled"
|}.

Definition img : Reference := ("ghcr.io/org/app" : string).

Definition authority (name : string) (key : option KeyRef) (static : option StaticRef) : Authority :=
  {| auth_Name := name; Key := key; Keyless := None; Static := static; Sources := []; CTLog := None;
     RemoteOpts := []; Attestations := []; auth_RFC3161Timestamp := None; GMSignature := None;
     SignatureFormat := "" |}.
Definition key (k : string) : option KeyRef :=
  Some {| key_Data := ""; key_HashAlgorithm := "sha256"; HashAlgorithmCode := SHA256;
          PublicKeys := [Some k] |}.

(** A key that verifies, one that does not, and a static authority. *)
Definition good : Authority := authority "good" (key "good") None.
Definition bad : Authority := authority "bad" (key "bad") None.
Definition pass : Authority := authority "pass" None (Some {| Action := "pass"; static_Message := "" |}).

Definition policy (authorities : list Authority) (mode : string) : ClusterImagePolicy :=
  {| UID := "u"; ResourceVersion := "1"; Images := [{| V1alpha1.Glob := "ghcr.io/**" |}];
     Authorities := authorities; cip_Policy := None; Mode := mode; cip_Match := [] |}.

Definition config (policies : gmap string ClusterImagePolicy) : Config :=
  {| cfg_ImagePolicyConfig := Some {| ImagePolicies.Policies := policies |};
     cfg_SigstoreKeysConfig := None |}.

Definition ctx (policies : gmap string ClusterImagePolicy) : WebhookCtx :=
  {| wc_verify :=
       {| vc_trust := {| tc_pcConfig := FromContextOrDefaults emptyCtx;
                         tc_config := Some (config policies); tufRoot := Err "offline" |};
          vc_gmClient := None; vc_gmState := {| GM.calls := 0; GM.cache := None |} |};
     wc_cache := None; wc_spec := None; wc_objectMeta := None; wc_typeMeta := None |}.

Definition kc : KeychainOptions :=
  {| kc_Namespace := "default"; kc_ServiceAccountName := ""; kc_ImagePullSecrets := [] |}.

(** The results in the order they were sent, and in another one. *)
Definition inOrder : Schedule := λ _ _, Recv 0.
Definition lastFirst : Schedule := λ _ _, Recv 1.
Definition cancelled : Schedule := λ _ _, CtxDone.

Definition validate (policies : gmap string ClusterImagePolicy) (s : Schedule) : option FieldError :=
  validateContainerImage 3 s (ctx policies) img "default" "containers" 0 "Pod" "v1" ∅ kc [].

End ToyWebhook.

#[local] Existing Instances ToyNames.names ToyParsers.parsers ToyCerts.certs ToyCosign.types
  ToyCosign.cosign ToyEnvelope.jsonText GM.ToyGM.lru_instance ToyMeta.meta
  ListFieldErrors.fieldErrors ToyWebhook.registry ToyWebhook.host.

Example image_accepted : ToyWebhook.validate {[ "p" := ToyWebhook.policy [ToyWebhook.bad; ToyWebhook.good] "" ]}
  ToyWebhook.inOrder = None.
Proof. vm_compute. reflexivity. Qed.
Example image_rejected : ToyWebhook.validate {[ "p" := ToyWebhook.policy [ToyWebhook.bad] "" ]}
  ToyWebhook.inOrder ≠ None.
Proof. vm_compute. discriminate. Qed.

Import ToyWebhook.

Definition toyPolicy : ClusterImagePolicy := policy [bad; good] "".
Definition toyPolicies : gmap string ClusterImagePolicy := {[ "p" := toyPolicy ]}.

Lemma inOrder_NoCancel : NoCancel inOrder.
Proof. intros path i. discriminate. Defined.
Lemma lastFirst_NoCancel : NoCancel lastFirst.
Proof. intros path i. discriminate. Defined.

Lemma ValidatePolicy_sound_witness :
  match ValidatePolicy 3 cancelled (ctx toyPolicies) "default" img toyPolicy kc [],
        ValidatePolicy 3 inOrder (ctx toyPolicies) "default" img toyPolicy kc [] with
  | (None, _), (Some r, _) => AuthorityMatches r ≠ ∅
  | _, _ => False
  end.
Proof.
  destruct (ValidatePolicy 3 cancelled _ _ _ _ _ _) as [[r|] errs] eqn:Hc; [vm_compute in Hc; discriminate Hc|].
  destruct (ValidatePolicy 3 inOrder _ _ _ _ _ _) as [[r|] errs'] eqn:Hr;
    [|vm_compute in Hr; discriminate Hr].
  destruct (ValidatePolicy_sound 3 inOrder (ctx toyPolicies) "default" img toyPolicy kc [] r errs'
    eq_refl Hr) as [H _]. exact H.
Defined.

Lemma ValidatePolicy_schedule_witness :
  (ValidatePolicy 3 inOrder (ctx toyPolicies) "default" img toyPolicy kc []).1 =
  (ValidatePolicy 3 lastFirst (ctx toyPolicies) "default" img toyPolicy kc []).1.
Proof.
  destruct (ValidatePolicy_schedule 3 inOrder lastFirst (ctx toyPolicies) "default" img toyPolicy kc [])
    as [H _]; [exact inOrder_NoCancel|exact lastFirst_NoCancel|
               vm_compute; repeat constructor; intros H; inversion H; subst; inversion H2|
               intros p Hp; discriminate Hp|exact H].
Defined.

Lemma ValidatePolicy_complete_witness :
  is_Some (ValidatePolicy 3 lastFirst (ctx toyPolicies) "default" img toyPolicy kc []).1.
Proof.
  apply (ValidatePolicy_complete 3 lastFirst (ctx toyPolicies) "default" img toyPolicy kc []
    lastFirst_NoCancel eq_refl eq_refl).
  apply Exists_cons. right. apply Exists_cons. left. eexists. apply authorityMatch_satisfied.
  vm_compute. reflexivity.
Defined.

Lemma validatePolicies_accounts_witness :
  let '(results, errors, writes) :=
    validatePolicies 3 inOrder (ctx toyPolicies) "default" img toyPolicies kc [] in
  length writes = 1 ∧ results !! "internalerror" = None ∧ errors !! "internalerror" = None.
Proof.
  pose proof (validatePolicies_accounts 3 inOrder (ctx toyPolicies) "default" img toyPolicies kc []
    inOrder_NoCancel) as H.
  destruct (validatePolicies 3 inOrder _ _ _ _ _ _) as [[results errors] writes].
  destruct H as (_ & Hout & Hw). split; [exact Hw|]. apply Hout. reflexivity.
Defined.

Lemma matching_toy (p : ClusterImagePolicy) : Images p = [{| V1alpha1.Glob := "ghcr.io/**" |}] →
  cip_Match p = [] →
  matchingPolicies inOrder (config {[ "p" := p ]}) img "Pod" "v1" ∅ = ({[ "p" := p ]}, None).
Proof.
  intros Hi Hm. unfold matchingPolicies, config. cbn [cfg_ImagePolicyConfig ImagePolicies.Policies].
  rewrite map_to_list_singleton. cbn [shuffle shuffle_from length choose]. cbn.
  unfold GetMatchingPolicies. cbn. rewrite Hm, Hi. reflexivity.
Qed.

Lemma image_rejected_iff_witness :
  Rejects (validate {[ "p" := policy [bad] "" ]} inOrder).
Proof.
  apply (image_rejected_iff 3 inOrder (ctx {[ "p" := policy [bad] "" ]}) img "default" "containers" 0
    "Pod" "v1" ∅ kc [] img (config {[ "p" := policy [bad] "" ]}) {[ "p" := policy [bad] "" ]}
    inOrder_NoCancel eq_refl eq_refl (matching_toy (policy [bad] "") eq_refl eq_refl)).
  - apply map_non_empty_singleton.
  - exists "p", (policy [bad] ""). split; [reflexivity|]. split; [vm_compute; reflexivity|].
    vm_compute. apply Exists_cons. left. intros H. inversion H; subst. inversion H2.
Defined.

Lemma accepted_image_satisfies_witness :
  ∃ a m, a ∈ [bad; good] ∧ authoritySatisfied (ctx toyPolicies) "default" img [] a m.
Proof.
  destruct (accepted_image_satisfies 3 inOrder (ctx toyPolicies) img "default" "containers" 0
    "Pod" "v1" ∅ kc [] img (config toyPolicies) toyPolicies "p" toyPolicy
    inOrder_NoCancel eq_refl eq_refl (matching_toy toyPolicy eq_refl eq_refl)) as (r & _ & (a & m & Ha & Hs & _) & _).
  - reflexivity.
  - discriminate.
  - discriminate.
  - reflexivity.
  - repeat apply Forall_cons_2; [| |apply Forall_nil_2]; intros _ _ pull; vm_compute; discriminate.
  - apply None_Accepts. vm_compute. reflexivity.
  - exists a, m. split; [exact Ha|exact Hs].
Defined.

Lemma uncounted_errors_admit_witness :
  validate {[ "p" := policy [] "" ]} inOrder = None.
Proof.
  destruct (uncounted_errors_admit 3 inOrder (ctx {[ "p" := policy [] "" ]}) img "default" "containers" 0
    "Pod" "v1" ∅ kc [] img (config {[ "p" := policy [] "" ]}) {[ "p" := policy [] "" ]}
    eq_refl eq_refl (matching_toy (policy [] "") eq_refl eq_refl)) as [H _].
  - apply map_non_empty_singleton.
  - right. apply map_Forall_singleton. split; reflexivity.
  - exact H.
Defined.
