(* ===== verification/Workloads.v ===== *)
(** The resources whose images the webhook checks: pods and what holds a pod
    template (k8s.io/api/core/v1, knative's duck types), and the repository's own
    duck type PodScalable (pkg/apis/duck/v1beta1). Of a pod, the fields the
    program reads are kept; [*_rest] stands for all the others. *)

From S2P Require Import Prelude.
From S2P Require Import K8s.
From S2P Require Import FieldErrors.
From S2P Require Import Encoding.
From S2P Require Import PCConfig.

(** * Pods *)

Record Container := { c_Image : string; c_rest : json }.
Record EphemeralContainer := { ec_Image : string; ec_rest : json }.
Record ImageVolumeSource := { iv_Reference : string; iv_PullPolicy : string }.
Record Volume := { vol_Image : option ImageVolumeSource; vol_rest : json }.

Record PodSpec := {
  InitContainers : list Container;
  Containers : list Container;
  EphemeralContainers : list EphemeralContainer;
  Volumes : list Volume;
  ServiceAccountName : string;
  ImagePullSecrets : list LocalObjectReference;
  ps_rest : json
}.

Record Pod := { pod_TypeMeta : TypeMeta; pod_ObjectMeta : ObjectMeta; pod_Spec : PodSpec }.

(** [duckv1.WithPod] and [duckv1.CronJob]: the path to the template's pod spec. *)
Record WithPod := { wp_TypeMeta : TypeMeta; wp_ObjectMeta : ObjectMeta; wp_PodSpec : PodSpec;
  wp_rest : json }.
Record CronJob := { cj_TypeMeta : TypeMeta; cj_ObjectMeta : ObjectMeta; cj_PodSpec : PodSpec;
  cj_rest : json }.

(** * PodScalable *)

(** [Replicas] is an [*int32]. *)
Record PodScalableSpec := {
  Replicas : option Z;
  Selector : option LabelSelector;
  Template_Spec : PodSpec;
  Template_rest : json
}.
Record PodScalable := {
  sc_TypeMeta : TypeMeta;
  sc_ObjectMeta : ObjectMeta;
  sc_Spec : PodScalableSpec;
  sc_Replicas : Z
}.

(** [original] is the old object of an update, which knative attaches to the
    context of every update as its baseline. *)
Definition IsScalingDown (ctx : Ctx) (baseline : option PodScalable) (ps : PodScalable) : bool :=
  if IsInUpdate ctx then
    match Replicas (sc_Spec ps), baseline with
    | Some newReplicaCount, Some original =>
        match Replicas (sc_Spec original) with
        | Some old => (newReplicaCount <? old)%Z
        | None => false
        end
    | _, _ => false
    end
  else false.

(** [Populate], by which knative's tests of duck types fill a value. *)
Definition Populate (ps : PodScalable) : PodScalable :=
  {| sc_TypeMeta := sc_TypeMeta ps; sc_ObjectMeta := sc_ObjectMeta ps;
     sc_Spec := {|
       Replicas := Some 12%Z;
       Selector := Some {| MatchLabels := {["foo" := "bar"]};
                           MatchExpressions := [{| lsr_Key := "foo"; lsr_Operator := "In"; lsr_Values := ["baz"; "blah"] |}] |};
       Template_Spec := {|
         InitContainers := [];
         Containers := [{| c_Image := "container-image:latest"; c_rest := JObj [("name", JStr "container-name")] |}];
         EphemeralContainers := []; Volumes := []; ServiceAccountName := ""; ImagePullSecrets := [];
         ps_rest := JObj [] |};
       Template_rest := JObj [("metadata", JObj [("labels", JObj [("foo", JStr "bar")])])] |};
     sc_Replicas := 42%Z |}.

(** The callbacks of the context: defaulting and validation do what it holds. *)
Section Callbacks.
Context `{F : FieldErrors}.

Definition PodScalable_SetDefaults (psd : option (PodScalable → PodScalable)) (ps : PodScalable) :
    PodScalable :=
  match psd with Some psd => psd ps | None => ps end.
Definition PodScalable_Validate (psv : option (PodScalable → option FieldError)) (ps : PodScalable) :
    option FieldError :=
  match psv with Some psv => psv ps | None => None end.

End Callbacks.
