(* ===== verification/Validator.v ===== *)
(** The admission webhook on pods and what holds a pod template
    (pkg/webhook/validator.go): validation of every image, and resolution of
    tags to digests. *)

From S2P Require Import Prelude.
From S2P Require Import Names.
From S2P Require Import FieldErrors.
From S2P Require Import PCConfig.
From S2P Require Import K8s.
From S2P Require Import Encoding.
From S2P Require Import Common.
From S2P Require Import Oci.
From S2P Require Import SigstoreKeys.
From S2P Require Import WebhookTypes.
From S2P Require GM.
From S2P Require Import Cosign.
From S2P Require Import ImagePolicies.
From S2P Require Import CheckOpts.
From S2P Require Import Results.
From S2P Require Import Authority.
From S2P Require Import Gather.
From S2P Require Import Policies.
From S2P Require PoliciesSpec.
From S2P Require Import Workloads.

(** The JSON form of the parts of a resource a policy can ask to be given. *)
Class ResourceJSON := {
  json_PodScalableSpec : PodScalableSpec → json;
  json_WithPodSpec : WithPod → json;
  json_PodSpec : PodSpec → json;
  json_CronJobSpec : CronJob → json;
  json_ObjectMeta : ObjectMeta → json;
  json_TypeMeta : TypeMeta → json
}.

Section Validator.
Context `{N : NamePkg} `{F : FieldErrors} `{P : Parsers} `{J : JsonText} `{C : Certs}
  `{T : CosignTypes} `{G : !Cosign} `{L : GM.LRU} `{M : K8sMeta} `{R : !Registry} `{HO : Host}
  `{RJ : ResourceJSON}.

(** A request: the operation, the HTTP request's body decoded as an admission
    review (its [Request.Namespace]; the API server always sets [Request]), the
    old object of an update, and what the checks take from the context. *)
Record Request := {
  rq_op : Ctx;
  rq_body : option (result string string);
  rq_baseline : option PodScalable;
  rq_ctx : WebhookCtx
}.

Definition isDeletedOrStatusUpdate (rq : Request) (deletionTimestamp : option Z) : bool :=
  IsInDelete (rq_op rq) || notNil deletionTimestamp || IsInStatusUpdate (rq_op rq).

Definition getNamespace (rq : Request) (namespace : string) : string :=
  if namespace ==s "" then
    match rq_body rq with
    | Some (Ok ns) => ns
    | Some (Err _) => ""
    | None => namespace
    end
  else namespace.

(** The keychain options of a workload. *)
Definition keychainOptions (ns : string) (ps : PodSpec) : KeychainOptions :=
  {| kc_Namespace := ns; kc_ServiceAccountName := ServiceAccountName ps;
     kc_ImagePullSecrets := localobject_Name <$> ImagePullSecrets ps |}.

(** ** Validation *)

(** The images of a kind of container, with their indices. *)
Definition containerImages (cs : list Container) : list (nat * string) := indexed (c_Image <$> cs).
Definition ephemeralImages (cs : list EphemeralContainer) : list (nat * string) :=
  indexed (ec_Image <$> cs).
Definition volumeImages (vols : list Volume) : list (nat * string) :=
  omap (λ '(i, vol), match vol_Image vol with
    | Some im => if iv_Reference im ==s "" then None else Some (i, iv_Reference im)
    | None => None end) (indexed vols).

(** The goroutine of one image. *)
Definition checkImage (depth : nat) (sched : Schedule) (ctx : WebhookCtx)
    (namespace kind apiVersion : string) (labels : gmap string string) (kc : KeychainOptions)
    (field : string) (image : nat * string) : option FieldError :=
  let '(i, image) := image in
  match refOrFieldError image field i with
  | Some fe => Some fe
  | None => validateContainerImage depth (sub sched (pretty i)) ctx image namespace field i kind
              apiVersion labels kc [WithAuthFromKeychain kc]
  end.

Definition collectImage (errs : option FieldError) (r : option (option FieldError)) :
    option FieldError :=
  match r with
  | None => errs ⊕ Some (ErrGeneric "context was canceled before validation completed" [])
  | Some containerCheckResult => errs ⊕ containerCheckResult
  end.

(** [checkContainers], [checkEphemeralContainers] and [checkVolumeImages] *)
Definition checkImages (depth : nat) (sched : Schedule) (ctx : WebhookCtx)
    (namespace kind apiVersion : string) (labels : gmap string string) (kc : KeychainOptions)
    (field : string) (images : list (nat * string)) (errs : option FieldError) : option FieldError :=
  foldl collectImage errs (gather (here (sub sched field))
    (checkImage depth (sub sched field) ctx namespace kind apiVersion labels kc field <$> images)).

Definition validatePodSpec (depth : nat) (sched : Schedule) (ctx : WebhookCtx)
    (namespace kind apiVersion : string) (labels : gmap string string) (ps : PodSpec)
    (opt : KeychainOptions) : option FieldError :=
  match NewK8sKeychain opt with
  | Some err => Some (ErrGeneric err [CurrentField])
  | None =>
      let check := checkImages depth sched ctx namespace kind apiVersion labels opt in
      let errs := check "initContainers" (containerImages (InitContainers ps)) None in
      let errs := check "containers" (containerImages (Containers ps)) errs in
      let errs := check "ephemeralContainers" (ephemeralImages (EphemeralContainers ps)) errs in
      check "volumes" (volumeImages (Volumes ps)) errs
  end.

(** ** Validation handlers *)

Definition includeAll (ctx : WebhookCtx) (spec : json) (om : ObjectMeta) (tm : TypeMeta) : WebhookCtx :=
  IncludeTypeMeta (IncludeObjectMeta (IncludeSpec ctx spec) (json_ObjectMeta om)) (json_TypeMeta tm).

Definition ValidatePodScalable (depth : nat) (sched : Schedule) (rq : Request) (ps : PodScalable) :
    option FieldError :=
  let om := sc_ObjectMeta ps in
  if isDeletedOrStatusUpdate rq (om_DeletionTimestamp om) then None
  else if IsScalingDown (rq_op rq) (rq_baseline rq) ps then None
  else
    let ctx := includeAll (rq_ctx rq) (json_PodScalableSpec (sc_Spec ps)) om (sc_TypeMeta ps) in
    let podSpec := Template_Spec (sc_Spec ps) in
    let ns := getNamespace rq (om_Namespace om) in
    ViaField "spec.template.spec"
      (validatePodSpec depth sched ctx ns (Kind (sc_TypeMeta ps)) (APIVersion (sc_TypeMeta ps))
         (om_Labels om) podSpec (keychainOptions ns podSpec)).

Definition ValidatePodSpecable (depth : nat) (sched : Schedule) (rq : Request) (wp : WithPod) :
    option FieldError :=
  let om := wp_ObjectMeta wp in
  if isDeletedOrStatusUpdate rq (om_DeletionTimestamp om) then None
  else
    let ctx := includeAll (rq_ctx rq) (json_WithPodSpec wp) om (wp_TypeMeta wp) in
    let ns := getNamespace rq (om_Namespace om) in
    ViaField "spec.template.spec"
      (validatePodSpec depth sched ctx ns (Kind (wp_TypeMeta wp)) (APIVersion (wp_TypeMeta wp))
         (om_Labels om) (wp_PodSpec wp) (keychainOptions ns (wp_PodSpec wp))).

(** A pod's TypeMeta is not included. *)
Definition ValidatePod (depth : nat) (sched : Schedule) (rq : Request) (p : Pod) :
    option FieldError :=
  let om := pod_ObjectMeta p in
  if isDeletedOrStatusUpdate rq (om_DeletionTimestamp om) then None
  else
    let ctx := IncludeObjectMeta (IncludeSpec (rq_ctx rq) (json_PodSpec (pod_Spec p)))
                 (json_ObjectMeta om) in
    let ns := getNamespace rq (om_Namespace om) in
    ViaField "spec"
      (validatePodSpec depth sched ctx ns (Kind (pod_TypeMeta p)) (APIVersion (pod_TypeMeta p))
         (om_Labels om) (pod_Spec p) (keychainOptions ns (pod_Spec p))).

Definition ValidateCronJob (depth : nat) (sched : Schedule) (rq : Request) (c : CronJob) :
    option FieldError :=
  let om := cj_ObjectMeta c in
  if isDeletedOrStatusUpdate rq (om_DeletionTimestamp om) then None
  else
    let ctx := includeAll (rq_ctx rq) (json_CronJobSpec c) om (cj_TypeMeta c) in
    let ns := getNamespace rq (om_Namespace om) in
    ViaField "spec.jobTemplate.spec.template.spec"
      (validatePodSpec depth sched ctx ns (Kind (cj_TypeMeta c)) (APIVersion (cj_TypeMeta c))
         (om_Labels om) (cj_PodSpec c) (keychainOptions ns (cj_PodSpec c))).

(** ** Resolution *)

(** The image a container is left with; one that cannot be parsed or resolved is
    kept. A tag is kept in front of the digest. *)
Definition resolveImage (rq : Request) (kc : KeychainOptions) (image : string) : string :=
  match ParseReference [] image with
  | Err _ => image
  | Ok ref =>
      if IsInCreate (rq_op rq) || IsInUpdate (rq_op rq) then
        match ResolveDigest ref [WithAuthFromKeychain kc] with
        | Err _ => image
        | Ok (digest, digestStr) =>
            match refKind ref with
            | TagRef => Name ref +:+ "@" +:+ digestStr
            | DigestRef _ => digest
            end
        end
      else image
  end.

Definition resolveContainer (rq : Request) (kc : KeychainOptions) (c : Container) : Container :=
  {| c_Image := resolveImage rq kc (c_Image c); c_rest := c_rest c |}.
Definition resolveEphemeralContainer (rq : Request) (kc : KeychainOptions)
    (c : EphemeralContainer) : EphemeralContainer :=
  {| ec_Image := resolveImage rq kc (ec_Image c); ec_rest := ec_rest c |}.
Definition resolveVolumeImage (rq : Request) (kc : KeychainOptions) (vol : Volume) : Volume :=
  match vol_Image vol with
  | Some im =>
      if iv_Reference im ==s "" then vol
      else {| vol_Image := Some {| iv_Reference := resolveImage rq kc (iv_Reference im);
                                   iv_PullPolicy := iv_PullPolicy im |};
              vol_rest := vol_rest vol |}
  | None => vol
  end.

Definition resolvePodSpec (rq : Request) (ps : PodSpec) (opt : KeychainOptions) : PodSpec :=
  match NewK8sKeychain opt with
  | Some _ => ps
  | None =>
      {| InitContainers := resolveContainer rq opt <$> InitContainers ps;
         Containers := resolveContainer rq opt <$> Containers ps;
         EphemeralContainers := resolveEphemeralContainer rq opt <$> EphemeralContainers ps;
         Volumes := resolveVolumeImage rq opt <$> Volumes ps;
         ServiceAccountName := ServiceAccountName ps;
         ImagePullSecrets := ImagePullSecrets ps; ps_rest := ps_rest ps |}
  end.

(** ** Resolution handlers *)

Definition ResolvePodScalable (rq : Request) (ps : PodScalable) : PodScalable :=
  let om := sc_ObjectMeta ps in
  if isDeletedOrStatusUpdate rq (om_DeletionTimestamp om) then ps
  else if IsScalingDown (rq_op rq) (rq_baseline rq) ps then ps
  else
    let podSpec := Template_Spec (sc_Spec ps) in
    let opt := keychainOptions (getNamespace rq (om_Namespace om)) podSpec in
    {| sc_TypeMeta := sc_TypeMeta ps; sc_ObjectMeta := om;
       sc_Spec := {| Replicas := Replicas (sc_Spec ps); Selector := Selector (sc_Spec ps);
                     Template_Spec := resolvePodSpec rq podSpec opt;
                     Template_rest := Template_rest (sc_Spec ps) |};
       sc_Replicas := sc_Replicas ps |}.

Definition ResolvePodSpecable (rq : Request) (wp : WithPod) : WithPod :=
  let om := wp_ObjectMeta wp in
  if isDeletedOrStatusUpdate rq (om_DeletionTimestamp om) then wp
  else
    let opt := keychainOptions (getNamespace rq (om_Namespace om)) (wp_PodSpec wp) in
    {| wp_TypeMeta := wp_TypeMeta wp; wp_ObjectMeta := om;
       wp_PodSpec := resolvePodSpec rq (wp_PodSpec wp) opt; wp_rest := wp_rest wp |}.

Definition ResolvePod (rq : Request) (p : Pod) : Pod :=
  let om := pod_ObjectMeta p in
  if isDeletedOrStatusUpdate rq (om_DeletionTimestamp om) then p
  else
    let opt := keychainOptions (getNamespace rq (om_Namespace om)) (pod_Spec p) in
    {| pod_TypeMeta := pod_TypeMeta p; pod_ObjectMeta := om;
       pod_Spec := resolvePodSpec rq (pod_Spec p) opt |}.

Definition ResolveCronJob (rq : Request) (c : CronJob) : CronJob :=
  let om := cj_ObjectMeta c in
  if isDeletedOrStatusUpdate rq (om_DeletionTimestamp om) then c
  else
    let opt := keychainOptions (getNamespace rq (om_Namespace om)) (cj_PodSpec c) in
    {| cj_TypeMeta := cj_TypeMeta c; cj_ObjectMeta := om;
       cj_PodSpec := resolvePodSpec rq (cj_PodSpec c) opt; cj_rest := cj_rest c |}.

End Validator.

#[local] Set Default Proof Using "Type*".

Section Spec.
Context `{N : NamePkg} `{F : FieldErrors} `{P : Parsers} `{J : JsonText} `{C : Certs}
  `{T : CosignTypes} `{G : !Cosign} `{L : GM.LRU} `{M : K8sMeta} `{R : !Registry} `{HO : Host}
  `{RJ : ResourceJSON}.

(** * Admitted workloads *)

(** All the images of a pod: the field they are in, their index, the image. *)
Definition podImages (ps : PodSpec) : list (string * (nat * string)) :=
  (pair "initContainers" <$> containerImages (InitContainers ps)) ++
  (pair "containers" <$> containerImages (Containers ps)) ++
  (pair "ephemeralContainers" <$> ephemeralImages (EphemeralContainers ps)) ++
  (pair "volumes" <$> volumeImages (Volumes ps)).

(** The image names its content: it is a digest reference. *)
Definition digestImage (image : string) : Prop :=
  ∃ ref d, ParseReference [] image = Ok ref ∧ refKind ref = DigestRef d.

Lemma Accepts_None : Accepts None.
Proof. by apply Accepts_nil. Qed.

Lemma refOrFieldError_None image field i : refOrFieldError image field i = None ↔ digestImage image.
Proof.
  unfold refOrFieldError, digestImage. destruct (ParseReference [] image) as [ref|err].
  - destruct (refKind ref) as [|d] eqn:Hk.
    + rewrite ViaFieldIndex_None. split; [done|]. intros (? & ? & [= <-] & ?). congruence.
    + split; [|done]. intros _. by exists ref, d.
  - rewrite ViaFieldIndex_None. split; [done|]. by intros (? & ? & ? & _).
Qed.

Lemma refOrFieldError_rejects image field i fe : refOrFieldError image field i = Some fe →
  ¬ Accepts (Some fe).
Proof.
  unfold refOrFieldError. destruct (ParseReference [] image) as [ref|err].
  - destruct (refKind ref); [|done]. intros <-. rewrite Accepts_ViaFieldIndex, Accepts_ErrInvalidValue.
    by intros [].
  - intros <-. rewrite Accepts_ViaFieldIndex, Accepts_ErrGeneric. by intros [].
Qed.

(** What one image has to be for its pod to be accepted. *)
Definition imageAccepted (depth : nat) (s : Schedule) (ctx : WebhookCtx)
    (ns kind apiVersion : string) (labels : gmap string string) (kc : KeychainOptions)
    (field : string) (image : nat * string) : Prop :=
  digestImage image.2 ∧
  Accepts (validateContainerImage depth (sub (sub s field) (pretty image.1)) ctx image.2 ns field
             image.1 kind apiVersion labels kc [WithAuthFromKeychain kc]).

Lemma checkImage_Accepts depth s ctx ns kind apiVersion labels kc field image :
  Accepts (checkImage depth (sub s field) ctx ns kind apiVersion labels kc field image) ↔
  imageAccepted depth s ctx ns kind apiVersion labels kc field image.
Proof.
  destruct image as [i image]. unfold checkImage, imageAccepted. cbn [fst snd].
  rewrite <-(refOrFieldError_None image field i).
  destruct (refOrFieldError image field i) as [fe|] eqn:Hr.
  - apply refOrFieldError_rejects in Hr. split; [done|]. by intros [? _].
  - tauto.
Qed.

Lemma collectImage_Accepts errs rs : Accepts (foldl collectImage errs rs) ↔
  Accepts errs ∧ Forall (λ r, is_Some r ∧ ∀ fe, r = Some fe → Accepts fe) rs.
Proof.
  revert errs. induction rs as [|r rs IH]; intros errs; cbn [foldl]; [rewrite Forall_nil; tauto|].
  rewrite IH, Forall_cons. destruct r as [fe|]; cbn [collectImage]; rewrite Accepts_Also.
  - assert (is_Some (Some fe)) by by eexists.
    assert ((∀ fe', Some fe = Some fe' → Accepts fe') ↔ Accepts fe) as ->
      by (split; [by intros H'; apply H'|by intros ? ? [= <-]]). tauto.
  - rewrite Accepts_ErrGeneric. split; [by intros [[_ []] _]|]. by intros (_ & [[? ?] _] & _).
Qed.

Lemma checkImages_Accepts depth s ctx ns kind apiVersion labels kc field images errs :
  (Accepts (checkImages depth s ctx ns kind apiVersion labels kc field images errs) →
   Accepts errs ∧ Forall (imageAccepted depth s ctx ns kind apiVersion labels kc field) images) ∧
  (NoCancel s → Accepts errs →
   Forall (imageAccepted depth s ctx ns kind apiVersion labels kc field) images →
   Accepts (checkImages depth s ctx ns kind apiVersion labels kc field images errs)).
Proof.
  unfold checkImages. rewrite collectImage_Accepts.
  set (results := checkImage _ _ _ _ _ _ _ _ _ <$> images).
  assert (Forall (imageAccepted depth s ctx ns kind apiVersion labels kc field) images ↔
    Forall Accepts results) as ->.
  { unfold results. rewrite Forall_fmap. apply Forall_ext_iff. intros im. cbn.
    symmetry. apply checkImage_Accepts. }
  split.
  - intros [He Hf]. split; [done|].
    destruct (rounds_received (here (sub s field)) 0 (length results) results eq_refl) as (l & Hl & Hp).
    { eapply Forall_impl; [exact Hf|]. by intros r [? _]. }
    unfold gather in Hf. rewrite Hl, Forall_fmap in Hf. rewrite <-Hp.
    eapply Forall_impl; [exact Hf|]. intros r [_ Hr]. by apply Hr.
  - intros Hs He Hf. split; [done|].
    destruct (gather_all (sub s field) results) as (l & -> & Hp); [by apply NoCancel_sub|].
    rewrite Forall_fmap. rewrite <-Hp in Hf. eapply Forall_impl; [exact Hf|].
    intros r Hr. cbn. split; [by eexists|]. by intros ? [= <-].
Qed.

Lemma Forall_pair {A} (Q : string → A → Prop) field (l : list A) :
  Forall (λ fi, Q fi.1 fi.2) (pair field <$> l) ↔ Forall (Q field) l.
Proof. by rewrite Forall_fmap. Qed.

Lemma validatePodSpec_Accepts depth s ctx ns kind apiVersion labels ps kc :
  let good := NewK8sKeychain kc = None ∧
    Forall (λ fi, imageAccepted depth s ctx ns kind apiVersion labels kc fi.1 fi.2) (podImages ps) in
  (Accepts (validatePodSpec depth s ctx ns kind apiVersion labels ps kc) → good) ∧
  (NoCancel s → good → Accepts (validatePodSpec depth s ctx ns kind apiVersion labels ps kc)).
Proof.
  cbv zeta. unfold validatePodSpec. destruct (NewK8sKeychain kc) as [err|].
  { rewrite Accepts_ErrGeneric. split; [by intros []|]. by intros _ [? _]. }
  unfold podImages. rewrite !Forall_app, !(Forall_pair (imageAccepted _ _ _ _ _ _ _ _)). split.
  - intros [[[[_ ?]%checkImages_Accepts ?]%checkImages_Accepts ?]%checkImages_Accepts
      ?]%checkImages_Accepts. split_and!; done.
  - intros Hs (_ & ? & ? & ? & ?). repeat (apply checkImages_Accepts; [done| |done]).
    apply Accepts_None.
Qed.

(** ** The four kinds of workload *)

Inductive Workload :=
  | WPodScalable (ps : PodScalable) | WPodSpecable (wp : WithPod) | WPod (p : Pod)
  | WCronJob (c : CronJob).

Definition Validate (depth : nat) (s : Schedule) (rq : Request) (w : Workload) : option FieldError :=
  match w with
  | WPodScalable ps => ValidatePodScalable depth s rq ps
  | WPodSpecable wp => ValidatePodSpecable depth s rq wp
  | WPod p => ValidatePod depth s rq p
  | WCronJob c => ValidateCronJob depth s rq c
  end.

Definition Resolve (rq : Request) (w : Workload) : Workload :=
  match w with
  | WPodScalable ps => WPodScalable (ResolvePodScalable rq ps)
  | WPodSpecable wp => WPodSpecable (ResolvePodSpecable rq wp)
  | WPod p => WPod (ResolvePod rq p)
  | WCronJob c => WCronJob (ResolveCronJob rq c)
  end.

Definition metaOf (w : Workload) : ObjectMeta :=
  match w with
  | WPodScalable ps => sc_ObjectMeta ps | WPodSpecable wp => wp_ObjectMeta wp
  | WPod p => pod_ObjectMeta p | WCronJob c => cj_ObjectMeta c
  end.
Definition typeOf (w : Workload) : TypeMeta :=
  match w with
  | WPodScalable ps => sc_TypeMeta ps | WPodSpecable wp => wp_TypeMeta wp
  | WPod p => pod_TypeMeta p | WCronJob c => cj_TypeMeta c
  end.
Definition podSpecOf (w : Workload) : PodSpec :=
  match w with
  | WPodScalable ps => Template_Spec (sc_Spec ps) | WPodSpecable wp => wp_PodSpec wp
  | WPod p => pod_Spec p | WCronJob c => cj_PodSpec c
  end.

(** The context with the workload's spec and metadata, unless some are there. *)
Definition contextOf (rq : Request) (w : Workload) : WebhookCtx :=
  match w with
  | WPodScalable ps => includeAll (rq_ctx rq) (json_PodScalableSpec (sc_Spec ps))
                         (sc_ObjectMeta ps) (sc_TypeMeta ps)
  | WPodSpecable wp => includeAll (rq_ctx rq) (json_WithPodSpec wp) (wp_ObjectMeta wp) (wp_TypeMeta wp)
  | WPod p => IncludeObjectMeta (IncludeSpec (rq_ctx rq) (json_PodSpec (pod_Spec p)))
                (json_ObjectMeta (pod_ObjectMeta p))
  | WCronJob c => includeAll (rq_ctx rq) (json_CronJobSpec c) (cj_ObjectMeta c) (cj_TypeMeta c)
  end.

(** What is not checked: deletions, status updates, and scale-downs of a
    PodScalable, which do not bring in a new replica. *)
Definition exempt (rq : Request) (w : Workload) : Prop :=
  IsInDelete (rq_op rq) = true ∨ om_DeletionTimestamp (metaOf w) ≠ None ∨
  IsInStatusUpdate (rq_op rq) = true ∨
  ∃ ps old n m, w = WPodScalable ps ∧ IsInUpdate (rq_op rq) = true ∧ rq_baseline rq = Some old ∧
    Replicas (sc_Spec ps) = Some n ∧ Replicas (sc_Spec old) = Some m ∧ (n < m)%Z.

Lemma isDeletedOrStatusUpdate_true rq d : isDeletedOrStatusUpdate rq d = true ↔
  IsInDelete (rq_op rq) = true ∨ d ≠ None ∨ IsInStatusUpdate (rq_op rq) = true.
Proof.
  unfold isDeletedOrStatusUpdate. rewrite !orb_true_iff, notNil_true, <-not_eq_None_Some. tauto.
Qed.

Lemma IsScalingDown_true ctx baseline ps : IsScalingDown ctx baseline ps = true ↔
  ∃ old n m, IsInUpdate ctx = true ∧ baseline = Some old ∧ Replicas (sc_Spec ps) = Some n ∧
    Replicas (sc_Spec old) = Some m ∧ (n < m)%Z.
Proof.
  unfold IsScalingDown. split.
  - destruct (IsInUpdate ctx); [|done]. destruct (Replicas (sc_Spec ps)) as [n|]; [|done].
    destruct baseline as [old|]; [|done]. destruct (Replicas (sc_Spec old)) as [m|] eqn:Hm; [|done].
    intros ?%Z.ltb_lt. by exists old, n, m.
  - intros (old & n & m & -> & -> & -> & -> & ?). by apply Z.ltb_lt.
Qed.

Lemma exempt_dec rq w : exempt rq w ∨
  ¬ exempt rq w ∧ isDeletedOrStatusUpdate rq (om_DeletionTimestamp (metaOf w)) = false ∧
  ∀ ps, w = WPodScalable ps → IsScalingDown (rq_op rq) (rq_baseline rq) ps = false.
Proof.
  unfold exempt. destruct (isDeletedOrStatusUpdate _ _) eqn:Hd.
  { left. apply isDeletedOrStatusUpdate_true in Hd. tauto. }
  assert (¬ (IsInDelete (rq_op rq) = true ∨ om_DeletionTimestamp (metaOf w) ≠ None ∨
    IsInStatusUpdate (rq_op rq) = true)) as Hn
    by (rewrite <-isDeletedOrStatusUpdate_true; by rewrite Hd).
  destruct w as [ps|wp|p|c]; [|right..].
  2-4: split_and!; [|done|done]; intros [?|[?|[?|(? & ? & ? & ? & ? & _)]]]; try done; tauto.
  destruct (IsScalingDown (rq_op rq) (rq_baseline rq) ps) eqn:Hs.
  - left. apply IsScalingDown_true in Hs as (old & n & m & ?). right. right. right. by exists ps, old, n, m.
  - right. split_and!; [|done|by intros ? [= <-]].
    intros [?|[?|[?|(ps' & old & n & m & [= <-] & ? & ? & ? & ? & ?)]]]; [tauto..|].
    assert (IsScalingDown (rq_op rq) (rq_baseline rq) ps = true); [|congruence].
    apply IsScalingDown_true. by exists old, n, m.
Qed.

Lemma exempt_cases rq w : exempt rq w →
  isDeletedOrStatusUpdate rq (om_DeletionTimestamp (metaOf w)) = true ∨
  ∃ ps, w = WPodScalable ps ∧ IsScalingDown (rq_op rq) (rq_baseline rq) ps = true.
Proof.
  rewrite isDeletedOrStatusUpdate_true. intros [?|[?|[?|(ps & old & n & m & -> & ?)]]]; [tauto..|].
  right. exists ps. split; [done|]. apply IsScalingDown_true. by exists old, n, m.
Qed.

Lemma Validate_exempt depth s rq w : exempt rq w → Validate depth s rq w = None.
Proof.
  intros [Hd|(ps & -> & Hs)]%exempt_cases.
  - destruct w; cbn in *; unfold ValidatePodScalable, ValidatePodSpecable, ValidatePod,
      ValidateCronJob; by rewrite Hd.
  - cbn. unfold ValidatePodScalable. rewrite Hs. by destruct (isDeletedOrStatusUpdate _ _).
Qed.

Lemma Validate_checked depth s rq w : ¬ exempt rq w →
  let ns := getNamespace rq (om_Namespace (metaOf w)) in
  Accepts (Validate depth s rq w) ↔
  Accepts (validatePodSpec depth s (contextOf rq w) ns (Kind (typeOf w)) (APIVersion (typeOf w))
             (om_Labels (metaOf w)) (podSpecOf w) (keychainOptions ns (podSpecOf w))).
Proof.
  cbv zeta. destruct (exempt_dec rq w) as [?|(_ & Hd & Hs)]; [done|]. intros _.
  destruct w as [ps|wp|p|c]; cbn [Validate metaOf typeOf podSpecOf contextOf] in *;
    unfold ValidatePodScalable, ValidatePodSpecable, ValidatePod, ValidateCronJob; rewrite Hd.
  - by rewrite (Hs ps eq_refl), Accepts_ViaField.
  - by rewrite Accepts_ViaField.
  - by rewrite Accepts_ViaField.
  - by rewrite Accepts_ViaField.
Qed.

Lemma admitted_workload_lemma (depth : nat) (s : Schedule) (rq : Request) (w : Workload) :
  let ns := getNamespace rq (om_Namespace (metaOf w)) in
  let kc := keychainOptions ns (podSpecOf w) in
  let good := exempt rq w ∨ NewK8sKeychain kc = None ∧
    Forall (λ fi, imageAccepted depth s (contextOf rq w) ns (Kind (typeOf w)) (APIVersion (typeOf w))
                    (om_Labels (metaOf w)) kc fi.1 fi.2) (podImages (podSpecOf w)) in
  (Accepts (Validate depth s rq w) → good) ∧ (NoCancel s → good → Accepts (Validate depth s rq w)).
Proof.
  cbv zeta. destruct (exempt_dec rq w) as [He|(He & _)].
  - split; [by left|]. intros _ _. rewrite Validate_exempt by done. apply Accepts_None.
  - rewrite Validate_checked by done. split.
    + intros Ha. right. by apply validatePodSpec_Accepts in Ha.
    + intros Hs [?|Hgood]; [done|]. by apply validatePodSpec_Accepts.
Qed.

(** C5: a workload the webhook accepts is either exempt (being deleted, a status
    update, or a scale-down), or the keychain of its pull secrets could be built
    and every image of its pod, in its init containers, containers, ephemeral
    containers and image volumes, is a digest reference whose validation
    accepted it in the namespace, kind and labels of the workload. This holds
    for every order in which the images are checked and under cancellation,
    which rejects; conversely, unless the context is cancelled, such a workload
    is accepted. *)
Theorem admitted_workload (depth : nat) (s : Schedule) (rq : Request) (w : Workload) :
  let ns := getNamespace rq (om_Namespace (metaOf w)) in
  let kc := keychainOptions ns (podSpecOf w) in
  let good := exempt rq w ∨ NewK8sKeychain kc = None ∧
    Forall (λ fi, imageAccepted depth s (contextOf rq w) ns (Kind (typeOf w)) (APIVersion (typeOf w))
                    (om_Labels (metaOf w)) kc fi.1 fi.2) (podImages (podSpecOf w)) in
  (Accepts (Validate depth s rq w) → good) ∧ (NoCancel s → good → Accepts (Validate depth s rq w)).
Proof. apply admitted_workload_lemma. Qed.

End Spec.

(** * Resolved workloads *)

(** The documented behaviour of ggcr's names and of [ociremote.ResolveDigest]: a
    reference prints as it was written, a digest reference resolves to itself,
    and a name with a digest appended is a reference to that digest. *)
Class ResolveLaws `{N : NamePkg} `{P : Parsers} `{C : Certs} `{T : CosignTypes} `{G : !Cosign} : Prop := {
  parse_RefString s ref : ParseReference [] s = Ok ref → RefString ref = s;
  resolve_digest ref d opts : refKind ref = DigestRef d → ResolveDigest ref opts = Ok (RefString ref, d);
  resolve_tag ref opts digest d : refKind ref = TagRef → ResolveDigest ref opts = Ok (digest, d) →
    ∃ ref', ParseReference [] (Name ref +:+ "@" +:+ d) = Ok ref' ∧ refKind ref' = DigestRef d
}.

Section Resolution.
Context `{N : NamePkg} `{F : FieldErrors} `{P : Parsers} `{J : JsonText} `{C : Certs}
  `{T : CosignTypes} `{G : !Cosign} `{L : GM.LRU} `{M : K8sMeta} `{R : !Registry} `{HO : Host}
  `{RJ : ResourceJSON} `{RL : !ResolveLaws}.

(** The registry knows the image: it is a reference with a digest. *)
Definition resolvable (kc : KeychainOptions) (image : string) : Prop :=
  ∃ ref, ParseReference [] image = Ok ref ∧ is_Ok (ResolveDigest ref [WithAuthFromKeychain kc]).

Definition mutating (rq : Request) : Prop :=
  IsInCreate (rq_op rq) || IsInUpdate (rq_op rq) = true.

Lemma resolveImage_digest rq kc image : digestImage image → resolveImage rq kc image = image.
Proof.
  intros (ref & d & Hp & Hk). unfold resolveImage. rewrite Hp, (resolve_digest _ _ _ Hk), Hk.
  rewrite (parse_RefString _ _ Hp). by destruct (_ || _).
Qed.

(** The image is the reference to the digest that the registry gives for the image it
    was: a tag's full name with the digest; a digest is as it was. *)
Definition pins (kc : KeychainOptions) (image0 image : string) : Prop :=
  ∃ ref digest d, ParseReference [] image0 = Ok ref ∧
    ResolveDigest ref [WithAuthFromKeychain kc] = Ok (digest, d) ∧
    (refKind ref = TagRef ∧ image = Name ref +:+ "@" +:+ d ∨ refKind ref = DigestRef d ∧ image = image0) ∧
    ∃ ref', ParseReference [] image = Ok ref' ∧ refKind ref' = DigestRef d.

Lemma pins_digest kc image0 image : pins kc image0 image → digestImage image.
Proof. intros (ref & digest & d & _ & _ & _ & ref' & Hp & Hk). by exists ref', d. Qed.

Lemma resolveImage_cases rq kc image : mutating rq →
  (resolvable kc image → pins kc image (resolveImage rq kc image)) ∧
  (¬ resolvable kc image → resolveImage rq kc image = image).
Proof.
  unfold mutating, resolveImage, resolvable. intros ->.
  destruct (ParseReference [] image) as [ref|] eqn:Hp; [|split; [|done]].
  2: { by intros (? & ? & _). }
  split.
  - intros (ref' & [= <-] & [digest d] & Hr). rewrite Hr. exists ref, digest, d. split; [done|]. split; [done|].
    destruct (refKind ref) as [|d'] eqn:Hk.
    + split; [by left|]. exact (resolve_tag _ _ _ _ Hk Hr).
    + rewrite (resolve_digest _ _ _ Hk) in Hr. injection Hr as <- <-.
      rewrite (parse_RefString _ _ Hp). split; [by right|by exists ref].
  - intros Hn. destruct (ResolveDigest ref _) as [r|] eqn:Hr; [|done].
    destruct Hn. exists ref. split; [done|]. by exists r.
Qed.

Lemma resolvable_dec kc image : Decision (resolvable kc image).
Proof.
  unfold resolvable. destruct (ParseReference [] image) as [ref|] eqn:Hp.
  - destruct (ResolveDigest ref [WithAuthFromKeychain kc]) as [r|] eqn:Hr.
    + left. exists ref. split; [done|]. by exists r.
    + right. intros (ref' & [= <-] & [? ?]). congruence.
  - right. by intros (? & ? & _).
Qed.

Lemma resolveImage_idemp rq kc image :
  resolveImage rq kc (resolveImage rq kc image) = resolveImage rq kc image.
Proof.
  destruct (IsInCreate (rq_op rq) || IsInUpdate (rq_op rq)) eqn:Hop.
  - destruct (resolveImage_cases rq kc image Hop) as [H1 H2].
    destruct (resolvable_dec kc image) as [Hr|Hr].
    + by eapply resolveImage_digest, pins_digest, H1.
    + by rewrite !(H2 Hr).
  - assert (∀ im, resolveImage rq kc im = im) as ->; [|done].
    intros im. unfold resolveImage. rewrite Hop. by destruct (ParseReference _ _).
Qed.

Lemma resolveVolumeImage_idemp rq kc vol :
  resolveVolumeImage rq kc (resolveVolumeImage rq kc vol) = resolveVolumeImage rq kc vol.
Proof.
  unfold resolveVolumeImage. destruct (vol_Image vol) as [im|] eqn:Hv; [|by rewrite Hv].
  destruct (iv_Reference im ==s "") eqn:He; [by rewrite Hv, He|]. cbn.
  destruct (resolveImage rq kc (iv_Reference im) ==s ""); [done|]. by rewrite resolveImage_idemp.
Qed.

Lemma resolvePodSpec_idemp rq ps opt :
  resolvePodSpec rq (resolvePodSpec rq ps opt) opt = resolvePodSpec rq ps opt.
Proof.
  unfold resolvePodSpec. destruct (NewK8sKeychain opt) eqn:Hk; [done|]. cbn.
  f_equal; rewrite <-list_fmap_compose; apply list_fmap_ext; intros i c _; cbn.
  - unfold resolveContainer. cbn. by rewrite resolveImage_idemp.
  - unfold resolveContainer. cbn. by rewrite resolveImage_idemp.
  - unfold resolveEphemeralContainer. cbn. by rewrite resolveImage_idemp.
  - apply resolveVolumeImage_idemp.
Qed.

(** The images of containers, of whatever kind; those of volumes are treated alike. *)
Lemma resolved_containerImages rq kc cs :
  containerImages (resolveContainer rq kc <$> cs) =
  (λ im, (im.1, resolveImage rq kc im.2)) <$> containerImages cs.
Proof.
  unfold containerImages, indexed. rewrite <-list_fmap_compose, fmap_imap, !imap_fmap.
  by apply imap_ext.
Qed.
Lemma resolved_ephemeralImages rq kc cs :
  ephemeralImages (resolveEphemeralContainer rq kc <$> cs) =
  (λ im, (im.1, resolveImage rq kc im.2)) <$> ephemeralImages cs.
Proof.
  unfold ephemeralImages, indexed. rewrite <-list_fmap_compose, fmap_imap, !imap_fmap.
  by apply imap_ext.
Qed.

Lemma elem_of_volumeImages vols i image : (i, image) ∈ volumeImages vols ↔
  ∃ vol im, vols !! i = Some vol ∧ vol_Image vol = Some im ∧ iv_Reference im = image ∧ image ≠ "".
Proof.
  unfold volumeImages. rewrite list_elem_of_omap. split.
  - intros ([j vol] & Hin%elem_of_indexed & Hv). destruct (vol_Image vol) as [im|] eqn:Him; [|done].
    destruct (String.eqb_spec (iv_Reference im) ""); [done|]. injection Hv as -> <-.
    by exists vol, im.
  - intros (vol & im & Hi & Him & <- & Hne). exists (i, vol). split; [by apply elem_of_indexed|].
    rewrite Him. by apply String.eqb_neq in Hne as ->.
Qed.

Lemma resolved_podImages rq ps kc field i image : NewK8sKeychain kc = None →
  (field, (i, image)) ∈ podImages (resolvePodSpec rq ps kc) →
  ∃ image0, (field, (i, image0)) ∈ podImages ps ∧ image = resolveImage rq kc image0.
Proof.
  unfold resolvePodSpec. intros ->. unfold podImages. cbn [InitContainers Containers
    EphemeralContainers Volumes]. rewrite !resolved_containerImages, resolved_ephemeralImages.
  setoid_rewrite elem_of_app. setoid_rewrite elem_of_app. setoid_rewrite elem_of_app.
  assert (∀ f (l : list (nat * string)), (field, (i, image)) ∈
      pair f <$> ((λ im, (im.1, resolveImage rq kc im.2)) <$> l) →
    ∃ image0, (field, (i, image0)) ∈ pair f <$> l ∧ image = resolveImage rq kc image0) as Hf.
  { intros f l ([j im] & [= -> -> ->] & ([j' im0] & [= -> ->] & Hin)%list_elem_of_fmap)%list_elem_of_fmap.
    exists im0. split; [|done]. by apply list_elem_of_fmap_2. }
  intros [H|[H|[H|H]]].
  1-3: apply Hf in H as (image0 & ? & ?); exists image0; tauto.
  apply list_elem_of_fmap in H as ([j im'] & [= -> -> ->] & H).
  apply elem_of_volumeImages in H as (vol' & im & Hi & Him & <- & Hne).
  rewrite list_lookup_fmap in Hi. destruct (Volumes ps !! j) as [vol|] eqn:Hv; [|done].
  injection Hi as <-. unfold resolveVolumeImage in Him.
  destruct (vol_Image vol) as [im0|] eqn:Him0; [|congruence].
  destruct (String.eqb_spec (iv_Reference im0) "") as [He|He].
  { rewrite Him0 in Him. injection Him as <-. done. }
  cbn in Him. injection Him as <-. exists (iv_Reference im0). cbn. split; [|done].
  right. right. right. apply list_elem_of_fmap_2, elem_of_volumeImages. by exists vol, im0.
Qed.

Lemma resolveImage_nonempty rq kc image : image ≠ "" → resolveImage rq kc image ≠ "".
Proof.
  intros Hne. unfold resolveImage. destruct (ParseReference [] image) as [ref|] eqn:Hp; [|done].
  destruct (_ || _); [|done]. destruct (ResolveDigest ref _) as [[digest d]|] eqn:Hr; [|done].
  destruct (refKind ref) as [|d'] eqn:Hk.
  - by destruct (Name ref).
  - rewrite (resolve_digest _ _ _ Hk) in Hr. injection Hr as <- <-. by rewrite (parse_RefString _ _ Hp).
Qed.

(** No image is lost. *)
Lemma podImages_resolved rq ps kc field i image0 : NewK8sKeychain kc = None →
  (field, (i, image0)) ∈ podImages ps →
  (field, (i, resolveImage rq kc image0)) ∈ podImages (resolvePodSpec rq ps kc).
Proof.
  unfold resolvePodSpec. intros ->. unfold podImages. cbn [InitContainers Containers
    EphemeralContainers Volumes]. rewrite !resolved_containerImages, resolved_ephemeralImages, !elem_of_app.
  assert (∀ f (l : list (nat * string)), (field, (i, image0)) ∈ pair f <$> l →
    (field, (i, resolveImage rq kc image0)) ∈ pair f <$> ((λ im, (im.1, resolveImage rq kc im.2)) <$> l)) as Hf.
  { intros f l ([j im] & [= -> -> ->] & Hin)%list_elem_of_fmap.
    apply list_elem_of_fmap_2, (list_elem_of_fmap_2 (λ im, (im.1, resolveImage rq kc im.2)) l (j, im)), Hin. }
  intros [H|[H|[H|H]]]; [by auto..|]. right. right. right.
  apply list_elem_of_fmap in H as ([j im'] & [= -> -> ->] & H). apply list_elem_of_fmap_2.
  apply elem_of_volumeImages in H as (vol & im & Hi & Him & <- & Hne). apply elem_of_volumeImages.
  eexists _, _. split; [rewrite list_lookup_fmap, Hi; reflexivity|]. unfold resolveVolumeImage.
  rewrite Him. apply String.eqb_neq in Hne as Hb. rewrite Hb. cbn. split; [done|]. split; [done|].
  by apply resolveImage_nonempty.
Qed.

Lemma resolveImage_id rq kc image : ¬ mutating rq → resolveImage rq kc image = image.
Proof.
  unfold mutating, resolveImage. intros Hn. destruct (ParseReference [] image); [|done].
  by destruct (_ || _).
Qed.

Lemma resolvePodSpec_id rq ps opt : ¬ mutating rq → resolvePodSpec rq ps opt = ps.
Proof.
  intros Hn. unfold resolvePodSpec. destruct (NewK8sKeychain opt); [done|].
  destruct ps as [ini con eph vol]. cbn. f_equal; apply list_fmap_id_ext.
  - intros []. unfold resolveContainer. cbn. by rewrite resolveImage_id.
  - intros []. unfold resolveContainer. cbn. by rewrite resolveImage_id.
  - intros []. unfold resolveEphemeralContainer. cbn. by rewrite resolveImage_id.
  - intros [[[r pp]|] rest]; [|done]. unfold resolveVolumeImage. cbn.
    rewrite resolveImage_id by done. by destruct (r ==s "").
Qed.

Lemma IsScalingDown_replicas ctx b ps ps' : Replicas (sc_Spec ps') = Replicas (sc_Spec ps) →
  IsScalingDown ctx b ps' = IsScalingDown ctx b ps.
Proof. intros Hr. unfold IsScalingDown. by rewrite Hr. Qed.

Lemma Resolve_unchanged rq w : ¬ mutating rq ∨ exempt rq w → Resolve rq w = w.
Proof.
  intros [Hn|He].
  - destruct w as [[? ? []]|[]|[]|[]]; cbn; f_equal;
      unfold ResolvePodScalable, ResolvePodSpecable, ResolvePod, ResolveCronJob;
      repeat case_match; cbn; try done; by rewrite resolvePodSpec_id.
  - assert (isDeletedOrStatusUpdate rq (om_DeletionTimestamp (metaOf w)) = true ∨
      ∃ ps, w = WPodScalable ps ∧ IsScalingDown (rq_op rq) (rq_baseline rq) ps = true)
      as [Hd|(ps & -> & Hs)] by by apply exempt_cases.
    + destruct w; cbn in *; unfold ResolvePodScalable, ResolvePodSpecable, ResolvePod,
        ResolveCronJob; by rewrite Hd.
    + cbn. unfold ResolvePodScalable. rewrite Hs. by destruct (isDeletedOrStatusUpdate _ _).
Qed.

(** C31: resolution pins. In a create or an update, if the keychain can be built,
    the resolved pod has an image at the same places as the pod. Each comes from the
    one at its place: if the registry resolves that one, to a digest, the new one is
    a reference to this digest: the full name of the tag followed by the digest if the
    old one was a tag, and the old one if that was a digest; otherwise it is left as
    it was. A digest reference is never changed. *)
Theorem resolution_pins (rq : Request) (ps : PodSpec) (kc : KeychainOptions)
    (Hop : mutating rq) (Hkc : NewK8sKeychain kc = None) :
  (∀ field i image, (field, (i, image)) ∈ podImages (resolvePodSpec rq ps kc) →
    ∃ image0, (field, (i, image0)) ∈ podImages ps ∧
      (resolvable kc image0 → pins kc image0 image ∧ digestImage image) ∧
      (¬ resolvable kc image0 → image = image0) ∧
      (digestImage image0 → image = image0)) ∧
  (∀ field i image0, (field, (i, image0)) ∈ podImages ps →
    ∃ image, (field, (i, image)) ∈ podImages (resolvePodSpec rq ps kc)).
Proof.
  split; intros field i image Hin; [|by eexists; apply podImages_resolved].
  destruct (resolved_podImages _ _ _ _ _ _ Hkc Hin) as (image0 & Hin0 & ->).
  destruct (resolveImage_cases rq kc image0 Hop) as [H1 H2].
  exists image0. split_and!; [done| |done|apply resolveImage_digest].
  intros Hr. split; [by apply H1|]. by eapply pins_digest, H1.
Qed.

(** Resolving is idempotent on every kind of workload, so the webhook can be
    called again on its own result; and outside creations and updates, and for
    exempt workloads, it changes nothing. *)
Theorem resolution_idempotent (rq : Request) (w : Workload) :
  Resolve rq (Resolve rq w) = Resolve rq w ∧
  (¬ mutating rq ∨ exempt rq w → Resolve rq w = w).
Proof.
  assert (∀ ps opt, keychainOptions opt (resolvePodSpec rq ps (keychainOptions opt ps)) =
    keychainOptions opt ps) as Hkc.
  { intros ps opt. unfold resolvePodSpec. by destruct (NewK8sKeychain _). }
  split.
  - destruct w as [ps|wp|p|c]; cbn; f_equal;
      unfold ResolvePodScalable, ResolvePodSpecable, ResolvePod, ResolveCronJob.
    + destruct (isDeletedOrStatusUpdate rq (om_DeletionTimestamp (sc_ObjectMeta ps))) eqn:Hd;
        [by rewrite Hd|].
      destruct (IsScalingDown (rq_op rq) (rq_baseline rq) ps) eqn:Hs; [by rewrite Hd, Hs|].
      cbn [sc_ObjectMeta]. rewrite Hd. rewrite (IsScalingDown_replicas _ _ ps), Hs by done. cbn.
      by rewrite Hkc, resolvePodSpec_idemp.
    + destruct (isDeletedOrStatusUpdate rq (om_DeletionTimestamp (wp_ObjectMeta wp))) eqn:Hd;
        cbn [wp_ObjectMeta]; rewrite Hd; [done|]. cbn. by rewrite Hkc, resolvePodSpec_idemp.
    + destruct (isDeletedOrStatusUpdate rq (om_DeletionTimestamp (pod_ObjectMeta p))) eqn:Hd;
        cbn [pod_ObjectMeta]; rewrite Hd; [done|]. cbn. by rewrite Hkc, resolvePodSpec_idemp.
    + destruct (isDeletedOrStatusUpdate rq (om_DeletionTimestamp (cj_ObjectMeta c))) eqn:Hd;
        cbn [cj_ObjectMeta]; rewrite Hd; [done|]. cbn. by rewrite Hkc, resolvePodSpec_idemp.
  - intros Hex. apply Resolve_unchanged. done.
Qed.

End Resolution.

(** * Concrete inputs *)

Module ToyValidator.

Import PoliciesSpec.ToyWebhook.

#[local] Existing Instances ToyNames.names ToyParsers.parsers ToyCerts.certs ToyCosign.types
  ToyCosign.cosign.

#[export] Instance resourceJSON : ResourceJSON := {|
  json_PodScalableSpec _ := JNull; json_WithPodSpec _ := JNull; json_PodSpec _ := JNull;
  json_CronJobSpec _ := JNull; json_ObjectMeta _ := JNull; json_TypeMeta _ := JNull
|}.

Lemma after_at_app s d : ToyNames.after_at s = None → ToyNames.after_at (s +:+ "@" +:+ d) = Some d.
Proof.
  induction s as [|c s IH]; [done|]. cbn. destruct (Ascii.eqb c "@"); [done|]. exact IH.
Qed.

#[export] Instance resolveLaws : ResolveLaws.
Proof.
  split; cbn.
  - unfold ToyNames.parse. intros s ref. destruct (s ==s ""); [done|]. by intros [= ->].
  - intros ref d opts. destruct (ToyNames.after_at ref) as [d'|]; [|done]. by intros [= ->].
  - intros ref opts digest d. destruct (ToyNames.after_at ref) as [d'|] eqn:Ha; [done|].
    intros _ [= <- <-]. exists (ToyNames.qualify ref +:+ "@sha256:d"). split.
    + unfold ToyNames.parse. destruct (ToyNames.qualify ref) as [|c s] eqn:Hq; [|done].
      exfalso. pose proof (ToyNames.ContainsRune_qualify ref) as Hc. by rewrite Hq in Hc.
    + change (ToyNames.qualify ref +:+ "@sha256:d") with
        (ToyNames.qualify ref +:+ "@" +:+ "sha256:d").
      rewrite after_at_app; [done|]. by rewrite ToyNames.after_at_qualify.
Qed.

Definition request : Request :=
  {| rq_op := {| IsInCreate := true; IsInUpdate := false; IsInDelete := false;
                 IsInStatusUpdate := false; IsInSpec := false; cfgKey := None |};
     rq_body := None; rq_baseline := None; rq_ctx := ctx {[ "p" := policy [good] "" ]} |}.

Definition pod (image : string) : Pod :=
  {| pod_TypeMeta := {| Kind := "Pod"; APIVersion := "v1" |}; pod_ObjectMeta := emptyObjectMeta;
     pod_Spec := {| InitContainers := []; Containers := [{| c_Image := image; c_rest := JNull |}];
                    EphemeralContainers := []; Volumes := []; ServiceAccountName := "";
                    ImagePullSecrets := []; ps_rest := JNull |} |}.

End ToyValidator.

#[local] Existing Instances ToyNames.names ToyParsers.parsers ToyCerts.certs ToyCosign.types
  ToyCosign.cosign ToyEnvelope.jsonText GM.ToyGM.lru_instance ToyMeta.meta
  ListFieldErrors.fieldErrors PoliciesSpec.ToyWebhook.registry PoliciesSpec.ToyWebhook.host
  ToyValidator.resourceJSON ToyValidator.resolveLaws.

Import ToyValidator.

Lemma resolution_pins_witness :
  pins PoliciesSpec.ToyWebhook.kc "ghcr.io/org/app:v1" "ghcr.io/org/app:v1@sha256:d".
Proof.
  destruct (resolution_pins request (pod_Spec (pod "ghcr.io/org/app:v1")) PoliciesSpec.ToyWebhook.kc)
    as [H _]; [reflexivity|reflexivity|].
  destruct (H "containers" 0 "ghcr.io/org/app:v1@sha256:d") as (image0 & Hin & Hd & _).
  - vm_compute. left.
  - assert (image0 = "ghcr.io/org/app:v1") as ->.
    { apply list_elem_of_singleton in Hin. injection Hin as ->. reflexivity. }
    apply Hd. eexists. split; [reflexivity|]. eexists. reflexivity.
Defined.

Lemma resolution_idempotent_witness :
  Resolve request (Resolve request (WPod (pod "ghcr.io/org/app:v1"))) =
  WPod (pod "ghcr.io/org/app:v1@sha256:d").
Proof.
  destruct (resolution_idempotent request (WPod (pod "ghcr.io/org/app:v1"))) as [H _].
  transitivity (Resolve request (WPod (pod "ghcr.io/org/app:v1"))); [exact H|reflexivity].
Defined.

(** The two webhooks one after the other: a tag is rejected as it is, and
    accepted once resolved, since the policy's key verifies. *)
Example tag_rejected :
  Validate 3 PoliciesSpec.ToyWebhook.inOrder request (WPod (pod "ghcr.io/org/app:v1")) ≠ None.
Proof. vm_compute. discriminate. Qed.
Example resolved_accepted :
  Validate 3 PoliciesSpec.ToyWebhook.inOrder request
    (Resolve request (WPod (pod "ghcr.io/org/app:v1"))) = None.
Proof. vm_compute. reflexivity. Qed.
