(* ===== verification/Sha256.v ===== *)
(** The standard library's crypto/sha256 (FIPS 180-4), which the reconcilers use
    to check the policies they download and to identify public keys. Words are
    32-bit integers, a byte string is a [string]. *)

From S2P Require Import Prelude.
From S2P Require Import Encoding.

Local Open Scope Z_scope.

Definition w32 (x : Z) : Z := x mod 2 ^ 32.
Definition add32 (x y : Z) : Z := w32 (x + y).
Definition rotr (n x : Z) : Z := Z.lor (Z.shiftr x n) (w32 (Z.shiftl x (32 - n))).
Definition not32 (x : Z) : Z := Z.lxor x (2 ^ 32 - 1).

Definition Ch (x y z : Z) : Z := Z.lxor (Z.land x y) (Z.land (not32 x) z).
Definition Maj (x y z : Z) : Z := Z.lxor (Z.lxor (Z.land x y) (Z.land x z)) (Z.land y z).
Definition Sigma0 (x : Z) : Z := Z.lxor (Z.lxor (rotr 2 x) (rotr 13 x)) (rotr 22 x).
Definition Sigma1 (x : Z) : Z := Z.lxor (Z.lxor (rotr 6 x) (rotr 11 x)) (rotr 25 x).
Definition sigma0 (x : Z) : Z := Z.lxor (Z.lxor (rotr 7 x) (rotr 18 x)) (Z.shiftr x 3).
Definition sigma1 (x : Z) : Z := Z.lxor (Z.lxor (rotr 17 x) (rotr 19 x)) (Z.shiftr x 10).

(** The constants of FIPS 180-4, 4.2.2 and 5.3.3: the first 32 bits of the
    fractional parts of the cube roots of the first 64 primes and of the square
    roots of the first eight. *)
Definition cubeRoot (n : Z) : Z :=
  foldr (λ b r, let c := r + 2 ^ b in if c ^ 3 <=? n then c else r) 0 (Z.of_nat <$> seq 0 36).
Definition isPrime (n : nat) : bool := forallb (λ d, negb (n mod d =? 0)%nat) (seq 2 (n - 2)).
Definition primes (below : nat) : list Z := Z.of_nat <$> List.filter isPrime (seq 2 (below - 2)).
Definition K256 : list Z := Eval vm_compute in (λ p, w32 (cubeRoot (p * 2 ^ 96))) <$> primes 312.
Definition H256 : list Z := Eval vm_compute in (λ p, w32 (Z.sqrt (p * 2 ^ 64))) <$> primes 20.

(** The message schedule, the last word first. *)
Fixpoint schedule (n : nat) (ws : list Z) : list Z :=
  match n with
  | O => ws
  | S n =>
      let w i := default 0 (ws !! i) in
      schedule n (add32 (add32 (sigma1 (w 1%nat)) (w 6%nat)) (add32 (sigma0 (w 14%nat)) (w 15%nat)) :: ws)
  end.

(** One round on the working variables [a, …, h]. *)
Definition round (v : list Z) '(k, w) : list Z :=
  match v with
  | [a; b; c; d; e; f; g; h] =>
      let t1 := add32 (add32 h (Sigma1 e)) (add32 (add32 (Ch e f g) k) w) in
      let t2 := add32 (Sigma0 a) (Maj a b c) in
      [add32 t1 t2; a; b; c; add32 d t1; e; f; g]
  | _ => v
  end.

Definition compress (hs : list Z) (block : list Z) : list Z :=
  zip_with add32 hs (foldl round hs (zip K256 (rev (schedule 48 (rev block))))).

(** Big-endian words of four bytes; the padding leaves no incomplete one. *)
Fixpoint words (s : list ascii) : list Z :=
  match s with
  | a :: b :: c :: d :: s' =>
      (Z.of_N (N_of_ascii a) * 2 ^ 24 + Z.of_N (N_of_ascii b) * 2 ^ 16 +
       Z.of_N (N_of_ascii c) * 2 ^ 8 + Z.of_N (N_of_ascii d)) :: words s'
  | _ => []
  end.
Definition byte (n : Z) : ascii := ascii_of_N (Z.to_N (n mod 256)).
Definition bytes4 (w : Z) : list ascii :=
  [byte (w / 2 ^ 24); byte (w / 2 ^ 16); byte (w / 2 ^ 8); byte w].

(** The message, a one bit, zeroes, and its length in bits on eight bytes. *)
Definition pad (s : list ascii) : list ascii :=
  let n := Z.of_nat (length s) in
  s ++ [byte 128] ++ replicate (Z.to_nat ((55 - n) mod 64)) (byte 0) ++
  bytes4 (8 * n / 2 ^ 32) ++ bytes4 (8 * n).

Fixpoint blocks (fuel : nat) (ws hs : list Z) : list Z :=
  match fuel, ws with
  | S fuel, _ :: _ => blocks fuel (drop 16 ws) (compress hs (take 16 ws))
  | _, _ => hs
  end.

(** [sha256.Sum256]: 32 bytes. *)
Definition Sum256 (data : string) : string :=
  let ws := words (pad (list_ascii_of_string data)) in
  string_of_list_ascii (mbind bytes4 (blocks (length ws) ws H256)).

(** The test vectors of the standard. *)
Example Sum256_abc : hex_EncodeToString (Sum256 "abc") =
  "ba7816bf8f01cfea414140de5dae2223b00361a396177a9cb410ff61f20015ad".
Proof. vm_compute. reflexivity. Qed.
Example Sum256_empty : hex_EncodeToString (Sum256 "") =
  "e3b0c44298fc1c149afbf4c8996fb92427ae41e4649b934ca495991b7852b855".
Proof. vm_compute. reflexivity. Qed.
Example Sum256_two_blocks :
  hex_EncodeToString (Sum256 "abcdbcdecdefdefgefghfghighijhijkijkljklmklmnlmnomnopnopq") =
  "248d6a61d20638b8e5c026930c3e6039a33ce45964ff2167f6ecedd419db06c1".
Proof. vm_compute. reflexivity. Qed.
