(* ===== verification/ConfigMaps.v ===== *)
(** The ConfigMaps the reconcilers write (pkg/reconciler/*/resources/configmap.go)
    and the API server that holds them.

    A ConfigMap is its [data]; an absent and an empty [data] are the same object
    to the API server. [duck.CreatePatch] and the server that applies the patch
    are the interface [JSONPatch]; an instance follows RFC 6902. *)

From S2P Require Import Prelude.

(** * JSON patches *)

Class JSONPatch := {
  Patch : Type;
  (** [duck.CreatePatch(before, after)], whether it is empty, and what the server
      makes of a ConfigMap it is applied to *)
  duck_CreatePatch : gmap string string → gmap string string → result string Patch;
  patch_empty : Patch → bool;
  applyPatch : Patch → gmap string string → result string (gmap string string)
}.

(** What the library documents: marshalling two ConfigMaps does not fail, a patch
    is empty if there is nothing to change, it turns the first object into the
    second, and, applied to any object, it brings in only values of the second;
    the two having data that differs in one key, it touches no other key. *)
Class JSONPatchLaws `{JSONPatch} : Prop := {
  create_total a b : is_Ok (duck_CreatePatch a b);
  create_empty a b p : duck_CreatePatch a b = Ok p → patch_empty p = true ↔ a = b;
  apply_create a b p : duck_CreatePatch a b = Ok p → applyPatch p a = Ok b;
  apply_local a b p k c c' : a ≠ ∅ → b ≠ ∅ → (∀ k', k' ≠ k → a !! k' = b !! k') →
    duck_CreatePatch a b = Ok p → applyPatch p c = Ok c' → ∀ k', k' ≠ k → c' !! k' = c !! k';
  apply_values a b p c c' : duck_CreatePatch a b = Ok p → applyPatch p c = Ok c' →
    ∀ k v, c' !! k = Some v → c !! k = Some v ∨ b !! k = Some v
}.

(** * resources/configmap.go *)

Section Resources.
Context `{JP : JSONPatch}.

(** The entry of an object, already marshalled: marshalling fails for neither
    type. *)
Definition NewConfigMap (name entry : string) : gmap string string := {[ name := entry ]}.

(** The patch that sets an entry; [None] is the nil slice of an empty patch. *)
Definition CreatePatch (name : string) (cm : gmap string string) (entry : string) :
    result string (option Patch) :=
  let after := <[name := entry]> cm in
  match duck_CreatePatch cm after with
  | Err err => Err ("creating JSON patch: " +:+ err)
  | Ok jsonPatch => if patch_empty jsonPatch then Ok None else Ok (Some jsonPatch)
  end.

Definition CreateRemovePatch (cm : gmap string string) (name : string) : result string (option Patch) :=
  let after := delete name cm in
  match duck_CreatePatch cm after with
  | Err err => Err ("creating JSON patch: " +:+ err)
  | Ok jsonPatch => if patch_empty jsonPatch then Ok None else Ok (Some jsonPatch)
  end.

(** * The API server *)

(** A lister's error: [apierrs.IsNotFound], or any other; with its text. *)
Inductive GetError := NotFound (msg : string) | GetFailed (msg : string).
Definition GetError_Error (e : GetError) : string :=
  match e with NotFound msg | GetFailed msg => msg end.

(** [Create] and [Patch] on the ConfigMap the server holds, if there is one.
    [fault] is an error of the connection or of the server. *)
Definition api_Create (fault : option string) (live : option (gmap string string)) (cm : gmap string string) :
    result string (gmap string string) :=
  match fault with
  | Some err => Err err
  | None => match live with Some _ => Err "already exists" | None => Ok cm end
  end.
Definition api_Patch (fault : option string) (live : option (gmap string string)) (p : Patch) :
    result string (gmap string string) :=
  match fault with
  | Some err => Err err
  | None => match live with Some cm => applyPatch p cm | None => Err "not found" end
  end.

End Resources.

#[local] Set Default Proof Using "Type*".

Section Facts.
Context `{JP : JSONPatch} {JL : JSONPatchLaws}.

Lemma CreatePatch_spec name cm entry :
  match CreatePatch name cm entry with
  | Ok None => cm !! name = Some entry
  | Ok (Some p) => applyPatch p cm = Ok (<[name := entry]> cm)
  | Err _ => False
  end.
Proof.
  unfold CreatePatch. destruct (create_total cm (<[name:=entry]> cm)) as [p Hp]. rewrite Hp.
  pose proof (create_empty _ _ _ Hp) as He. destruct (patch_empty p).
  - rewrite (proj1 He eq_refl). apply lookup_insert_eq.
  - by apply apply_create.
Qed.

Lemma CreateRemovePatch_spec name cm :
  match CreateRemovePatch cm name with
  | Ok None => cm !! name = None
  | Ok (Some p) => applyPatch p cm = Ok (delete name cm)
  | Err _ => False
  end.
Proof.
  unfold CreateRemovePatch. destruct (create_total cm (delete name cm)) as [p Hp]. rewrite Hp.
  pose proof (create_empty _ _ _ Hp) as He. destruct (patch_empty p).
  - rewrite (proj1 He eq_refl). apply lookup_delete_eq.
  - by apply apply_create.
Qed.

End Facts.

(** * RFC 6902 *)

(** The instance: one operation per key that differs, or one on the whole data
    when it appears or disappears. *)
Module RFC6902.

Inductive op := AddData (m : gmap string string) | RemoveData | Add (k v : string) | Remove (k : string).

Definition diff_key (a b : gmap string string) (k : string) : option op :=
  match a !! k, b !! k with
  | Some v, Some w => if decide (v = w) then None else Some (Add k w)
  | None, Some w => Some (Add k w)
  | Some _, None => Some (Remove k)
  | None, None => None
  end.
Definition keys (a b : gmap string string) : list string := elements (dom a ∪ dom b).

Definition create (a b : gmap string string) : list op :=
  if decide (a = b) then []
  else if decide (a = ∅) then [AddData b]
  else if decide (b = ∅) then [RemoveData]
  else omap (diff_key a b) (keys a b).

(** The data of the object, absent when there is none. *)
Definition step (o : op) (d : option (gmap string string)) : option (option (gmap string string)) :=
  match o, d with
  | AddData m, _ => Some (Some m)
  | RemoveData, Some _ => Some None
  | Add k v, Some m => Some (Some (<[k := v]> m))
  | Remove k, Some m => if decide (is_Some (m !! k)) then Some (Some (delete k m)) else None
  | _, None => None
  end.
Fixpoint steps (os : list op) (d : option (gmap string string)) : option (option (gmap string string)) :=
  match os with
  | [] => Some d
  | o :: os => match step o d with Some d => steps os d | None => None end
  end.
Definition apply (os : list op) (c : gmap string string) : result string (gmap string string) :=
  or_err "the patch does not apply"
    (default ∅ <$> steps os (if decide (c = ∅) then None else Some c)).

#[export] Instance jsonPatch : JSONPatch := {|
  Patch := list op;
  duck_CreatePatch a b := Ok (create a b);
  patch_empty os := isEmpty os;
  applyPatch := apply
|}.

(** The operations of keys that are yet to be changed. *)
Lemma steps_diff a b ks m : NoDup ks → (∀ k, k ∈ ks → m !! k = a !! k) →
  steps (omap (diff_key a b) ks) (Some m) =
  Some (Some (foldl (λ m k, partial_alter (λ _, b !! k) k m) m ks)).
Proof.
  revert m. induction ks as [|k ks IH]; intros m; [done|]. intros [Hk Hnd]%NoDup_cons Hm.
  cbn [foldl]. assert (∀ k', k' ∈ ks → partial_alter (λ _, b !! k) k m !! k' = a !! k') as Hm'.
  { intros k' Hk'. rewrite lookup_partial_alter, decide_False by (intros ->; done). apply Hm. by right. }
  specialize (IH _ Hnd Hm'). assert (m !! k = a !! k) as Hmk by (apply Hm; left).
  cbn [omap list_omap]. unfold diff_key at 1. rewrite <-Hmk.
  destruct (m !! k) as [v|] eqn:Hv, (b !! k) as [w|] eqn:Hw.
  - destruct (decide (v = w)) as [->|].
    + rewrite <-IH. repeat f_equal. apply map_eq. intros k'. destruct (decide (k' = k)) as [->|].
      * by rewrite lookup_partial_alter, decide_True.
      * by rewrite lookup_partial_alter, decide_False.
    + cbn [steps step]. exact IH.
  - cbn [steps step]. rewrite decide_True by (rewrite Hv; by eexists). exact IH.
  - cbn [steps step]. exact IH.
  - rewrite <-IH. repeat f_equal. apply map_eq. intros k'. destruct (decide (k' = k)) as [->|].
    + by rewrite lookup_partial_alter, decide_True.
    + by rewrite lookup_partial_alter, decide_False.
Qed.

Lemma foldl_alter_lookup (b : gmap string string) ks (m : gmap string string) k :
  foldl (λ m k, partial_alter (λ _, b !! k) k m) m ks !! k = if decide (k ∈ ks) then b !! k else m !! k.
Proof.
  revert m. induction ks as [|k' ks IH]; intros m; cbn [foldl]; [done|]. rewrite IH.
  destruct (decide (k ∈ ks)) as [Hin|Hin].
  - rewrite decide_True by by right. done.
  - destruct (decide (k = k')) as [->|Hk].
    + rewrite decide_True by left. by rewrite lookup_partial_alter, decide_True.
    + rewrite decide_False by (rewrite elem_of_cons; tauto). by rewrite lookup_partial_alter, decide_False.
Qed.

Lemma steps_values a b ks d d' :
  steps (omap (diff_key a b) ks) d = Some d' →
  ∀ k v, default ∅ d' !! k = Some v → default ∅ d !! k = Some v ∨ b !! k = Some v.
Proof.
  revert d. induction ks as [|k0 ks IH]; intros d; cbn [omap list_omap].
  { intros [= ->]. auto. }
  destruct (diff_key a b k0) as [o|] eqn:Ho; [|apply IH].
  cbn [steps]. destruct (step o d) as [d1|] eqn:Hs; [|done]. intros Hsteps k v Hk.
  destruct (IH d1 Hsteps k v Hk) as [Hk1|]; [|by right]. unfold diff_key in Ho.
  destruct (a !! k0), (b !! k0) eqn:Hb; try destruct (decide _); simplify_eq/=;
    destruct d; simplify_eq/=; try destruct (decide _); simplify_eq/=.
  - apply lookup_insert_Some in Hk1 as [[-> ->]|[_ ?]]; auto.
  - apply lookup_delete_Some in Hk1 as [_ ?]. auto.
  - apply lookup_insert_Some in Hk1 as [[-> ->]|[_ ?]]; auto.
Qed.

Lemma steps_other a b ks k d d' : (∀ k', k' ≠ k → a !! k' = b !! k') →
  steps (omap (diff_key a b) ks) d = Some d' →
  ∀ k', k' ≠ k → default ∅ d' !! k' = default ∅ d !! k'.
Proof.
  intros Hab. revert d. induction ks as [|k0 ks IH]; intros d; cbn [omap list_omap].
  { by intros [= ->]. }
  destruct (diff_key a b k0) as [o|] eqn:Ho; [|apply IH].
  assert (k0 = k) as ->.
  { destruct (decide (k0 = k)) as [|Hk]; [done|]. unfold diff_key in Ho. rewrite (Hab k0 Hk) in Ho.
    destruct (b !! k0); [|done]. by rewrite decide_True in Ho. }
  cbn [steps]. destruct (step o d) as [d1|] eqn:Hs; [|done]. intros Hsteps k' Hk'.
  rewrite (IH d1 Hsteps k' Hk'). unfold diff_key in Ho.
  destruct (a !! k), (b !! k); try destruct (decide _); simplify_eq/=; destruct d; simplify_eq/=.
  - by rewrite lookup_insert_ne.
  - destruct (decide _); simplify_eq/=. by rewrite lookup_delete_ne.
  - by rewrite lookup_insert_ne.
Qed.

#[export] Instance laws : JSONPatchLaws.
Proof.
  split.
  - intros a b. by eexists.
  - intros a b p [= <-]. cbn. unfold create.
    destruct (decide (a = b)) as [->|Hab]; [done|]. split; [|done].
    destruct (decide (a = ∅)); [done|]. destruct (decide (b = ∅)); [done|].
    destruct (omap _ _) as [|o os] eqn:Ho; [|done]. intros _. apply map_eq. intros k.
    destruct (diff_key a b k) as [o|] eqn:Hk.
    + exfalso. apply (not_elem_of_nil o). rewrite <-Ho. apply list_elem_of_omap. exists k.
      split; [|done]. apply elem_of_elements. unfold diff_key in Hk.
      destruct (a !! k) eqn:Ha; [|destruct (b !! k) eqn:Hb; [|done]].
      * apply elem_of_union_l, elem_of_dom. by eexists.
      * apply elem_of_union_r, elem_of_dom. by eexists.
    + unfold diff_key in Hk. destruct (a !! k), (b !! k); try done.
      destruct (decide (s = s0)) as [->|]; done.
  - intros a b p [= <-]. cbn. unfold apply, create.
    destruct (decide (a = b)) as [->|Hab].
    { cbn. by destruct (decide (b = ∅)) as [->|]. }
    destruct (decide (a = ∅)) as [->|Ha]; [done|].
    destruct (decide (b = ∅)) as [->|Hb]; [done|].
    rewrite (steps_diff a b) by (done || apply NoDup_elements). cbn. f_equal.
    apply map_eq. intros k. rewrite foldl_alter_lookup. unfold keys.
    destruct (decide _) as [|Hn]; [done|]. rewrite elem_of_elements, elem_of_union, !elem_of_dom in Hn.
    destruct (a !! k) eqn:Hak; [destruct Hn; left; by eexists|].
    destruct (b !! k) eqn:Hbk; [destruct Hn; right; by eexists|]. done.
  - intros a b p k c c' Ha Hb Hab [= <-]. cbn. unfold apply, create.
    destruct (decide (a = b)).
    { cbn. intros [= <-] k' _. by destruct (decide (c = ∅)) as [->|]. }
    rewrite !decide_False by done. destruct (steps _ _) as [d|] eqn:Hs; [|done].
    cbn. intros [= <-] k' Hk'. rewrite (steps_other _ _ _ _ _ _ Hab Hs k' Hk').
    by destruct (decide (c = ∅)) as [->|].
  - intros a b p c c' [= <-]. cbn. unfold apply, create.
    assert (Hc : default ∅ (if decide (c = ∅) then None else Some c) = c)
      by (by destruct (decide (c = ∅)) as [->|]).
    destruct (steps _ _) as [d|] eqn:Hs; [|done]. cbn. intros [= <-] k v Hk.
    destruct (decide (a = b)).
    { injection Hs as <-. rewrite Hc in Hk. by left. }
    destruct (decide (a = ∅)).
    { cbn in Hs. injection Hs as <-. by right. }
    destruct (decide (b = ∅)).
    { exfalso. destruct (decide (c = ∅)); cbn in Hs; simplify_eq/=; by rewrite lookup_empty in Hk. }
    destruct (steps_values _ _ _ _ _ Hs k v Hk) as [Hv|]; [|by right]. rewrite Hc in Hv. by left.
Qed.

End RFC6902.
