(* ===== verification/Lifecycle.v ===== *)
(** The conditions of the resources' status
    (pkg/apis/policy/v1alpha1/clusterimagepolicy_lifecycle.go, its copy in
    v1beta1, and pkg/apis/policy/v1alpha1/trustroot_lifecycle.go).

    knative's condition sets are the interface [ConditionSets]; an instance
    follows knative.dev/pkg/apis/condition_set.go. *)

From S2P Require Import Prelude.
From S2P Require Import K8s.

(** * knative.dev/pkg/apis *)

(** A living condition set is its dependents; its happy condition is Ready. *)
Class ConditionSets := {
  GetCondition : Status → string → option Condition;
  cs_InitializeConditions : list string → Status → Status;
  cs_MarkTrue : list string → string → Status → Status;
  (** with a reason and a message *)
  cs_MarkFalse : list string → string → string → string → Status → Status
}.

Definition ConditionReady : string := "Ready".

(** The status of a condition: True, False, Unknown, or not there. *)
Definition state `{ConditionSets} (s : Status) (t : string) : option string :=
  cond_Status <$> GetCondition s t.
Definition IsTrue `{ConditionSets} (s : Status) (t : string) : bool :=
  match state s t with Some st => st ==s "True" | None => false end.
Definition IsFalse `{ConditionSets} (s : Status) (t : string) : bool :=
  match state s t with Some st => st ==s "False" | None => false end.

(** What the library documents of the conditions; [deps] are the dependents. *)
Class ConditionSetLaws `{ConditionSets} : Prop := {
  (** conditions that are there are kept, the missing ones are added *)
  Initialize_keeps deps s t st : state s t = Some st → state (cs_InitializeConditions deps s) t = Some st;
  Initialize_adds deps s t : t ∈ ConditionReady :: deps → is_Some (state (cs_InitializeConditions deps s) t);
  Initialize_other deps s t : t ∉ ConditionReady :: deps →
    state (cs_InitializeConditions deps s) t = state s t;
  MarkTrue_sets deps s t : t ≠ ConditionReady → state (cs_MarkTrue deps t s) t = Some "True";
  (** the happy condition is recomputed from the dependents *)
  MarkTrue_ready deps s t : t ≠ ConditionReady →
    state (cs_MarkTrue deps t s) ConditionReady = Some "True" ↔
    ∀ d, d ∈ deps → state (cs_MarkTrue deps t s) d = Some "True";
  MarkTrue_other deps s t u : u ≠ t → u ≠ ConditionReady → state (cs_MarkTrue deps t s) u = state s u;
  MarkFalse_sets deps s t reason msg : state (cs_MarkFalse deps t reason msg s) t = Some "False";
  MarkFalse_ready deps s t reason msg : t ∈ deps →
    state (cs_MarkFalse deps t reason msg s) ConditionReady = Some "False";
  MarkFalse_message deps s t reason msg :
    cond_Message <$> GetCondition (cs_MarkFalse deps t reason msg s) t = Some msg;
  MarkFalse_other deps s t reason msg u : u ≠ t → u ≠ ConditionReady →
    state (cs_MarkFalse deps t reason msg s) u = state s u;
  Initialize_generation deps s : ObservedGeneration (cs_InitializeConditions deps s) = ObservedGeneration s;
  MarkTrue_generation deps s t : ObservedGeneration (cs_MarkTrue deps t s) = ObservedGeneration s;
  MarkFalse_generation deps s t reason msg :
    ObservedGeneration (cs_MarkFalse deps t reason msg s) = ObservedGeneration s
}.

(** * The condition sets *)

Definition ConditionKeysInlined : string := "KeysInlined".
Definition ConditionPoliciesInlined : string := "PoliciesInlined".
Definition ConditionCMUpdated : string := "ConfigMapUpdated".

Definition cipCondSet : list string :=
  [ConditionKeysInlined; ConditionPoliciesInlined; ConditionCMUpdated].
Definition trCondSet : list string := [ConditionKeysInlined; ConditionCMUpdated].

Definition inlineKeysFailedReason : string := "InliningKeysFailed".
Definition inlinePoliciesFailedReason : string := "InliningPoliciesFailed".
Definition updateCMFailedReason : string := "UpdatingConfigMap".

Section Conditions.
Context `{CS : ConditionSets}.

(** [IsReady] and [IsFailed], of a policy of generation [generation]. *)
Definition IsReady (generation : Z) (cs : Status) : bool :=
  (ObservedGeneration cs =? generation)%Z && IsTrue cs ConditionReady.
Definition IsFailed (generation : Z) (cs : Status) : bool :=
  (ObservedGeneration cs =? generation)%Z && IsFalse cs ConditionReady.

(** ** ClusterImagePolicyStatus *)

Definition InitializeConditions (cs : Status) : Status := cs_InitializeConditions cipCondSet cs.
Definition MarkInlineKeysFailed (msg : string) (cs : Status) : Status :=
  cs_MarkFalse cipCondSet ConditionKeysInlined inlineKeysFailedReason msg cs.
Definition MarkInlineKeysOk (cs : Status) : Status := cs_MarkTrue cipCondSet ConditionKeysInlined cs.
Definition MarkInlinePoliciesFailed (msg : string) (cs : Status) : Status :=
  cs_MarkFalse cipCondSet ConditionPoliciesInlined inlinePoliciesFailedReason msg cs.
Definition MarkInlinePoliciesOk (cs : Status) : Status :=
  cs_MarkTrue cipCondSet ConditionPoliciesInlined cs.
Definition MarkCMUpdateFailed (msg : string) (cs : Status) : Status :=
  cs_MarkFalse cipCondSet ConditionCMUpdated updateCMFailedReason msg cs.
Definition MarkCMUpdatedOK (cs : Status) : Status := cs_MarkTrue cipCondSet ConditionCMUpdated cs.

(** ** TrustRootStatus: the keys' conditions are those of the policies' set *)

Definition tr_IsReady (generation : Z) (ts : Status) : bool :=
  (ObservedGeneration ts =? generation)%Z && IsTrue ts ConditionReady.
Definition tr_IsFailed (generation : Z) (ts : Status) : bool :=
  (ObservedGeneration ts =? generation)%Z && IsFalse ts ConditionReady.
Definition tr_InitializeConditions (ts : Status) : Status := cs_InitializeConditions trCondSet ts.
Definition tr_MarkInlineKeysFailed (msg : string) (ts : Status) : Status :=
  cs_MarkFalse cipCondSet ConditionKeysInlined inlineKeysFailedReason msg ts.
Definition tr_MarkInlineKeysOk (ts : Status) : Status :=
  cs_MarkTrue cipCondSet ConditionKeysInlined ts.
Definition tr_MarkCMUpdateFailed (msg : string) (ts : Status) : Status :=
  cs_MarkFalse trCondSet ConditionCMUpdated updateCMFailedReason msg ts.
Definition tr_MarkCMUpdatedOK (ts : Status) : Status := cs_MarkTrue trCondSet ConditionCMUpdated ts.

(** ** v1beta1: the same methods, on the condition types of that version *)

Definition beta_ConditionKeysInlined : string := "KeysInlined".
Definition beta_ConditionPoliciesInlined : string := "PoliciesInlined".
Definition beta_ConditionCMUpdated : string := "ConfigMapUpdated".
Definition beta_cipCondSet : list string :=
  [beta_ConditionKeysInlined; beta_ConditionPoliciesInlined; beta_ConditionCMUpdated].
Definition beta_IsReady (generation : Z) (cs : Status) : bool :=
  (ObservedGeneration cs =? generation)%Z && IsTrue cs ConditionReady.
Definition beta_IsFailed (generation : Z) (cs : Status) : bool :=
  (ObservedGeneration cs =? generation)%Z && IsFalse cs ConditionReady.
Definition beta_InitializeConditions (cs : Status) : Status := cs_InitializeConditions beta_cipCondSet cs.
Definition beta_MarkInlineKeysFailed (msg : string) (cs : Status) : Status :=
  cs_MarkFalse beta_cipCondSet beta_ConditionKeysInlined inlineKeysFailedReason msg cs.
Definition beta_MarkInlineKeysOk (cs : Status) : Status := cs_MarkTrue beta_cipCondSet beta_ConditionKeysInlined cs.
Definition beta_MarkInlinePoliciesFailed (msg : string) (cs : Status) : Status :=
  cs_MarkFalse beta_cipCondSet beta_ConditionPoliciesInlined inlinePoliciesFailedReason msg cs.
Definition beta_MarkInlinePoliciesOk (cs : Status) : Status :=
  cs_MarkTrue beta_cipCondSet beta_ConditionPoliciesInlined cs.
Definition beta_MarkCMUpdateFailed (msg : string) (cs : Status) : Status :=
  cs_MarkFalse beta_cipCondSet beta_ConditionCMUpdated updateCMFailedReason msg cs.
Definition beta_MarkCMUpdatedOK (cs : Status) : Status := cs_MarkTrue beta_cipCondSet beta_ConditionCMUpdated cs.

End Conditions.

#[export] Hint Rewrite @Initialize_generation @MarkTrue_generation @MarkFalse_generation
  using typeclasses eauto : go.

Section Facts.
Context `{CL : ConditionSetLaws}.

(** A policy whose keys and policies are inlined and whose ConfigMap is updated is
    ready; one of the three failing makes it not ready. *)
Lemma cip_ready s :
  state (MarkCMUpdatedOK (MarkInlinePoliciesOk (MarkInlineKeysOk s))) ConditionReady = Some "True".
Proof using CL.
  apply MarkTrue_ready; [done|]. unfold MarkCMUpdatedOK, MarkInlinePoliciesOk, MarkInlineKeysOk.
  intros d Hd. unfold cipCondSet in Hd. rewrite !elem_of_cons in Hd.
  destruct Hd as [->|[->|[->|Hd]]]; [| | |by apply elem_of_nil in Hd].
  - rewrite !MarkTrue_other by done. by apply MarkTrue_sets.
  - rewrite MarkTrue_other by done. by apply MarkTrue_sets.
  - by apply MarkTrue_sets.
Qed.

Lemma tr_ready s :
  state (tr_MarkCMUpdatedOK (tr_MarkInlineKeysOk s)) ConditionReady = Some "True".
Proof using CL.
  apply MarkTrue_ready; [done|]. unfold tr_MarkCMUpdatedOK, tr_MarkInlineKeysOk.
  intros d Hd. unfold trCondSet in Hd. rewrite !elem_of_cons in Hd.
  destruct Hd as [->|[->|Hd]]; [| |by apply elem_of_nil in Hd].
  - rewrite MarkTrue_other by done. by apply MarkTrue_sets.
  - by apply MarkTrue_sets.
Qed.

Lemma CMUpdateFailed_not_ready s msg : state (MarkCMUpdateFailed msg s) ConditionReady = Some "False".
Proof using CL. apply MarkFalse_ready. right. right. left. Qed.
Lemma InlineKeysFailed_not_ready s msg : state (MarkInlineKeysFailed msg s) ConditionReady = Some "False".
Proof using CL. apply MarkFalse_ready. left. Qed.
Lemma InlinePoliciesFailed_not_ready s msg :
  state (MarkInlinePoliciesFailed msg s) ConditionReady = Some "False".
Proof using CL. apply MarkFalse_ready. right. left. Qed.
Lemma tr_CMUpdateFailed_not_ready s msg :
  state (tr_MarkCMUpdateFailed msg s) ConditionReady = Some "False".
Proof using CL. apply MarkFalse_ready. right. left. Qed.
Lemma tr_InlineKeysFailed_not_ready s msg :
  state (tr_MarkInlineKeysFailed msg s) ConditionReady = Some "False".
Proof using CL. apply MarkFalse_ready. left. Qed.

End Facts.

(** * An implementation *)

Module LivingConditions.

Definition get (s : Status) (t : string) : option Condition :=
  find (λ c, cond_Type c ==s t) (Conditions s).
Definition set (t st msg : string) (s : Status) : Status :=
  {| ObservedGeneration := ObservedGeneration s;
     Conditions := {| cond_Type := t; cond_Status := st; cond_Message := msg |} ::
       filter (λ c, cond_Type c ≠ t) (Conditions s) |}.

Definition has (s : Status) (st : string) (t : string) : bool :=
  match get s t with Some c => cond_Status c ==s st | None => false end.

Definition initialize (deps : list string) (s : Status) : Status :=
  let add st s t := if notNil (get s t) then s else set t st "" s in
  let s := add "Unknown" s ConditionReady in
  let st := if has s "True" ConditionReady then "True" else "Unknown" in
  foldl (add st) s deps.

Definition markTrue (deps : list string) (t : string) (s : Status) : Status :=
  let s := set t "True" "" s in
  if existsb (has s "False") deps then set ConditionReady "False" "" s
  else if forallb (has s "True") deps then set ConditionReady "True" "" s
  else set ConditionReady "Unknown" "" s.

Definition markFalse (deps : list string) (t reason msg : string) (s : Status) : Status :=
  let s := if bool_decide (t ∈ deps) then set ConditionReady "False" msg s else s in
  set t "False" msg s.

#[global] Arguments get : simpl never.
#[global] Arguments set : simpl never.

#[export] Instance conditionSets : ConditionSets := {|
  GetCondition := get;
  cs_InitializeConditions := initialize;
  cs_MarkTrue := markTrue;
  cs_MarkFalse := markFalse
|}.

Lemma get_set t st msg s u : get (set t st msg s) u =
  if decide (t = u) then Some {| cond_Type := t; cond_Status := st; cond_Message := msg |} else get s u.
Proof.
  unfold get, set. cbn. destruct (decide (t = u)) as [->|Hn].
  - by rewrite String.eqb_refl.
  - apply String.eqb_neq in Hn as Hb. rewrite Hb.
    induction (Conditions s) as [|c cs IH]; [done|]. rewrite filter_cons. cbn.
    destruct (decide (cond_Type c ≠ t)) as [|Hc]; cbn.
    + by rewrite IH.
    + destruct (decide (cond_Type c = t)) as [->|]; [|done]. by rewrite Hb.
Qed.

Lemma state_set t st msg s u :
  state (set t st msg s) u = if decide (t = u) then Some st else state s u.
Proof. unfold state. cbn. rewrite get_set. by destruct (decide (t = u)). Qed.

Lemma has_true s st t : has s st t = true ↔ state s t = Some st.
Proof.
  unfold has, state. cbn. destruct (get s t); cbn; [|done]. rewrite String.eqb_eq. naive_solver.
Qed.

(** Adding a condition that is missing. *)
Lemma add_state st s t u : state (if notNil (get s t) then s else set t st "" s) u =
  match state s u with Some x => Some x | None => if decide (t = u) then Some st else None end.
Proof.
  assert (Hst : state s t = cond_Status <$> get s t) by done.
  destruct (get s t) as [c|]; cbn [notNil].
  - destruct (decide (t = u)) as [<-|]; [by rewrite Hst|]. by destruct (state s u).
  - rewrite state_set. destruct (decide (t = u)) as [<-|]; [by rewrite Hst|]. by destruct (state s u).
Qed.

Lemma adds_state st deps s u :
  state (foldl (λ s t, if notNil (get s t) then s else set t st "" s) s deps) u =
  match state s u with Some x => Some x | None => if decide (u ∈ deps) then Some st else None end.
Proof.
  revert s. induction deps as [|t deps IH]; intros s; cbn [foldl].
  - destruct (state s u); [done|]. by destruct (decide _) as [H%elem_of_nil|].
  - rewrite IH, add_state. destruct (state s u); [done|].
    destruct (decide (t = u)) as [->|Hn].
    + by rewrite decide_True by left.
    + destruct (decide (u ∈ deps)); [by rewrite decide_True by by right|].
      rewrite decide_False; [done|]. rewrite elem_of_cons. intros [->|]; done.
Qed.

Lemma generation_add st s t :
  ObservedGeneration (if notNil (get s t) then s else set t st "" s) = ObservedGeneration s.
Proof. by destruct (notNil _). Qed.

#[export] Instance laws : ConditionSetLaws.
Proof.
  split; cbn [cs_InitializeConditions cs_MarkTrue cs_MarkFalse conditionSets].
  - intros deps s t st Ht. unfold initialize. cbv beta zeta. rewrite adds_state, add_state. by rewrite Ht.
  - intros deps s t Ht. unfold initialize. cbv beta zeta. rewrite adds_state, add_state.
    destruct (state s t) as [x|]; [by eexists|]. destruct (decide _); [by eexists|].
    rewrite decide_True; [by eexists|]. apply elem_of_cons in Ht as [->|]; done.
  - intros deps s t [Hr Ht]%not_elem_of_cons. unfold initialize. cbv beta zeta. rewrite adds_state, add_state.
    destruct (state s t); [done|]. by rewrite !decide_False.
  - intros deps s t Ht. unfold markTrue. destruct (existsb _ _); [|destruct (forallb _ _)];
      rewrite state_set, decide_False, state_set, decide_True by done; done.
  - intros deps s t Ht. unfold markTrue. set (s' := set t "True" "" s).
    assert (Hr : ∀ st d, state (set ConditionReady st "" s') d =
      if decide (ConditionReady = d) then Some st else state s' d) by (intros; apply state_set).
    destruct (existsb _ _) eqn:Hex; [|destruct (forallb _ _) eqn:Hall];
      rewrite Hr, decide_True by done.
    + split; [done|]. intros Hd. apply existsb_exists in Hex as (d & Hin & Hf).
      apply list_elem_of_In in Hin. apply Hd in Hin. rewrite Hr in Hin.
      apply has_true in Hf. destruct (decide _); congruence.
    + split; [|done]. intros _ d Hin. rewrite Hr. destruct (decide _); [done|].
      apply has_true. rewrite forallb_forall in Hall. apply Hall. by apply list_elem_of_In.
    + split; [done|]. intros Hd. exfalso. apply not_true_iff_false in Hall. apply Hall, forallb_forall.
      intros d Hin%list_elem_of_In. apply Hd in Hin. rewrite Hr in Hin. apply has_true.
      by destruct (decide _).
  - intros deps s t u Hu Hr. unfold markTrue. destruct (existsb _ _); [|destruct (forallb _ _)];
      rewrite !state_set, !decide_False by done; done.
  - intros deps s t reason msg. unfold markFalse. by rewrite state_set, decide_True.
  - intros deps s t reason msg Ht. unfold markFalse. rewrite bool_decide_eq_true_2 by done.
    rewrite state_set. destruct (decide (t = ConditionReady)); [done|]. by rewrite state_set, decide_True.
  - intros deps s t reason msg. unfold markFalse. cbn. by rewrite get_set, decide_True.
  - intros deps s t reason msg u Hu Hr. unfold markFalse. rewrite state_set, decide_False by done.
    destruct (bool_decide _); [|done]. by rewrite state_set, decide_False.
  - intros deps s. unfold initialize. cbv beta zeta. set (st := if has _ _ _ then "True" else "Unknown").
    clearbody st. rewrite <-(generation_add "Unknown" s ConditionReady).
    generalize (if notNil (get s ConditionReady) then s else set ConditionReady "Unknown" "" s).
    clear s. induction deps as [|d deps IH]; intros s; cbn [foldl]; [done|].
    by rewrite IH, generation_add.
  - intros deps s t. unfold markTrue. by destruct (existsb _ _); [|destruct (forallb _ _)].
  - intros deps s t reason msg. unfold markFalse. by destruct (bool_decide _).
Qed.

End LivingConditions.
