(* ===== verification/Reconcile.v ===== *)
(** The controller of ClusterImagePolicies
    (pkg/reconciler/clusterimagepolicy/clusterimagepolicy.go): it replaces the
    references of a policy to Secrets, KMS keys, ConfigMaps and URLs by what they
    hold, and keeps the result in the ConfigMap the webhook reads.

    Logging is left out, but for the argument of one log line whose evaluation
    panics. The informers' caches are read as they are during one call. *)

From S2P Require Import Prelude.
From S2P Require Import Encoding.
From S2P Require Import Sha256.
From S2P Require Import Names.
From S2P Require Import K8s.
From S2P Require Import Common.
From S2P Require Import V1alpha1.
From S2P Require WebhookTypes.
From S2P Require WebhookJSON.
From S2P Require Import ConfigMaps.
From S2P Require Import Lifecycle.

(** * What the reconciler reads *)

(** sigstore's [kms.Get] and cosign's [PublicKeyPem]. *)
Class KMSPkg := {
  KMSSigner : Type;
  kms_Get : string → Hash → result string KMSSigner;
  PublicKeyPem : KMSSigner → result string string
}.

(** knative's [tracker.Reference], without the selector, which is not used. *)
Record TrackerReference := { ref_APIVersion : string; ref_Kind : string; ref_Namespace : string; ref_Name : string }.

(** The cluster and the network during a call: the tracker, which is given what to
    track and the name of the policy that is to be called again; the listers, by
    namespace and name, a Secret or ConfigMap being its data; and [http.Get], a status
    code and the body as it is read. *)
Record Cluster := {
  TrackReference : TrackerReference → string → option string;
  Secrets_Get : string → string → result GetError (gmap string string);
  ConfigMaps_Get : string → string → result GetError (gmap string string);
  http_Get : string → result string (Z * result string string)
}.

Inductive Event :=
  | Track (ref : TrackerReference) (obj : string)
  | Read (kind namespace name : string)
  | Download (url : string).

(** * Calls: they leave events, and return, fail, or panic *)

Inductive outcome (A : Type) := Return (a : A) | Fails (err : string) | Panics.
Arguments Return {A} a.
Arguments Fails {A} err.
Arguments Panics {A}.

Definition M (A : Type) : Type := list Event → list Event * outcome A.

#[export] Instance M_ret : MRet M := λ A a log, (log, Return a).
#[export] Instance M_bind : MBind M := λ A B f m log,
  match m log with
  | (log, Return a) => f a log
  | (log, Fails err) => (log, Fails err)
  | (log, Panics) => (log, Panics)
  end.
Definition failM {A} (err : string) : M A := λ log, (log, Fails err).
Definition panicM {A} : M A := λ log, (log, Panics).
Definition event (e : Event) : M unit := λ log, (log ++ [e], Return tt).

(** A call whose error goes to [handle]. *)
Definition catchM {A} (m : M A) (handle : string → M A) : M A := λ log,
  match m log with
  | (log, Fails err) => handle err log
  | r => r
  end.

(** [if p != nil { f(p) }] on a pointer of a structure that is updated in place. *)
Definition onPtr {A} (f : A → M A) (p : option A) : M (option A) :=
  match p with Some a => a ← f a; mret (Some a) | None => mret None end.

(** * Inlining *)

Section Inlining.
Context `{P : Parsers} `{KM : KMSPkg}.
(** [%q] of an integer, by the tables of package unicode. *)
Variable QuoteRune : Z → string.
Variable env : Cluster.

Definition getKMSPublicKey (keyID hashAlgorithm : string) : M string :=
  algorithm ←
    (if hashAlgorithm !=s "" then
       match HashAlgorithm hashAlgorithm with
       | (_, Some err) => failM ("failed to extract the signature hash algorithm: " +:+ err)
       | (algorithm, None) => mret algorithm
       end
     else mret SHA256);
  match kms_Get keyID algorithm with
  | Err err => failM err
  | Ok kmsSigner =>
      match PublicKeyPem kmsSigner with
      | Err err => failM err
      | Ok pemBytes => mret pemBytes
      end
  end.

(** [keyref], whose [SecretRef] is [ref]. *)
Definition inlineAndTrackSecret (cip : ClusterImagePolicy) (keyref : KeyRef) (ref : SecretReference) : M KeyRef :=
  let name := secret_Name ref in
  let reference := {| ref_APIVersion := "v1"; ref_Kind := "Secret"; ref_Namespace := systemNamespace; ref_Name := name |} in
  _ ← event (Track reference (om_Name (cip_ObjectMeta cip)));
  match TrackReference env reference (om_Name (cip_ObjectMeta cip)) with
  | Some err => failM ("failed to track changes to secret " +:+ quote name +:+ " : " +:+ err)
  | None =>
  _ ← event (Read "Secret" systemNamespace name);
  match Secrets_Get env systemNamespace name with
  | Err err => failM (GetError_Error err)
  | Ok data =>
  match map_to_list data with
  | [] => failM ("secret " +:+ quote name +:+ " contains no data")
  | _ :: _ :: _ => failM ("secret " +:+ quote name +:+
      " contains multiple data entries, only one is supported")
  | [(_, v)] =>
      let invalid err := failM ("secret " +:+ quote name +:+ " contains an invalid public key: " +:+ err) in
      match UnmarshalPEMToPublicKey v with
      | Err err => invalid err
      | Ok None => invalid "%!w(<nil>)"
      | Ok (Some _) =>
          mret {| SecretRef := None; key_Data := v; KMS := KMS keyref;
                  key_HashAlgorithm := key_HashAlgorithm keyref |}
      end
  end end end.

Definition inlineSecret (cip : ClusterImagePolicy) (keyref : KeyRef) : M KeyRef :=
  match SecretRef keyref with
  | Some ref => inlineAndTrackSecret cip keyref ref
  | None => mret keyref
  end.

Definition inlineCACert (cip : ClusterImagePolicy) (keyless : KeylessRef) : M KeylessRef :=
  ca ← onPtr (inlineSecret cip) (CACert keyless);
  mret {| keyless_URL := keyless_URL keyless; Identities := Identities keyless; CACert := ca;
          keyless_TrustRootRef := keyless_TrustRootRef keyless;
          InsecureIgnoreSCT := InsecureIgnoreSCT keyless |}.

Definition inlineKMS (key : KeyRef) : M KeyRef :=
  if Contains (KMS key) "://" then
    pubKeyString ← getKMSPublicKey (KMS key) (key_HashAlgorithm key);
    mret {| SecretRef := SecretRef key; key_Data := pubKeyString; KMS := "";
            key_HashAlgorithm := key_HashAlgorithm key |}
  else mret key.

(** The body of the loop over the authorities. *)
Definition inlineAuthorityKeys (cip : ClusterImagePolicy) (authority : Authority) : M Authority :=
  key ← onPtr (inlineSecret cip) (Key authority);
  keyless ← onPtr (inlineCACert cip) (Keyless authority);
  key ← onPtr inlineKMS key;
  mret {| auth_Name := auth_Name authority; Key := key; Keyless := keyless;
          Static := Static authority; Sources := Sources authority; CTLog := CTLog authority;
          Attestations := Attestations authority;
          auth_RFC3161Timestamp := auth_RFC3161Timestamp authority;
          GMSignature := GMSignature authority; SignatureFormat := SignatureFormat authority |}.

Definition with_Spec (cip : ClusterImagePolicy) (auths : list Authority) (policy : option Policy) :
    ClusterImagePolicy :=
  {| cip_TypeMeta := cip_TypeMeta cip; cip_ObjectMeta := cip_ObjectMeta cip;
     Spec := {| Images := Images (Spec cip); Authorities := auths; spec_Policy := policy;
                Mode := Mode (Spec cip); spec_Match := spec_Match (Spec cip) |};
     cip_Status := cip_Status cip |}.

Definition inlinePublicKeys (cip : ClusterImagePolicy) : M ClusterImagePolicy :=
  auths ← mapM (inlineAuthorityKeys cip) (Authorities (Spec cip));
  mret (with_Spec cip auths (spec_Policy (Spec cip))).

Definition set_Data (policyRef : Policy) (data : string) (remote : option RemotePolicy)
    (cmr : option ConfigMapReference) : Policy :=
  {| pol_Type := pol_Type policyRef; pol_Data := data; pol_Remote := remote; pol_ConfigMapRef := cmr;
     FetchConfigFile := FetchConfigFile policyRef; IncludeSpec := IncludeSpec policyRef;
     IncludeObjectMeta := IncludeObjectMeta policyRef; IncludeTypeMeta := IncludeTypeMeta policyRef |}.

(** [policyRef], whose [Remote] is [remote]. *)
Definition inlinePolicyURL (policyRef : Policy) (remote : RemotePolicy) : M Policy :=
  let url := urlString (rp_URL remote) in
  _ ← event (Download url);
  match http_Get env url with
  | Err err => failM ("failed to fetch content from policy url: " +:+ err)
  | Ok (statusCode, body) =>
  if (statusCode <? 200)%Z || (299 <? statusCode)%Z
  then failM ("failed to fetch content from policy url with code " +:+ QuoteRune statusCode) else
  match body with
  | Err err => failM ("failed to read policy url response: " +:+ err)
  | Ok data =>
      let sha256Sum := hex_EncodeToString (Sum256 data) in
      if sha256Sum !=s Sha256sum remote
      then failM ("failed to check sha256sum from policy remote: " +:+ Sha256sum remote +:+
                  " got " +:+ sha256Sum)
      else mret (set_Data policyRef data None (pol_ConfigMapRef policyRef))
  end end.

(** [policyRef], whose [ConfigMapRef] is [cmr]. *)
Definition inlineAndTrackConfigMap (cip : ClusterImagePolicy) (policyRef : Policy) (cmr : ConfigMapReference) : M Policy :=
  let cmName := cmr_Name cmr in
  let keyName := cmr_Key cmr in
  let reference := {| ref_APIVersion := "v1"; ref_Kind := "ConfigMap"; ref_Namespace := systemNamespace; ref_Name := cmName |} in
  _ ← event (Track reference (om_Name (cip_ObjectMeta cip)));
  match TrackReference env reference (om_Name (cip_ObjectMeta cip)) with
  | Some err => failM ("failed to track changes to configmap " +:+ quote cmName +:+ " : " +:+ err)
  | None =>
  _ ← event (Read "ConfigMap" systemNamespace cmName);
  match ConfigMaps_Get env systemNamespace cmName with
  | Err err => failM (GetError_Error err)
  | Ok cm =>
      if decide (cm = ∅) then failM ("configmap " +:+ quote cmName +:+ " contains no data") else
      let data := default "" (cm !! keyName) in
      if data ==s "" then failM ("configmap " +:+ quote cmName +:+ " does not contain key " +:+ keyName)
      else mret (set_Data policyRef data (pol_Remote policyRef) None)
  end end.

Definition inlineConfigMap (cip : ClusterImagePolicy) (policyRef : Policy) : M Policy :=
  match pol_ConfigMapRef policyRef with
  | Some cmr => inlineAndTrackConfigMap cip policyRef cmr
  | None => mret policyRef
  end.
Definition inlineRemote (policyRef : Policy) : M Policy :=
  match pol_Remote policyRef with
  | Some remote => inlinePolicyURL policyRef remote
  | None => mret policyRef
  end.

(** The policy of an attestation. The log line of a failed download prints
    [cip.Spec.Policy.Remote.URL], the policy of the whole CIP. *)
Definition inlineAttestation (cip : ClusterImagePolicy) (att : Attestation) : M Attestation :=
  policy ← onPtr (inlineConfigMap cip) (att_Policy att);
  policy ← catchM (onPtr inlineRemote policy) (λ err,
    match spec_Policy (Spec cip) with
    | Some p => match pol_Remote p with Some _ => failM err | None => panicM end
    | None => panicM
    end);
  mret {| att_Name := att_Name att; PredicateType := PredicateType att; att_Policy := policy |}.

Definition inlineAuthorityPolicies (cip : ClusterImagePolicy) (authority : Authority) : M Authority :=
  atts ← mapM (inlineAttestation cip) (Attestations authority);
  mret {| auth_Name := auth_Name authority; Key := Key authority; Keyless := Keyless authority;
          Static := Static authority; Sources := Sources authority; CTLog := CTLog authority;
          Attestations := atts; auth_RFC3161Timestamp := auth_RFC3161Timestamp authority;
          GMSignature := GMSignature authority; SignatureFormat := SignatureFormat authority |}.

Definition inlinePolicies (cip : ClusterImagePolicy) : M ClusterImagePolicy :=
  auths ← mapM (inlineAuthorityPolicies cip) (Authorities (Spec cip));
  policy ← onPtr (inlineConfigMap cip) (spec_Policy (Spec cip));
  policy ← onPtr inlineRemote policy;
  mret (with_Spec cip auths policy).

End Inlining.

(** * The ConfigMap of the webhook *)

Section Reconciler.
Context `{P : Parsers} `{KM : KMSPkg} `{JP : JSONPatch} `{JT : JsonText} `{CS : ConditionSets}.
Variable QuoteRune : Z → string.

(** What a call reads and meets of the ConfigMap: the lister's copy of it, which
    may be old, and an error of the write, if it makes one. *)
Record Meets := { existing : result GetError (gmap string string); fault : option string }.

(** The ConfigMap after a write, and the write's error. *)
Definition written (live : option (gmap string string)) (r : result string (gmap string string)) :
    option (gmap string string) * option string :=
  match r with Ok cm => (Some cm, None) | Err err => (live, Some err) end.

Definition removeCIPEntry (meets : Meets) (live : option (gmap string string)) (cm : gmap string string)
    (cipName : string) : option (gmap string string) * option string :=
  match CreateRemovePatch cm cipName with
  | Err err => (live, Some err)
  | Ok None => (live, None)
  | Ok (Some patchBytes) => written live (api_Patch (fault meets) live patchBytes)
  end.

Definition handleCIPError (meets : Meets) (live : option (gmap string string)) (cipName : string) :
    option (gmap string string) :=
  match existing meets with
  | Err _ => live
  | Ok cm => (removeCIPEntry meets live cm cipName).1
  end.

(** The text of a policy's entry. *)
Definition entryText (cipCopy : ClusterImagePolicy) : string :=
  jsonText (WebhookJSON.encode_ClusterImagePolicy
    (WebhookTypes.ConvertClusterImagePolicyV1alpha1ToWebhook cipCopy)).

(** Creating or patching the ConfigMap, in [ReconcileKind]. *)
Definition updateConfigMap (meets : Meets) (live : option (gmap string string)) (name text : string) :
    option (gmap string string) * option string :=
  match existing meets with
  | Err (GetFailed err) => (live, Some err)
  | Err (NotFound _) => written live (api_Create (fault meets) live (NewConfigMap name text))
  | Ok cm =>
      match CreatePatch name cm text with
      | Err err => (live, Some err)
      | Ok None => (live, None)
      | Ok (Some patchBytes) => written live (api_Patch (fault meets) live patchBytes)
      end
  end.

(** What a call leaves: the ConfigMap, the policy's status, the events, and how it
    ended. *)
Record Reconciled := {
  r_live : option (gmap string string);
  r_status : Status;
  r_log : list Event;
  r_out : outcome unit
}.

Definition ReconcileKind (env : Cluster) (meets : Meets) (live : option (gmap string string))
    (cip : ClusterImagePolicy) : Reconciled :=
  let name := om_Name (cip_ObjectMeta cip) in
  let status := InitializeConditions (duckStatus (cip_Status cip)) in
  match inlinePublicKeys env cip [] with
  | (log, Panics) => {| r_live := live; r_status := status; r_log := log; r_out := Panics |}
  | (log, Fails cipErr) =>
      {| r_live := handleCIPError meets live name; r_status := MarkInlineKeysFailed cipErr status;
         r_log := log; r_out := Fails cipErr |}
  | (log, Return cipCopy) =>
  let status := MarkInlineKeysOk status in
  match inlinePolicies QuoteRune env cipCopy log with
  | (log, Panics) => {| r_live := live; r_status := status; r_log := log; r_out := Panics |}
  | (log, Fails cipErr) =>
      {| r_live := handleCIPError meets live name; r_status := MarkInlinePoliciesFailed cipErr status;
         r_log := log; r_out := Fails cipErr |}
  | (log, Return cipCopy) =>
  let status := MarkInlinePoliciesOk status in
  match updateConfigMap meets live name (entryText cipCopy) with
  | (live, Some err) =>
      {| r_live := live; r_status := MarkCMUpdateFailed err status; r_log := log; r_out := Fails err |}
  | (live, None) =>
      {| r_live := live; r_status := MarkCMUpdatedOK status; r_log := log; r_out := Return tt |}
  end end end.

Definition FinalizeKind (meets : Meets) (live : option (gmap string string)) (cip : ClusterImagePolicy) :
    option (gmap string string) * option string :=
  match existing meets with
  | Err (GetFailed err) => (live, Some err)
  | Err (NotFound _) => (live, None)
  | Ok cm => removeCIPEntry meets live cm (om_Name (cip_ObjectMeta cip))
  end.

End Reconciler.
