(* ===== verification/ReconcileSpec.v ===== *)
(** What the controller of ClusterImagePolicies promises: a policy it publishes is
    complete and faithful to what its references hold, whatever it reads is
    tracked, its ConfigMap holds such policies only, and the webhook can read it. *)

From S2P Require Import Prelude.
From S2P Require Import Encoding.
From S2P Require Import Sha256.
From S2P Require Import Names.
From S2P Require Import FieldErrors.
From S2P Require Import PCConfig.
From S2P Require Import K8s.
From S2P Require Import Common.
From S2P Require V1beta1.
From S2P Require V1beta1Spec.
From S2P Require Import V1alpha1.
From S2P Require Conversion.
From S2P Require WebhookTypes.
From S2P Require WebhookJSON.
From S2P Require ImagePolicies.
From S2P Require Import ConfigMaps.
From S2P Require Import Lifecycle.
From S2P Require Import Reconcile.

#[local] Set Default Proof Using "Type*".

(** * Reasoning about calls *)

(** The call can return [a]. *)
Definition yields {A} (m : M A) (a : A) : Prop := ∃ log log', m log = (log', Return a).

Lemma yields_ret {A} (a b : A) : yields (mret a) b → a = b.
Proof. by intros (log & log' & [= _ ?]). Qed.
Lemma yields_fail {A} err (a : A) : ¬ yields (failM err) a.
Proof. by intros (log & log' & [=]). Qed.
Lemma yields_panic {A} (a : A) : ¬ yields panicM a.
Proof. by intros (log & log' & [=]). Qed.

Lemma yields_bind {A B} (m : M A) (f : A → M B) b :
  yields (m ≫= f) b → ∃ a, yields m a ∧ yields (f a) b.
Proof.
  intros (log & log' & H). unfold mbind, M_bind in H.
  destruct (m log) as [log1 [a|err|]] eqn:Hm; simplify_eq. exists a.
  split; [by exists log, log1|by exists log1, log'].
Qed.

Lemma yields_catch {A} (m : M A) h a : (∀ err, ¬ yields (h err) a) → yields (catchM m h) a → yields m a.
Proof.
  intros Hh (log & log' & H). unfold catchM in H.
  destruct (m log) as [log1 [b|err|]] eqn:Hm; simplify_eq; [by exists log, log'|].
  destruct (Hh err). by exists log1, log'.
Qed.

Lemma yields_onPtr {A} (f : A → M A) p p' :
  yields (onPtr f p) p' → option_Forall2 (λ a b, yields (f a) b) p p'.
Proof.
  destruct p as [a|]; cbn.
  - intros (b & Hb & <-%yields_ret)%yields_bind. by constructor.
  - intros <-%yields_ret. constructor.
Qed.

Lemma yields_mapM {A B} (f : A → M B) l l' :
  yields (mapM f l) l' → Forall2 (λ a b, yields (f a) b) l l'.
Proof.
  revert l'. induction l as [|a l IH]; intros l'; cbn.
  - intros <-%yields_ret. constructor.
  - intros (b & Hb & (k & Hk & <-%yields_ret)%yields_bind)%yields_bind.
    constructor; [done|]. by apply IH.
Qed.

(** Inverts a call made of the above. *)
Ltac invert_yields :=
  repeat match goal with
  | H : yields (failM _) _ |- _ => by destruct (yields_fail _ _ H)
  | H : yields panicM _ |- _ => by destruct (yields_panic _ H)
  | H : yields (mret _) _ |- _ => apply yields_ret in H
  | H : yields (_ ≫= _) _ |- _ => apply yields_bind in H as (? & ? & H)
  | H : yields (match ?x with _ => _ end) _ |- _ => destruct x eqn:?
  | H : yields (if ?x then _ else _) _ |- _ => destruct x eqn:?
  end; simplify_eq/=.

(** ** Tracking *)

Section Tracking.
Context `{P : Parsers}.

(** Whatever was read is a Secret or a ConfigMap of the system namespace, and the
    policy [obj] had been registered before to be told of the changes of this very
    object. *)
Definition source (kind : string) : Prop := kind = "Secret" ∨ kind = "ConfigMap".
Definition reference (kind namespace name : string) : TrackerReference :=
  {| ref_APIVersion := "v1"; ref_Kind := kind; ref_Namespace := namespace; ref_Name := name |}.
Definition registered (obj : string) (log : list Event) (kind namespace name : string) : Prop :=
  source kind ∧ namespace = systemNamespace ∧ Track (reference kind namespace name) obj ∈ log.
Definition tracked (obj : string) (log : list Event) : Prop :=
  ∀ i kind namespace name, log !! i = Some (Read kind namespace name) →
    registered obj (take i log) kind namespace name.
Definition tracks (obj : string) {A} (m : M A) : Prop := ∀ log, tracked obj log → tracked obj (m log).1.

Lemma tracked_app obj log e : tracked obj log →
  (∀ kind namespace name, e = Read kind namespace name → registered obj log kind namespace name) →
  tracked obj (log ++ [e]).
Proof.
  intros Hlog He i kind namespace name Hi. apply lookup_app_Some in Hi as [Hi|[Hle Hi]].
  - rewrite take_app_le by (apply lookup_lt_Some in Hi; lia). by apply Hlog.
  - apply list_lookup_singleton_Some in Hi as [Hi ->].
    rewrite take_app_le by lia. rewrite take_ge by lia. by apply He.
Qed.

Lemma tracks_ret obj {A} (a : A) : tracks obj (mret a).
Proof. by intros log Hlog. Qed.
Lemma tracks_fail obj {A} err : tracks obj (failM (A := A) err).
Proof. by intros log Hlog. Qed.
Lemma tracks_panic obj {A} : tracks obj (panicM (A := A)).
Proof. by intros log Hlog. Qed.
Lemma tracks_event obj e : (∀ kind namespace name, e ≠ Read kind namespace name) → tracks obj (event e).
Proof. intros He log Hlog. apply tracked_app; [done|]. intros kind namespace name ->. by destruct (He kind namespace name). Qed.
Lemma tracks_bind obj {A B} (m : M A) (f : A → M B) :
  tracks obj m → (∀ a, tracks obj (f a)) → tracks obj (m ≫= f).
Proof.
  intros Hm Hf log Hlog. unfold mbind, M_bind. specialize (Hm log Hlog).
  destruct (m log) as [log1 [a|err|]]; [by apply Hf|done..].
Qed.
Lemma tracks_catch obj {A} (m : M A) h : tracks obj m → (∀ err, tracks obj (h err)) → tracks obj (catchM m h).
Proof.
  intros Hm Hh log Hlog. unfold catchM. specialize (Hm log Hlog).
  destruct (m log) as [log1 [a|err|]]; [done|by apply Hh|done].
Qed.

(** Tracking an object and then, perhaps, reading it. *)
Lemma tracks_read obj {A} kind name (o : option string) (f : string → M A) (g : unit → M A) :
  source kind → (∀ err, tracks obj (f err)) → (∀ u, tracks obj (g u)) →
  tracks obj (event (Track (reference kind systemNamespace name) obj) ≫= λ _,
    match o with Some err => f err | None => event (Read kind systemNamespace name) ≫= g end).
Proof.
  intros Hk Hf Hg log Hlog. unfold mbind, M_bind, event.
  assert (tracked obj (log ++ [Track (reference kind systemNamespace name) obj])) by (by apply tracked_app).
  destruct o; [by apply Hf|]. apply Hg, tracked_app; [done|]. intros ? ? ? [= <- <- <-].
  split; [done|]. split; [done|]. apply elem_of_app. right. left.
Qed.
Lemma source_Secret : source "Secret".
Proof. by left. Qed.
Lemma source_ConfigMap : source "ConfigMap".
Proof. by right. Qed.

Lemma tracks_onPtr obj {A} (f : A → M A) p : (∀ a, tracks obj (f a)) → tracks obj (onPtr f p).
Proof.
  intros Hf. destruct p; [|apply tracks_ret]. apply tracks_bind; [done|]. intros ?. apply tracks_ret.
Qed.
Lemma tracks_mapM obj {A B} (f : A → M B) l : (∀ a, tracks obj (f a)) → tracks obj (mapM f l).
Proof.
  intros Hf. induction l as [|a l IH]; [apply tracks_ret|].
  apply tracks_bind; [done|]. intros b. apply tracks_bind; [done|]. intros bs. apply tracks_ret.
Qed.

End Tracking.

Create HintDb tracks discriminated.
#[export] Hint Resolve tracks_ret tracks_fail tracks_panic tracks_bind tracks_catch tracks_read source_Secret source_ConfigMap
  tracks_onPtr tracks_mapM : tracks.

(** * Inlined policies *)

Lemma map_to_list_one (m : gmap string string) k v : map_to_list m = [(k, v)] → m = {[k := v]}.
Proof. intros Hm. apply map_to_list_inj. by rewrite Hm, map_to_list_singleton. Qed.

Section Inlined.
Context `{P : Parsers} `{KM : KMSPkg}.
Variable QuoteRune : Z → string.
Variable env : Cluster.

(** The key of a Secret that has exactly one entry, a public key. *)
Definition secretKey (name data : string) : Prop :=
  (∃ k, Secrets_Get env systemNamespace name = Ok {[ k := data ]}) ∧
  ∃ pk, UnmarshalPEMToPublicKey data = Ok (Some pk).

(** What a ca-cert becomes: its Secret is replaced by the key it holds. *)
Definition secret_inlined (k k' : KeyRef) : Prop :=
  SecretRef k' = None ∧ KMS k' = KMS k ∧ key_HashAlgorithm k' = key_HashAlgorithm k ∧
  match SecretRef k with
  | Some ref => secretKey (secret_Name ref) (key_Data k')
  | None => key_Data k' = key_Data k
  end.

(** The key the KMS gives for an id and a supported hash algorithm. *)
Definition kmsKey (keyID hashAlgorithm data : string) : Prop :=
  ∃ algorithm signer, HashAlgorithm hashAlgorithm = (algorithm, None) ∧
    kms_Get keyID algorithm = Ok signer ∧ PublicKeyPem signer = Ok data.

(** What the key of an authority becomes: a KMS URI is replaced as well. *)
Definition key_inlined (k k' : KeyRef) : Prop :=
  SecretRef k' = None ∧ Contains (KMS k') "://" = false ∧ key_HashAlgorithm k' = key_HashAlgorithm k ∧
  if Contains (KMS k) "://" then
    KMS k' = "" ∧ kmsKey (KMS k) (key_HashAlgorithm k) (key_Data k') ∧
    ∀ ref, SecretRef k = Some ref → ∃ data, secretKey (secret_Name ref) data
  else KMS k' = KMS k ∧
       match SecretRef k with
       | Some ref => secretKey (secret_Name ref) (key_Data k')
       | None => key_Data k' = key_Data k
       end.

(** A download that succeeded and has the checksum asked for. *)
Definition downloaded (r : RemotePolicy) (data : string) : Prop :=
  ∃ code, http_Get env (urlString (rp_URL r)) = Ok (code, Ok data) ∧ (200 ≤ code ≤ 299)%Z ∧
          hex_EncodeToString (Sum256 data) = Sha256sum r.

(** The value of a ConfigMap's key. *)
Definition configMapData (c : ConfigMapReference) (data : string) : Prop :=
  ∃ cm, ConfigMaps_Get env systemNamespace (cmr_Name c) = Ok cm ∧ cm !! cmr_Key c = Some data ∧ data ≠ "".

(** What a policy becomes: only its data and its references change. *)
Definition policy_inlined (p p' : Policy) : Prop :=
  p' = set_Data p (pol_Data p') None None ∧
  match pol_Remote p, pol_ConfigMapRef p with
  | Some r, ref => downloaded r (pol_Data p') ∧ ∀ c, ref = Some c → ∃ data, configMapData c data
  | None, Some c => configMapData c (pol_Data p')
  | None, None => pol_Data p' = pol_Data p
  end.

Definition attestation_inlined (a a' : Attestation) : Prop :=
  att_Name a' = att_Name a ∧ PredicateType a' = PredicateType a ∧
  option_Forall2 policy_inlined (att_Policy a) (att_Policy a').

Definition keyless_inlined (k k' : KeylessRef) : Prop :=
  keyless_URL k' = keyless_URL k ∧ Identities k' = Identities k ∧
  option_Forall2 secret_inlined (CACert k) (CACert k') ∧
  keyless_TrustRootRef k' = keyless_TrustRootRef k ∧ InsecureIgnoreSCT k' = InsecureIgnoreSCT k.

Definition authority_inlined (a a' : Authority) : Prop :=
  option_Forall2 key_inlined (Key a) (Key a') ∧
  option_Forall2 keyless_inlined (Keyless a) (Keyless a') ∧
  Forall2 attestation_inlined (Attestations a) (Attestations a') ∧
  (auth_Name a', Static a', Sources a', CTLog a', auth_RFC3161Timestamp a', GMSignature a', SignatureFormat a') =
  (auth_Name a, Static a, Sources a, CTLog a, auth_RFC3161Timestamp a, GMSignature a, SignatureFormat a).

(** What a whole policy becomes. *)
Definition inlined (cip cip' : ClusterImagePolicy) : Prop :=
  Forall2 authority_inlined (Authorities (Spec cip)) (Authorities (Spec cip')) ∧
  option_Forall2 policy_inlined (spec_Policy (Spec cip)) (spec_Policy (Spec cip')) ∧
  cip' = with_Spec cip (Authorities (Spec cip')) (spec_Policy (Spec cip')).

(** ** The calls do that *)

Lemma inlineSecret_yields cip k k' : yields (inlineSecret env cip k) k' → secret_inlined k k'.
Proof.
  unfold inlineSecret, secret_inlined, secretKey. destruct (SecretRef k) as [ref|] eqn:Hr.
  - unfold inlineAndTrackSecret. intros H. invert_yields. split_and!; try done; [|by eexists].
    match goal with Hm : map_to_list _ = _ |- _ => apply map_to_list_one in Hm as -> end. by eexists.
  - intros <-%yields_ret. done.
Qed.

Lemma HashAlgorithm_default : HashAlgorithm "" = (SHA256, None).
Proof. vm_compute. reflexivity. Qed.

Lemma getKMSPublicKey_yields keyID hash data :
  yields (getKMSPublicKey keyID hash) data → kmsKey keyID hash data.
Proof.
  unfold getKMSPublicKey, kmsKey. destruct (String.eqb_spec hash "") as [->|Hh]; cbn [negb]; intros H.
  - rewrite HashAlgorithm_default. invert_yields. by eexists _, _.
  - invert_yields. by eexists _, _.
Qed.

Lemma inlineKMS_yields k k1 k' : secret_inlined k k1 → yields (inlineKMS k1) k' → key_inlined k k'.
Proof.
  intros (Hs & Hk1 & Hh & Hd) Hk. unfold inlineKMS in Hk. unfold key_inlined. rewrite Hk1, Hh in Hk.
  destruct (Contains (KMS k) "://") eqn:Hc; invert_yields.
  - split_and!; try done; [by apply getKMSPublicKey_yields|]. intros ref Hr. rewrite Hr in Hd. by eexists.
  - split_and!; try done. by rewrite Hk1.
Qed.

Lemma inlinePolicy_yields cip p p1 p' :
  yields (inlineConfigMap env cip p) p1 → yields (inlineRemote QuoteRune env p1) p' → policy_inlined p p'.
Proof.
  unfold inlineConfigMap, inlineRemote, inlineAndTrackConfigMap, inlinePolicyURL, policy_inlined, downloaded,
    configMapData.
  intros H1 H2. destruct (pol_ConfigMapRef p) as [c|] eqn:Hc;
    [|apply yields_ret in H1 as <-]; destruct (pol_Remote p) as [r|] eqn:Hr; invert_yields; reflect_bools.
  - split_and!; [done|eexists; split_and!; [done|lia|lia|done]|]. intros ? [= <-]. eexists _, _.
    split_and!; [done| |eassumption]. by destruct (_ !! _).
  - split; [done|]. eexists. split_and!; [done| |done]. by destruct (_ !! _).
  - split_and!; [by rewrite Hc|eexists; split_and!; [done|lia|lia|done]|done].
  - split; [|done]. destruct p'; cbn in *. by subst.
Qed.

Lemma option_Forall2_comp {A} (R S T : A → A → Prop) o1 o2 o3 :
  (∀ a b c, R a b → S b c → T a c) →
  option_Forall2 R o1 o2 → option_Forall2 S o2 o3 → option_Forall2 T o1 o3.
Proof. intros HT [a b HR|]; inversion 1; subst; constructor; eauto. Qed.

Lemma option_Forall2_weaken {A} (R S : A → A → Prop) o1 o2 :
  option_Forall2 R o1 o2 → (∀ a b, R a b → S a b) → option_Forall2 S o1 o2.
Proof. intros [a b HR|] HS; constructor; auto. Qed.

Lemma inlineCACert_yields cip k k' : yields (inlineCACert env cip k) k' → keyless_inlined k k'.
Proof.
  intros (ca & Hca%yields_onPtr & <-%yields_ret)%yields_bind. unfold keyless_inlined. cbn.
  split_and!; try done. eapply option_Forall2_weaken; [exact Hca|]. intros ? ?. apply inlineSecret_yields.
Qed.

Lemma inlineAuthorityKeys_yields cip a a1 : yields (inlineAuthorityKeys env cip a) a1 →
  option_Forall2 key_inlined (Key a) (Key a1) ∧
  option_Forall2 keyless_inlined (Keyless a) (Keyless a1) ∧
  a1 = {| auth_Name := auth_Name a; Key := Key a1; Keyless := Keyless a1; Static := Static a;
          Sources := Sources a; CTLog := CTLog a; Attestations := Attestations a;
          auth_RFC3161Timestamp := auth_RFC3161Timestamp a; GMSignature := GMSignature a;
          SignatureFormat := SignatureFormat a |}.
Proof.
  intros (k1 & Hk1%yields_onPtr & (ks & Hks%yields_onPtr & (k & Hk%yields_onPtr &
    <-%yields_ret)%yields_bind)%yields_bind)%yields_bind.
  split_and!; [..|done].
  - eapply option_Forall2_comp; [|exact Hk1|exact Hk]. intros ? ? ? ?%inlineSecret_yields.
    by apply inlineKMS_yields.
  - eapply option_Forall2_weaken; [exact Hks|]. intros ? ?. apply inlineCACert_yields.
Qed.

Lemma inlineAttestation_yields sp att att' :
  yields (inlineAttestation QuoteRune env sp att) att' → attestation_inlined att att'.
Proof.
  intros (p1 & H1%yields_onPtr & (p & H2 & <-%yields_ret)%yields_bind)%yields_bind.
  apply yields_catch, yields_onPtr in H2.
  - split_and!; [done..|]. eapply option_Forall2_comp; [|exact H1|exact H2]. apply inlinePolicy_yields.
  - intros err Herr. destruct (spec_Policy (Spec sp)) as [q|]; [destruct (pol_Remote q)|]; invert_yields.
Qed.

Lemma inlineAuthorityPolicies_yields sp a a' :
  yields (inlineAuthorityPolicies QuoteRune env sp a) a' →
  Forall2 attestation_inlined (Attestations a) (Attestations a') ∧
  a' = {| auth_Name := auth_Name a; Key := Key a; Keyless := Keyless a; Static := Static a;
          Sources := Sources a; CTLog := CTLog a; Attestations := Attestations a';
          auth_RFC3161Timestamp := auth_RFC3161Timestamp a; GMSignature := GMSignature a;
          SignatureFormat := SignatureFormat a |}.
Proof.
  intros (atts & Ha%yields_mapM & <-%yields_ret)%yields_bind. split; [|done].
  eapply Forall2_impl; [exact Ha|]. intros ? ?. apply inlineAttestation_yields.
Qed.

Lemma Forall2_comp {A} (R S T : A → A → Prop) l1 l2 l3 :
  (∀ a b c, R a b → S b c → T a c) → Forall2 R l1 l2 → Forall2 S l2 l3 → Forall2 T l1 l3.
Proof. intros HT HR. revert l3. induction HR; inversion 1; subst; constructor; eauto. Qed.

Lemma inline_yields cip cip1 cip' :
  yields (inlinePublicKeys env cip) cip1 → yields (inlinePolicies QuoteRune env cip1) cip' →
  inlined cip cip'.
Proof.
  intros (auths & Ha%yields_mapM & <-%yields_ret)%yields_bind.
  intros (auths' & Ha'%yields_mapM & (p1 & H1%yields_onPtr &
    (p & H2%yields_onPtr & <-%yields_ret)%yields_bind)%yields_bind)%yields_bind.
  split_and!; [| |done].
  - eapply Forall2_comp; [|exact Ha|exact Ha']. clear. intros a a1 a'.
    intros (Hk & Hks & ->)%inlineAuthorityKeys_yields (Hatt & ->)%inlineAuthorityPolicies_yields. by split_and!.
  - eapply option_Forall2_comp; [|exact H1|exact H2]. apply inlinePolicy_yields.
Qed.

(** ** and they do it whenever it can be done *)

Definition always {A} (m : M A) (a : A) : Prop := ∀ log, ∃ log', m log = (log', Return a).

Lemma always_ret {A} (a : A) : always (mret a) a.
Proof. intros log. by exists log. Qed.
Lemma always_event e : always (event e) tt.
Proof. intros log. by eexists. Qed.
Lemma always_bind {A B} (m : M A) (f : A → M B) a b :
  always m a → always (f a) b → always (m ≫= f) b.
Proof.
  intros Hm Hf log. destruct (Hm log) as [log1 H1]. destruct (Hf log1) as [log' H2].
  exists log'. unfold mbind, M_bind. by rewrite H1.
Qed.
Lemma always_catch {A} (m : M A) h a : always m a → always (catchM m h) a.
Proof. intros Hm log. destruct (Hm log) as [log' H]. exists log'. unfold catchM. by rewrite H. Qed.
Lemma always_onPtr {A} (f : A → M A) p p' :
  option_Forall2 (λ a b, always (f a) b) p p' → always (onPtr f p) p'.
Proof. intros [a b Hab|]; [|apply always_ret]. eapply always_bind; [done|]. apply always_ret. Qed.
Lemma always_mapM {A B} (f : A → M B) l l' :
  Forall2 (λ a b, always (f a) b) l l' → always (mapM f l) l'.
Proof.
  induction 1; [apply always_ret|]. eapply always_bind; [done|].
  eapply always_bind; [done|]. apply always_ret.
Qed.

Section Completeness.
Hypothesis tracker : ∀ ref obj, TrackReference env ref obj = None.

Lemma inlineSecret_always cip k k' : secret_inlined k k' → always (inlineSecret env cip k) k'.
Proof.
  intros (Hs & Hk & Hh & Hd). unfold inlineSecret. destruct (SecretRef k) as [ref|] eqn:Hr.
  - destruct Hd as [[key Hget] [pk Hpk]]. unfold inlineAndTrackSecret.
    eapply always_bind; [apply always_event|]. rewrite tracker.
    eapply always_bind; [apply always_event|]. rewrite Hget, map_to_list_singleton, Hpk.
    destruct k'; cbn in *; subst. apply always_ret.
  - destruct k, k'; cbn in *; subst. apply always_ret.
Qed.

Lemma inlineKMS_always k k1 k' : secret_inlined k k1 → key_inlined k k' →
  (Contains (KMS k) "://" = false → key_Data k1 = key_Data k') → always (inlineKMS k1) k'.
Proof.
  intros (Hs1 & Hk1 & Hh1 & _) (Hs & _ & Hh & Hd) Heq. unfold inlineKMS. rewrite Hk1, Hh1.
  destruct (Contains (KMS k) "://") eqn:Hc.
  - destruct Hd as (Hk & (alg & signer & Hal & Hg & Hp) & _). unfold getKMSPublicKey.
    eapply always_bind; [eapply (always_bind _ _ alg)|].
    + destruct (String.eqb_spec (key_HashAlgorithm k) "") as [He|]; cbn [negb].
      * rewrite He, HashAlgorithm_default in Hal. injection Hal as <-. apply always_ret.
      * rewrite Hal. apply always_ret.
    + rewrite Hg, Hp. apply always_ret.
    + destruct k', k1; cbn in *; subst. apply always_ret.
  - specialize (Heq eq_refl). destruct Hd as [Hk _]. destruct k', k1; cbn in *; subst. apply always_ret.
Qed.

(** The key in between the two steps. *)
Lemma key_between k k' : key_inlined k k' →
  ∃ k1, secret_inlined k k1 ∧ (Contains (KMS k) "://" = false → key_Data k1 = key_Data k').
Proof.
  intros (Hs & _ & Hh & Hd). destruct (Contains (KMS k) "://") eqn:Hc.
  - destruct Hd as (_ & _ & Href). destruct (SecretRef k) as [ref|] eqn:Hr.
    + destruct (Href ref eq_refl) as [data Hdata].
      exists {| SecretRef := None; key_Data := data; KMS := KMS k; key_HashAlgorithm := key_HashAlgorithm k |}.
      split; [|done]. unfold secret_inlined. rewrite Hr. by split_and!.
    + exists k. split; [|done]. unfold secret_inlined. rewrite Hr. by split_and!.
  - exists k'. split; [|done]. unfold secret_inlined. destruct Hd as [? Hd]. by destruct (SecretRef k); split_and!.
Qed.

Lemma inlineKey_always cip k k' : option_Forall2 key_inlined k k' →
  ∃ k1, always (onPtr (inlineSecret env cip) k) k1 ∧ always (onPtr inlineKMS k1) k'.
Proof.
  intros [a b Hk|]; [|exists None; split; apply always_ret].
  destruct (key_between _ _ Hk) as (k1 & Hs & Hd). exists (Some k1).
  split; apply always_onPtr; constructor; [by apply inlineSecret_always|by eapply inlineKMS_always].
Qed.

Lemma inlineCACert_always cip k k' : keyless_inlined k k' → always (inlineCACert env cip k) k'.
Proof.
  intros (Hu & Hi & Hca & Ht & Hsct). eapply always_bind.
  - apply always_onPtr. eapply option_Forall2_weaken; [exact Hca|]. intros ? ?. apply inlineSecret_always.
  - destruct k'; cbn in *; subst. apply always_ret.
Qed.

Lemma inlineConfigMap_always cip c p data : pol_ConfigMapRef p = Some c → configMapData c data →
  always (inlineConfigMap env cip p) (set_Data p data (pol_Remote p) None).
Proof.
  intros Hc (cm & Hget & Hl & Hne). unfold inlineConfigMap, inlineAndTrackConfigMap. rewrite Hc.
  eapply always_bind; [apply always_event|]. rewrite tracker.
  eapply always_bind; [apply always_event|]. rewrite Hget, decide_False by (intros ->; by rewrite lookup_empty in Hl).
  apply String.eqb_neq in Hne. cbv zeta. rewrite Hl. cbn [default from_option id].
  rewrite Hne. apply always_ret.
Qed.

Lemma inlinePolicyURL_always p r data : downloaded r data →
  always (inlinePolicyURL QuoteRune env p r) (set_Data p data None (pol_ConfigMapRef p)).
Proof.
  intros (code & Hget & Hcode & Hsum). unfold inlinePolicyURL.
  eapply always_bind; [apply always_event|]. rewrite Hget, Hsum, String.eqb_refl.
  rewrite (proj2 (Z.ltb_ge code 200)), (proj2 (Z.ltb_ge 299 code)) by lia. apply always_ret.
Qed.

Lemma inlinePolicy_always cip p p' : option_Forall2 policy_inlined p p' →
  ∃ p1, always (onPtr (inlineConfigMap env cip) p) p1 ∧ always (onPtr (inlineRemote QuoteRune env) p1) p'.
Proof.
  intros [q q' [Heq Hq]|]; [|exists None; split; apply always_ret].
  destruct (pol_ConfigMapRef q) as [c|] eqn:Hc.
  - assert (∃ data, configMapData c data ∧ (pol_Remote q = None → data = pol_Data q')) as (data & Hd & Hnone).
    { destruct (pol_Remote q); [|by exists (pol_Data q')]. destruct Hq as [_ Hq].
      destruct (Hq c eq_refl) as [data ?]. by exists data. }
    eexists. split; [apply always_onPtr; constructor; by eapply inlineConfigMap_always|].
    apply always_onPtr. constructor. unfold inlineRemote. cbn [pol_Remote set_Data].
    destruct (pol_Remote q); [|rewrite Hnone, <-Heq by done; apply always_ret].
    rewrite Heq. apply (inlinePolicyURL_always (set_Data q data _ None)), Hq.
  - exists (Some q). unfold inlineConfigMap, inlineRemote.
    split; apply always_onPtr; constructor; [rewrite Hc; apply always_ret|].
    destruct (pol_Remote q) eqn:Hr.
    + rewrite Heq. rewrite <-Hc. apply inlinePolicyURL_always, Hq.
    + rewrite Heq, Hq. destruct q; cbn in *; subst. apply always_ret.
Qed.

Lemma inlineAttestation_always sp att att' :
  attestation_inlined att att' → always (inlineAttestation QuoteRune env sp att) att'.
Proof.
  intros (Hn & Ht & (p1 & H1 & H2)%(inlinePolicy_always sp)). eapply always_bind; [exact H1|].
  eapply always_bind; [apply always_catch; exact H2|]. destruct att'; cbn in *; subst. apply always_ret.
Qed.

(** Everything but the attestations, and then the attestations. *)
Lemma authority_between cip a a' : authority_inlined a a' → ∃ a1,
  always (inlineAuthorityKeys env cip a) a1 ∧
  ∀ sp, always (inlineAuthorityPolicies QuoteRune env sp a1) a'.
Proof.
  intros ((k1 & H1 & H2)%(inlineKey_always cip) & Hks & Hatts & Hrest). eexists. split.
  - eapply always_bind; [exact H1|]. eapply always_bind; [|eapply always_bind; [exact H2|apply always_ret]].
    apply always_onPtr. eapply option_Forall2_weaken; [exact Hks|]. intros ? ?. apply inlineCACert_always.
  - intros sp. eapply always_bind.
    + apply always_mapM. eapply Forall2_impl; [exact Hatts|]. intros ? ?. apply inlineAttestation_always.
    + destruct a'; cbn in *; simplify_eq. apply always_ret.
Qed.

Lemma inline_always cip cip' : inlined cip cip' →
  always (inlinePublicKeys env cip ≫= inlinePolicies QuoteRune env) cip'.
Proof.
  intros (Ha & Hpol & Heq).
  assert (∃ auths, Forall2 (λ a a1, always (inlineAuthorityKeys env cip a) a1) (Authorities (Spec cip)) auths ∧
    ∀ sp, Forall2 (λ a1 a', always (inlineAuthorityPolicies QuoteRune env sp a1) a') auths
            (Authorities (Spec cip'))) as (auths & Hk & Hp).
  { clear -Ha tracker. induction Ha as [|a a' l l' Haa _ (auths & ? & ?)]; [by exists []|].
    destruct (authority_between cip _ _ Haa) as (a1 & ? & ?). exists (a1 :: auths).
    split; [by constructor|]. intros sp. constructor; auto. }
  destruct (inlinePolicy_always (with_Spec cip auths (spec_Policy (Spec cip))) _ _ Hpol) as (p1 & H1 & H2).
  eapply always_bind; [eapply always_bind; [by apply always_mapM|apply always_ret]|].
  eapply always_bind; [apply always_mapM, Hp|]. eapply always_bind; [exact H1|].
  eapply always_bind; [exact H2|]. rewrite Heq. apply always_ret.
Qed.

End Completeness.

(** ** and track what they read *)

Lemma inlineSecret_tracks cip k : tracks (om_Name (cip_ObjectMeta cip)) (inlineSecret env cip k).
Proof.
  unfold inlineSecret, inlineAndTrackSecret. destruct (SecretRef k); [|auto with tracks].
  apply tracks_read; [auto with tracks..|]. intros _. repeat case_match; auto with tracks.
Qed.
Lemma inlineConfigMap_tracks cip p : tracks (om_Name (cip_ObjectMeta cip)) (inlineConfigMap env cip p).
Proof.
  unfold inlineConfigMap, inlineAndTrackConfigMap. destruct (pol_ConfigMapRef p); [|auto with tracks].
  apply tracks_read; [auto with tracks..|]. intros _. repeat case_match; auto with tracks.
Qed.
Lemma inlineRemote_tracks obj p : tracks obj (inlineRemote QuoteRune env p).
Proof.
  unfold inlineRemote, inlinePolicyURL. destruct (pol_Remote p); [|auto with tracks].
  apply tracks_bind; [by apply tracks_event|]. intros _. repeat case_match; auto with tracks.
Qed.
Lemma inlineKMS_tracks obj k : tracks obj (inlineKMS k).
Proof.
  unfold inlineKMS, getKMSPublicKey. case_match; [|auto with tracks].
  apply tracks_bind; [|auto with tracks]. apply tracks_bind; [repeat case_match; auto with tracks|].
  intros ?. repeat case_match; auto with tracks.
Qed.
#[local] Hint Resolve inlineSecret_tracks inlineConfigMap_tracks inlineRemote_tracks inlineKMS_tracks : tracks.

Lemma inlinePublicKeys_tracks cip : tracks (om_Name (cip_ObjectMeta cip)) (inlinePublicKeys env cip).
Proof.
  apply tracks_bind; [|auto with tracks]. apply tracks_mapM. intros a. unfold inlineAuthorityKeys.
  apply tracks_bind; [auto with tracks|]. intros k. apply tracks_bind; [|auto with tracks].
  apply tracks_onPtr. intros ks. apply tracks_bind; auto with tracks.
Qed.

Lemma inlineAttestation_tracks cip att : tracks (om_Name (cip_ObjectMeta cip)) (inlineAttestation QuoteRune env cip att).
Proof.
  apply tracks_bind; [auto with tracks|]. intros p. apply tracks_bind; [|auto with tracks].
  apply tracks_catch; [auto with tracks|]. intros err. repeat case_match; auto with tracks.
Qed.

Lemma inlinePolicies_tracks cip : tracks (om_Name (cip_ObjectMeta cip)) (inlinePolicies QuoteRune env cip).
Proof.
  apply tracks_bind; [|auto with tracks]. apply tracks_mapM. intros a.
  apply tracks_bind; [|auto with tracks]. apply tracks_mapM, inlineAttestation_tracks.
Qed.

End Inlined.

(** * What the webhook makes of it *)

Section Readable.
Context `{N : NamePkg} `{P : Parsers} `{F : FieldErrors} `{KM : KMSPkg}.

(** The keys of a validated authority are readable. *)
Definition readable_key (k : KeyRef) : Prop :=
  (HashAlgorithm (key_HashAlgorithm k)).2 = None ∧
  (key_Data k ≠ "" → is_Ok (UnmarshalPEMToPublicKey (key_Data k))).
Definition readable_source (s : Source) : Prop :=
  OCI s ≠ "" → is_Ok (NewRepository [] (OCI s)).

Lemma KeyRef_Validate_readable k : Accepts (KeyRef_Validate k) → readable_key k.
Proof.
  rewrite <-Conversion.KeyRef_Validate_to_beta, V1beta1Spec.KeyRef_Validate_wf.
  intros (_ & Hh & Hd & _). split; [done|]. intros Hne. destruct (Hd Hne) as [pk Hpk]. by eexists.
Qed.

Lemma Accepts_match_option {A} errs (o : option A) (f : A → option FieldError) :
  (∀ x, Accepts (f x) → Accepts errs) →
  Accepts (match o with Some x => f x | None => errs end) → Accepts errs.
Proof. destruct o; eauto. Qed.

Lemma Authority_Validate_keys ctx a : Accepts (Authority_Validate ctx a) →
  (∀ k, Key a = Some k → readable_key k) ∧
  (∀ keyless ca, Keyless a = Some keyless → CACert keyless = Some ca → readable_key ca).
Proof.
  unfold Authority_Validate. cbv zeta.
  destruct (verifiersSet a =? 0)%nat; [autorewrite with accepts; tauto|].
  destruct (1 <? verifiersSet a)%nat; [autorewrite with accepts; tauto|].
  rewrite Accepts_foldl. intros [Hs _].
  assert (Hs' : ∀ errs, Accepts (if (1 <? length (Sources a))%nat
    then errs ⊕ Some (ErrInvalidValue "source" "source" ["only single source is supported"])
    else AlsoEach errs "source" (Sources a) Source_Validate) → Accepts errs).
  { intros errs. destruct (1 <? _)%nat; autorewrite with accepts; tauto. }
  apply Hs' in Hs. clear Hs'.
  apply Accepts_match_option in Hs; [|intros ?; autorewrite with accepts; tauto].
  apply Accepts_match_option in Hs; [|intros ?; autorewrite with accepts; tauto].
  rewrite !V1beta1Spec.Accepts_ViaOption in Hs. destruct Hs as [[_ Hk] Hks]. split.
  - intros k Hkey. by apply KeyRef_Validate_readable, Hk.
  - intros keyless ca Hkl Hca. specialize (Hks keyless Hkl). revert Hks.
    unfold KeylessRef_Validate. cbv zeta.
    rewrite Accepts_AlsoEach, Accepts_AlsoIf, V1beta1Spec.Accepts_ViaOption. intros [[[_ Hc] _] _].
    by apply KeyRef_Validate_readable, Hc.
Qed.

(** Inlining keeps keys readable. *)
Section Kept.
Variable env : Cluster.
Hypothesis PublicKeyPem_parses : ∀ signer pem,
  PublicKeyPem signer = Ok pem → is_Ok (UnmarshalPEMToPublicKey pem).

Lemma secret_inlined_readable k k' : secret_inlined env k k' → readable_key k → readable_key k'.
Proof.
  intros (_ & _ & Hh & Hd) [Hr Hk]. unfold readable_key. rewrite Hh. split; [done|].
  destruct (SecretRef k); [|by rewrite Hd]. destruct Hd as [_ [pk Hpk]]. intros _. by eexists.
Qed.

Lemma key_inlined_readable k k' : key_inlined env k k' → readable_key k → readable_key k'.
Proof.
  intros (_ & _ & Hh & Hd) [Hr Hk]. unfold readable_key. rewrite Hh. split; [done|].
  destruct (Contains (KMS k) "://").
  - destruct Hd as (_ & (alg & signer & _ & _ & Hp) & _). intros _. by eapply PublicKeyPem_parses.
  - destruct Hd as [_ Hd]. destruct (SecretRef k); [|by rewrite Hd].
    destruct Hd as [_ [pk Hpk]]. intros _. by eexists.
Qed.
End Kept.

Lemma populate_convert_key k : readable_key k →
  is_Ok (WebhookJSON.populate_ptr WebhookJSON.populate_KeyRef
    (WebhookTypes.convertKeyRefV1Alpha1ToWebhook (Some k))).
Proof.
  intros [Hh Hd]. cbn. unfold WebhookJSON.populate_KeyRef.
  destruct (String.eqb_spec (key_HashAlgorithm k) "") as [He|He]; cbn [negb].
  - cbn -[HashAlgorithm String.eqb]. change (DefaultSignatureAlgorithm ==s "") with false. cbn [negb].
    assert (HashAlgorithm DefaultSignatureAlgorithm = (SHA256, None)) as -> by (vm_compute; reflexivity).
    cbn. destruct (String.eqb_spec (key_Data k) ""); cbn [negb]; [by eexists|].
    destruct (Hd ltac:(done)) as [pk ->]. by eexists.
  - apply String.eqb_neq in He. cbn -[HashAlgorithm String.eqb]. rewrite He. cbn [negb].
    destruct (HashAlgorithm (key_HashAlgorithm k)) as [alg [err|]]; [done|].
    cbn. destruct (String.eqb_spec (key_Data k) ""); cbn [negb]; [by eexists|].
    destruct (Hd ltac:(done)) as [pk ->]. by eexists.
Qed.

Lemma is_Ok_bind {E A B} (r : result E A) (f : A → result E B) :
  is_Ok r → (∀ a, is_Ok (f a)) → is_Ok (r ≫= f).
Proof. intros [a ->] Hf. apply Hf. Qed.
Lemma is_Ok_mapM {E A B} (f : A → result E B) l : (∀ a, a ∈ l → is_Ok (f a)) → is_Ok (mapM f l).
Proof.
  induction l as [|a l IH]; intros Hf; [by eexists|].
  apply is_Ok_bind; [apply Hf; left|]. intros b. apply is_Ok_bind; [|by eexists].
  apply IH. intros c Hc. apply Hf. by right.
Qed.

Lemma populate_convert_authority a :
  (∀ k, Key a = Some k → readable_key k) →
  (∀ keyless ca, Keyless a = Some keyless → CACert keyless = Some ca → readable_key ca) →
  Forall readable_source (Sources a) →
  is_Ok (WebhookJSON.populate_Authority (WebhookTypes.convertAuthorityV1Alpha1ToWebhook a)).
Proof.
  intros Hk Hks Hs. unfold WebhookJSON.populate_Authority.
  cbn [WebhookTypes.Key WebhookTypes.Keyless WebhookTypes.convertAuthorityV1Alpha1ToWebhook].
  apply is_Ok_bind; [|intros key; apply is_Ok_bind; [|intros keyless]].
  - destruct (Key a) as [k|]; [|by eexists]. by apply populate_convert_key, Hk.
  - destruct (Keyless a) as [k|]; [|by eexists]. specialize (Hks k). cbn.
    assert (is_Ok (WebhookJSON.populate_ptr WebhookJSON.populate_KeyRef
      (WebhookTypes.convertKeyRefV1Alpha1ToWebhook (CACert k)))) as [ca Hca].
    { destruct (CACert k) as [ca|]; [|by eexists]. by apply populate_convert_key, Hks. }
    unfold WebhookJSON.populate_KeylessRef. cbn [WebhookTypes.CACert]. rewrite Hca. by eexists.
  - unfold WebhookJSON.addRemoteOpts. apply is_Ok_bind; [|by eexists].
    apply is_Ok_mapM. intros src Hsrc. cbn in Hsrc. rewrite Forall_forall in Hs. specialize (Hs src Hsrc).
    unfold WebhookJSON.sourceRemoteOpts, readable_source in *. apply is_Ok_bind; [|by eexists].
    destruct (String.eqb_spec (OCI src) ""); cbn [negb]; [by eexists|].
    destruct (Hs ltac:(done)) as [repo ->]. by eexists.
Qed.

End Readable.

(** * The properties of inlining *)

Section Properties.
Context `{P : Parsers} `{KM : KMSPkg}.
Variable QuoteRune : Z → string.

Lemma inline_iff (env : Cluster) (cip cip' : ClusterImagePolicy) :
  (∀ ref obj, TrackReference env ref obj = None) →
  (∃ log, (inlinePublicKeys env cip ≫= inlinePolicies QuoteRune env) [] = (log, Return cip')) ↔
  inlined env cip cip'.
Proof.
  intros Htrack. split.
  - intros (log & H). assert (yields (inlinePublicKeys env cip ≫= inlinePolicies QuoteRune env) cip')
      as (cip1 & H1 & H2)%yields_bind by (by eexists _, _).
    by eapply inline_yields.
  - intros Hi. by apply (inline_always QuoteRune env Htrack cip cip' Hi []).
Qed.

(** C11: inlining refines its specification: as long as references can be tracked,
    the reconciler turns a policy into another one exactly when [inlined] relates
    the two, which says of each reference what it is replaced by: a Secret by the
    one public key it holds, a KMS URI by the key the service gives for it, a
    ConfigMap by its non-empty value, a URL by a body downloaded with success that
    has the given SHA-256 checksum; that no reference is left but AWS-style names
    that are no URI; and that nothing else changes. Hence it fails only when some
    reference cannot be resolved. *)
Theorem inlining_refines (env : Cluster) (cip cip' : ClusterImagePolicy)
    (Htrack : ∀ ref obj, TrackReference env ref obj = None) :
  (∃ log, (inlinePublicKeys env cip ≫= inlinePolicies QuoteRune env) [] = (log, Return cip')) ↔
  inlined env cip cip'.
Proof. by apply inline_iff. Qed.

Context `{JP : JSONPatch} `{JT : JsonText} `{CS : ConditionSets}.

(** Whatever Secret or ConfigMap a reconciliation reads, however it ends, it
    has subscribed the policy to its changes before reading it. *)
Theorem ReconcileKind_tracks (env : Cluster) (meets : Meets) (live : option (gmap string string))
    (cip : ClusterImagePolicy) :
  tracked (om_Name (cip_ObjectMeta cip)) (r_log (ReconcileKind QuoteRune env meets live cip)).
Proof.
  set (obj := om_Name (cip_ObjectMeta cip)).
  assert (tracked obj []) as H0 by (by intros i kind namespace name Hi).
  unfold ReconcileKind. pose proof (inlinePublicKeys_tracks env cip [] H0) as H1.
  destruct (inlinePublicKeys env cip []) as [log [c1|err|]] eqn:Hi; [|done..]. cbn [fst] in H1.
  assert (om_Name (cip_ObjectMeta c1) = obj) as Hobj.
  { assert (yields (inlinePublicKeys env cip) c1) as (auths & _ & <-%yields_ret)%yields_bind by (by eexists _, _). done. }
  pose proof (inlinePolicies_tracks QuoteRune env c1 log) as H2. rewrite Hobj in H2. specialize (H2 H1).
  destruct (inlinePolicies QuoteRune env c1 log) as [log2 [c2|err|]]; [|done..].
  by destruct (updateConfigMap _ _ _ _) as [live' [err|]].
Qed.

End Properties.

(** * A concrete cluster *)

Module ToyCluster.

#[export] Instance kms : KMSPkg := {|
  KMSSigner := string;
  kms_Get id _ := if Contains id "missing" then Err "no such key" else Ok id;
  PublicKeyPem signer := Ok ("PEM of " +:+ signer)
|}.

(** A Secret "key" with a public key, a ConfigMap "rules", and a server. *)
Definition cluster : Cluster := {|
  TrackReference _ _ := None;
  Secrets_Get _ name := if name ==s "key" then Ok {[ "cosign.pub" := "PEM of a secret" ]}
    else Err (NotFound "secret not found");
  ConfigMaps_Get _ name := if name ==s "rules" then Ok {[ "policy" := "isCompliant: true" ]}
    else Err (NotFound "configmap not found");
  http_Get url := if url ==s "https://example.com/abc" then Ok (200%Z, Ok "abc") else Err "no such host"
|}.

Definition keyRef (ref : option SecretReference) (data kms : string) : KeyRef :=
  {| SecretRef := ref; key_Data := data; KMS := kms; key_HashAlgorithm := "" |}.
Definition policy (data : string) (remote : option RemotePolicy) (cmr : option ConfigMapReference) : Policy :=
  {| pol_Type := "cue"; pol_Data := data; pol_Remote := remote; pol_ConfigMapRef := cmr;
     FetchConfigFile := None; IncludeSpec := None; IncludeObjectMeta := None; IncludeTypeMeta := None |}.
Definition attestation (p : Policy) : Attestation :=
  {| att_Name := "att"; PredicateType := "https://example.com/predicate"; att_Policy := Some p |}.
Definition authority (key : KeyRef) (oci : string) (atts : list Attestation) : Authority :=
  {| auth_Name := "authority-0"; Key := Some key; Keyless := None; Static := None;
     Sources := [{| OCI := oci; SignaturePullSecrets := []; TagPrefix := None |}];
     CTLog := None; Attestations := atts; auth_RFC3161Timestamp := None; GMSignature := None;
     SignatureFormat := "" |}.
Definition cip (name : string) (auths : list Authority) (p : option Policy) : ClusterImagePolicy :=
  {| cip_TypeMeta := {| Kind := "ClusterImagePolicy"; APIVersion := "policy.sigstore.dev/v1alpha1" |};
     cip_ObjectMeta := {| om_Name := name; om_Namespace := ""; om_UID := "uid"; om_ResourceVersion := "1";
       om_Generation := 1; om_Labels := ∅; om_DeletionTimestamp := None; om_Finalizers := [] |};
     Spec := {| Images := [{| Glob := "ghcr.io/**" |}]; Authorities := auths; spec_Policy := p;
                Mode := ""; spec_Match := [] |};
     cip_Status := {| duckStatus := {| ObservedGeneration := 1; Conditions := [] |} |} |}.

Definition sum : string := hex_EncodeToString (Sum256 "abc").
Definition remote (url : string) : RemotePolicy := {| rp_URL := {| urlString := url |}; Sha256sum := sum |}.
Definition rules : ConfigMapReference := {| cmr_Name := "rules"; cmr_Namespace := ""; cmr_Key := "policy" |}.
Definition secret : SecretReference := {| secret_Name := "key"; secret_Namespace := "" |}.

(** A policy with a reference of each kind, and what it becomes. *)
Definition before : ClusterImagePolicy := cip "policy"
  [authority (keyRef (Some secret) "" "") "ghcr.io/sigs"
     [attestation (policy "" (Some (remote "https://example.com/abc")) None)];
   authority (keyRef None "" "hashivault://k") "ghcr.io/sigs" []]
  (Some (policy "" None (Some rules))).
Definition after : ClusterImagePolicy := cip "policy"
  [authority (keyRef None "PEM of a secret" "") "ghcr.io/sigs" [attestation (policy "abc" None None)];
   authority (keyRef None "PEM of hashivault://k" "") "ghcr.io/sigs" []]
  (Some (policy "isCompliant: true" None None)).

End ToyCluster.

#[local] Existing Instances ToyParsers.parsers ToyCluster.kms.

Lemma inlining_refines_witness :
  inlined ToyCluster.cluster ToyCluster.before ToyCluster.after.
Proof.
  apply (inlining_refines (λ _, "") ToyCluster.cluster ToyCluster.before ToyCluster.after).
  - intros kind name. reflexivity.
  - eexists. vm_compute. reflexivity.
Defined.
