(* ===== verification/ToyText.v ===== *)
(** A concrete text of JSON values, for evaluating the model: every value has a
    text and every text of a value reads back as the value. *)

From S2P Require Import Prelude.
From S2P Require Import Encoding.
From stdpp Require Import countable.

(** * Values as trees *)

Inductive leaf := LBool (b : bool) | LNum (i : option Z) (z : bool) | LStr (s : string).
#[export] Instance leaf_eq_dec : EqDecision leaf.
Proof. solve_decision. Defined.
#[export] Instance leaf_countable : Countable leaf.
Proof.
  refine (inj_countable'
    (λ l, match l with LBool b => inl b | LNum i z => inr (inl (i, z)) | LStr s => inr (inr s) end)
    (λ x, match x with inl b => LBool b | inr (inl (i, z)) => LNum i z | inr (inr s) => LStr s end) _).
  by intros [].
Defined.

Fixpoint to_tree (j : json) : gen_tree leaf :=
  match j with
  | JNull => GenNode 0 []
  | JBool b => GenLeaf (LBool b)
  | JNum n => GenLeaf (LNum (asInt n) (isZeroFloat n))
  | JStr s => GenLeaf (LStr s)
  | JArr l => GenNode 1 (to_tree <$> l)
  | JObj l => GenNode 2 ((λ '(k, v), GenNode 3 [GenLeaf (LStr k); to_tree v]) <$> l)
  end.

Fixpoint of_tree (t : gen_tree leaf) : json :=
  match t with
  | GenLeaf (LBool b) => JBool b
  | GenLeaf (LNum i z) => JNum {| asInt := i; isZeroFloat := z |}
  | GenLeaf (LStr s) => JStr s
  | GenNode 1 l => JArr (of_tree <$> l)
  | GenNode 2 l => JObj ((λ t, match t with
                               | GenNode 3 [GenLeaf (LStr k); v] => (k, of_tree v)
                               | _ => ("", JNull)
                               end) <$> l)
  | GenNode _ _ => JNull
  end.

Lemma of_to_tree : ∀ j, of_tree (to_tree j) = j.
Proof.
  fix IH 1. intros [|b|[i z]|s|l|l]; cbn; try done; f_equal.
  - induction l as [|x l IHl]; [done|]. cbn. by rewrite IH, IHl.
  - induction l as [|[k v] l IHl]; [done|]. cbn. by rewrite IH, IHl.
Qed.

(** * Trees as texts *)

Fixpoint pos_text (p : positive) : string :=
  match p with xH => "1" | xO p => String "0" (pos_text p) | xI p => String "i" (pos_text p) end.
Fixpoint text_pos (s : string) : positive :=
  match s with
  | String c s => if Ascii.eqb c "0" then xO (text_pos s) else if Ascii.eqb c "i" then xI (text_pos s) else xH
  | EmptyString => xH
  end.
Lemma text_pos_text p : text_pos (pos_text p) = p.
Proof. induction p as [p IH|p IH|]; cbn; by rewrite ?IH. Qed.

Definition text (j : json) : string := pos_text (encode (to_tree j)).
Definition parse (s : string) : option json := of_tree <$> decode (text_pos s).

Lemma parse_text j : parse (text j) = Some j.
Proof. unfold parse, text. rewrite text_pos_text, decode_encode. cbn. by rewrite of_to_tree. Qed.
Lemma text_nonempty j : text j ≠ "".
Proof. unfold text. by destruct (encode _). Qed.

#[export] Instance toyText : JsonText := {| jsonParse := parse; jsonText := text |}.
