(* ===== verification/Published.v ===== *)
(** What the reconciliations of all policies make of the ConfigMap the webhook
    reads: the effect of one call whose view of the ConfigMap is current, an
    invariant of the ConfigMap under calls whose views may be old and whose writes
    may fail, and what the webhook reads of it. *)

From S2P Require Import Prelude.
From S2P Require Import Encoding.
From S2P Require Import Names.
From S2P Require Import FieldErrors.
From S2P Require Import PCConfig.
From S2P Require Import K8s.
From S2P Require Import Common.
From S2P Require Import V1alpha1.
From S2P Require WebhookTypes.
From S2P Require WebhookJSON.
From S2P Require ImagePolicies.
From S2P Require Import ConfigMaps.
From S2P Require Import Lifecycle.
From S2P Require Import Reconcile.
From S2P Require Import ReconcileSpec.
From S2P Require Import ToyText.

#[local] Set Default Proof Using "Type*".

(** * One call *)

(** The lister has the ConfigMap that is there. *)
Definition current (live : option (gmap string string)) (meets : Meets) : Prop :=
  match live with
  | Some cm => existing meets = Ok cm
  | None => ∃ msg, existing meets = Err (NotFound msg)
  end.

Section OneCall.
Context `{P : Parsers} `{KM : KMSPkg} `{JP : JSONPatch} `{JT : JsonText} `{CS : ConditionSets}.
Context `{JL : !JSONPatchLaws} `{CL : !ConditionSetLaws}.
Variable QuoteRune : Z → string.

Lemma removeCIPEntry_current meets cm name : existing meets = Ok cm → fault meets = None →
  removeCIPEntry meets (Some cm) cm name = (Some (delete name cm), None).
Proof.
  intros He Hf. unfold removeCIPEntry, api_Patch. pose proof (CreateRemovePatch_spec name cm) as Hp.
  destruct (CreateRemovePatch cm name) as [[p|]|err]; [|by rewrite delete_id|done].
  rewrite Hf. cbn. by rewrite Hp.
Qed.

Lemma handleCIPError_current meets live name : current live meets →
  handleCIPError meets live name = match fault meets with None => delete name <$> live | Some _ => live end.
Proof.
  unfold current, handleCIPError. destruct live as [cm|]; [|intros [msg ->]; by destruct (fault meets)].
  intros He. rewrite He. destruct (fault meets) as [f|] eqn:Hf; [|by rewrite (removeCIPEntry_current _ _ _ He Hf)].
  unfold removeCIPEntry, api_Patch. rewrite Hf. by destruct (CreateRemovePatch cm name) as [[p|]|err].
Qed.

Lemma updateConfigMap_current meets live name text : current live meets →
  match updateConfigMap meets live name text with
  | (live', None) => live' = Some (<[name := text]> (default ∅ live))
  | (live', Some _) => live' = live ∧ fault meets ≠ None
  end.
Proof.
  unfold current, updateConfigMap. destruct live as [cm|].
  - intros ->. pose proof (CreatePatch_spec name cm text) as Hp.
    destruct (CreatePatch name cm text) as [[p|]|err]; [|by rewrite insert_id|done].
    unfold api_Patch. destruct (fault meets); cbn; [done|]. by rewrite Hp.
  - intros [msg ->]. unfold api_Create, NewConfigMap. destruct (fault meets); cbn; [done|].
    by rewrite insert_empty.
Qed.

(** Calls of a policy whose own policy is remote do not panic. *)
Definition calm {A} (m : M A) : Prop := ∀ log, (m log).2 ≠ Panics.

Lemma calm_ret {A} (a : A) : calm (mret a).
Proof. by intros log. Qed.
Lemma calm_fail {A} err : calm (failM (A := A) err).
Proof. by intros log. Qed.
Lemma calm_event e : calm (event e).
Proof. by intros log. Qed.
Lemma calm_bind {A B} (m : M A) (f : A → M B) : calm m → (∀ a, calm (f a)) → calm (m ≫= f).
Proof.
  intros Hm Hf log. unfold mbind, M_bind. specialize (Hm log).
  destruct (m log) as [log1 [a|err|]]; [by apply Hf|done..].
Qed.
Lemma calm_catch {A} (m : M A) h : calm m → (∀ err, calm (h err)) → calm (catchM m h).
Proof.
  intros Hm Hh log. unfold catchM. specialize (Hm log).
  destruct (m log) as [log1 [a|err|]]; [done|by apply Hh|done].
Qed.
Lemma calm_onPtr {A} (f : A → M A) p : (∀ a, calm (f a)) → calm (onPtr f p).
Proof. intros Hf. destruct p; [|apply calm_ret]. apply calm_bind; [done|]. intros ?. apply calm_ret. Qed.
Lemma calm_mapM {A B} (f : A → M B) l : (∀ a, calm (f a)) → calm (mapM f l).
Proof.
  intros Hf. induction l as [|a l IH]; [apply calm_ret|].
  apply calm_bind; [done|]. intros b. apply calm_bind; [done|]. intros bs. apply calm_ret.
Qed.
Create HintDb calm discriminated.
#[local] Hint Resolve calm_ret calm_fail calm_event calm_bind calm_catch calm_onPtr calm_mapM : calm.

Ltac calm := repeat (case_match || (apply calm_bind; [|intros ?]) || (apply calm_onPtr; intros ?)); auto with calm.

Lemma inlinePublicKeys_calm env cip : calm (inlinePublicKeys env cip).
Proof.
  apply calm_bind; [|auto with calm]. apply calm_mapM. intros a.
  unfold inlineAuthorityKeys, inlineCACert, inlineSecret, inlineAndTrackSecret, inlineKMS, getKMSPublicKey. calm.
Qed.

Lemma inlinePolicies_calm env cip :
  (∃ p r, spec_Policy (Spec cip) = Some p ∧ pol_Remote p = Some r) →
  calm (inlinePolicies QuoteRune env cip).
Proof.
  intros (p & r & Hp & Hr).
  assert (∀ o, calm (onPtr (inlineConfigMap env cip) o)) by
    (intros; unfold inlineConfigMap, inlineAndTrackConfigMap; calm).
  assert (∀ o, calm (onPtr (inlineRemote QuoteRune env) o)) by
    (intros; unfold inlineRemote, inlinePolicyURL; calm).
  apply calm_bind; [|intros; apply calm_bind; [done|]; intros; apply calm_bind; auto with calm].
  apply calm_mapM. intros a. apply calm_bind; [|auto with calm]. apply calm_mapM. intros att.
  apply calm_bind; [done|]. intros q. apply calm_bind; [|auto with calm].
  apply calm_catch; [done|]. intros err. rewrite Hp, Hr. apply calm_fail.
Qed.

(** Calls of a policy none of whose attestations has a policy that is downloaded do
    not panic either. *)
Definition no_downloads (auths : list Authority) : Prop :=
  ∀ a att p, a ∈ auths → att ∈ Attestations a → att_Policy att = Some p → pol_Remote p = None.

Lemma calm_bind_yields {A B} (m : M A) (f : A → M B) :
  calm m → (∀ a, yields m a → calm (f a)) → calm (m ≫= f).
Proof.
  intros Hm Hf log. unfold mbind, M_bind. specialize (Hm log).
  destruct (m log) as [log1 [a|err|]] eqn:H; [|done..]. apply Hf. by eexists _, _.
Qed.
Lemma calm_mapM_elem {A B} (f : A → M B) l : (∀ a, a ∈ l → calm (f a)) → calm (mapM f l).
Proof.
  induction l as [|a l IH]; intros Hf; [apply calm_ret|].
  apply calm_bind; [apply Hf; left|]. intros b. apply calm_bind; [|intros; apply calm_ret].
  apply IH. intros a' Ha. apply Hf. by right.
Qed.

Lemma inlineConfigMap_Remote env cip p p' : yields (inlineConfigMap env cip p) p' → pol_Remote p' = pol_Remote p.
Proof.
  unfold inlineConfigMap, inlineAndTrackConfigMap. destruct (pol_ConfigMapRef p); intros H; invert_yields; by subst.
Qed.

Lemma inlinePolicies_calm_no_downloads env cip : no_downloads (Authorities (Spec cip)) →
  calm (inlinePolicies QuoteRune env cip).
Proof.
  intros Hnone.
  assert (∀ o, calm (onPtr (inlineConfigMap env cip) o)) as Hcm by
    (intros; unfold inlineConfigMap, inlineAndTrackConfigMap; calm).
  assert (∀ o, calm (onPtr (inlineRemote QuoteRune env) o)) by
    (intros; unfold inlineRemote, inlinePolicyURL; calm).
  apply calm_bind; [|intros; apply calm_bind; [done|]; intros; apply calm_bind; auto with calm].
  apply calm_mapM_elem. intros a Ha. apply calm_bind; [|auto with calm]. apply calm_mapM_elem. intros att Hatt.
  apply calm_bind_yields; [done|]. intros q Hq%yields_onPtr. apply calm_bind; [|auto with calm].
  inversion Hq as [p q' Hpq Hp Hq'|Hp Hq']; subst; [|by intros log].
  apply inlineConfigMap_Remote in Hpq. symmetry in Hp. rewrite (Hnone a att p Ha Hatt Hp) in Hpq.
  intros log. cbn. unfold inlineRemote. by rewrite Hpq.
Qed.

Lemma inlinePublicKeys_spec env cip log log' cip1 :
  inlinePublicKeys env cip log = (log', Return cip1) →
  spec_Policy (Spec cip1) = spec_Policy (Spec cip) ∧ yields (inlinePublicKeys env cip) cip1.
Proof.
  intros H. assert (yields (inlinePublicKeys env cip) cip1) as Hy by (by eexists _, _).
  split; [|done]. by apply yields_bind in Hy as (auths & _ & <-%yields_ret).
Qed.

Lemma ReconcileKind_lemma (env : Cluster) (meets : Meets) (live : option (gmap string string))
    (cip : ClusterImagePolicy) (Hcurrent : current live meets) :
  let r := ReconcileKind QuoteRune env meets live cip in
  let name := om_Name (cip_ObjectMeta cip) in
  match r_out r with
  | Return _ =>
      state (r_status r) ConditionReady = Some "True" ∧
      ∃ cip', inlined env cip cip' ∧ r_live r = Some (<[name := entryText cip']> (default ∅ live))
  | Fails err =>
      state (r_status r) ConditionReady = Some "False" ∧
      r_live r = match fault meets with None => delete name <$> live | Some _ => live end
  | Panics =>
      r_live r = live ∧ ∀ p, spec_Policy (Spec cip) = Some p → pol_Remote p = None
  end.
Proof.
  cbv zeta. unfold ReconcileKind.
  destruct (inlinePublicKeys env cip []) as [log [cip1|err|]] eqn:H1; cbn [r_out r_live r_status].
  2: { split; [apply InlineKeysFailed_not_ready|]. by apply handleCIPError_current. }
  2: { pose proof (inlinePublicKeys_calm env cip []) as Hc. by rewrite H1 in Hc. }
  apply inlinePublicKeys_spec in H1 as [Hp1 Hy1].
  destruct (inlinePolicies QuoteRune env cip1 log) as [log2 [cip2|err|]] eqn:H2; cbn [r_out r_live r_status].
  2: { split; [apply InlinePoliciesFailed_not_ready|]. by apply handleCIPError_current. }
  2: { split; [done|]. intros p Hp. destruct (pol_Remote p) as [r|] eqn:Hr; [|done].
       assert (∃ p r, spec_Policy (Spec cip1) = Some p ∧ pol_Remote p = Some r) as Hc by (rewrite Hp1; eauto).
       pose proof (inlinePolicies_calm env cip1 Hc log) as Hn. by rewrite H2 in Hn. }
  pose proof (updateConfigMap_current meets live (om_Name (cip_ObjectMeta cip)) (entryText cip2) Hcurrent) as Hu.
  destruct (updateConfigMap _ _ _ _) as [live' [err|]]; cbn [r_out r_live r_status].
  - split; [apply CMUpdateFailed_not_ready|]. destruct Hu as [-> Hf]. by destruct (fault meets).
  - split; [apply cip_ready|]. exists cip2. split; [|done]. eapply inline_yields; [done|]. by eexists _, _.
Qed.

(** Whether the failure of a download cannot make the call panic. *)
Definition logs_safely (cip : ClusterImagePolicy) : Prop :=
  (∃ p r, spec_Policy (Spec cip) = Some p ∧ pol_Remote p = Some r) ∨ no_downloads (Authorities (Spec cip)).

Lemma ReconcileKind_calm env meets live cip : logs_safely cip →
  r_out (ReconcileKind QuoteRune env meets live cip) ≠ Panics.
Proof.
  intros Hsafe. unfold ReconcileKind.
  destruct (inlinePublicKeys env cip []) as [log [cip1|err|]] eqn:H1; [|done|].
  2: { pose proof (inlinePublicKeys_calm env cip []) as Hc. by rewrite H1 in Hc. }
  apply inlinePublicKeys_spec in H1 as [Hp1 (auths & Hauths%yields_mapM & <-%yields_ret)%yields_bind].
  assert (calm (inlinePolicies QuoteRune env (with_Spec cip auths (spec_Policy (Spec cip))))) as Hcalm.
  { destruct Hsafe as [Hsafe|Hnone]; [by apply inlinePolicies_calm|apply inlinePolicies_calm_no_downloads].
    cbn. intros a att p Ha. apply list_elem_of_lookup in Ha as [i Ha].
    destruct (Forall2_lookup_r _ _ _ _ _ Hauths Ha) as (a0 & Ha0%list_elem_of_lookup_2 & Hy).
    replace (Attestations a) with (Attestations a0); [by apply Hnone|].
    unfold inlineAuthorityKeys in Hy. invert_yields. by subst. }
  specialize (Hcalm log). destruct (inlinePolicies _ _ _ _) as [log2 [cip2|err|]]; [|done..].
  cbv zeta. by destruct (updateConfigMap _ _ _ _) as [? [?|]].
Qed.

(** C12: a reconciliation whose copy of the ConfigMap is current has one of these
    effects. It succeeds: then the policy is ready and the ConfigMap is as before
    but for the policy's entry, which is the text of its inlined form. It returns
    an error: then the policy is not ready, and unless the write failed, its entry
    is gone, so that no outdated policy stays in force, and the others are as
    before; if it failed, the ConfigMap is untouched. It panics: then the ConfigMap is untouched, and the policy of the whole
    ClusterImagePolicy is not remote. *)
Theorem ReconcileKind_current (env : Cluster) (meets : Meets) (live : option (gmap string string))
    (cip : ClusterImagePolicy) (Hcurrent : current live meets) :
  let r := ReconcileKind QuoteRune env meets live cip in
  let name := om_Name (cip_ObjectMeta cip) in
  match r_out r with
  | Return _ =>
      state (r_status r) ConditionReady = Some "True" ∧
      ∃ cip', inlined env cip cip' ∧ r_live r = Some (<[name := entryText cip']> (default ∅ live))
  | Fails err =>
      state (r_status r) ConditionReady = Some "False" ∧
      r_live r = match fault meets with None => delete name <$> live | Some _ => live end
  | Panics =>
      r_live r = live ∧ ∀ p, spec_Policy (Spec cip) = Some p → pol_Remote p = None
  end.
Proof. by apply ReconcileKind_lemma. Qed.

(** Finalizing a policy with a current copy of the ConfigMap removes its entry
    and nothing else, or fails with the error of the write. *)
Theorem FinalizeKind_current (meets : Meets) (live : option (gmap string string))
    (cip : ClusterImagePolicy) (Hcurrent : current live meets) :
  match FinalizeKind meets live cip with
  | (live', None) => live' = delete (om_Name (cip_ObjectMeta cip)) <$> live
  | (live', Some err) => live' = live ∧ fault meets = Some err
  end.
Proof.
  unfold current in Hcurrent. unfold FinalizeKind. destruct live as [cm|].
  - rewrite Hcurrent. unfold removeCIPEntry, api_Patch.
    pose proof (CreateRemovePatch_spec (om_Name (cip_ObjectMeta cip)) cm) as Hp.
    destruct (CreateRemovePatch cm _) as [[p|]|err]; cbn; [|by rewrite delete_id|done].
    destruct (fault meets); cbn; [done|]. by rewrite Hp.
  - by destruct Hcurrent as [msg ->].
Qed.

Lemma panics_bind {A B} (m : M A) (f : A → M B) log : (m log).2 = Panics → ((m ≫= f) log).2 = Panics.
Proof. unfold mbind, M_bind. by destruct (m log) as [log1 [| |]]. Qed.

(** A download that fails for an attestation's policy, where the
    ClusterImagePolicy has no policy of its own, ends in a panic: the line that
    logs the failure dereferences the policy that is not there. The outdated entry
    stays in the ConfigMap and the status is not updated. Stated for the first
    attestation of the first authority. *)
Theorem failed_download_panics (env : Cluster) (meets : Meets) (live : option (gmap string string))
    (cip cip1 : ClusterImagePolicy) (log : list Event) (a : Authority) (auths : list Authority)
    (att : Attestation) (atts : list Attestation) (p : Policy) (r : RemotePolicy) (err : string)
    (Hkeys : inlinePublicKeys env cip [] = (log, Return cip1))
    (Hnone : spec_Policy (Spec cip) = None)
    (Ha : Authorities (Spec cip1) = a :: auths) (Hatt : Attestations a = att :: atts)
    (Hp : att_Policy att = Some p) (Hcm : pol_ConfigMapRef p = None) (Hr : pol_Remote p = Some r)
    (Hget : http_Get env (urlString (rp_URL r)) = Err err) :
  let res := ReconcileKind QuoteRune env meets live cip in
  r_out res = Panics ∧ r_live res = live.
Proof.
  cbv zeta. unfold ReconcileKind. rewrite Hkeys. apply inlinePublicKeys_spec in Hkeys as [Hs _].
  assert ((inlinePolicies QuoteRune env cip1 log).2 = Panics) as H2.
  { apply panics_bind. rewrite Ha. apply panics_bind, panics_bind. rewrite Hatt. apply panics_bind.
    unfold inlineAttestation. rewrite Hp, Hs, Hnone. cbn [onPtr]. unfold inlineConfigMap. rewrite Hcm.
    unfold mbind, M_bind, mret, M_ret, catchM, onPtr, inlineRemote, mbind, M_bind. rewrite Hr.
    unfold inlinePolicyURL, event, mbind, M_bind. by rewrite Hget. }
  destruct (inlinePolicies QuoteRune env cip1 log) as [log2 [c|e|]]; done.
Qed.

End OneCall.

(** * What the writes do to the entries *)

Section Entries.
Context `{JP : JSONPatch} `{JL : !JSONPatchLaws}.
(** What an entry may be. *)
Variable ok : string → string → Prop.

Definition entries (live : option (gmap string string)) : Prop :=
  ∀ cm name text, live = Some cm → cm !! name = Some text → ok name text.

Lemma api_Patch_entries f live a b p : duck_CreatePatch a b = Ok p →
  entries live → entries (Some b) → entries (written live (api_Patch f live p)).1.
Proof.
  intros Hp Hl Hb. unfold api_Patch. destruct f; [done|]. destruct live as [cm|]; [|done].
  destruct (applyPatch p cm) as [cm'|err] eqn:Ha; [|done]. cbn.
  intros cm0 name text [= <-] Hn. destruct (apply_values _ _ _ _ _ Hp Ha name text Hn); eauto.
Qed.

Lemma removeCIPEntry_entries meets live cm name : entries live → entries (Some cm) →
  entries (removeCIPEntry meets live cm name).1.
Proof.
  intros Hl Hcm. unfold removeCIPEntry, CreateRemovePatch.
  destruct (duck_CreatePatch cm (delete name cm)) as [p|err] eqn:Hp; [|done].
  destruct (patch_empty p); [done|]. eapply api_Patch_entries; [done..|].
  intros cm0 n text [= <-] [_ Hn]%lookup_delete_Some. by eapply Hcm.
Qed.

Lemma updateConfigMap_entries meets live name text : entries live →
  (∀ cm, existing meets = Ok cm → entries (Some cm)) → ok name text →
  entries (updateConfigMap meets live name text).1.
Proof.
  intros Hl Hcm He. unfold updateConfigMap. destruct (existing meets) as [cm|[msg|msg]]; [| |done].
  - unfold CreatePatch. destruct (duck_CreatePatch cm (<[name:=text]> cm)) as [p|err] eqn:Hp; [|done].
    destruct (patch_empty p); [done|]. eapply api_Patch_entries; [done..|].
    intros cm0 n t [= <-] [[<- <-]|[_ Hn]]%lookup_insert_Some; [done|]. by eapply Hcm.
  - unfold api_Create. destruct (fault meets); [done|]. destruct live; [done|]. cbn. unfold NewConfigMap.
    intros cm0 n t [= <-] [<- <-]%lookup_singleton_Some. done.
Qed.

End Entries.

(** A call's copy of the ConfigMap is one of the ConfigMap's past values, newest
    first, or a failure of the lister. *)
Definition seen (history : list (option (gmap string string))) (meets : Meets) : Prop :=
  ∀ cm, existing meets = Ok cm → Some cm ∈ history.

Lemma seen_entries ok history meets : Forall (entries ok) history → seen history meets →
  ∀ cm, existing meets = Ok cm → entries ok (Some cm).
Proof. intros Hh Hs cm Hcm. rewrite Forall_forall in Hh. by apply Hh, Hs. Qed.

(** * All calls *)

Section System.
Context `{P : Parsers} `{KM : KMSPkg} `{JP : JSONPatch} `{JT : JsonText} `{CS : ConditionSets}.
Variable QuoteRune : Z → string.
(** The policies that are admitted to the cluster. *)
Variable admitted : ClusterImagePolicy → Prop.

(** The values of the ConfigMap, as the calls of the reconciler, one after the
    other, and a deletion of the ConfigMap make them. *)
Inductive run : list (option (gmap string string)) → Prop :=
  | run_start : run [None]
  | run_reconcile env meets live past cip :
      run (live :: past) → admitted cip → seen (live :: past) meets →
      run (r_live (ReconcileKind QuoteRune env meets live cip) :: live :: past)
  | run_finalize meets live past cip :
      run (live :: past) → seen (live :: past) meets →
      run ((FinalizeKind meets live cip).1 :: live :: past)
  | run_delete live past : run (live :: past) → run (None :: live :: past).

(** An entry is the text of the inlined form of an admitted policy of its name. *)
Definition published_entry (name text : string) : Prop :=
  ∃ env cip cip', admitted cip ∧ om_Name (cip_ObjectMeta cip) = name ∧
    inlined env cip cip' ∧ text = entryText cip'.
Definition published : option (gmap string string) → Prop := entries published_entry.

Context `{JL : !JSONPatchLaws}.

Lemma ReconcileKind_published env meets live cip : admitted cip → published live →
  (∀ cm, existing meets = Ok cm → published (Some cm)) →
  published (r_live (ReconcileKind QuoteRune env meets live cip)).
Proof.
  intros Hadm Hl Hcm.
  assert (Hh : published (handleCIPError meets live (om_Name (cip_ObjectMeta cip)))).
  { unfold handleCIPError. destruct (existing meets); [|done]. apply removeCIPEntry_entries; [done|by apply Hcm]. }
  unfold ReconcileKind. destruct (inlinePublicKeys env cip []) as [log [cip1|err|]] eqn:H1; [|done..].
  destruct (inlinePolicies QuoteRune env cip1 log) as [log2 [cip2|err|]] eqn:H2; [|done..].
  assert (published_entry (om_Name (cip_ObjectMeta cip)) (entryText cip2)) as He.
  { exists env, cip, cip2. split_and!; try done. by eapply inline_yields; eexists _, _. }
  pose proof (updateConfigMap_entries _ meets live _ _ Hl Hcm He) as Hu.
  by destruct (updateConfigMap _ _ _ _) as [live' [err|]].
Qed.

Lemma run_published history : run history → Forall published history.
Proof.
  induction 1 as [|env meets live past cip _ IH Ha Hs|meets live past cip _ IH Hs|live past _ IH].
  - constructor; [done|constructor].
  - constructor; [|done]. apply ReconcileKind_published; [done|by inversion IH|].
    by eapply seen_entries.
  - constructor; [|done]. assert (published live) by (by inversion IH).
    unfold FinalizeKind. destruct (existing meets) as [cm|[msg|msg]] eqn:He; [|done..].
    apply removeCIPEntry_entries; [done|]. by eapply seen_entries.
  - by constructor.
Qed.

(** C19: whatever the order of the calls, however old their copies of the ConfigMap
    and whichever writes fail, every entry the ConfigMap ever has is the text of
    the inlined form of an admitted policy of the entry's name. *)
Theorem ConfigMap_invariant (history : list (option (gmap string string))) (Hrun : run history) :
  ∀ live name text, Some live ∈ history → live !! name = Some text → published_entry name text.
Proof.
  intros live name text Hin Hn. apply run_published in Hrun. rewrite Forall_forall in Hrun.
  by eapply Hrun.
Qed.

End System.

(** * What the webhook reads *)

(** A marshalled value is not the empty text, and reads back as the value:
    sigs.k8s.io/yaml on JSON text, which is YAML. *)
Class YAMLLaws `{J : JsonText, M : ImagePolicies.K8sMeta} : Prop := {
  jsonText_nonempty j : jsonText j ≠ "";
  YAMLToJSON_jsonText j : ImagePolicies.YAMLToJSON (jsonText j) = Ok (Ok j)
}.

Section Webhook.
Context `{N : NamePkg} `{P : Parsers} `{F : FieldErrors} `{KM : KMSPkg} `{M : ImagePolicies.K8sMeta}.
Context `{JP : JSONPatch} `{JT : JsonText} `{CS : ConditionSets}.
Context `{JL : !JSONPatchLaws} `{YL : !YAMLLaws}.
Variable QuoteRune : Z → string.
Variable ValidResourceNames : gset string.
Variable parseURL : string → result string URL.
Hypothesis parseURL_String : ∀ u, parseURL (urlString u) = Ok u.
Hypothesis PublicKeyPem_parses : ∀ signer pem,
  PublicKeyPem signer = Ok pem → is_Ok (UnmarshalPEMToPublicKey pem).

(** The validation of the admission webhook lets the policy pass. *)
Definition validated (cip : ClusterImagePolicy) : Prop :=
  ∃ ctx, Accepts (ClusterImagePolicySpec_Validate ValidResourceNames ctx (Spec cip)).
(** Its sources are names of repositories. *)
Definition readable_sources (cip : ClusterImagePolicy) : Prop :=
  Forall (λ a, Forall readable_source (Sources a)) (Authorities (Spec cip)).

(** What the webhook holds of a policy it has read. *)
Definition webhookPolicy (cip' : ClusterImagePolicy) : result string WebhookTypes.ClusterImagePolicy :=
  WebhookJSON.populate (WebhookTypes.ConvertClusterImagePolicyV1alpha1ToWebhook cip').

Lemma parseEntry_entryText cip' :
  ImagePolicies.parseEntry parseURL (entryText cip') = webhookPolicy cip'.
Proof.
  unfold ImagePolicies.parseEntry, entryText. rewrite YAMLToJSON_jsonText.
  cbn [mbind result_bind]. by apply WebhookJSON.decode_encode_ClusterImagePolicy.
Qed.

Lemma validated_authorities cip : validated cip →
  Forall (λ a, ∃ ctx, Accepts (Authority_Validate ctx a)) (Authorities (Spec cip)).
Proof.
  intros [ctx Hv]. unfold ClusterImagePolicySpec_Validate in Hv. cbv zeta in Hv.
  rewrite Accepts_Also, Accepts_AlsoEach, Accepts_AlsoIf, Accepts_AlsoEach in Hv.
  destruct Hv as [[[[_ Ha] _] _] _]. eapply Forall_impl; [exact Ha|]. intros a ?. by exists ctx.
Qed.

Lemma webhookPolicy_ok env cip cip' : validated cip → readable_sources cip → inlined env cip cip' →
  is_Ok (webhookPolicy cip').
Proof.
  intros Hv%validated_authorities Hs (Ha & _ & _). unfold webhookPolicy, WebhookJSON.populate.
  apply is_Ok_bind; [|by eexists]. cbn. apply is_Ok_mapM.
  intros w (a' & -> & Ha')%list_elem_of_fmap.
  apply list_elem_of_lookup in Ha' as [i Hi].
  destruct (Forall2_lookup_r _ _ _ _ _ Ha Hi) as (a & Hia & Hk & Hks & _ & Hrest).
  rewrite Forall_lookup in Hv. destruct (Hv i a Hia) as [ctx Hctx].
  destruct (Authority_Validate_keys ctx a Hctx) as [Hkey Hca].
  unfold readable_sources in Hs. rewrite Forall_lookup in Hs. specialize (Hs i a Hia).
  apply populate_convert_authority.
  - intros k' Hk'. rewrite Hk' in Hk. inversion Hk as [k ? Hkk Heq|]; subst.
    eapply key_inlined_readable; eauto.
  - intros ks' ca' Hks' Hca'. rewrite Hks' in Hks. inversion Hks as [ks ? Hkk Heq|]; subst.
    destruct Hkk as (_ & _ & Hc & _). rewrite Hca' in Hc. inversion Hc as [ca ? Hcc Heq'|]; subst.
    eapply secret_inlined_readable; eauto.
  - by injection Hrest as _ _ -> _ _ _ _.
Qed.

(** Every entry is that of an admitted policy, and the webhook can read it. *)
Lemma entry_readable (admitted : ClusterImagePolicy → Prop)
    (Hadmitted : ∀ cip, admitted cip → validated cip ∧ readable_sources cip)
    (past : list (option (gmap string string))) (live : gmap string string)
    (Hrun : run QuoteRune admitted (Some live :: past)) (name text : string)
    (Ht : live !! name = Some text) :
  ∃ env cip cip' p, admitted cip ∧ om_Name (cip_ObjectMeta cip) = name ∧ inlined env cip cip' ∧
    text = entryText cip' ∧ webhookPolicy cip' = Ok p.
Proof.
  pose proof (run_published QuoteRune admitted _ Hrun) as Hpub.
  assert (published admitted (Some live)) as Hlive by (by inversion Hpub).
  destruct (Hlive live name text eq_refl Ht) as (env & cip & cip' & Had & Hn & Hi & ->).
  destruct (Hadmitted cip Had) as [Hv Hs]. destruct (webhookPolicy_ok env cip cip' Hv Hs Hi) as [p Hp].
  by exists env, cip, cip', p.
Qed.

Lemma webhook_reads_lemma (admitted : ClusterImagePolicy → Prop)
    (Hadmitted : ∀ cip, admitted cip → validated cip ∧ readable_sources cip)
    (past : list (option (gmap string string))) (live : gmap string string)
    (Hrun : run QuoteRune admitted (Some live :: past))
    (order : list (string * string)) (Horder : order ≡ₚ map_to_list live) :
  ∃ c, ImagePolicies.NewImagePoliciesConfigFromMap parseURL order = Ok c ∧
  ∀ name p, ImagePolicies.Policies c !! name = Some p ↔
    name ≠ "_example" ∧ ∃ env cip cip',
      admitted cip ∧ om_Name (cip_ObjectMeta cip) = name ∧ inlined env cip cip' ∧
      live !! name = Some (entryText cip') ∧ webhookPolicy cip' = Ok p.
Proof.
  pose proof (run_published QuoteRune admitted _ Hrun) as Hpub.
  assert (published admitted (Some live)) as Hlive by (by inversion Hpub).
  pose proof (ImagePolicies.FromMap_spec parseURL live order Horder) as Hspec.
  destruct (ImagePolicies.NewImagePoliciesConfigFromMap parseURL order) as [c|err].
  - exists c. split; [done|]. intros name p. rewrite Hspec. split.
    + intros (Hne & text & Ht & Hp). split; [done|].
      destruct (Hlive live name text eq_refl Ht) as (env & cip & cip' & Had & Hn & Hi & ->).
      exists env, cip, cip'. split_and!; try done. by rewrite <-parseEntry_entryText.
    + intros (Hne & env & cip & cip' & Had & Hn & Hi & Ht & Hp). split; [done|].
      eexists. split; [exact Ht|]. by rewrite parseEntry_entryText.
  - exfalso. destruct Hspec as (name & text & Ht & Hne & Hbad).
    destruct (Hlive live name text eq_refl Ht) as (env & cip & cip' & Had & Hn & Hi & ->).
    destruct (Hadmitted cip Had) as [Hv Hs]. destruct Hbad as [Hbad|[err' Herr]].
    + by apply jsonText_nonempty in Hbad.
    + rewrite parseEntry_entryText in Herr.
      destruct (webhookPolicy_ok env cip cip' Hv Hs Hi) as [p Hp]. congruence.
Qed.

(** C6: the webhook can always read what the reconciler maintains: if the policies
    that are reconciled have passed validation and their sources are names of
    repositories, then after any sequence of calls, with old copies of the
    ConfigMap and failed writes, reading the ConfigMap succeeds, and gives under
    each name the inlined form of an admitted policy of that name, with its keys
    parsed, and no other policy. *)
Theorem webhook_reads_ConfigMap (admitted : ClusterImagePolicy → Prop)
    (Hadmitted : ∀ cip, admitted cip → validated cip ∧ readable_sources cip)
    (past : list (option (gmap string string))) (live : gmap string string)
    (Hrun : run QuoteRune admitted (Some live :: past))
    (order : list (string * string)) (Horder : order ≡ₚ map_to_list live) :
  ∃ c, ImagePolicies.NewImagePoliciesConfigFromMap parseURL order = Ok c ∧
  ∀ name p, ImagePolicies.Policies c !! name = Some p ↔
    name ≠ "_example" ∧ ∃ env cip cip',
      admitted cip ∧ om_Name (cip_ObjectMeta cip) = name ∧ inlined env cip cip' ∧
      live !! name = Some (entryText cip') ∧ webhookPolicy cip' = Ok p.
Proof. by eapply webhook_reads_lemma. Qed.

Lemma is_Ok_bind_inv {E A B} (r : result E A) (f : A → result E B) :
  is_Ok (r ≫= f) → ∃ a, r = Ok a ∧ is_Ok (f a).
Proof. destruct r as [a|e]; [eauto|by intros [? ?]]. Qed.
Lemma is_Ok_mapM_inv {E A B} (f : A → result E B) l : is_Ok (mapM f l) → ∀ a, a ∈ l → is_Ok (f a).
Proof.
  induction l as [|b l IH]; intros H a Ha; [by apply elem_of_nil in Ha|].
  cbn in H. apply is_Ok_bind_inv in H as (b' & Hb & (l' & Hl & _)%is_Ok_bind_inv).
  apply elem_of_cons in Ha as [->|Ha]; [by eexists|]. apply IH; [by eexists|done].
Qed.

Lemma webhookPolicy_source cip' a s : is_Ok (webhookPolicy cip') →
  a ∈ Authorities (Spec cip') → s ∈ Sources a → readable_source s.
Proof.
  intros (auths & Hp & _)%is_Ok_bind_inv Ha Hs Hoci.
  assert (is_Ok (WebhookJSON.populate_Authority (WebhookTypes.convertAuthorityV1Alpha1ToWebhook a))) as Hpa.
  { eapply is_Ok_mapM_inv; [by eexists|]. by apply list_elem_of_fmap_2. }
  apply is_Ok_bind_inv in Hpa as (key & _ & (keyless & _ & (opts & Hopts & _)%is_Ok_bind_inv)%is_Ok_bind_inv).
  assert (is_Ok (WebhookJSON.sourceRemoteOpts s)) as Hsrc.
  { eapply is_Ok_mapM_inv; [by eexists|]. exact Hs. }
  apply is_Ok_bind_inv in Hsrc as (target & Ht & _). apply String.eqb_neq in Hoci.
  rewrite Hoci in Ht. cbn [negb] in Ht. destruct (NewRepository [] (OCI s)); [by eexists|done].
Qed.

(** C34: one unreadable source stops the reading of every policy: a source of which
    the validation accepts, as the name of a registry, what is no name of a
    repository makes the webhook refuse the whole ConfigMap. *)
Theorem unreadable_source_refused (cip' : ClusterImagePolicy) (a : Authority) (s : Source) (err : string)
    (Ha : a ∈ Authorities (Spec cip')) (Hs : s ∈ Sources a)
    (Hoci : OCI s ≠ "") (Hrepo : NewRepository [] (OCI s) = Err err)
    (live : gmap string string) (name : string) (Hname : name ≠ "_example")
    (Hlive : live !! name = Some (entryText cip'))
    (order : list (string * string)) (Horder : order ≡ₚ map_to_list live) :
  is_Err (ImagePolicies.NewImagePoliciesConfigFromMap parseURL order).
Proof.
  assert (NoDup order.*1) as Hnd by (rewrite Horder; apply NoDup_fst_map_to_list).
  pose proof (ImagePolicies.FromMap_loop_spec parseURL order ∅ Hnd) as Hspec.
  fold (ImagePolicies.NewImagePoliciesConfigFromMap parseURL order) in Hspec.
  destruct (ImagePolicies.NewImagePoliciesConfigFromMap parseURL order) as [c|e]; [|by eexists].
  exfalso. destruct Hspec as [Hgood _]. rewrite Forall_forall in Hgood.
  destruct (Hgood (name, entryText cip')) as [Hn|[_ Hok]]; [|done|].
  - by rewrite Horder, elem_of_map_to_list.
  - cbn in Hok. rewrite parseEntry_entryText in Hok.
    destruct (webhookPolicy_source cip' a s Hok Ha Hs Hoci) as [repo Hr]. congruence.
Qed.

End Webhook.

(** * A concrete system *)

Module ToySystem.

#[export] Instance meta : ImagePolicies.K8sMeta := {|
  ImagePolicies.ParseGroupVersion := ImagePolicies.ParseGroupVersion (K8sMeta := ImagePolicies.ToyMeta.meta);
  ImagePolicies.UnsafeGuessKindToResource :=
    ImagePolicies.UnsafeGuessKindToResource (K8sMeta := ImagePolicies.ToyMeta.meta);
  ImagePolicies.LabelSelectorAsSelector :=
    ImagePolicies.LabelSelectorAsSelector (K8sMeta := ImagePolicies.ToyMeta.meta);
  ImagePolicies.YAMLToJSON s :=
    match ToyText.parse s with Some j => Ok (Ok j) | None => Err "not YAML" end
|}.

#[export] Instance laws : YAMLLaws.
Proof. split; intros j; [apply text_nonempty|]. cbn. by rewrite parse_text. Qed.

Definition fresh (live : option (gmap string string)) : Meets :=
  {| existing := match live with Some cm => Ok cm | None => Err (NotFound "configmap not found") end;
     fault := None |}.
Definition other : option (gmap string string) := Some {[ "other" := "{}" ]}.

End ToySystem.

#[local] Existing Instances ToyNames.names ToyParsers.parsers ListFieldErrors.fieldErrors ToyCluster.kms RFC6902.jsonPatch
  RFC6902.laws LivingConditions.conditionSets LivingConditions.laws ToyText.toyText ToySystem.meta
  ToySystem.laws.

Lemma ReconcileKind_current_witness :
  let r := ReconcileKind (λ _, "") ToyCluster.cluster (ToySystem.fresh ToySystem.other) ToySystem.other
    ToyCluster.before in
  state (r_status r) ConditionReady = Some "True" ∧
  ∃ cip', inlined ToyCluster.cluster ToyCluster.before cip' ∧
    r_live r = Some (<["policy" := entryText cip']> {[ "other" := "{}" ]}).
Proof.
  intros r. pose proof (ReconcileKind_current (λ _, "") ToyCluster.cluster
    (ToySystem.fresh ToySystem.other) ToySystem.other ToyCluster.before eq_refl) as H.
  cbv zeta in H. fold r in H. assert (r_out r = Return tt) as Ho by (vm_compute; reflexivity).
  rewrite Ho in H. exact H.
Defined.

Lemma FinalizeKind_current_witness :
  (FinalizeKind (ToySystem.fresh ToySystem.other) ToySystem.other
    (ToyCluster.cip "other" [] None)).1 = Some ∅.
Proof.
  pose proof (FinalizeKind_current (ToySystem.fresh ToySystem.other) ToySystem.other
    (ToyCluster.cip "other" [] None) eq_refl) as H.
  destruct (FinalizeKind _ _ _) as [live' [err|]].
  - destruct H as [_ H]. discriminate.
  - cbn in *. rewrite H. vm_compute. reflexivity.
Defined.

Lemma failed_download_panics_witness :
  let cip := ToyCluster.cip "p" [ToyCluster.authority (ToyCluster.keyRef None "PEM" "") "ghcr.io/sigs"
    [ToyCluster.attestation (ToyCluster.policy "" (Some (ToyCluster.remote "https://down.example.com")) None)]] None in
  r_out (ReconcileKind (λ _, "") ToyCluster.cluster (ToySystem.fresh ToySystem.other) ToySystem.other cip) = Panics.
Proof.
  intros cip.
  refine (proj1 (failed_download_panics (λ _, "") ToyCluster.cluster (ToySystem.fresh ToySystem.other)
    ToySystem.other cip cip [] _ [] _ [] _ _ "no such host" _ _ _ _ _ _ _ _)); try reflexivity.
  all: vm_compute; reflexivity.
Defined.

Module ToyRun.

Definition admitted (cip : ClusterImagePolicy) : Prop := validated ∅ cip ∧ readable_sources cip.
Definition reconciled : Reconciled := ReconcileKind (λ _, "") ToyCluster.cluster (ToySystem.fresh None) None
  ToyCluster.before.
Definition live : gmap string string := default ∅ (r_live reconciled).

Lemma before_admitted : admitted ToyCluster.before.
Proof.
  split.
  - exists emptyCtx. unfold Accepts, Rejects. apply (bool_decide_unpack _). vm_compute. reflexivity.
  - repeat constructor; intros _; by eexists.
Qed.

Lemma live_run : run (λ _, "") admitted [Some live; None].
Proof.
  assert (Some live = r_live reconciled) as -> by (vm_compute; reflexivity).
  apply run_reconcile; [apply run_start|apply before_admitted|]. by intros cm [=].
Qed.

Lemma kms_parses (signer : KMSSigner) (pem : string) :
  PublicKeyPem signer = Ok pem → is_Ok (UnmarshalPEMToPublicKey pem).
Proof. intros Hp. cbn in Hp. injection Hp as <-. by eexists. Qed.

End ToyRun.

Lemma ConfigMap_invariant_witness :
  is_Some (ToyRun.live !! "policy") ∧
  ∀ text, ToyRun.live !! "policy" = Some text → published_entry ToyRun.admitted "policy" text.
Proof.
  split.
  - apply (bool_decide_unpack _). vm_compute. reflexivity.
  - intros text Ht. apply (ConfigMap_invariant (λ _, "") ToyRun.admitted [Some ToyRun.live; None]
      ToyRun.live_run ToyRun.live "policy" text); [left|exact Ht].
Defined.

Lemma webhook_reads_ConfigMap_witness :
  ∃ c, ImagePolicies.NewImagePoliciesConfigFromMap (λ s, Ok {| urlString := s |})
    (map_to_list ToyRun.live) = Ok c.
Proof.
  destruct (webhook_reads_ConfigMap (λ _, "") ∅ (λ s, Ok {| urlString := s |})
    (λ u, match u with {| urlString := s |} => eq_refl end) ToyRun.kms_parses
    ToyRun.admitted (λ cip H, H) [None] ToyRun.live ToyRun.live_run (map_to_list ToyRun.live) (reflexivity _))
    as (c & Hc & _).
  by exists c.
Defined.

Lemma unreadable_source_refused_witness :
  let key := ToyCluster.keyRef None "PEM" "" in
  let cip := ToyCluster.cip "p" [ToyCluster.authority key "localhost:5000" []] None in
  validated ∅ cip ∧
  is_Err (ImagePolicies.NewImagePoliciesConfigFromMap (λ s, Ok {| urlString := s |})
    [("p", entryText cip)]).
Proof.
  intros key cip. split.
  - exists emptyCtx. unfold Accepts, Rejects. apply (bool_decide_unpack _). vm_compute. reflexivity.
  - refine (unreadable_source_refused (λ s, Ok {| urlString := s |})
      (λ u, match u with {| urlString := s |} => eq_refl end) ToyRun.kms_parses cip
      (ToyCluster.authority key "localhost:5000" []) {| OCI := "localhost:5000"; SignaturePullSecrets := [];
        TagPrefix := None |} _ _ _ _ _ {[ "p" := entryText cip ]} "p" _ _ _ _).
    + left.
    + left.
    + discriminate.
    + reflexivity.
    + discriminate.
    + apply lookup_singleton_eq.
    + by rewrite map_to_list_singleton.
Defined.
