(* ===== verification/TrustRootReconcile.v ===== *)
(** The controller of TrustRoots (pkg/reconciler/trustroot/trustroot.go): it gets
    the keys of a trust root from a TUF repository or from the resource itself,
    computes the ids of the logs, and keeps the result in the ConfigMap
    config-sigstore-keys. *)

From S2P Require Import Prelude.
From S2P Require Import Encoding.
From S2P Require Import K8s.
From S2P Require Import ConfigMaps.
From S2P Require Import Lifecycle.
From S2P Require Import SigstoreKeys.
From S2P Require Import Pem.
From S2P Require Import Tuf.
From S2P Require TrustRoot.
From S2P Require Import TrustKeys.
From S2P Require Import Reconcile.

(** * The keys of a TUF repository *)

(** sigstore's kinds of targets. *)
Inductive UsageKind := UnknownUsage | Fulcio | Rekor | CTFE | TSA.

(** protojson for the trusted root, and encoding/json for the custom metadata of a
    target: its usage and URI. *)
Class TrustFormats := {
  trust_keys :: KeysFormats;
  parseCustom : string → result string (UsageKind * string)
}.

Section TufKeys.
Context `{L : LogKeys} `{T : TufPkg} `{TF : TrustFormats}.

Definition genTransparencyLogInstance (baseURL pkBytes : string) :
    result string TransparencyLogInstance :=
  '(pbpk, pk) ← map_err (append "unmarshaling PEM public key: ") (DeserializePublicKey pkBytes);
  logID ← map_err (append "failed to construct LogID: ") (GetTransparencyLogID pk);
  Ok {| BaseUrl := baseURL; tl_HashAlgorithm := SHA2_256; tl_PublicKey := Some pbpk; LogId := Some logID |}.

Definition emptyKeys : SigstoreKeys :=
  {| MediaType := ""; Tlogs := []; CertificateAuthorities := []; Ctlogs := []; TimestampAuthorities := [] |}.

(** A downloaded target of the given usage. *)
Definition addTarget (ret : SigstoreKeys) (usage : UsageKind) (uri data : string) :
    result string SigstoreKeys :=
  match usage with
  | Fulcio =>
      certChain ← map_err (append "deserializing certificate chain: ") (DeserializeCertChain data);
      Ok {| MediaType := MediaType ret; Tlogs := Tlogs ret;
            CertificateAuthorities := CertificateAuthorities ret ++
              [{| ca_Subject := None; Uri := uri; CertChain := Some certChain; ca_ValidFor := epoch |}];
            Ctlogs := Ctlogs ret; TimestampAuthorities := TimestampAuthorities ret |}
  | CTFE =>
      tlog ← map_err (append "creating transparency log instance: ") (genTransparencyLogInstance uri data);
      Ok {| MediaType := MediaType ret; Tlogs := Tlogs ret;
            CertificateAuthorities := CertificateAuthorities ret; Ctlogs := Ctlogs ret ++ [tlog];
            TimestampAuthorities := TimestampAuthorities ret |}
  | Rekor =>
      tlog ← map_err (append "creating transparency log instance: ") (genTransparencyLogInstance uri data);
      Ok {| MediaType := MediaType ret; Tlogs := Tlogs ret ++ [tlog];
            CertificateAuthorities := CertificateAuthorities ret; Ctlogs := Ctlogs ret;
            TimestampAuthorities := TimestampAuthorities ret |}
  | UnknownUsage | TSA => Ok ret
  end.

(** The loop over the top-level targets, in the order the map is ranged over. *)
Fixpoint addTargets (tufClient : TUFClient) (targets : list (string * option string))
    (ret : SigstoreKeys) : result string SigstoreKeys :=
  match targets with
  | [] => Ok ret
  | (name, custom) :: targets =>
      match custom with
      | None => addTargets tufClient targets ret
      | Some custom =>
          match parseCustom custom with
          | Err _ => addTargets tufClient targets ret
          | Ok (usage, uri) =>
              data ← map_err (append ("downloading target " +:+ name +:+ ": ")) (GetTarget tufClient name);
              ret ← addTarget ret usage uri data;
              addTargets tufClient targets ret
          end
      end
  end.

Definition GetSigstoreKeysFromTuf (tufClient : TUFClient) (trustedRootTarget : string) :
    result string SigstoreKeys :=
  match GetTarget tufClient trustedRootTarget with
  | Ok data => map_err (append ("parsing " +:+ trustedRootTarget +:+ ": ")) (protojson_Unmarshal data)
  | Err err =>
      if negb (Contains err "not found") then Err ("fetching " +:+ trustedRootTarget +:+ ": " +:+ err) else
      targets ← map_err (append "getting top-level targets: ") (GetTopLevelTargets tufClient).2;
      ret ← addTargets tufClient targets emptyKeys;
      if isEmpty (CertificateAuthorities ret) then Err "no certificate authorities found" else Ok ret
  end.

(** [%w] wrapping, and the target's default name. *)
Definition targetName (trustedRootTarget : string) : string :=
  if trustedRootTarget !=s "" then trustedRootTarget else "trusted_root.json".

Variable untar : string → result string Archive.
Variable uaString : string.

Definition getSigstoreKeysFromMirrorFS (repository : TrustRoot.Repository) : result string SigstoreKeys :=
  tufClient ← map_err (append "failed to construct TUF client from mirror: ")
    (ClientFromSerializedMirror (untar (TrustRoot.MirrorFS repository))
      (default "" (TrustRoot.repo_Root repository)) (TrustRoot.repo_Targets repository)
      TrustRoot.DefaultTUFRepoPrefix);
  GetSigstoreKeysFromTuf tufClient (targetName (TrustRoot.repo_TrustedRootTarget repository)).

Definition getSigstoreKeysFromRemote (remote : TrustRoot.Remote) : result string SigstoreKeys :=
  tufClient ← map_err (append "failed to construct TUF client from remote: ")
    (ClientFromRemote uaString (urlString (TrustRoot.Mirror remote))
      (default "" (TrustRoot.rem_Root remote)) (TrustRoot.rem_Targets remote));
  GetSigstoreKeysFromTuf tufClient (targetName (TrustRoot.rem_TrustedRootTarget remote)).

(** * The ids of the logs *)

Definition pemToKeyAndID (pem : string) : result string (option PublicKey * string) :=
  pk ← map_err (append "unmarshaling PEM public key: ") (UnmarshalPEMToPublicKey pem);
  logID ← map_err (append "failed to construct LogID for rekor: ") (GetTransparencyLogID pk);
  Ok (pk, logID).

Definition isECDSA (pk : option PublicKey) : bool :=
  match keyKind <$> pk with Some (ECDSAKey _) => true | _ => false end.

Definition set_LogId (tlog : TransparencyLogInstance) (logID : string) : TransparencyLogInstance :=
  {| BaseUrl := BaseUrl tlog; tl_HashAlgorithm := tl_HashAlgorithm tlog;
     tl_PublicKey := tl_PublicKey tlog; LogId := Some logID |}.

#[local] Instance outcome_ret : MRet outcome := @Return.
#[local] Instance outcome_bind : MBind outcome := λ A B f o,
  match o with Return a => f a | Fails err => Fails err | Panics => Panics end.

(** A Rekor log has an ECDSA key, a CT log any; a log that has none ends the call in a
    panic. *)
Definition rekorLog (i : nat) (tlog : TransparencyLogInstance) : outcome TransparencyLogInstance :=
  match SerializePublicKey (tl_PublicKey tlog) with
  | None => Panics
  | Some pem =>
      match pemToKeyAndID pem with
      | Err err => Fails ("invalid rekor public key " +:+ pretty i +:+ ": " +:+ err)
      | Ok (pk, logID) =>
          if negb (isECDSA pk) then Fails ("public key " +:+ pretty i +:+ " is not ecdsa.PublicKey")
          else Return (set_LogId tlog logID)
      end
  end.
Definition ctLog (i : nat) (tlog : TransparencyLogInstance) : outcome TransparencyLogInstance :=
  match SerializePublicKey (tl_PublicKey tlog) with
  | None => Panics
  | Some pem =>
      match pemToKeyAndID pem with
      | Err err => Fails ("invalid ctlog public key " +:+ pretty i +:+ ": " +:+ err)
      | Ok (pk, logID) => Return (set_LogId tlog logID)
      end
  end.

Definition setLogIDs (sigstoreKeys : SigstoreKeys) : outcome SigstoreKeys :=
  tlogs ← mapM (λ '(i, tlog), rekorLog i tlog) (indexed (Tlogs sigstoreKeys));
  ctlogs ← mapM (λ '(i, tlog), ctLog i tlog) (indexed (Ctlogs sigstoreKeys));
  Return {| MediaType := MediaType sigstoreKeys; Tlogs := tlogs;
            CertificateAuthorities := CertificateAuthorities sigstoreKeys; Ctlogs := ctlogs;
            TimestampAuthorities := TimestampAuthorities sigstoreKeys |}.

(** * The reconciler *)

Context `{JP : JSONPatch} `{CS : ConditionSets}.

Definition getSigstoreKeys (trustroot : TrustRoot.TrustRoot) : result string SigstoreKeys :=
  let spec := TrustRoot.tr_Spec trustroot in
  match TrustRoot.spec_Repository spec with
  | Some repository => getSigstoreKeysFromMirrorFS repository
  | None =>
      match TrustRoot.spec_Remote spec with
      | Some remote => getSigstoreKeysFromRemote remote
      | None =>
          match TrustRoot.spec_SigstoreKeys spec with
          | Some keys => ConvertSigstoreKeys keys
          | None => Err ("invalid TrustRoot entry: " +:+ om_Name (TrustRoot.tr_ObjectMeta trustroot) +:+
                         " missing repository,remote, and sigstoreKeys")
          end
      end
  end.

(** resources/configmap.go *)
Definition Marshal (spec : SigstoreKeys) : string := protojson_Marshal spec.
Definition tr_NewConfigMap (trName : string) (sk : SigstoreKeys) : gmap string string :=
  NewConfigMap trName (Marshal sk).
Definition tr_CreatePatch (tkName : string) (cm : gmap string string) (sk : SigstoreKeys) : result string (option Patch) :=
  CreatePatch tkName cm (Marshal sk).
Definition tr_CreateRemovePatch (cm : gmap string string) (tkName : string) : result string (option Patch) :=
  CreateRemovePatch cm tkName.

(** The update of the ConfigMap, as in the reconciler of policies. *)
Definition tr_updateConfigMap (meets : Meets) (live : option (gmap string string)) (name : string) (sk : SigstoreKeys) :
    option (gmap string string) * option string :=
  match existing meets with
  | Err (GetFailed err) => (live, Some err)
  | Err (NotFound _) => written live (api_Create (fault meets) live (tr_NewConfigMap name sk))
  | Ok cm =>
      match tr_CreatePatch name cm sk with
      | Err err => (live, Some err)
      | Ok None => (live, None)
      | Ok (Some patchBytes) => written live (api_Patch (fault meets) live patchBytes)
      end
  end.

Lemma tr_updateConfigMap_eq meets live name sk :
  tr_updateConfigMap meets live name sk = updateConfigMap meets live name (protojson_Marshal sk).
Proof. done. Qed.

(** The ConfigMap and the status after a call, and how it ended. *)
Definition tr_ReconcileKind (meets : Meets) (live : option (gmap string string))
    (trustroot : TrustRoot.TrustRoot) : option (gmap string string) * Status * outcome unit :=
  let status := tr_InitializeConditions (TrustRoot.tr_Status trustroot) in
  match getSigstoreKeys trustroot with
  | Err err => (live, tr_MarkInlineKeysFailed err status, Fails err)
  | Ok sigstoreKeys =>
      let status := tr_MarkInlineKeysOk status in
      match setLogIDs sigstoreKeys with
      | Panics => (live, status, Panics)
      | Fails err => (live, status, Fails err)
      | Return sigstoreKeys =>
          match tr_updateConfigMap meets live (om_Name (TrustRoot.tr_ObjectMeta trustroot)) sigstoreKeys with
          | (live, Some err) => (live, tr_MarkCMUpdateFailed err status, Fails err)
          | (live, None) => (live, tr_MarkCMUpdatedOK status, Return tt)
          end
      end
  end.

Definition removeTrustRootEntry (meets : Meets) (live : option (gmap string string))
    (cm : gmap string string) (trustrootName : string) : option (gmap string string) * option string :=
  match tr_CreateRemovePatch cm trustrootName with
  | Err err => (live, Some err)
  | Ok None => (live, None)
  | Ok (Some patchBytes) => written live (api_Patch (fault meets) live patchBytes)
  end.

Definition tr_FinalizeKind (meets : Meets) (live : option (gmap string string))
    (trustroot : TrustRoot.TrustRoot) : option (gmap string string) * option string :=
  match existing meets with
  | Err (GetFailed err) => (live, Some err)
  | Err (NotFound _) => (live, None)
  | Ok cm => removeTrustRootEntry meets live cm (om_Name (TrustRoot.tr_ObjectMeta trustroot))
  end.

End TufKeys.
