(* ===== verification/TrustRootSpec.v ===== *)
(** What the validation and the controller of TrustRoots do. *)

From S2P Require Import Prelude.
From S2P Require Import Encoding.
From S2P Require Import FieldErrors.
From S2P Require Import K8s.
From S2P Require Import Oci.
From S2P Require Import ConfigMaps.
From S2P Require Import Lifecycle.
From S2P Require Import SigstoreKeys.
From S2P Require Import Tuf.
From S2P Require TrustRoot.
From S2P Require Import TrustKeys.
From S2P Require Import Reconcile.
From S2P Require Import ReconcileSpec.
From S2P Require Import Published.
From S2P Require Import TrustRootReconcile.

#[local] Set Default Proof Using "Type*".

(** * Validation *)

Section Validation.
Context `{F : FieldErrors} `{C : Certs}.

Lemma lastOf_app {A} errors field (l : list A) x validate :
  TrustRoot.lastOf errors field (l ++ [x]) validate = ViaFieldIndex field (length l) (validate x).
Proof.
  unfold TrustRoot.lastOf, indexed. rewrite imap_app, foldl_app. cbn. by rewrite Nat.add_0_r.
Qed.

(** Of the keys of a trust root only the last transparency log is validated if
    there is one: the errors of all certificate authorities, timestamp authorities
    and other logs are overwritten, the one that demands an authority too. *)
Theorem SigstoreKeys_Validate_last (keys : TrustRoot.SigstoreKeys)
    (logs : list TrustRoot.TransparencyLogInstance) (log : TrustRoot.TransparencyLogInstance)
    (Hlogs : TrustRoot.TLogs keys = logs ++ [log]) :
  Accepts (TrustRoot.SigstoreKeys_Validate keys) ↔
  urlString (TrustRoot.BaseURL log) ≠ "" ∧ TrustRoot.HashAlgorithm log ≠ "" ∧
  TrustRoot.PublicKeyPEM log ≠ "".
Proof.
  unfold TrustRoot.SigstoreKeys_Validate. cbv zeta. rewrite Hlogs, lastOf_app.
  rewrite Accepts_ViaFieldIndex. unfold TrustRoot.ValidateTransparencyLogInstance. cbv zeta.
  autorewrite with accepts. rewrite !String.eqb_eq. tauto.
Qed.

End Validation.

(** * The controller *)

Section Controller.
Context `{L : LogKeys} `{T : TufPkg} `{TF : TrustFormats} `{JP : JSONPatch} `{CS : ConditionSets}.
Context `{JL : !JSONPatchLaws} `{CL : !ConditionSetLaws}.
Variable untar : string → result string Archive.
Variable uaString : string.

(** Only the id of the log is changed: it is the id of the log's key. *)
Definition identified (ecdsa : bool) (tlog tlog' : TransparencyLogInstance) : Prop :=
  ∃ pem pk logID, SerializePublicKey (tl_PublicKey tlog) = Some pem ∧ UnmarshalPEMToPublicKey pem = Ok pk ∧
    GetTransparencyLogID pk = Ok logID ∧ (ecdsa = true → isECDSA pk = true) ∧ tlog' = set_LogId tlog logID.

Lemma pemToKeyAndID_Ok pem pk logID : pemToKeyAndID pem = Ok (pk, logID) →
  UnmarshalPEMToPublicKey pem = Ok pk ∧ GetTransparencyLogID pk = Ok logID.
Proof.
  unfold pemToKeyAndID. destruct (UnmarshalPEMToPublicKey pem) as [k|]; cbn; [|done].
  destruct (GetTransparencyLogID k) eqn:Hid; cbn; [|done]. by intros [= <- <-].
Qed.

Lemma rekorLog_spec i tlog :
  match rekorLog i tlog with
  | Return tlog' => identified true tlog tlog'
  | Fails _ => True
  | Panics => tl_PublicKey tlog = None
  end.
Proof.
  unfold rekorLog. destruct (SerializePublicKey _) as [pem|] eqn:Hs; [|by destruct (tl_PublicKey tlog)].
  destruct (pemToKeyAndID pem) as [[pk logID]|err] eqn:Hp; [|done].
  apply pemToKeyAndID_Ok in Hp as [H1 H2].
  destruct (isECDSA pk) eqn:He; cbn; [|done]. by exists pem, pk, logID.
Qed.
Lemma ctLog_spec i tlog :
  match ctLog i tlog with
  | Return tlog' => identified false tlog tlog'
  | Fails _ => True
  | Panics => tl_PublicKey tlog = None
  end.
Proof.
  unfold ctLog. destruct (SerializePublicKey _) as [pem|] eqn:Hs; [|by destruct (tl_PublicKey tlog)].
  destruct (pemToKeyAndID pem) as [[pk logID]|err] eqn:Hp; [|done].
  apply pemToKeyAndID_Ok in Hp as [H1 H2]. by exists pem, pk, logID.
Qed.

#[local] Existing Instances outcome_ret outcome_bind.

Lemma mapM_outcome {A B} (f : A → outcome B) (R : A → B → Prop) (Q : A → Prop) l :
  (∀ a, match f a with Return b => R a b | Fails _ => True | Panics => Q a end) →
  match mapM f l with Return l' => Forall2 R l l' | Fails _ => True | Panics => Exists Q l end.
Proof.
  intros Hf. induction l as [|a l IH]; [constructor|]. cbn [mapM].
  specialize (Hf a). destruct (f a) as [b|err|]; cbn; [|done|by left].
  destruct (mapM f l) as [k|err|]; cbn; [by constructor|done|by right].
Qed.

Lemma mapM_indexed {A B} (f : nat → A → outcome B) (R : A → B → Prop) (Q : A → Prop) l :
  (∀ i a, match f i a with Return b => R a b | Fails _ => True | Panics => Q a end) →
  match mapM (λ '(i, a), f i a) (indexed l) with
  | Return l' => Forall2 R l l' | Fails _ => True | Panics => Exists Q l end.
Proof.
  intros Hf. pose proof (mapM_outcome (λ '(i, a), f i a) (λ ia, R ia.2) (λ ia, Q ia.2) (indexed l)) as H.
  specialize (H ltac:(by intros [i a]; apply Hf)).
  destruct (mapM _ _) as [l'|err|]; [|done|]; rewrite <-(indexed_snd l).
  - by rewrite Forall2_fmap_l.
  - by rewrite Exists_fmap.
Qed.

(** Every log gets the id of its own key; a log without a key is a panic. *)
Lemma setLogIDs_spec sk :
  match setLogIDs sk with
  | Return sk' =>
      Forall2 (identified true) (Tlogs sk) (Tlogs sk') ∧ Forall2 (identified false) (Ctlogs sk) (Ctlogs sk') ∧
      (MediaType sk', CertificateAuthorities sk', TimestampAuthorities sk') =
      (MediaType sk, CertificateAuthorities sk, TimestampAuthorities sk)
  | Fails _ => True
  | Panics => ∃ tlog, tlog ∈ Tlogs sk ++ Ctlogs sk ∧ tl_PublicKey tlog = None
  end.
Proof.
  unfold setLogIDs.
  pose proof (mapM_indexed rekorLog _ _ (Tlogs sk) rekorLog_spec) as Ht.
  destruct (mapM _ (indexed (Tlogs sk))) as [tlogs|err|]; cbn; [|done|].
  2: { apply Exists_exists in Ht as (tlog & ? & ?). exists tlog. rewrite elem_of_app. split; [by left|done]. }
  pose proof (mapM_indexed ctLog _ _ (Ctlogs sk) ctLog_spec) as Hc.
  destruct (mapM _ (indexed (Ctlogs sk))) as [ctlogs|err|]; cbn; [done|done|].
  apply Exists_exists in Hc as (tlog & ? & ?). exists tlog. rewrite elem_of_app. split; [by right|done].
Qed.

(** C20: a reconciliation of a trust root with a current copy of the ConfigMap ends in
    one of three ways. It succeeds, and then the trust root is ready and its entry,
    alone, is the text of the keys it was given, where every log has a key and the id
    of it, and every Rekor key is ECDSA; or it returns an error, and then the trust
    root is not ready and the ConfigMap is as it was: unlike the one of policies, this
    controller leaves the entry of a trust root that has become invalid in force; or it
    panics, because the keys it was given have a log without a key, and the ConfigMap
    is as it was. The status is one that no controller of policies has written: it has
    no condition on inlined policies, which MarkInlineKeysOk, of the condition set of
    policies, would look at. *)
Theorem tr_ReconcileKind_current (meets : Meets) (live : option (gmap string string))
    (trustroot : TrustRoot.TrustRoot) (Hcurrent : current live meets)
    (Hpolicies : state (TrustRoot.tr_Status trustroot) ConditionPoliciesInlined = None) :
  match tr_ReconcileKind untar uaString meets live trustroot with
  | (live', status, Return _) =>
      state status ConditionReady = Some "True" ∧
      ∃ sk sk', getSigstoreKeys untar uaString trustroot = Ok sk ∧
        Forall2 (identified true) (Tlogs sk) (Tlogs sk') ∧
        Forall2 (identified false) (Ctlogs sk) (Ctlogs sk') ∧
        (MediaType sk', CertificateAuthorities sk', TimestampAuthorities sk') =
        (MediaType sk, CertificateAuthorities sk, TimestampAuthorities sk) ∧
        live' = Some (<[om_Name (TrustRoot.tr_ObjectMeta trustroot) := protojson_Marshal sk']> (default ∅ live))
  | (live', status, Fails err) =>
      state status ConditionReady ≠ Some "True" ∧ live' = live
  | (live', status, Panics) =>
      live' = live ∧ ∃ sk tlog, getSigstoreKeys untar uaString trustroot = Ok sk ∧
        tlog ∈ Tlogs sk ++ Ctlogs sk ∧ tl_PublicKey tlog = None
  end.
Proof.
  unfold tr_ReconcileKind. cbv zeta. set (status := tr_InitializeConditions _).
  assert (Hs : state status ConditionPoliciesInlined = None).
  { unfold status, tr_InitializeConditions. rewrite Initialize_other; [done|].
    unfold trCondSet. rewrite !not_elem_of_cons. repeat split; try done. apply not_elem_of_nil. }
  destruct (getSigstoreKeys untar uaString trustroot) as [sk|err] eqn:Hget.
  2: { by rewrite tr_InlineKeysFailed_not_ready. }
  pose proof (setLogIDs_spec sk) as Hids. destruct (setLogIDs sk) as [sk'|err|].
  2: { split; [|done]. intros Hr. unfold tr_MarkInlineKeysOk in Hr. rewrite MarkTrue_ready in Hr by done.
       specialize (Hr ConditionPoliciesInlined). rewrite MarkTrue_other, Hs in Hr by done.
       discriminate Hr. right. left. }
  2: { split; [done|]. destruct Hids as (tlog & ? & ?). by exists sk, tlog. }
  destruct Hids as (H1 & H2 & H3).
  rewrite tr_updateConfigMap_eq. pose proof (updateConfigMap_current meets live (om_Name (TrustRoot.tr_ObjectMeta trustroot))
    (protojson_Marshal sk') Hcurrent) as Hu.
  destruct (updateConfigMap _ _ _ _) as [live' [err|]].
  - rewrite tr_CMUpdateFailed_not_ready. by destruct Hu as [-> _].
  - split; [apply tr_ready|]. by exists sk, sk'.
Qed.

(** A first transparency log without a key is enough for the panic. *)
Lemma tr_ReconcileKind_panics (meets : Meets) (live : option (gmap string string))
    (trustroot : TrustRoot.TrustRoot) (sk : SigstoreKeys) (tlog : TransparencyLogInstance) rest :
  getSigstoreKeys untar uaString trustroot = Ok sk → Tlogs sk = tlog :: rest → tl_PublicKey tlog = None →
  (tr_ReconcileKind untar uaString meets live trustroot).2 = Panics.
Proof using Type.
  intros Hget Ht Hp. unfold tr_ReconcileKind. rewrite Hget. unfold setLogIDs. rewrite Ht. cbn.
  unfold rekorLog. by rewrite Hp.
Qed.

End Controller.

Section TufKeys.
Context `{L : LogKeys} `{T : TufPkg} `{TF : TrustFormats}.

(** The keys of a TUF repository: those of the trusted root target if there is
    one; if it is not found, at least one certificate authority from the targets
    with metadata; any other failure to get the target is an error, so that a
    repository that is down is not mistaken for an old one. *)
Theorem GetSigstoreKeysFromTuf_spec (tufClient : TUFClient) (target : string) :
  match GetSigstoreKeysFromTuf tufClient target with
  | Ok sk =>
      (∃ data, GetTarget tufClient target = Ok data ∧ protojson_Unmarshal data = Ok sk) ∨
      (∃ err targets, GetTarget tufClient target = Err err ∧ Contains err "not found" = true ∧
        (GetTopLevelTargets tufClient).2 = Ok targets ∧ addTargets tufClient targets emptyKeys = Ok sk ∧
        CertificateAuthorities sk ≠ [])
  | Err _ =>
      (∃ data, GetTarget tufClient target = Ok data ∧ is_Err (protojson_Unmarshal data)) ∨
      (∃ err, GetTarget tufClient target = Err err ∧
        (Contains err "not found" = false ∨ is_Err (GetTopLevelTargets tufClient).2 ∨
         ∃ targets, (GetTopLevelTargets tufClient).2 = Ok targets ∧
           ∀ sk, addTargets tufClient targets emptyKeys = Ok sk → CertificateAuthorities sk = []))
  end.
Proof.
  unfold GetSigstoreKeysFromTuf. destruct (GetTarget tufClient target) as [data|err].
  { destruct (protojson_Unmarshal data) as [sk|e] eqn:Hp; cbn; left; exists data; [done|].
    split; [done|by eexists]. }
  destruct (Contains err "not found") eqn:Hc; cbn [negb]; [|right; exists err; auto].
  destruct ((GetTopLevelTargets tufClient).2) as [targets|e] eqn:Ht; cbn [map_err mbind result_bind].
  2: { right. exists err. split; [done|]. right. left. by eexists. }
  destruct (addTargets tufClient targets emptyKeys) as [sk|e] eqn:Ha; cbn [mbind result_bind].
  2: { right. exists err. split; [done|]. right. right. exists targets. split; [done|]. intros sk Hsk. congruence. }
  destruct (CertificateAuthorities sk) as [|ca cas] eqn:Hcas; cbn.
  - right. exists err. split; [done|]. right. right. exists targets. split; [done|].
    intros sk' [= <-]%(eq_trans (eq_sym Ha)). done.
  - right. exists err, targets. split_and!; try done. by rewrite Hcas.
Qed.

End TufKeys.

(** * A concrete trust root *)

Module ToyTrustRoot.

#[export] Instance tuf : TufPkg := {|
  Client := ClientOptions;
  sigstoretuf_New o := if opt_Root o ==s "" then Err "no root" else Ok o;
  Client_GetTarget _ name := Err ("target " +:+ name +:+ " not found");
  tufconfig_New _ _ := Ok tt;
  updater_New _ := Ok tt;
  updater_Refresh _ := Ok []
|}.

Definition text (sk : SigstoreKeys) : string := foldr append "" (default "" ∘ LogId <$> Tlogs sk).
#[export] Instance formats : TrustFormats := {|
  trust_keys := {| yaml_YAMLToJSON s := Ok s; protojson_Unmarshal _ := Ok emptyKeys; protojson_Marshal := text |};
  parseCustom _ := Ok (UnknownUsage, "")
|}.

Definition keys : TrustRoot.SigstoreKeys := {|
  TrustRoot.CertificateAuthorities := [];
  TrustRoot.TLogs := [{| TrustRoot.BaseURL := {| urlString := "https://rekor.example.com" |};
                         TrustRoot.HashAlgorithm := "sha-256"; TrustRoot.PublicKeyPEM := ToyKeys.ecdsa |}];
  TrustRoot.CTLogs := []; TrustRoot.TimeStampAuthorities := [] |}.
Definition trustroot : TrustRoot.TrustRoot := {|
  TrustRoot.tr_TypeMeta := {| Kind := "TrustRoot"; APIVersion := "policy.sigstore.dev/v1alpha1" |};
  TrustRoot.tr_ObjectMeta := {| om_Name := "root"; om_Namespace := ""; om_UID := "uid";
    om_ResourceVersion := "1"; om_Generation := 1; om_Labels := ∅; om_DeletionTimestamp := None; om_Finalizers := [] |};
  TrustRoot.tr_Spec := {| TrustRoot.spec_Remote := None; TrustRoot.spec_Repository := None;
    TrustRoot.spec_SigstoreKeys := Some keys |};
  TrustRoot.tr_Status := {| ObservedGeneration := 1; Conditions := [] |} |}.

End ToyTrustRoot.

#[local] Existing Instances ToyKeys.parsers ToyKeys.logKeys ToyTrustRoot.tuf ToyTrustRoot.formats
  RFC6902.jsonPatch RFC6902.laws LivingConditions.conditionSets LivingConditions.laws
  ListFieldErrors.fieldErrors ToyCerts.certs.

(** A trust root with a log and no authority. *)
Lemma SigstoreKeys_Validate_last_witness : Accepts (TrustRoot.SigstoreKeys_Validate ToyTrustRoot.keys).
Proof.
  apply (SigstoreKeys_Validate_last ToyTrustRoot.keys [] _ eq_refl). split; [|split]; vm_compute; discriminate.
Defined.

Lemma tr_ReconcileKind_current_witness :
  match tr_ReconcileKind (λ _, Err "no archive") "ua" (ToySystem.fresh ToySystem.other) ToySystem.other
          ToyTrustRoot.trustroot with
  | (live', status, Return _) =>
      state status ConditionReady = Some "True" ∧
      live' = Some (<["root" := "id of " +:+ ToyKeys.ecdsa]> {[ "other" := "{}" ]})
  | _ => Logic.False
  end.
Proof.
  pose proof (tr_ReconcileKind_current (λ _, Err "no archive") "ua" (ToySystem.fresh ToySystem.other)
    ToySystem.other ToyTrustRoot.trustroot eq_refl eq_refl) as H.
  destruct (tr_ReconcileKind _ _ _ _ ToyTrustRoot.trustroot) as [[live' status] [u|err|]] eqn:Hr; [|vm_compute in Hr; discriminate Hr..].
  - destruct H as [Hready _]. split; [exact Hready|].
    assert (live' = (tr_ReconcileKind (λ _, Err "no archive") "ua" (ToySystem.fresh ToySystem.other)
      ToySystem.other ToyTrustRoot.trustroot).1.1) as -> by (rewrite Hr; reflexivity).
    vm_compute. reflexivity.
Defined.
