(* ===== verification/TrustRootPublished.v ===== *)
(** The ConfigMap of the trust roots over all calls of its controller
    (pkg/reconciler/trustroot), and what the webhook reads of it
    (pkg/apis/config/sigstore_keys.go). *)

From S2P Require Import Prelude.
From S2P Require Import Encoding.
From S2P Require Import K8s.
From S2P Require Import SigstoreKeys.
From S2P Require Import Tuf.
From S2P Require TrustRoot.
From S2P Require Import TrustKeys.
From S2P Require Import ConfigMaps.
From S2P Require Import Lifecycle.
From S2P Require Import Reconcile.
From S2P Require ToyText.
From S2P Require Import Published.
From S2P Require Import TrustRootReconcile.
From S2P Require Import TrustRootSpec.

#[local] Set Default Proof Using "Type*".

(** * All calls *)

Section System.
Context `{L : LogKeys} `{T : TufPkg} `{TF : TrustFormats} `{JP : JSONPatch} `{CS : ConditionSets}.
Variable untar : string → result string Archive.
Variable uaString : string.

(** The values of the ConfigMap, as the calls of the controller, one after the
    other, and a deletion of the ConfigMap make them. *)
Inductive tr_run : list (option (gmap string string)) → Prop :=
  | tr_run_start : tr_run [None]
  | tr_run_reconcile meets live past t :
      tr_run (live :: past) → seen (live :: past) meets →
      tr_run ((tr_ReconcileKind untar uaString meets live t).1.1 :: live :: past)
  | tr_run_finalize meets live past t :
      tr_run (live :: past) → seen (live :: past) meets →
      tr_run ((tr_FinalizeKind meets live t).1 :: live :: past)
  | tr_run_delete live past : tr_run (live :: past) → tr_run (None :: live :: past).

(** The keys of a trust root as they are published: every log has the id of its own
    key, and every Rekor key is ECDSA. *)
Definition keys_of (t : TrustRoot.TrustRoot) (sk' : SigstoreKeys) : Prop :=
  ∃ sk, getSigstoreKeys untar uaString t = Ok sk ∧
    Forall2 (identified true) (Tlogs sk) (Tlogs sk') ∧ Forall2 (identified false) (Ctlogs sk) (Ctlogs sk') ∧
    (MediaType sk', CertificateAuthorities sk', TimestampAuthorities sk') =
    (MediaType sk, CertificateAuthorities sk, TimestampAuthorities sk).

Definition tr_entry (name text : string) : Prop :=
  ∃ t sk', om_Name (TrustRoot.tr_ObjectMeta t) = name ∧ keys_of t sk' ∧ text = protojson_Marshal sk'.

Context `{JL : !JSONPatchLaws}.

Lemma tr_ReconcileKind_entries meets live t : entries tr_entry live →
  (∀ cm, existing meets = Ok cm → entries tr_entry (Some cm)) →
  entries tr_entry (tr_ReconcileKind untar uaString meets live t).1.1.
Proof.
  intros Hl Hcm. unfold tr_ReconcileKind. cbv zeta. destruct (getSigstoreKeys _ _ t) as [sk|err] eqn:Hg; [|done].
  pose proof (setLogIDs_spec sk) as Hs. destruct (setLogIDs sk) as [sk'|err|]; [|done..]. destruct Hs as (H1 & H2 & H3).
  assert (tr_entry (om_Name (TrustRoot.tr_ObjectMeta t)) (protojson_Marshal sk')) as He.
  { exists t, sk'. split; [done|]. split; [|done]. by exists sk. }
  rewrite tr_updateConfigMap_eq. pose proof (updateConfigMap_entries _ meets live _ _ Hl Hcm He) as Hu.
  by destruct (updateConfigMap _ _ _ _) as [live' [err|]].
Qed.

Lemma tr_run_entries history : tr_run history → Forall (entries tr_entry) history.
Proof.
  induction 1 as [|meets live past t _ IH Hs|meets live past t _ IH Hs|live past _ IH].
  - constructor; [done|constructor].
  - constructor; [|done]. apply tr_ReconcileKind_entries; [by inversion IH|]. by eapply seen_entries.
  - constructor; [|done]. assert (entries tr_entry live) by (by inversion IH).
    unfold tr_FinalizeKind. destruct (existing meets) as [cm|[msg|msg]] eqn:He; [|done..].
    apply (removeCIPEntry_entries tr_entry meets live cm); [done|]. by eapply seen_entries.
  - by constructor.
Qed.

Lemma tr_run_suffix later live past : tr_run (later ++ live :: past) → tr_run (live :: past).
Proof using.
  induction later as [|x later IH]; [done|]. intros H. apply IH.
  inversion H as [E|? ? ? ? H' ? E|? ? ? ? H' ? E|? ? H' E]; clear H.
  - by destruct later.
  - destruct later; simplify_eq/=; done.
  - destruct later; simplify_eq/=; done.
  - destruct later; simplify_eq/=; done.
Qed.

End System.

(** * What the webhook reads *)

(** A marshalled message is not the empty text, and it is YAML that reads back as the
    message. *)
Class KeysLaws `{KF : KeysFormats} : Prop := {
  protojson_Marshal_nonempty sk : protojson_Marshal sk ≠ "";
  parseSigstoreKeys_Marshal sk : parseSigstoreKeys (protojson_Marshal sk) = Ok sk
}.

Section Reading.
Context `{KF : KeysFormats}.

(** An entry that is read, and as what. *)
Definition readEntry (kv : string * string) : option (string * SigstoreKeys) :=
  if kv.1 ==s "_example" then None
  else match parseSigstoreKeys kv.2 with Ok sk => Some (kv.1, sk) | Err _ => None end.

Definition goodKeys (kv : string * string) : Prop :=
  kv.1 = "_example" ∨ kv.2 ≠ "" ∧ is_Ok (parseSigstoreKeys kv.2).

Lemma loop_Ok order (ret : gmap string SigstoreKeys) : Forall goodKeys order →
  NewSigstoreKeysFromMap_loop order ret = Ok (list_to_map (reverse (omap readEntry order)) ∪ ret).
Proof.
  intros H. revert ret. induction H as [|[k v] order Hg _ IH]; intros ret.
  { cbn. f_equal. symmetry. apply (map_empty_union (M := gmap string)). }
  cbn [NewSigstoreKeysFromMap_loop omap list_omap]. unfold readEntry at 1. cbn [fst snd].
  destruct (String.eqb_spec k "_example") as [|Hk]; [apply IH|].
  destruct Hg as [|[Hv [sk Hp]]]; [done|]. cbn [fst snd] in *. apply String.eqb_neq in Hv. rewrite Hv, Hp, IH.
  rewrite reverse_cons, list_to_map_app. cbn. rewrite <-(assoc_L (∪)). do 2 f_equal.
  rewrite <-insert_union_l. f_equal. symmetry. apply (map_empty_union (M := gmap string)).
Qed.

Lemma omap_readEntry_keys order : (omap readEntry order).*1 `sublist_of` order.*1.
Proof.
  induction order as [|[k v] order IH]; [done|]. cbn. unfold readEntry at 1. cbn [fst snd].
  destruct (k ==s "_example"); [by constructor|]. destruct (parseSigstoreKeys v); by constructor.
Qed.

Lemma FromMap_Ok (data : gmap string string) (order : list (string * string)) : order ≡ₚ map_to_list data →
  (∀ name text, data !! name = Some text → goodKeys (name, text)) →
  ∃ keys, NewSigstoreKeysFromMap order = Ok keys ∧ ∀ name sk, keys !! name = Some sk ↔
    name ≠ "_example" ∧ ∃ text, data !! name = Some text ∧ parseSigstoreKeys text = Ok sk.
Proof.
  intros Ho Hg. exists (list_to_map (reverse (omap readEntry order)) : gmap string SigstoreKeys). split.
  - unfold NewSigstoreKeysFromMap. rewrite loop_Ok; [f_equal; apply (map_union_empty (M := gmap string))|].
    rewrite Ho. apply Forall_forall. intros [name text] Hin%elem_of_map_to_list. by apply Hg.
  - intros name sk. etrans; [symmetry; apply elem_of_list_to_map|].
    2: { rewrite elem_of_reverse, list_elem_of_omap. split.
      - intros ([k v] & Hin & Hr). rewrite Ho in Hin. apply elem_of_map_to_list in Hin. unfold readEntry in Hr. cbn in Hr.
        destruct (String.eqb_spec k "_example"); [done|]. destruct (parseSigstoreKeys v) eqn:Hp; [|done].
        injection Hr as -> ->. split; [done|]. by exists v.
      - intros (Hne & v & Hv & Hp). exists (name, v). rewrite Ho. split; [by apply elem_of_map_to_list|].
        unfold readEntry. cbn. apply String.eqb_neq in Hne. by rewrite Hne, Hp. }
    rewrite fmap_reverse, reverse_Permutation. eapply sublist_NoDup; [|apply omap_readEntry_keys].
    rewrite Ho. apply NoDup_fst_map_to_list.
Qed.

End Reading.

Section Webhook.
Context `{L : LogKeys} `{T : TufPkg} `{TF : TrustFormats} `{JP : JSONPatch} `{CS : ConditionSets}.
Context `{JL : !JSONPatchLaws} `{TL : !KeysLaws (KF := trust_keys)}.
Variable untar : string → result string Archive.
Variable uaString : string.

(** The webhook can always read what the controller of trust roots maintains:
    after any sequence of its calls, with old copies of the ConfigMap and failed
    writes, reading the ConfigMap succeeds, and gives under each name the keys of a
    trust root of that name, in which every log has the id of its own key and every
    Rekor key is ECDSA, and no others. *)
Theorem webhook_reads_trust_roots (past : list (option (gmap string string))) (live : gmap string string)
    (Hrun : tr_run untar uaString (Some live :: past))
    (order : list (string * string)) (Horder : order ≡ₚ map_to_list live) :
  ∃ keys, NewSigstoreKeysFromMap order = Ok keys ∧
  ∀ name sk, keys !! name = Some sk ↔
    name ≠ "_example" ∧ ∃ t, om_Name (TrustRoot.tr_ObjectMeta t) = name ∧ keys_of untar uaString t sk ∧
      live !! name = Some (protojson_Marshal sk).
Proof.
  pose proof (tr_run_entries untar uaString _ Hrun) as Hent.
  assert (entries (tr_entry untar uaString) (Some live)) as Hlive by (by inversion Hent).
  destruct (FromMap_Ok live order Horder) as (keys & Hk & Hlook).
  { intros name text Ht. destruct (Hlive live name text eq_refl Ht) as (t & sk & _ & _ & ->). right.
    split; [apply protojson_Marshal_nonempty|]. cbn. rewrite parseSigstoreKeys_Marshal. by eexists. }
  exists keys. split; [done|]. intros name sk. rewrite Hlook. split.
  - intros (Hne & text & Ht & Hp). split; [done|].
    destruct (Hlive live name text eq_refl Ht) as (t & sk' & Hn & Hkeys & ->).
    rewrite parseSigstoreKeys_Marshal in Hp. injection Hp as <-. by exists t.
  - intros (Hne & t & Hn & Hkeys & Ht). split; [done|]. eexists. split; [exact Ht|]. apply parseSigstoreKeys_Marshal.
Qed.

End Webhook.

(** * A concrete form of the keys *)

Module ToyKeysText.

(** A message is the list of its fields. *)
Definition num (z : Z) : json := JNum {| asInt := Some z; isZeroFloat := false |}.
Definition opt {A} (f : A → json) (o : option A) : json := match o with Some a => JArr [f a] | None => JNull end.
Definition arr {A} (f : A → json) (l : list A) : json := JArr (f <$> l).
Definition un_str (j : json) : string := match j with JStr s => s | _ => "" end.
Definition un_num (j : json) : Z := match j with JNum n => default 0%Z (asInt n) | _ => 0%Z end.
Definition un_opt {A} (g : json → A) (j : json) : option A := match j with JArr [x] => Some (g x) | _ => None end.
Definition un_arr {A} (g : json → A) (j : json) : list A := match j with JArr l => g <$> l | _ => [] end.
Definition field (j : json) (i : nat) : json := match j with JArr l => default JNull (l !! i) | _ => JNull end.

Lemma un_opt_opt {A} (f : A → json) g o : (∀ a, g (f a) = a) → un_opt g (opt f o) = o.
Proof. intros H. destruct o; cbn; by rewrite ?H. Qed.
Lemma un_arr_arr {A} (f : A → json) g l : (∀ a, g (f a) = a) → un_arr g (arr f l) = l.
Proof. intros H. cbn. rewrite <-list_fmap_compose. apply list_fmap_id_ext. done. Qed.

Definition of_Timestamp (t : Timestamp) : json := JArr [num (Seconds t); num (Nanos t)].
Definition to_Timestamp (j : json) : Timestamp := {| Seconds := un_num (field j 0); Nanos := un_num (field j 1) |}.
Definition of_TimeRange (t : TimeRange) : json := JArr [opt of_Timestamp (tr_Start t); opt of_Timestamp (tr_End t)].
Definition to_TimeRange (j : json) : TimeRange :=
  {| tr_Start := un_opt to_Timestamp (field j 0); tr_End := un_opt to_Timestamp (field j 1) |}.
Definition of_Subject (d : DistinguishedName) : json := JArr [JStr (Organization d); JStr (CommonName d)].
Definition to_Subject (j : json) : DistinguishedName :=
  {| Organization := un_str (field j 0); CommonName := un_str (field j 1) |}.
Definition of_Authority (c : CertificateAuthority) : json :=
  JArr [opt of_Subject (ca_Subject c); JStr (Uri c); opt (arr (λ x, JStr (RawBytes x))) (CertChain c);
        opt of_TimeRange (ca_ValidFor c)].
Definition to_Authority (j : json) : CertificateAuthority :=
  {| ca_Subject := un_opt to_Subject (field j 0); Uri := un_str (field j 1);
     CertChain := un_opt (un_arr (λ x, {| RawBytes := un_str x |})) (field j 2); ca_ValidFor := un_opt to_TimeRange (field j 3) |}.
Definition of_hash (h : PbHashAlgorithm) : json :=
  num match h with HASH_ALGORITHM_UNSPECIFIED => 0 | SHA2_256 => 1 | SHA2_384 => 2 | SHA2_512 => 3 end.
Definition to_hash (j : json) : PbHashAlgorithm :=
  match un_num j with 1%Z => SHA2_256 | 2%Z => SHA2_384 | 3%Z => SHA2_512 | _ => HASH_ALGORITHM_UNSPECIFIED end.
Definition of_details (d : PublicKeyDetails) : json :=
  match d with
  | PUBLIC_KEY_DETAILS_UNSPECIFIED => num 0
  | PKIX_ECDSA_P256_SHA_256 => num 1 | PKIX_ECDSA_P384_SHA_384 => num 2 | PKIX_ECDSA_P521_SHA_512 => num 3
  | PKIX_RSA_PSS_2048_SHA256 => num 4 | PKIX_RSA_PSS_3072_SHA256 => num 5 | PKIX_RSA_PSS_4096_SHA256 => num 6
  | OtherKeyDetails code => JArr [num code]
  end.
Definition to_details (j : json) : PublicKeyDetails :=
  match j with
  | JArr [c] => OtherKeyDetails (un_num c)
  | _ => match un_num j with
         | 1%Z => PKIX_ECDSA_P256_SHA_256 | 2%Z => PKIX_ECDSA_P384_SHA_384 | 3%Z => PKIX_ECDSA_P521_SHA_512
         | 4%Z => PKIX_RSA_PSS_2048_SHA256 | 5%Z => PKIX_RSA_PSS_3072_SHA256 | 6%Z => PKIX_RSA_PSS_4096_SHA256
         | _ => PUBLIC_KEY_DETAILS_UNSPECIFIED
         end
  end.
Definition of_key (k : PbPublicKey) : json :=
  JArr [JStr (pk_RawBytes k); of_details (KeyDetails k); opt of_TimeRange (pk_ValidFor k)].
Definition to_key (j : json) : PbPublicKey :=
  {| pk_RawBytes := un_str (field j 0); KeyDetails := to_details (field j 1); pk_ValidFor := un_opt to_TimeRange (field j 2) |}.
Definition of_log (l : TransparencyLogInstance) : json :=
  JArr [JStr (BaseUrl l); of_hash (tl_HashAlgorithm l); opt of_key (tl_PublicKey l); opt JStr (LogId l)].
Definition to_log (j : json) : TransparencyLogInstance :=
  {| BaseUrl := un_str (field j 0); tl_HashAlgorithm := to_hash (field j 1); tl_PublicKey := un_opt to_key (field j 2);
     LogId := un_opt un_str (field j 3) |}.
Definition of_keys (k : SigstoreKeys) : json :=
  JArr [JStr (MediaType k); arr of_log (Tlogs k); arr of_Authority (CertificateAuthorities k); arr of_log (Ctlogs k);
        arr of_Authority (TimestampAuthorities k)].
Definition to_keys (j : json) : SigstoreKeys :=
  {| MediaType := un_str (field j 0); Tlogs := un_arr to_log (field j 1);
     CertificateAuthorities := un_arr to_Authority (field j 2); Ctlogs := un_arr to_log (field j 3);
     TimestampAuthorities := un_arr to_Authority (field j 4) |}.

Lemma to_of_TimeRange t : to_TimeRange (of_TimeRange t) = t.
Proof. destruct t. unfold to_TimeRange, of_TimeRange. cbn -[un_opt opt un_arr arr]. by rewrite !un_opt_opt by by intros []. Qed.
Lemma to_of_Authority c : to_Authority (of_Authority c) = c.
Proof.
  destruct c. unfold to_Authority, of_Authority. cbn -[un_opt opt un_arr arr].
  by rewrite (un_opt_opt of_Subject), (un_opt_opt (arr _)), (un_opt_opt of_TimeRange)
    by (apply to_of_TimeRange || (intros l; by rewrite un_arr_arr by by intros []) || by intros []).
Qed.
Lemma to_of_key k : to_key (of_key k) = k.
Proof.
  destruct k as [b d v]. unfold to_key, of_key. cbn -[un_opt opt un_arr arr].
  cbn. rewrite (un_opt_opt of_TimeRange) by apply to_of_TimeRange. by destruct d.
Qed.
Lemma to_of_log l : to_log (of_log l) = l.
Proof.
  destruct l as [u h k i]. unfold to_log, of_log. cbn -[un_opt opt un_arr arr to_key of_key].
  rewrite (un_opt_opt of_key), (un_opt_opt JStr) by (apply to_of_key || done). by destruct h.
Qed.
Lemma to_of_keys k : to_keys (of_keys k) = k.
Proof.
  destruct k. unfold to_keys, of_keys. cbn -[un_opt opt un_arr arr].
  by rewrite !(un_arr_arr of_log), !(un_arr_arr of_Authority) by (apply to_of_log || apply to_of_Authority).
Qed.

#[export] Instance keysFormats : KeysFormats := {|
  yaml_YAMLToJSON s := Ok s;
  protojson_Unmarshal s := match ToyText.parse s with Some j => Ok (to_keys j) | None => Err "invalid value" end;
  protojson_Marshal sk := ToyText.text (of_keys sk)
|}.
#[export] Instance trustFormats : TrustFormats := {| trust_keys := keysFormats; parseCustom _ := Ok (UnknownUsage, "") |}.
#[export] Instance keysLaws : KeysLaws (KF := keysFormats).
Proof.
  split; intros sk; [apply ToyText.text_nonempty|]. unfold parseSigstoreKeys. cbn.
  by rewrite ToyText.parse_text, to_of_keys.
Qed.

End ToyKeysText.

#[local] Existing Instances ToyKeys.parsers ToyKeys.logKeys TrustRootSpec.ToyTrustRoot.tuf RFC6902.jsonPatch RFC6902.laws
  LivingConditions.conditionSets ToyKeysText.trustFormats ToyKeysText.keysLaws.

(** The trust root of TrustRootSpec, reconciled once. *)
Definition toy_live : gmap string string := default ∅
  (tr_ReconcileKind (λ _, Err "no archive") "" (ToySystem.fresh None) None TrustRootSpec.ToyTrustRoot.trustroot).1.1.

Lemma webhook_reads_trust_roots_witness :
  ∃ keys sk t, NewSigstoreKeysFromMap (map_to_list toy_live) = Ok keys ∧ keys !! "root" = Some sk ∧
    om_Name (TrustRoot.tr_ObjectMeta t) = "root" ∧ keys_of (λ _, Err "no archive") "" t sk.
Proof.
  destruct (webhook_reads_trust_roots (λ _, Err "no archive") "" [None] toy_live) with (order := map_to_list toy_live)
    as (keys & Hk & Hlook).
  - assert (Some toy_live = (tr_ReconcileKind (λ _, Err "no archive") "" (ToySystem.fresh None) None
      TrustRootSpec.ToyTrustRoot.trustroot).1.1) as -> by (vm_compute; reflexivity).
    apply tr_run_reconcile; [apply tr_run_start|]. by intros cm [=].
  - reflexivity.
  - assert (∀ o, NewSigstoreKeysFromMap (map_to_list toy_live) = o →
      is_Some (match o with Ok m => m !! "root" | Err _ => None end)) as Hs
      by (intros o <-; apply (bool_decide_unpack _); vm_compute; reflexivity).
    destruct (Hs _ Hk) as [sk Hsk]. destruct (proj1 (Hlook "root" sk) Hsk) as (_ & t & Hn & Hkeys & _).
    exists keys, sk, t. split; [exact Hk|]. split; [exact Hsk|]. split; [exact Hn|exact Hkeys].
Defined.
