(* ===== verification/GenReconciler.v ===== *)
(** The generated reconcilers
    (pkg/client/injection/reconciler/policy/*/*/reconciler.go, state.go and
    controller.go): what stands between knative's work queue and the
    [ReconcileKind] and [FinalizeKind] of a controller.

    The three generated copies differ only in the type of the resource, so the code
    is modelled once, over the interface [Resource]; the definitions at the end of
    the file are the copies. Values are immutable here, so [DeepCopy] is the identity;
    DeepCopySpec shows that the generated copies deserve this. *)

From S2P Require Import Prelude.
From S2P Require Import Encoding.
From S2P Require Import K8s.
From S2P Require Import Lifecycle.
From S2P Require TrustRoot.
From S2P Require V1alpha1.
From S2P Require V1beta1.

(** * knative.dev/pkg and k8s.io *)

(** A [*reconciler.ReconcilerEvent], with what its [Error] renders. *)
Record ReconcilerEvent := { EventType : string; Reason : string; event_Error : string }.
Definition EventTypeNormal : string := "Normal".
Definition EventTypeWarning : string := "Warning".

(** Errors, of which the controller's events are some. [EventAs] finds an event
    that an error is or wraps; [isReconcilerEvent] tells whether it is one. *)
Class GoErrors := {
  GoError : Type;
  Error : GoError → string;
  errors_New : string → GoError;
  (** [fmt.Errorf("...: %w", err)] *)
  wrap : string → GoError → GoError;
  EventAs : GoError → option ReconcilerEvent;
  isReconcilerEvent : GoError → bool;
  NewSkipKey : string → GoError;
  IsSkipKey : GoError → bool;
  IsRequeueKey : GoError → bool;
  IsNotFound : GoError → bool;
  IsConflict : GoError → bool
}.

(** What the generated code needs of a resource, and knative of its status. *)
Class Resource (R : Type) := {
  objectMeta : R → ObjectMeta;
  (** its type and its specification *)
  ResourceContent : Type;
  content : R → ResourceContent;
  ResourceStatus : Type;
  status : R → ResourceStatus;
  with_status : R → ResourceStatus → R;
  (** [equality.Semantic.DeepEqual] on it *)
  Semantic_DeepEqual : ResourceStatus → ResourceStatus → bool;
  (** knative's [PreProcessReconcile] and [PostProcessReconcile] *)
  PreProcessReconcile : R → R;
  PostProcessReconcile : R → R → R
}.

(** The client, the lister over the informer's cache, the recorder, the elections
    and the queue, as they act on the world. A failed [Get], [UpdateStatus] or
    [Patch] may have taken effect all the same. *)
Class Clients (W R : Type) `{GoErrors} := {
  client_Get : string → W → W * result GoError R;
  client_UpdateStatus : R → W → W * result GoError R;
  (** a JSON merge patch *)
  client_Patch : string → string → W → W * result GoError R;
  lister_Get : string → W → result GoError R;
  lister_List : W → result GoError (list R);
  recorder_Event : ObjectMeta → string → string → string → W → W;
  IsLeaderFor : string → string → W → bool;
  (** [RetryUpdateConflicts], with the attempt's number *)
  RetryUpdateConflicts : (nat → W → W * option GoError) → W → W * option GoError;
  (** [cache.SplitMetaNamespaceKey] *)
  SplitMetaNamespaceKey : string → result string (string * string)
}.

(** * The reconciler *)

Section Generated.
Context {W R : Type} `{E : GoErrors} `{RS : !Resource R} `{CL : !Clients W R} `{J : JsonText}.

(** The end of a call that gets the resource by reference: the resource as it
    leaves it, and the event; or a panic. *)
Inductive handled := Handled (w : W) (resource : R) (event : option GoError) | HandlerPanics (w : W).

Definition doReconcile : Type := R → W → handled.

(** A value of type [Interface], with the methods it may have besides. *)
Record Interface := {
  ReconcileKind : doReconcile;
  FinalizeKind : option doReconcile;
  ObserveKind : option doReconcile;
  ObserveDeletion : option (string → string → W → W * option GoError)
}.

(** [configStore] and the context, which only the handlers use, are left out. *)
Record reconcilerImpl := {
  reconciler : Interface;
  finalizerName : string;
  skipStatusUpdates : bool
}.

(** ** state.go *)

Record state := {
  s_key : string;
  s_namespace : string;
  s_name : string;
  s_roi : option doReconcile;
  isLeader : bool
}.

Definition newState (k : string) (r : reconcilerImpl) (w : W) : result string state :=
  match SplitMetaNamespaceKey k with
  | Err _ => Err ("invalid resource key: " +:+ k)
  | Ok (ns, n) =>
      Ok {| s_key := k; s_namespace := ns; s_name := n; s_roi := ObserveKind (reconciler r);
            isLeader := IsLeaderFor ns n w |}
  end.

Definition isROI (s : state) : bool := notNil (s_roi s).

Definition isNotLeaderNorObserver (s : state) : bool := negb (isLeader s) && negb (isROI s).

Inductive method := DoReconcileKind | DoFinalizeKind | DoObserveKind | Unknown.

Definition reconcileMethodFor (r : reconcilerImpl) (s : state) (o : R) : method * option doReconcile :=
  match om_DeletionTimestamp (objectMeta o) with
  | None =>
      if isLeader s then (DoReconcileKind, Some (ReconcileKind (reconciler r)))
      else match s_roi s with
           | Some observe => (DoObserveKind, Some observe)
           | None => (Unknown, None)
           end
  | Some _ =>
      match FinalizeKind (reconciler r) with
      | Some fin => if isLeader s then (DoFinalizeKind, Some fin) else (Unknown, None)
      | None => (Unknown, None)
      end
  end.

(** ** Finalizers *)

(** [sets.String.List], which sorts. *)
Definition string_le (a b : string) : Prop := String.leb a b = true.
#[export] Instance string_le_dec : RelDecision string_le.
Proof. intros a b. unfold string_le. apply _. Defined.
Definition set_List (s : gset string) : list string := merge_sort string_le (elements s).

Definition finalizersPatch (finalizers : list string) (resourceVersion : string) : json :=
  JObj [("metadata", JObj [("finalizers", JArr (JStr <$> finalizers));
                           ("resourceVersion", JStr resourceVersion)])].

(** The finalizers to write, if there is something to do. *)
Definition newFinalizers (r : reconcilerImpl) (existing : R) (desiredFinalizers : gset string) :
    option (list string) :=
  let existingFinalizers : gset string := list_to_set (om_Finalizers (objectMeta existing)) in
  if decide (finalizerName r ∈ desiredFinalizers) then
    if decide (finalizerName r ∈ existingFinalizers) then None
    else Some (om_Finalizers (objectMeta existing) ++ [finalizerName r])
  else
    if decide (finalizerName r ∈ existingFinalizers)
    then Some (set_List (existingFinalizers ∖ {[finalizerName r]}))
    else None.

Definition updateFinalizersFiltered (r : reconcilerImpl) (resource : R) (desiredFinalizers : gset string)
    (w : W) : W * result GoError R :=
  match newFinalizers r resource desiredFinalizers with
  | None => (w, Ok resource)
  | Some finalizers =>
      let patch := jsonText (finalizersPatch finalizers (om_ResourceVersion (objectMeta resource))) in
      let resourceName := om_Name (objectMeta resource) in
      match client_Patch resourceName patch w with
      | (w, Err err) =>
          (recorder_Event (objectMeta resource) EventTypeWarning "FinalizerUpdateFailed"
             ("Failed to update finalizers for " +:+ quote resourceName +:+ ": " +:+ Error err) w, Err err)
      | (w, Ok updated) =>
          (recorder_Event (objectMeta updated) EventTypeNormal "FinalizerUpdate"
             ("Updated " +:+ quote resourceName +:+ " finalizers") w, Ok updated)
      end
  end.

Definition setFinalizerIfFinalizer (r : reconcilerImpl) (resource : R) (w : W) : W * result GoError R :=
  match FinalizeKind (reconciler r) with
  | None => (w, Ok resource)
  | Some _ =>
      let finalizers : gset string := list_to_set (om_Finalizers (objectMeta resource)) in
      let finalizers :=
        if isNil (om_DeletionTimestamp (objectMeta resource)) then {[finalizerName r]} ∪ finalizers
        else finalizers in
      updateFinalizersFiltered r resource finalizers w
  end.

Definition clearFinalizer (r : reconcilerImpl) (resource : R) (reconcileEvent : option GoError) (w : W) :
    W * result GoError R :=
  match FinalizeKind (reconciler r) with
  | None => (w, Ok resource)
  | Some _ =>
      if isNil (om_DeletionTimestamp (objectMeta resource)) then (w, Ok resource) else
      let finalizers : gset string := list_to_set (om_Finalizers (objectMeta resource)) in
      let cleared := finalizers ∖ {[finalizerName r]} in
      let finalizers :=
        match reconcileEvent with
        | Some err =>
            match EventAs err with
            | Some event => if EventType event ==s EventTypeNormal then cleared else finalizers
            | None => finalizers
            end
        | None => cleared
        end in
      updateFinalizersFiltered r resource finalizers w
  end.

(** ** Status *)

(** One attempt: the first uses the informer's copy, the others fetch the latest. *)
Definition updateStatus_attempt (existing desired : R) (attempts : nat) (w : W) : W * option GoError :=
  let update existing w :=
    if Semantic_DeepEqual (status existing) (status desired) then (w, None)
    else match client_UpdateStatus (with_status existing (status desired)) w with
         | (w, Ok _) => (w, None)
         | (w, Err err) => (w, Some err)
         end in
  if (0 <? attempts)%nat then
    match client_Get (om_Name (objectMeta desired)) w with
    | (w, Err err) => (w, Some err)
    | (w, Ok existing) => update existing w
    end
  else update existing w.

Definition updateStatus (existing desired : R) (w : W) : W * option GoError :=
  RetryUpdateConflicts (updateStatus_attempt existing desired) w.

(** ** Reconcile *)

(** How [Reconcile] ends: with an error or nil, or in a panic of a handler. *)
Inductive ended := Returns (w : W) (err : option GoError) | Panics (w : W).

(** The [switch] on the method; it ends early when a finalizer cannot be updated. *)
Definition runMethod (r : reconcilerImpl) (m : method) (do : option doReconcile) (original : R) (w : W) :
    handled + W * GoError :=
  match m, do with
  | DoReconcileKind, Some do =>
      match setFinalizerIfFinalizer r original w with
      | (w, Err err) => inr (w, wrap "failed to set finalizers: " err)
      | (w, Ok resource) =>
          let resource := if skipStatusUpdates r then resource else PreProcessReconcile resource in
          match do resource w with
          | HandlerPanics w => inl (HandlerPanics w)
          | Handled w resource reconcileEvent =>
              inl (Handled w (if skipStatusUpdates r then resource else PostProcessReconcile resource original)
                     reconcileEvent)
          end
      end
  | DoFinalizeKind, Some do =>
      match do original w with
      | HandlerPanics w => inl (HandlerPanics w)
      | Handled w resource reconcileEvent =>
          match clearFinalizer r resource reconcileEvent w with
          | (w, Err err) => inr (w, wrap "failed to clear finalizers: " err)
          | (w, Ok resource) => inl (Handled w resource reconcileEvent)
          end
      end
  | DoObserveKind, Some do => inl (do original w)
  | _, _ => inl (Handled w original None)
  end.

(** The second [switch]: the status is written by the leader, if it has changed. *)
Definition synchronizeStatus (r : reconcilerImpl) (s : state) (original resource : R) (w : W) :
    W * option GoError :=
  if skipStatusUpdates r then (w, None)
  else if Semantic_DeepEqual (status original) (status resource) then (w, None)
  else if negb (isLeader s) then (w, None)
  else match updateStatus original resource w with
       | (w, None) => (w, None)
       | (w, Some err) =>
           (recorder_Event (objectMeta resource) EventTypeWarning "UpdateFailed"
              ("Failed to update status for " +:+ quote (om_Name (objectMeta resource)) +:+ ": " +:+ Error err) w,
            Some err)
       end.

Definition reportEvent (resource : R) (reconcileEvent : option GoError) (w : W) : ended :=
  match reconcileEvent with
  | None => Returns w None
  | Some err =>
      match EventAs err with
      | Some event =>
          let w := recorder_Event (objectMeta resource) (EventType event) (Reason event) (event_Error event) w in
          Returns w (if isReconcilerEvent err then None else reconcileEvent)
      | None =>
          if IsSkipKey err || IsRequeueKey err then Returns w reconcileEvent
          else Returns (recorder_Event (objectMeta resource) EventTypeWarning "InternalError" (Error err) w)
                 reconcileEvent
      end
  end.

Definition observeDeletion (r : reconcilerImpl) (s : state) (w : W) : ended :=
  match ObserveDeletion (reconciler r) with
  | Some del => let (w, err) := del (s_namespace s) (s_name s) w in Returns w err
  | None => Returns w None
  end.

Definition Reconcile (r : reconcilerImpl) (k : string) (w : W) : ended :=
  match newState k r w with
  | Err _ => Returns w None
  | Ok s =>
  if isNotLeaderNorObserver s then Returns w (Some (NewSkipKey k)) else
  match lister_Get (s_name s) w with
  | Err err => if IsNotFound err then observeDeletion r s w else Returns w (Some err)
  | Ok original =>
  let (m, do) := reconcileMethodFor r s original in
  match runMethod r m do original w with
  | inr (w, err) => Returns w (Some err)
  | inl (HandlerPanics w) => Panics w
  | inl (Handled w resource reconcileEvent) =>
  match synchronizeStatus r s original resource w with
  | (w, Some err) => Returns w (Some err)
  | (w, None) => reportEvent resource reconcileEvent w
  end end end end.

(** ** NewReconciler and controller.go *)

(** [controller.Options], as far as the reconciler's fields depend on them. *)
Record Options := {
  opt_FinalizerName : string;
  opt_AgentName : string;
  opt_SkipStatusUpdates : bool;
  opt_PromoteFilterFunc : option (R → bool);
  opt_PromoteFunc : option (W → W)
}.

Definition applyOptions (rec : reconcilerImpl) (opts : Options) : reconcilerImpl :=
  {| reconciler := reconciler rec;
     finalizerName := if opt_FinalizerName opts !=s "" then opt_FinalizerName opts else finalizerName rec;
     skipStatusUpdates := opt_SkipStatusUpdates opts || skipStatusUpdates rec |}.

(** [PromoteFunc] of [NewReconciler]: the keys to enqueue in the bucket. *)
Definition promoteAll (w : W) : result GoError (list (string * string)) :=
  match lister_List w with
  | Err err => Err err
  | Ok all => Ok ((λ elt, (om_Namespace (objectMeta elt), om_Name (objectMeta elt))) <$> all)
  end.

(** [None] is the end of the process, by [logger.Fatal]. *)
Definition NewReconciler (defaultFinalizerName : string) (r : Interface) (isLeaderAware : bool)
    (options : list Options) : option reconcilerImpl :=
  if (1 <? length options)%nat then None
  else if isLeaderAware then None
  else Some (foldl applyOptions
         {| reconciler := r; finalizerName := defaultFinalizerName; skipStatusUpdates := false |} options).

(** What [NewImpl] makes: the reconciler, the name of its recorder's agent, and the
    filter and the function its [PromoteFunc] uses. *)
Record Impl := {
  impl_rec : reconcilerImpl;
  agentName : string;
  promoteFilterFunc : option (R → bool);
  promoteFunc : W → W
}.

Definition applyImplOptions (i : Impl) (opts : Options) : Impl :=
  {| impl_rec := applyOptions (impl_rec i) opts;
     agentName := if opt_AgentName opts !=s "" then opt_AgentName opts else agentName i;
     promoteFilterFunc :=
       match opt_PromoteFilterFunc opts with Some f => Some f | None => promoteFilterFunc i end;
     promoteFunc := match opt_PromoteFunc opts with Some f => f | None => promoteFunc i end |}.

Definition NewImpl (defaultControllerAgentName defaultFinalizerName : string) (r : Interface)
    (optionsFns : list Options) : option Impl :=
  if (1 <? length optionsFns)%nat then None
  else Some (foldl applyImplOptions
         {| impl_rec := {| reconciler := r; finalizerName := defaultFinalizerName; skipStatusUpdates := false |};
            agentName := defaultControllerAgentName; promoteFilterFunc := None; promoteFunc := λ w, w |}
         optionsFns).

(** [PromoteFunc] of [NewImpl]. *)
Definition promote (i : Impl) (w : W) : W * result GoError (list (string * string)) :=
  let w := promoteFunc i w in
  match lister_List w with
  | Err err => (w, Err err)
  | Ok all =>
      let all := match promoteFilterFunc i with
                 | Some f => List.filter f all
                 | None => all
                 end in
      (w, Ok ((λ elt, (om_Namespace (objectMeta elt), om_Name (objectMeta elt))) <$> all))
  end.

End Generated.

Arguments handled W R {E}.
Arguments Interface W R {E}.
Arguments reconcilerImpl W R {E}.
Arguments ended W {E}.

(** * The three resources *)

(** What knative does to a status around a reconciliation, with the dependents of
    the condition set and the generation, and equality of statuses. *)
Class KnativeStatus := {
  preProcess : list string → Z → Status → Status;
  postProcess : Z → Status → Status → Status;
  statusEqual : Status → Status → bool
}.

Section Copies.
Context `{KS : KnativeStatus}.

Definition policy_with_status (c : V1alpha1.ClusterImagePolicy) (s : Status) : V1alpha1.ClusterImagePolicy :=
  {| V1alpha1.cip_TypeMeta := V1alpha1.cip_TypeMeta c; V1alpha1.cip_ObjectMeta := V1alpha1.cip_ObjectMeta c;
     V1alpha1.Spec := V1alpha1.Spec c; V1alpha1.cip_Status := {| V1alpha1.duckStatus := s |} |}.
Definition v1beta1_with_status (c : V1beta1.ClusterImagePolicy) (s : Status) : V1beta1.ClusterImagePolicy :=
  {| V1beta1.cip_TypeMeta := V1beta1.cip_TypeMeta c; V1beta1.cip_ObjectMeta := V1beta1.cip_ObjectMeta c;
     V1beta1.Spec := V1beta1.Spec c; V1beta1.cip_Status := {| V1beta1.duckStatus := s |} |}.
Definition trustroot_with_status (t : TrustRoot.TrustRoot) (s : Status) : TrustRoot.TrustRoot :=
  {| TrustRoot.tr_TypeMeta := TrustRoot.tr_TypeMeta t; TrustRoot.tr_ObjectMeta := TrustRoot.tr_ObjectMeta t;
     TrustRoot.tr_Spec := TrustRoot.tr_Spec t; TrustRoot.tr_Status := s |}.

#[export] Instance policy_resource : Resource V1alpha1.ClusterImagePolicy := {|
  objectMeta := V1alpha1.cip_ObjectMeta;
  content c := (V1alpha1.cip_TypeMeta c, V1alpha1.Spec c);
  ResourceStatus := Status;
  status c := V1alpha1.duckStatus (V1alpha1.cip_Status c);
  with_status := policy_with_status;
  Semantic_DeepEqual := statusEqual;
  PreProcessReconcile c := policy_with_status c
    (preProcess cipCondSet (om_Generation (V1alpha1.cip_ObjectMeta c)) (V1alpha1.duckStatus (V1alpha1.cip_Status c)));
  PostProcessReconcile c old := policy_with_status c
    (postProcess (om_Generation (V1alpha1.cip_ObjectMeta c)) (V1alpha1.duckStatus (V1alpha1.cip_Status c))
       (V1alpha1.duckStatus (V1alpha1.cip_Status old)))
|}.
#[export] Instance v1beta1_resource : Resource V1beta1.ClusterImagePolicy := {|
  objectMeta := V1beta1.cip_ObjectMeta;
  content c := (V1beta1.cip_TypeMeta c, V1beta1.Spec c);
  ResourceStatus := Status;
  status c := V1beta1.duckStatus (V1beta1.cip_Status c);
  with_status := v1beta1_with_status;
  Semantic_DeepEqual := statusEqual;
  PreProcessReconcile c := v1beta1_with_status c
    (preProcess cipCondSet (om_Generation (V1beta1.cip_ObjectMeta c)) (V1beta1.duckStatus (V1beta1.cip_Status c)));
  PostProcessReconcile c old := v1beta1_with_status c
    (postProcess (om_Generation (V1beta1.cip_ObjectMeta c)) (V1beta1.duckStatus (V1beta1.cip_Status c))
       (V1beta1.duckStatus (V1beta1.cip_Status old)))
|}.
#[export] Instance trustroot_resource : Resource TrustRoot.TrustRoot := {|
  objectMeta := TrustRoot.tr_ObjectMeta;
  content t := (TrustRoot.tr_TypeMeta t, TrustRoot.tr_Spec t);
  ResourceStatus := Status;
  status := TrustRoot.tr_Status;
  with_status := trustroot_with_status;
  Semantic_DeepEqual := statusEqual;
  PreProcessReconcile t := trustroot_with_status t
    (preProcess trCondSet (om_Generation (TrustRoot.tr_ObjectMeta t)) (TrustRoot.tr_Status t));
  PostProcessReconcile t old := trustroot_with_status t
    (postProcess (om_Generation (TrustRoot.tr_ObjectMeta t)) (TrustRoot.tr_Status t) (TrustRoot.tr_Status old))
|}.

(** ** The copies *)

Context {W : Type} `{E : GoErrors} `{J : JsonText}.

Section V1beta1.
Abbreviation R := V1beta1.ClusterImagePolicy.
Context `{CL : !Clients W R}.
Definition v1beta1_newState := newState (W := W) (R := R).
Definition v1beta1_isNotLeaderNorObserver := isNotLeaderNorObserver (W := W) (R := R).
Definition v1beta1_reconcileMethodFor := reconcileMethodFor (W := W) (R := R).
Definition v1beta1_updateStatus := updateStatus (W := W) (R := R).
Definition v1beta1_updateFinalizersFiltered := updateFinalizersFiltered (W := W) (R := R).
Definition v1beta1_setFinalizerIfFinalizer := setFinalizerIfFinalizer (W := W) (R := R).
Definition v1beta1_clearFinalizer := clearFinalizer (W := W) (R := R).
Definition v1beta1_Reconcile := Reconcile (W := W) (R := R).
Definition v1beta1_NewReconciler := NewReconciler (W := W) (R := R) "clusterimagepolicies.policy.sigstore.dev".
Definition v1beta1_NewImpl := NewImpl (W := W) (R := R) "clusterimagepolicy-controller"
  "clusterimagepolicies.policy.sigstore.dev".
End V1beta1.

Section TrustRoot.
Abbreviation R := TrustRoot.TrustRoot.
Context `{CL : !Clients W R}.
Definition trustroot_newState := newState (W := W) (R := R).
Definition trustroot_isNotLeaderNorObserver := isNotLeaderNorObserver (W := W) (R := R).
Definition trustroot_reconcileMethodFor := reconcileMethodFor (W := W) (R := R).
Definition trustroot_updateStatus := updateStatus (W := W) (R := R).
Definition trustroot_updateFinalizersFiltered := updateFinalizersFiltered (W := W) (R := R).
Definition trustroot_setFinalizerIfFinalizer := setFinalizerIfFinalizer (W := W) (R := R).
Definition trustroot_clearFinalizer := clearFinalizer (W := W) (R := R).
Definition trustroot_Reconcile := Reconcile (W := W) (R := R).
Definition trustroot_NewReconciler := NewReconciler (W := W) (R := R) "trustroots.policy.sigstore.dev".
Definition trustroot_NewImpl := NewImpl (W := W) (R := R) "trustroot-controller" "trustroots.policy.sigstore.dev".
End TrustRoot.

End Copies.
