(* ===== verification/ApiServer.v ===== *)
(** The API server and an informer's cache, as the generated reconcilers meet them:
    what the server has held of a resource, version after version, how much of it
    the cache has seen, and what the ConfigMap of the controller has been.

    Between two actions of a reconciler, others act on the same objects: users, and
    the informer that catches up. The class [ServerLaws] states what Kubernetes
    documents of the actions; an instance is at the end of the file. *)

From S2P Require Import Prelude.
From S2P Require Import Encoding.
From S2P Require Import K8s.
From S2P Require Import GenReconciler.

#[local] Set Default Proof Using "Type*".

(** * The world *)

Section World.
Context {R : Type} `{RS : !Resource R}.

Abbreviation Objects := (gmap string R).

(** The history is oldest first, and the cache is one of its values. The values of
    the ConfigMap are newest first. *)
Record World := {
  history : list Objects;
  seen : nat;
  configMaps : list (option (gmap string string))
}.

Definition cached (w : World) : Objects := default ∅ (history w !! seen w).
Definition current (w : World) : Objects := default ∅ (last (history w)).
Definition configMap (w : World) : option (gmap string string) := default None (head (configMaps w)).

(** The object [n] becomes [oo]. *)
Definition put (n : string) (oo : option R) (w : World) : World :=
  {| history := history w ++ [partial_alter (λ _, oo) n (current w)];
     seen := seen w; configMaps := configMaps w |}.
Definition deliver (w : World) : World :=
  {| history := history w; seen := S (seen w); configMaps := configMaps w |}.
Definition write (cm : option (gmap string string)) (w : World) : World :=
  {| history := history w; seen := seen w; configMaps := cm :: configMaps w |}.

Definition version (o : R) : string := om_ResourceVersion (objectMeta o).
Definition finalizers (o : R) : list string := om_Finalizers (objectMeta o).
Definition deletion (o : R) : option Z := om_DeletionTimestamp (objectMeta o).
Definition nameOf (o : R) : string := om_Name (objectMeta o).

(** A version that no object has had. *)
Definition fresh (v : string) (w : World) : Prop :=
  v ≠ "" ∧ ∀ objs n o, objs ∈ history w → objs !! n = Some o → version o ≠ v.

(** ** What others do *)

Section Others.
(** The finalizer that others leave alone, and what the server lets in. *)
Variables (fin : string) (accepted : R → Prop).

(** [o'] replaces [o] as the object [n]. *)
Definition replaces (w : World) (n : string) (o o' : R) : Prop :=
  current w !! n = Some o ∧ nameOf o' = n ∧ accepted o' ∧ fresh (version o') w.

Inductive others : World → World → Prop :=
  | other_creates n o w : current w !! n = None → nameOf o = n → accepted o → fresh (version o) w →
      fin ∉ finalizers o → deletion o = None → others w (put n (Some o) w)
  | other_updates n o o' w : replaces w n o o' → deletion o' = deletion o →
      (fin ∈ finalizers o' ↔ fin ∈ finalizers o) → others w (put n (Some o') w)
  | other_deletes n o o' w : replaces w n o o' → deletion o' ≠ None →
      finalizers o' = finalizers o → others w (put n (Some o') w)
  | other_removes n o w : current w !! n = Some o → fin ∉ finalizers o → others w (put n None w)
  | cache_advances w : S (seen w) < length (history w) → others w (deliver w)
  | ConfigMap_deleted w : others w (write None w).

Definition elsewhere : World → World → Prop := rtc others.

(** ** What the reconciler's actions do *)

(** The write of a status, and of finalizers: a new version, nothing else. *)
Definition status_written (o0 desired o1 : R) : Prop :=
  status o1 = status desired ∧ content o1 = content o0 ∧ nameOf o1 = nameOf o0 ∧
  deletion o1 = deletion o0 ∧ finalizers o1 = finalizers o0 ∧
  om_Generation (objectMeta o1) = om_Generation (objectMeta o0).
Definition finalizers_written (o0 : R) (fs : list string) (o1 : R) : Prop :=
  finalizers o1 = fs ∧ status o1 = status o0 ∧ content o1 = content o0 ∧ nameOf o1 = nameOf o0 ∧
  deletion o1 = deletion o0 ∧ om_Generation (objectMeta o1) = om_Generation (objectMeta o0).

(** An object that is being deleted goes with its last finalizer. *)
Definition kept (o : R) : option R :=
  if decide (finalizers o = [] ∧ deletion o ≠ None) then None else Some o.

Context `{E : GoErrors} `{CL : !Clients World R} `{J : JsonText}.

(** At most [n] more attempts, the next being number [k]. *)
Fixpoint tries (n k : nat) (f : nat → World → World * option GoError) (w : World) : World * option GoError :=
  match f k w with
  | (w, None) => (w, None)
  | (w, Some err) =>
      match n with
      | S n => if IsConflict err then tries n (S k) f w else (w, Some err)
      | O => (w, Some err)
      end
  end.

Class ServerLaws : Prop := {
  Get_law n w w' res : client_Get n w = (w', res) →
    elsewhere w w' ∧ ∀ o, res = Ok o → current w' !! n = Some o;
  (** a write that gives a version takes effect only on that version *)
  UpdateStatus_law o w w' res : client_UpdateStatus o w = (w', res) → ∃ w0, elsewhere w w0 ∧
    (w' = w0 ∧ is_Err res ∨
     ∃ o0 o1, current w0 !! nameOf o = Some o0 ∧ (version o = "" ∨ version o0 = version o) ∧
       status_written o0 o o1 ∧ fresh (version o1) w0 ∧ w' = put (nameOf o) (Some o1) w0);
  Patch_law n fs v w w' res : client_Patch n (jsonText (finalizersPatch fs v)) w = (w', res) →
    ∃ w0, elsewhere w w0 ∧
    (w' = w0 ∧ is_Err res ∨
     ∃ o0 o1, current w0 !! n = Some o0 ∧ (v = "" ∨ version o0 = v) ∧
       finalizers_written o0 fs o1 ∧ fresh (version o1) w0 ∧ w' = put n (kept o1) w0 ∧
       ∀ o, res = Ok o → o = o1);
  lister_Ok n w o : lister_Get n w = Ok o ↔ cached w !! n = Some o;
  lister_NotFound n w : cached w !! n = None → ∃ err, lister_Get n w = Err err ∧ IsNotFound err = true;
  recorder_law m ty reason msg w : elsewhere w (recorder_Event m ty reason msg w);
  retry_law : ∃ steps, ∀ f w, RetryUpdateConflicts f w = tries steps 0 f w
}.

(** A server that no one else uses meanwhile, and that answers. *)
Class QuietServer : Prop := {
  quiet_Get n w o : current w !! n = Some o → client_Get n w = (w, Ok o);
  quiet_UpdateStatus o o0 w : current w !! nameOf o = Some o0 → version o0 = version o →
    ∃ o1, client_UpdateStatus o w = (put (nameOf o) (Some o1) w, Ok o1) ∧ status_written o0 o o1;
  quiet_conflict o o0 w : current w !! nameOf o = Some o0 → version o0 ≠ version o → version o ≠ "" →
    ∃ err, client_UpdateStatus o w = (w, Err err) ∧ IsConflict err = true;
  quiet_Patch n fs o0 w : current w !! n = Some o0 →
    ∃ o1, client_Patch n (jsonText (finalizersPatch fs (version o0))) w = (put n (kept o1) w, Ok o1) ∧
      finalizers_written o0 fs o1 ∧ version o1 ≠ version o0;
  quiet_lister n w o : cached w !! n = Some o → lister_Get n w = Ok o;
  quiet_recorder m ty reason msg w : recorder_Event m ty reason msg w = w;
  quiet_retry : ∃ steps, ∀ f w, RetryUpdateConflicts f w = tries (S steps) 0 f w
}.

End Others.

(** What is assumed of the status of a resource. *)
Class ResourceLaws : Prop := {
  with_status_meta o s : objectMeta (with_status o s) = objectMeta o;
  with_status_content o s : content (with_status o s) = content o;
  with_status_status o s : status (with_status o s) = s;
  PreProcess_meta o : objectMeta (PreProcessReconcile o) = objectMeta o;
  PreProcess_content o : content (PreProcessReconcile o) = content o;
  PostProcess_meta o old : objectMeta (PostProcessReconcile o old) = objectMeta o;
  PostProcess_content o old : content (PostProcessReconcile o old) = content o;
  Semantic_DeepEqual_iff s s' : Semantic_DeepEqual s s' = true ↔ s = s'
}.

End World.

Arguments World R : clear implicits.

