(* ===== verification/GenReconcilerSpec.v ===== *)
(** What the generated reconcilers do to the world, as a protocol of steps: every
    call of [Reconcile] is a sequence of them, whatever others do meanwhile, and the
    protocol keeps every entry of the controller's ConfigMap owned by a resource
    that carries the controller's finalizer. *)

From S2P Require Import Prelude.
From S2P Require Import Encoding.
From S2P Require Import K8s.
From S2P Require Import GenReconciler.
From S2P Require Import ApiServer.

#[local] Set Default Proof Using "Type*".
#[local] Open Scope nat_scope.

Section Protocol.
Context {R : Type} `{RS : !Resource R} `{E : GoErrors} `{CL : !Clients (World R) R} `{J : JsonText}.
Variables (accepted : R → Prop) (r : reconcilerImpl (World R) R).
(** The controller's copies of its ConfigMap are current. *)
Variable prompt : Prop.
Abbreviation fin := (finalizerName r).

(** * The protocol *)

(** The object is there and carries the finalizer. *)
Definition held (w : World R) (n : string) : Prop := ∃ o, current w !! n = Some o ∧ fin ∈ finalizers o.
(** The ConfigMap has an entry of that name. *)
Definition listed (w : World R) (n : string) : Prop := ∃ cm, configMap w = Some cm ∧ is_Some (cm !! n).
(** Of the object, the cache only has or gets versions that are being deleted, if
    they carry the finalizer. *)
Definition settled (w : World R) (n : string) : Prop :=
  ∀ i objs o, seen w ≤ i → history w !! i = Some objs → objs !! n = Some o →
    fin ∈ finalizers o → deletion o ≠ None.

Definition handledWorld (h : handled (World R) R) : World R :=
  match h with Handled w _ _ | HandlerPanics w => w end.

(** The reconciler has read the object, as far as its specification and its deletion
    go, and the handler has finalized it in a world that has been. *)
Definition read (w : World R) (o : R) : Prop :=
  ∃ objs ob, objs ∈ history w ∧ objs !! nameOf o = Some ob ∧ content ob = content o ∧ deletion ob = deletion o.
Definition before (w w' : World R) : Prop :=
  history w `prefix_of` history w' ∧ configMaps w `suffix_of` configMaps w'.
Definition finalized (w : World R) (o : R) : Prop :=
  ∃ f w0 w1 o', FinalizeKind (reconciler r) = Some f ∧ f o w0 = Handled w1 o' None ∧ before w0 w ∧ before w1 w.

Inductive step : World R → World R → Prop :=
  | step_others w w' : others fin accepted w w' → step w w'
  | step_status n o0 desired o1 w : current w !! n = Some o0 → status_written o0 desired o1 →
      fresh (version o1) w → step w (put n (Some o1) w)
  | step_adds n o0 o1 w : current w !! n = Some o0 → deletion o0 = None →
      finalizers_written o0 (finalizers o0 ++ [fin]) o1 → fresh (version o1) w →
      step w (put n (Some o1) w)
  | step_clears n o0 fs o1 w : current w !! n = Some o0 → deletion o0 ≠ None → (prompt → ¬ listed w n) →
      settled w n → finalized w o0 →
      (∀ f, f ∈ fs ↔ f ∈ finalizers o0 ∧ f ≠ fin) → finalizers_written o0 fs o1 → fresh (version o1) w →
      step w (put n (kept o1) w)
  | step_reconcile o w : read w o → accepted o → deletion o = None → held w (nameOf o) →
      step w (handledWorld (ReconcileKind (reconciler r) o w))
  | step_finalize f o w : FinalizeKind (reconciler r) = Some f → read w o → accepted o → deletion o ≠ None →
      step w (handledWorld (f o w)).

(** What the protocol asks of the handlers: they write the ConfigMap only, the one
    an entry for its resource at most, the other none, and it succeeds only when the
    entry of its resource is gone, if the copies are current. *)
Record handlers_ok : Prop := {
  hk_finalizes : is_Some (FinalizeKind (reconciler r));
  hk_observe : ObserveKind (reconciler r) = None;
  hk_deletion : ObserveDeletion (reconciler r) = None;
  hk_reconcile o w : ∃ cm, handledWorld (ReconcileKind (reconciler r) o w) = write cm w ∧
    (prompt → ∀ n, listed (write cm w) n → n = nameOf o ∨ listed w n);
  hk_resource o w w' o' ev : ReconcileKind (reconciler r) o w = Handled w' o' ev →
    objectMeta o' = objectMeta o ∧ content o' = content o;
  hk_finalize f o w : FinalizeKind (reconciler r) = Some f →
    ∃ cm ev, f o w = Handled (write cm w) o ev ∧
      (prompt → ∀ n, listed (write cm w) n → listed w n) ∧
      match ev with None => prompt → ¬ listed (write cm w) (nameOf o) | Some e => EventAs e = None end
}.

(** * Well-formed worlds *)

Record wf (w : World R) : Prop := {
  wf_seen : seen w < length (history w);
  wf_object i objs n o : history w !! i = Some objs → objs !! n = Some o →
    nameOf o = n ∧ accepted o ∧ version o ≠ "";
  (** an object keeps its value while it keeps its version *)
  wf_versions i j k objs_i objs_j objs_k n o_i o_k : i ≤ j → j ≤ k →
    history w !! i = Some objs_i → history w !! j = Some objs_j → history w !! k = Some objs_k →
    objs_i !! n = Some o_i → objs_k !! n = Some o_k → version o_i = version o_k →
    objs_j !! n = Some o_k;
  (** what the cache shows as not being deleted is still held *)
  wf_held i objs n o : seen w ≤ i → history w !! i = Some objs → objs !! n = Some o →
    fin ∈ finalizers o → deletion o = None → held w n
}.

Definition owned (w : World R) : Prop := ∀ n, listed w n → held w n.

Hypothesis accepted_content : ∀ o o', nameOf o' = nameOf o → content o' = content o → accepted o → accepted o'.

Lemma current_put n oo (w : World R) : current (put n oo w) = partial_alter (λ _, oo) n (current w).
Proof. unfold current. cbn. by rewrite last_snoc. Qed.

Lemma lookup_put n oo (w : World R) m :
  current (put n oo w) !! m = if decide (m = n) then oo else current w !! m.
Proof.
  rewrite current_put. destruct (decide (m = n)) as [->|]; [apply lookup_partial_alter_eq|].
  by apply lookup_partial_alter_ne.
Qed.

Lemma held_put_ne n oo w m : m ≠ n → held (put n oo w) m ↔ held w m.
Proof. intros Hm. unfold held. by rewrite lookup_put, decide_False. Qed.
Lemma held_put_eq n oo w : held (put n oo w) n ↔ ∃ o, oo = Some o ∧ fin ∈ finalizers o.
Proof. unfold held. by rewrite lookup_put, decide_True. Qed.

Lemma wf_current w : wf w → ∃ i, history w !! i = Some (current w) ∧ S i = length (history w).
Proof using Type.
  intros H. pose proof (wf_seen w H) as Hs.
  destruct (lookup_lt_is_Some_2 (history w) (pred (length (history w)))) as [x Hx]; [lia|].
  exists (pred (length (history w))). unfold current. rewrite last_lookup, Hx. split; [done|lia].
Qed.

Lemma wf_current_object w n o : wf w → current w !! n = Some o → nameOf o = n ∧ accepted o ∧ version o ≠ "".
Proof using Type. intros H Ho. destruct (wf_current w H) as (i & Hi & _). by eapply wf_object. Qed.

(** A put keeps a world well-formed if it keeps the object held, or nothing in the
    cache's future depends on it. *)
Lemma wf_put w n oo : wf w →
  (∀ o, oo = Some o → nameOf o = n ∧ accepted o ∧ fresh (version o) w) →
  (held w n → ∃ o, oo = Some o ∧ fin ∈ finalizers o) ∨ settled w n →
  wf (put n oo w).
Proof.
  intros H Hoo Hheld. destruct (wf_current w H) as (c & Hc & Hlen).
  assert (Hnew : ∀ m, partial_alter (λ _, oo) n (current w) !! m =
    if decide (m = n) then oo else current w !! m).
  { intros m. rewrite <-lookup_put. by rewrite current_put. }
  split.
  - cbn. rewrite length_app. pose proof (wf_seen w H). lia.
  - intros i objs m o [[_ Hi]|[_ <-]]%lookup_snoc_Some Ho; [by eapply wf_object|].
    rewrite Hnew in Ho. destruct (decide (m = n)) as [->|]; [|by eapply wf_object].
    destruct (Hoo o Ho) as (? & ? & ? & _). done.
  - intros i j k oi oj ok m o_i o_k Hij Hjk Hi Hj [[Hk1 Hk]|[-> <-]]%lookup_snoc_Some Hoi Hok Hv.
    { apply lookup_snoc_Some in Hi as [[_ Hi]|[-> _]]; [|lia].
      apply lookup_snoc_Some in Hj as [[_ Hj]|[-> _]]; [|lia]. by apply (wf_versions w H i j k oi oj ok m o_i o_k). }
    apply lookup_snoc_Some in Hj as [[Hj1 Hj]|[-> <-]]; [|done].
    apply lookup_snoc_Some in Hi as [[_ Hi]|[-> _]]; [|lia].
    rewrite Hnew in Hok. destruct (decide (m = n)) as [->|].
    + exfalso. destruct (Hoo o_k Hok) as (_ & _ & _ & Hf). eapply Hf; [|done|done].
      by eapply list_elem_of_lookup_2.
    + eapply (wf_versions w H i j c); [lia..|done|done|done|done|done|done].
  - intros i objs m o Hs [[Hi1 Hi]|[-> <-]]%lookup_snoc_Some Ho Hf Hd.
    + pose proof (wf_held w H i objs m o Hs Hi Ho Hf Hd) as Hm.
      destruct (decide (m = n)) as [->|]; [|by apply held_put_ne].
      apply held_put_eq. destruct Hheld as [Hk|Hk]; [by apply Hk|].
      by destruct (Hk i objs o Hs Hi Ho Hf).
    + rewrite Hnew in Ho. destruct (decide (m = n)) as [->|].
      * apply held_put_eq. by exists o.
      * apply held_put_ne; [done|]. eapply (wf_held w H c); [|done|done|done|done].
        pose proof (wf_seen w H). lia.
Qed.

Lemma wf_write cm w : wf w → wf (write cm w).
Proof. intros [? ? ? ?]. by split. Qed.

(** * The steps preserve it *)

(** What one step of others, and the time that passes, cannot change. *)
Record later (w w' : World R) : Prop := {
  later_before : before w w';
  later_seen : seen w ≤ seen w';
  later_held n : held w n → held w' n;
  later_listed n : listed w' n → listed w n
}.

Lemma before_refl w : before w w.
Proof using Type. by split. Qed.
Lemma before_trans w1 w2 w3 : before w1 w2 → before w2 w3 → before w1 w3.
Proof using Type. intros [? ?] [? ?]. split; by etrans. Qed.
Lemma before_put w n oo : before w (put n oo w).
Proof using Type. split; [by apply prefix_app_r|done]. Qed.
Lemma before_write cm w : before w (write cm w).
Proof using Type. split; [done|by apply suffix_cons_r]. Qed.
Lemma later_history w w' : later w w' → history w `prefix_of` history w'.
Proof using Type. by intros [[? _] _ _ _]. Qed.
#[local] Hint Resolve before_refl before_put before_write : core.

Lemma later_refl w : later w w.
Proof. by split. Qed.
Lemma later_trans w1 w2 w3 : later w1 w2 → later w2 w3 → later w1 w3.
Proof. intros [? ? ? ?] [? ? ? ?]. split; [by eapply before_trans|lia|auto..]. Qed.

Lemma later_put w n oo : (held w n → ∃ o, oo = Some o ∧ fin ∈ finalizers o) → later w (put n oo w).
Proof.
  intros Hheld. split; [done|done| |done].
  intros m Hm. destruct (decide (m = n)) as [->|]; [|by apply held_put_ne].
  apply held_put_eq. by apply Hheld.
Qed.

Lemma others_later w w' : wf w → others fin accepted w w' → wf w' ∧ later w w'.
Proof.
  intros Hw Ho.
  destruct Ho as [n o w Hnone Hn Ha Hf Hfin Hd|n o o' w (Hc & Hn & Ha & Hf) Hd Hfin|
    n o o' w (Hc & Hn & Ha & Hf) Hd Hfin|n o w Hc Hfin|w Hs|w].
  - assert (¬ held w n) as Hno by (intros (? & Hx & _); congruence).
    split; [apply wf_put; [done| |by left]|by apply later_put]. by intros ? [= <-].
  - assert (held w n → ∃ x, Some o' = Some x ∧ fin ∈ finalizers x) as Hk.
    { intros (x & Hx & Hfx). exists o'. split; [done|]. apply Hfin. congruence. }
    split; [apply wf_put; [done| |by left]|by apply later_put]. by intros ? [= <-].
  - assert (held w n → ∃ x, Some o' = Some x ∧ fin ∈ finalizers x) as Hk.
    { intros (x & Hx & Hfx). exists o'. split; [done|]. rewrite Hfin. congruence. }
    split; [apply wf_put; [done| |by left]|by apply later_put]. by intros ? [= <-].
  - assert (¬ held w n) as Hno by (intros (? & Hx & ?); congruence).
    split; [apply wf_put; [done| |by left]|by apply later_put]. done.
  - split; [|split; cbn; [done|lia|done|done]]. destruct Hw as [H1 H2 H3 H4].
    split; [done|done|exact H3|]. cbn. intros i objs n o Hi. apply H4. lia.
  - split; [by apply wf_write|]. split; [done|done|done|]. intros n (cm & [=] & _).
Qed.

Lemma elsewhere_later w w' : wf w → elsewhere fin accepted w w' → wf w' ∧ later w w'.
Proof.
  intros Hw H. revert Hw. induction H as [w|w1 w2 w3 Ho _ IH]; intros Hw; [split; [done|apply later_refl]|].
  destruct (others_later w1 w2 Hw Ho) as [Hw2 Hl]. destruct (IH Hw2) as [Hw3 Hl'].
  split; [done|by eapply later_trans].
Qed.

Lemma kept_Some o o' : kept o = Some o' → o' = o.
Proof. unfold kept. destruct (decide _); congruence. Qed.

Lemma step_wf w w' : handlers_ok → wf w → step w w' → wf w'.
Proof.
  intros HK Hw Hs. destruct Hs as [w w' Ho|n o0 desired o1 w Hc (_ & Hct & Hn & Hd & Hf & _) Hv|
    n o0 o1 w Hc Hd (Hf & _ & Hct & Hn & _) Hv|n o0 fs o1 w Hc Hd Hl Hset Hfd Hfs (Hf & _ & Hct & Hn & _) Hv|
    o w Hrd Ha Hd Hh|f o w Hfin Hrd Ha Hd].
  - by apply (others_later w w').
  - destruct (wf_current_object w n o0 Hw Hc) as (Hn0 & Ha0 & _). apply wf_put; [done| |left].
    + intros ? [= <-]. split; [congruence|]. by split; [eapply accepted_content|].
    + intros (x & Hx & Hfx). exists o1. split; [done|]. rewrite Hf. congruence.
  - destruct (wf_current_object w n o0 Hw Hc) as (Hn0 & Ha0 & _). apply wf_put; [done| |left].
    + intros ? [= <-]. split; [congruence|]. by split; [eapply accepted_content|].
    + intros _. exists o1. split; [done|]. rewrite Hf. apply elem_of_app. right. left.
  - destruct (wf_current_object w n o0 Hw Hc) as (Hn0 & Ha0 & _). apply wf_put; [done| |by right].
    intros o ->%kept_Some. split; [congruence|]. by split; [eapply accepted_content|].
  - destruct (hk_reconcile HK o w) as (cm & -> & _). by apply wf_write.
  - destruct (hk_finalize HK f o w Hfin) as (cm & ev & -> & _). by apply wf_write.
Qed.

Lemma step_owned w w' : prompt → handlers_ok → wf w → owned w → step w w' → owned w'.
Proof.
  intros HP HK Hw Hown Hs. destruct Hs as [w w' Ho|n o0 desired o1 w Hc (_ & Hct & Hn & Hd & Hf & _) Hv|
    n o0 o1 w Hc Hd (Hf & _) Hv|n o0 fs o1 w Hc Hd Hl Hset Hfd Hfs (Hf & _) Hv|o w Hrd Ha Hd Hh|f o w Hfin Hrd Ha Hd].
  - destruct (others_later w w' Hw Ho) as [_ [_ _ Hh Hl]]. intros m Hm. by apply Hh, Hown, Hl.
  - intros m Hm. apply Hown in Hm. destruct (decide (m = n)) as [->|]; [|by apply held_put_ne].
    apply held_put_eq. destruct Hm as (x & Hx & Hfx). exists o1. split; [done|]. rewrite Hf. congruence.
  - intros m Hm. apply Hown in Hm. destruct (decide (m = n)) as [->|]; [|by apply held_put_ne].
    apply held_put_eq. exists o1. split; [done|]. rewrite Hf. apply elem_of_app. right. left.
  - intros m Hm. destruct (decide (m = n)) as [->|]; [by destruct (Hl HP)|]. apply held_put_ne; [done|]. by apply Hown.
  - destruct (hk_reconcile HK o w) as (cm & -> & Hcm). intros m [->|Hm]%(Hcm HP); [done|]. by apply Hown.
  - destruct (hk_finalize HK f o w Hfin) as (cm & ev & -> & Hcm & _). intros m Hm%(Hcm HP). by apply Hown.
Qed.

(** * Every call follows the protocol *)

Context `{SL : !ServerLaws fin accepted} `{RL : !ResourceLaws}.

Definition endedWorld (e : ended (World R)) : World R :=
  match e with Returns w _ | Panics w => w end.

(** The world after steps, in which time has passed as well. *)
Definition reaches (w w' : World R) : Prop := rtc step w w'.
#[local] Instance reaches_preorder : PreOrder reaches.
Proof. split; [intros w; apply rtc_refl|intros w1 w2 w3; apply rtc_trans]. Qed.

Lemma reaches_elsewhere w w' : elsewhere fin accepted w w' → reaches w w'.
Proof. induction 1 as [|w1 w2 w3 Ho _ IH]; [done|]. eapply rtc_l; [by apply step_others|done]. Qed.

Lemma reaches_wf w w' : handlers_ok → wf w → reaches w w' → wf w'.
Proof. intros HK Hw. induction 1 as [|w1 w2 w3 Hs _ IH]; [done|]. by apply IH, (step_wf w1). Qed.

Lemma step_before w w' : handlers_ok → wf w → step w w' → before w w'.
Proof.
  intros HK Hw Hs. destruct Hs as [w w' Ho|n o0 desired o1 w|n o0 o1 w|n o0 fs o1 w|o w|f o w Hfin]; [|done..| |].
  - apply (others_later w w' Hw Ho).
  - destruct (hk_reconcile HK o w) as (cm & -> & _). apply before_write.
  - destruct (hk_finalize HK f o w Hfin) as (cm & ev & -> & _). apply before_write.
Qed.
Lemma reaches_before w w' : handlers_ok → wf w → reaches w w' → before w w'.
Proof.
  intros HK Hw. induction 1 as [|w1 w2 w3 Hs _ IH]; [done|].
  eapply before_trans; [by eapply step_before|]. by apply IH, (step_wf w1).
Qed.

Lemma reaches_recorder m ty reason msg w : reaches w (recorder_Event m ty reason msg w).
Proof. apply reaches_elsewhere, (recorder_law fin accepted (ServerLaws := SL)). Qed.

(** ** The status *)

Lemma updateStatus_attempt_reaches existing desired n w :
  reaches w (updateStatus_attempt existing desired n w).1.
Proof.
  assert (Hupdate : ∀ existing w, reaches w
    (if Semantic_DeepEqual (status existing) (status desired) then (w, None)
     else match client_UpdateStatus (with_status existing (status desired)) w with
          | (w, Ok _) => (w, @None GoError) | (w, Err err) => (w, Some err) end).1).
  { clear w. intros ex w. destruct (Semantic_DeepEqual _ _); [done|].
    destruct (client_UpdateStatus _ w) as [w' res] eqn:Hu.
    apply (UpdateStatus_law fin accepted (ServerLaws := SL)) in Hu as (w0 & H0%reaches_elsewhere & Hw').
    assert (reaches w w') as Hr.
    { destruct Hw' as [[-> _]|(o0 & o1 & Hc & _ & Hs & Hf & ->)]; [done|].
      eapply rtc_r; [done|]. by eapply step_status. }
    by destruct res. }
  unfold updateStatus_attempt. cbv zeta. destruct (0 <? n)%nat; [|apply Hupdate].
  destruct (client_Get _ w) as [w' res] eqn:Hg. apply (Get_law fin accepted (ServerLaws := SL)) in Hg as [H0%reaches_elsewhere _].
  destruct res as [ex|err]; [|done]. etrans; [done|apply Hupdate].
Qed.

Lemma updateStatus_reaches existing desired w : reaches w (updateStatus existing desired w).1.
Proof.
  unfold updateStatus. destruct (retry_law fin accepted (ServerLaws := SL)) as [steps Hretry]. rewrite Hretry. clear Hretry.
  generalize 0 as k. revert w. induction steps as [|n IH]; intros w k; cbn [tries];
    pose proof (updateStatus_attempt_reaches existing desired k w) as Ha;
    destruct (updateStatus_attempt existing desired k w) as [w' [err|]]; [done|done| |done].
  destruct (IsConflict err); [|done]. etrans; [exact Ha|apply IH].
Qed.

Lemma synchronizeStatus_reaches s original resource w :
  reaches w (synchronizeStatus r s original resource w).1.
Proof.
  unfold synchronizeStatus. destruct (skipStatusUpdates r); [done|].
  destruct (Semantic_DeepEqual _ _); [done|]. destruct (negb _); [done|].
  pose proof (updateStatus_reaches original resource w) as Hu.
  destruct (updateStatus original resource w) as [w' [err|]]; [|done].
  etrans; [exact Hu|apply reaches_recorder].
Qed.

Lemma reportEvent_reaches resource ev w : reaches w (endedWorld (reportEvent resource ev w)).
Proof.
  unfold reportEvent. destruct ev as [err|]; [|done].
  destruct (EventAs err); [apply reaches_recorder|].
  destruct (_ || _); [done|apply reaches_recorder].
Qed.

(** ** The finalizer *)

(** What the server has is what the reconciler has read, if the version is: the
    object has kept its value since. *)
Lemma same_version w w0 i objs n o o0 : wf w0 → history w `prefix_of` history w0 →
  history w !! i = Some objs → objs !! n = Some o → current w0 !! n = Some o0 → version o0 = version o →
  o0 = o ∧ ∀ j objs', i ≤ j → history w0 !! j = Some objs' → objs' !! n = Some o.
Proof.
  intros Hw0 Hp Hi Ho Hc Hv. destruct (wf_current w0 Hw0) as (c & Hcur & Hlen).
  assert (history w0 !! i = Some objs) as Hi0 by (by eapply prefix_lookup_Some).
  assert (i ≤ c) as Hic by (apply lookup_lt_Some in Hi0; lia).
  assert (objs !! n = Some o0) as Hoo
    by (eapply (wf_versions w0 Hw0 i i c); [lia|done|exact Hi0|exact Hi0|exact Hcur|done|done|done]).
  assert (o0 = o) as -> by congruence. split; [done|]. intros j objs' Hij Hj.
  assert (j ≤ c) as Hjc by (apply lookup_lt_Some in Hj; lia).
  by eapply (wf_versions w0 Hw0 i j c).
Qed.

Lemma set_List_elem (s : gset string) f : f ∈ set_List s ↔ f ∈ s.
Proof. unfold set_List. rewrite merge_sort_Permutation. apply elem_of_elements. Qed.

Lemma setFinalizer_reaches o w w' res i objs : handlers_ok → wf w →
  seen w ≤ i → history w !! i = Some objs → objs !! nameOf o = Some o → deletion o = None →
  setFinalizerIfFinalizer r o w = (w', res) →
  reaches w w' ∧ ∀ o', res = Ok o' → accepted o' ∧ nameOf o' = nameOf o ∧ content o' = content o ∧
    deletion o' = deletion o ∧ held w' (nameOf o).
Proof.
  intros HK Hw Hsi Hi Ho Hd. destruct (wf_object w Hw _ _ _ _ Hi Ho) as (Hn & Ha & Hv).
  destruct (hk_finalizes HK) as [f Hf]. unfold setFinalizerIfFinalizer. rewrite Hf.
  unfold deletion in Hd. rewrite Hd. cbn [isNil notNil negb].
  unfold updateFinalizersFiltered, newFinalizers. rewrite decide_True by set_solver.
  destruct (decide _) as [Hin|Hnin].
  - intros [= <- <-]. split; [done|]. intros o' [= <-]. split; [done|]. split; [done|]. split; [done|]. split; [done|].
    eapply wf_held; try done. by apply elem_of_list_to_set in Hin.
  - destruct (client_Patch _ _ w) as [w1 res1] eqn:Hp.
    apply (Patch_law fin accepted (ServerLaws := SL)) in Hp as (w0 & Hels & Hcase).
    destruct (elsewhere_later w w0 Hw Hels) as [Hw0 Hl].
    assert (reaches w w1 ∧ ∀ o', res1 = Ok o' → accepted o' ∧ nameOf o' = nameOf o ∧ content o' = content o ∧
      deletion o' = deletion o ∧ held w1 (nameOf o)) as [Hr Hok].
    { apply reaches_elsewhere in Hels. destruct Hcase as [[-> [? ->]]|(o0 & o1 & Hc & Hvv & Hfw & Hfr & -> & Hres)]; [done|].
      destruct Hvv as [?|Hvv]; [done|].
      destruct (same_version w w0 i objs (nameOf o) o o0 Hw0 (later_history _ _ Hl) Hi Ho Hc Hvv) as [-> _].
      assert (finalizers o1 = finalizers o ++ [fin]) as Hf1 by apply Hfw.
      assert (kept o1 = Some o1) as ->.
      { unfold kept. rewrite decide_False; [done|]. rewrite Hf1. intros [Hx _]. by destruct (finalizers o). }
      split.
      - eapply rtc_r; [exact Hels|]. by eapply step_adds.
      - intros o' ->. rewrite (Hres o' eq_refl). destruct Hfw as (_ & _ & Hct & Hnn & Hdd & _).
        split; [by eapply accepted_content|]. split; [done|]. split; [done|]. split; [done|]. unfold nameOf. apply held_put_eq. exists o1.
        split; [done|]. rewrite Hf1. apply elem_of_app. right. left. }
    assert (wf w1) as Hw1 by (by apply (reaches_wf w)).
    destruct res1 as [o1|err]; intros [= <- <-].
    + split; [etrans; [exact Hr|apply reaches_recorder]|]. intros o' [= <-].
      destruct (Hok o1 eq_refl) as (Ha1 & Hn1 & Hct1 & Hd1 & Hh). split; [done|]. split; [done|]. split; [done|]. split; [done|].
      eapply (later_held _ _ (proj2 (elsewhere_later w1 _ Hw1 (recorder_law fin accepted (ServerLaws := SL) _ _ _ _ _)))). done.
    + split; [etrans; [exact Hr|apply reaches_recorder]|done].
Qed.

Lemma clearFinalizer_reaches o ev w w' res i objs : handlers_ok → wf w →
  i ≤ seen w → history w !! i = Some objs → objs !! nameOf o = Some o → deletion o ≠ None →
  match ev with None => (prompt → ¬ listed w (nameOf o)) ∧ finalized w o | Some e => EventAs e = None end →
  clearFinalizer r o ev w = (w', res) → reaches w w'.
Proof.
  intros HK Hw Hsi Hi Ho Hd Hev. destruct (wf_object w Hw _ _ _ _ Hi Ho) as (Hn & Ha & Hv).
  destruct (hk_finalizes HK) as [f Hf]. unfold clearFinalizer. rewrite Hf.
  destruct (isNil _) eqn:Hnil; [by intros [= <- <-]|]. clear Hnil.
  unfold updateFinalizersFiltered, newFinalizers. destruct ev as [e|].
  { rewrite Hev. repeat (destruct (decide _); [|try by intros [= <- <-]]); try by intros [= <- <-]. }
  rewrite decide_False by set_solver. destruct (decide _) as [Hin|Hnin]; [|by intros [= <- <-]].
  destruct (client_Patch _ _ w) as [w1 res1] eqn:Hp.
  apply (Patch_law fin accepted (ServerLaws := SL)) in Hp as (w0 & Hels & Hcase).
  destruct (elsewhere_later w w0 Hw Hels) as [Hw0 Hl].
  assert (reaches w w1) as Hr.
  { apply reaches_elsewhere in Hels. destruct Hcase as [[-> _]|(o0 & o1 & Hc & Hvv & Hfw & Hfr & -> & _)]; [done|].
    destruct Hvv as [?|Hvv]; [done|].
    destruct (same_version w w0 i objs (nameOf o) o o0 Hw0 (later_history _ _ Hl) Hi Ho Hc Hvv) as [-> Hall].
    eapply rtc_r; [exact Hels|]. destruct Hev as [Hev (f' & wa & wb & oz & Hf' & Hfo & Hba & Hbb)].
    eapply (step_clears (nameOf o) o); [done|done| | | | |exact Hfw|done].
    - intros HP Hli. apply (Hev HP). by eapply later_listed.
    - intros j objs' o' Hj Hobj Ho' _. pose proof (later_seen _ _ Hl).
      rewrite (Hall j objs') in Ho' by (done || lia). congruence.
    - exists f', wa, wb, oz. pose proof (later_before _ _ Hl). split_and!; [done|done|by eapply before_trans..].
    - intros g. rewrite set_List_elem. set_solver. }
  destruct res1 as [o1|err]; intros [= <- <-]; (etrans; [exact Hr|apply reaches_recorder]).
Qed.

(** ** The call *)

Lemma finish_reaches s original resource ev w :
  reaches w (endedWorld (match synchronizeStatus r s original resource w with
    | (w, Some err) => Returns w (Some err)
    | (w, None) => reportEvent resource ev w
    end)).
Proof.
  pose proof (synchronizeStatus_reaches s original resource w) as Hs.
  destruct (synchronizeStatus r s original resource w) as [w' [err|]]; [done|].
  etrans; [exact Hs|apply reportEvent_reaches].
Qed.

Lemma runMethod_reaches s k w o : handlers_ok → wf w → newState k r w = Ok s → cached w !! nameOf o = Some o →
  let (m, do) := reconcileMethodFor r s o in
  match runMethod r m do o w with
  | inr (w', _) => reaches w w'
  | inl h => reaches w (handledWorld h)
  end.
Proof.
  intros HK Hw Hs Ho. unfold reconcileMethodFor.
  assert (s_roi s = None) as Hroi.
  { unfold newState in Hs. destruct (SplitMetaNamespaceKey k) as [[ns n]|]; [|done].
    injection Hs as <-. cbn. apply (hk_observe HK). }
  rewrite Hroi. unfold cached in Ho.
  destruct (history w !! seen w) as [objs|] eqn:Hi; [|done]. cbn in Ho.
  destruct (wf_object w Hw _ _ _ _ Hi Ho) as (_ & Ha & _).
  assert (read w o) as Hrd by (exists objs, o; split; [by eapply list_elem_of_lookup_2|done]).
  destruct (om_DeletionTimestamp (objectMeta o)) as [t|] eqn:Hd.
  - destruct (hk_finalizes HK) as [f Hf]. rewrite Hf. destruct (isLeader s); [|by cbn]. cbn [runMethod].
    assert (deletion o ≠ None) as Hd' by (unfold deletion; congruence).
    pose proof (step_finalize f o w Hf Hrd Ha Hd') as Hstep.
    destruct (hk_finalize HK f o w Hf) as (cm & ev & Hr & _ & Hev).
    assert (match ev with None => (prompt → ¬ listed (write cm w) (nameOf o)) ∧ finalized (write cm w) o
      | Some e => EventAs e = None end) as Hev'.
    { destruct ev; [done|]. split; [done|]. exists f, w, (write cm w), o. split_and!; done. }
    rewrite Hr in Hstep |- *.
    destruct (clearFinalizer r o ev (write cm w)) as [w' res] eqn:Hc.
    apply (clearFinalizer_reaches o ev (write cm w) w' res (seen w) objs HK (wf_write cm w Hw)
      (Nat.le_refl _) Hi Ho Hd' Hev') in Hc.
    assert (reaches w w') by (eapply rtc_l; [exact Hstep|exact Hc]).
    by destruct res.
  - destruct (isLeader s); [|by cbn]. cbn [runMethod].
    destruct (setFinalizerIfFinalizer r o w) as [w1 res] eqn:Hset.
    destruct (setFinalizer_reaches o w w1 res (seen w) objs HK Hw (Nat.le_refl _) Hi Ho Hd Hset) as [Hr Hok].
    destruct res as [o1|err]; [|done]. destruct (Hok o1 eq_refl) as (Ha1 & Hn1 & Hct1 & Hd1 & Hh). cbv zeta.
    set (o2 := if skipStatusUpdates r then o1 else PreProcessReconcile o1).
    assert (nameOf o2 = nameOf o ∧ accepted o2 ∧ content o2 = content o ∧ deletion o2 = deletion o) as (Hn2 & Ha2 & Hct2 & Hd2).
    { subst o2. destruct (skipStatusUpdates r); [done|]. unfold nameOf, deletion in *.
      rewrite PreProcess_meta, PreProcess_content. split; [done|]. split; [|done].
      eapply accepted_content; [| |exact Ha1]; [unfold nameOf; by rewrite PreProcess_meta|apply PreProcess_content]. }
    assert (reaches w (handledWorld (ReconcileKind (reconciler r) o2 w1))) as Hfin.
    { eapply rtc_r; [exact Hr|]. apply step_reconcile; [|done|by rewrite Hd2|by rewrite Hn2].
      destruct (reaches_before w w1 HK Hw Hr) as [Hpre _]. exists objs, o. rewrite Hn2. split; [|done].
      eapply list_elem_of_lookup_2, prefix_lookup_Some; [exact Hi|done]. }
    by destruct (ReconcileKind (reconciler r) o2 w1).
Qed.

Lemma Reconcile_lemma k w : handlers_ok → wf w → reaches w (endedWorld (Reconcile r k w)).
Proof.
  intros HK Hw. unfold Reconcile. destruct (newState k r w) as [s|] eqn:Hs; [|done].
  destruct (isNotLeaderNorObserver s); [done|].
  destruct (lister_Get (s_name s) w) as [o|err] eqn:Hg.
  - apply (lister_Ok fin accepted (ServerLaws := SL)) in Hg.
    assert (cached w !! nameOf o = Some o) as Ho.
    { unfold cached in Hg. destruct (history w !! seen w) as [objs|] eqn:Hi; [|done].
      destruct (wf_object w Hw _ _ _ _ Hi Hg) as [-> _]. unfold cached. by rewrite Hi. }
    pose proof (runMethod_reaches s k w o HK Hw Hs Ho) as Hm.
    destruct (reconcileMethodFor r s o) as [m do].
    destruct (runMethod r m do o w) as [[w' res ev|w']|[w' err]]; [|done..].
    etrans; [exact Hm|apply finish_reaches].
  - destruct (IsNotFound err); [|done]. unfold observeDeletion. by rewrite (hk_deletion HK).
Qed.

(** * Runs *)

(** The resource and the ConfigMap, from before the first is created, as others and
    calls of [Reconcile], of any keys, make them. *)
Definition start : World R := {| history := [∅]; seen := 0; configMaps := [None] |}.

Inductive runs : World R → Prop :=
  | runs_start : runs start
  | runs_others w w' : runs w → others fin accepted w w' → runs w'
  | runs_reconcile k w : runs w → runs (endedWorld (Reconcile r k w)).

Lemma wf_start : wf start.
Proof using Type.
  split; cbn; [lia| | |].
  - intros [|i] objs n o [=]. subst. by rewrite lookup_empty.
  - intros [|i] j k oi oj ok n o_i o_k _ _ [=]. subst. by rewrite lookup_empty.
  - intros [|i] objs n o _ [=]. subst. by rewrite lookup_empty.
Qed.

Lemma reaches_owned w w' : prompt → handlers_ok → wf w → owned w → reaches w w' → owned w'.
Proof.
  intros HP HK Hw Ho. induction 1 as [|w1 w2 w3 Hs _ IH]; [done|].
  apply IH; [by apply (step_wf w1)|by apply (step_owned w1)].
Qed.

Lemma runs_reaches w : handlers_ok → runs w → reaches start w.
Proof.
  intros HK. induction 1 as [|w w' _ IH Ho|k w _ IH]; [done| |].
  - eapply rtc_r; [exact IH|by apply step_others].
  - etrans; [exact IH|]. apply Reconcile_lemma; [done|]. apply (reaches_wf start); [done|apply wf_start|exact IH].
Qed.

Lemma runs_wf w : handlers_ok → runs w → wf w.
Proof. intros HK Hr%runs_reaches; [|done]. apply (reaches_wf start); [done|apply wf_start|exact Hr]. Qed.

Lemma runs_owned w : prompt → handlers_ok → runs w → owned w.
Proof.
  intros HP HK Hr%runs_reaches; [|done]. apply (reaches_owned start); [done|done|apply wf_start| |exact Hr].
  by intros n (cm & [=] & _).
Qed.

End Protocol.
