(* ===== verification/Convergence.v ===== *)
(** What one call of a controller achieves when nothing interferes: the informer's
    cache is up to date, no one else writes meanwhile, and the requests are
    answered. *)

From S2P Require Import Prelude.
From S2P Require Import Encoding.
From S2P Require Import K8s.
From S2P Require Import GenReconciler.
From S2P Require Import ApiServer.
From S2P Require Import GenReconcilerSpec.

#[local] Set Default Proof Using "Type*".

Section Quiet.
Context {R : Type} `{RS : !Resource R} `{E : GoErrors} `{CL : !Clients (World R) R} `{J : JsonText}.
Context `{QS : !QuietServer} `{RL : !ResourceLaws}.
Variable r : reconcilerImpl (World R) R.
Abbreviation fin := (finalizerName r).

(** The same object but for its version, its status and its finalizers. *)
Definition same_object (o o' : R) : Prop :=
  content o' = content o ∧ nameOf o' = nameOf o ∧ deletion o' = deletion o ∧
  om_Generation (objectMeta o') = om_Generation (objectMeta o).

#[export] Instance same_object_preorder : PreOrder same_object.
Proof using Type.
  split; [by intros o|]. intros o1 o2 o3 (? & ? & ? & ?) (? & ? & ? & ?). repeat split; congruence.
Qed.

Lemma status_written_same o0 d o1 : status_written o0 d o1 → same_object o0 o1 ∧ finalizers o1 = finalizers o0.
Proof using Type. intros (_ & ? & ? & ? & ? & ?). by repeat split. Qed.
Lemma finalizers_written_same o0 fs o1 : finalizers_written o0 fs o1 → same_object o0 o1 ∧ status o1 = status o0.
Proof using Type. intros (_ & ? & ? & ? & ? & ?). by repeat split. Qed.

Lemma current_put_eq n oo (w : World R) : current (put n oo w) !! n = oo.
Proof using Type. unfold current. cbn. rewrite last_snoc. apply lookup_partial_alter_eq. Qed.

(** [w'] is [w] but for the object [n] and the ConfigMap. *)
Record only (n : string) (w w' : World R) : Prop := {
  only_seen : seen w' = seen w;
  only_history : history w `prefix_of` history w';
  only_current m : m ≠ n → current w' !! m = current w !! m
}.

#[export] Instance only_preorder n : PreOrder (only n).
Proof using Type.
  split; [by split|]. intros w1 w2 w3 [Hs1 Hh1 Hc1] [Hs2 Hh2 Hc2].
  split; [congruence|by etrans|]. intros m Hm. by rewrite Hc2, Hc1.
Qed.

Lemma only_put n oo w : only n w (put n oo w).
Proof using Type.
  split; [done|by apply prefix_app_r|]. intros m Hm. unfold current at 1. cbn. rewrite last_snoc.
  by apply lookup_partial_alter_ne.
Qed.

Lemma only_same_history n w w' : seen w' = seen w → history w' = history w → only n w w'.
Proof using Type. intros Hs Hh. split; [done|by rewrite Hh|]. intros m _. unfold current. by rewrite Hh. Qed.

(** ** The status *)

Lemma update_quiet existing desired oc w :
  current w !! nameOf existing = Some oc → version oc = version existing →
  ∃ w' o', client_UpdateStatus (with_status existing (status desired)) w = (w', Ok o') ∧
    configMaps w' = configMaps w ∧ current w' !! nameOf existing = Some o' ∧
    status o' = status desired ∧ same_object oc o' ∧ finalizers o' = finalizers oc ∧
    only (nameOf existing) w w'.
Proof.
  intros Hc Hv. assert (nameOf (with_status existing (status desired)) = nameOf existing) as Hn
    by (unfold nameOf; by rewrite with_status_meta).
  destruct (quiet_UpdateStatus (with_status existing (status desired)) oc w) as (o1 & Hu & Hs).
  { by rewrite Hn. } { unfold version. by rewrite with_status_meta. }
  eexists _, o1. split; [exact Hu|]. rewrite Hn. split; [done|]. rewrite current_put_eq. split; [done|].
  destruct (status_written_same _ _ _ Hs) as [? ?]. destruct Hs as (Hst & _).
  rewrite with_status_status in Hst. split; [done|]. split; [done|]. split; [done|apply only_put].
Qed.

Lemma updateStatus_quiet existing desired oc w :
  nameOf existing = nameOf desired → version existing ≠ "" → current w !! nameOf desired = Some oc →
  nameOf oc = nameOf desired → status existing ≠ status desired →
  ∃ w' o', updateStatus existing desired w = (w', None) ∧ configMaps w' = configMaps w ∧
    current w' !! nameOf desired = Some o' ∧ status o' = status desired ∧ same_object oc o' ∧
    finalizers o' = finalizers oc ∧ only (nameOf desired) w w'.
Proof.
  intros Hn Hv Hc Hoc Hne. unfold updateStatus. destruct quiet_retry as [steps Hretry]. rewrite Hretry. clear Hretry.
  assert (Hneq : ∀ s s', s ≠ s' → Semantic_DeepEqual s s' = false).
  { intros s s' Hs. destruct (Semantic_DeepEqual s s') eqn:He; [|done]. by apply Semantic_DeepEqual_iff in He. }
  cbn [tries]. unfold updateStatus_attempt at 1. cbn [Nat.ltb Nat.leb]. cbv zeta. rewrite Hneq by done.
  destruct (decide (version oc = version existing)) as [Hvv|Hvv].
  { destruct (update_quiet existing desired oc w) as (w' & o' & Hu & Hrest); [by rewrite Hn|done|].
    rewrite Hu. exists w', o'. by rewrite <-Hn. }
  destruct (quiet_conflict (with_status existing (status desired)) oc w) as (err & Hu & Hcf).
  { unfold nameOf in *. by rewrite with_status_meta, Hn. }
  { unfold version in *. by rewrite with_status_meta. } { unfold version in *. by rewrite with_status_meta. }
  rewrite Hu, Hcf.
  assert (∃ w' o', updateStatus_attempt existing desired 1 w = (w', None) ∧ configMaps w' = configMaps w ∧
    current w' !! nameOf desired = Some o' ∧ status o' = status desired ∧ same_object oc o' ∧
    finalizers o' = finalizers oc ∧ only (nameOf desired) w w') as (w' & o' & Ha & Hrest).
  { unfold updateStatus_attempt. cbn [Nat.ltb Nat.leb]. cbv zeta. fold (nameOf desired). rewrite (quiet_Get _ _ _ Hc).
    destruct (Semantic_DeepEqual _ _) eqn:He.
    - apply Semantic_DeepEqual_iff in He. by exists w, oc.
    - destruct (update_quiet oc desired oc w) as (w' & o' & Hu' & Hrest); [by rewrite Hoc|done|].
      rewrite Hu'. exists w', o'. by rewrite <-Hoc. }
  exists w', o'. split; [|done]. destruct steps; cbn [tries]; by rewrite Ha.
Qed.

(** ** The finalizer *)

Lemma same_object_version (o : R) : om_ResourceVersion (objectMeta o) = version o.
Proof using Type. done. Qed.

Lemma setFinalizer_quiet o w : is_Some (FinalizeKind (reconciler r)) → deletion o = None →
  current w !! nameOf o = Some o →
  ∃ w1 oc, setFinalizerIfFinalizer r o w = (w1, Ok oc) ∧ configMaps w1 = configMaps w ∧
    current w1 !! nameOf o = Some oc ∧ same_object o oc ∧ status oc = status o ∧ fin ∈ finalizers oc ∧
    only (nameOf o) w w1.
Proof.
  intros [f Hf] Hd Hc. unfold setFinalizerIfFinalizer. rewrite Hf.
  unfold deletion in Hd. rewrite Hd. cbn [isNil notNil negb].
  unfold updateFinalizersFiltered, newFinalizers. rewrite decide_True by set_solver.
  destruct (decide _) as [Hin|Hnin].
  - exists w, o. split; [done|]. split; [done|]. split; [done|]. split; [done|]. split; [done|].
    split; [by apply elem_of_list_to_set in Hin|done].
  - cbv zeta. rewrite same_object_version. fold (nameOf o).
    destruct (quiet_Patch (nameOf o) (om_Finalizers (objectMeta o) ++ [fin]) o w Hc) as (o1 & Hp & Hw & _).
    rewrite Hp, quiet_recorder. assert (finalizers o1 = om_Finalizers (objectMeta o) ++ [fin]) as Hfs by apply Hw.
    eexists _, o1. split; [done|]. split; [done|]. rewrite current_put_eq.
    destruct (finalizers_written_same _ _ _ Hw) as [Hs Hst]. split; [|split; [done|]; split; [done|]].
    + unfold kept. rewrite decide_False; [done|]. rewrite Hfs. intros [Hx _]. by destruct (om_Finalizers _).
    + split; [rewrite Hfs; apply elem_of_app; right; left|apply only_put].
Qed.

Lemma clearFinalizer_quiet o w : is_Some (FinalizeKind (reconciler r)) → deletion o ≠ None →
  current w !! nameOf o = Some o → fin ∈ finalizers o →
  ∃ w1 o1, clearFinalizer r o None w = (w1, Ok o1) ∧ configMaps w1 = configMaps w ∧
    current w1 !! nameOf o = kept o1 ∧ same_object o o1 ∧ status o1 = status o ∧
    (∀ f, f ∈ finalizers o1 ↔ f ∈ finalizers o ∧ f ≠ fin) ∧ only (nameOf o) w w1.
Proof.
  intros [f Hf] Hd Hc Hin. unfold clearFinalizer. rewrite Hf. unfold deletion in Hd.
  destruct (om_DeletionTimestamp (objectMeta o)) as [t|]; [|done]. cbn [isNil notNil negb].
  unfold updateFinalizersFiltered, newFinalizers. rewrite decide_False by set_solver.
  rewrite decide_True by (by apply elem_of_list_to_set). cbv zeta. rewrite same_object_version. fold (nameOf o).
  set (fs := set_List _). destruct (quiet_Patch (nameOf o) fs o w Hc) as (o1 & Hp & Hw & _).
  rewrite Hp, quiet_recorder. assert (finalizers o1 = fs) as Hfs by apply Hw.
  eexists _, o1. split; [done|]. split; [done|]. rewrite current_put_eq. split; [done|].
  destruct (finalizers_written_same _ _ _ Hw) as [Hs Hst]. split; [done|]. split; [done|].
  split; [|apply only_put]. intros g. rewrite Hfs. unfold fs, set_List. rewrite merge_sort_Permutation, elem_of_elements.
  fold (finalizers o). set_solver.
Qed.

(** ** The call *)

(** A call for an object that the cache has as it is, by the leader. *)
Record up_to_date (k : string) (w : World R) (o : R) : Prop := {
  utd_key : ∃ ns, SplitMetaNamespaceKey k = Ok (ns, nameOf o) ∧ IsLeaderFor ns (nameOf o) w = true;
  utd_cached : cached w !! nameOf o = Some o;
  utd_current : current w !! nameOf o = Some o;
  utd_version : version o ≠ ""
}.

Lemma up_to_date_state k w o : up_to_date k w o →
  ∃ s, newState k r w = Ok s ∧ s_name s = nameOf o ∧ isLeader s = true ∧ isNotLeaderNorObserver s = false.
Proof using Type.
  intros [(ns & Hk & Hl) _ _ _]. unfold newState. rewrite Hk. eexists. split; [done|]. cbn.
  split; [done|]. split; [done|]. unfold isNotLeaderNorObserver. cbn. by rewrite Hl.
Qed.

Lemma Reconcile_quiet k w o : up_to_date k w o → is_Some (FinalizeKind (reconciler r)) →
  skipStatusUpdates r = false → deletion o = None →
  ∃ o1 w1, same_object o o1 ∧ fin ∈ finalizers o1 ∧ configMaps w1 = configMaps w ∧ only (nameOf o) w w1 ∧
  match ReconcileKind (reconciler r) o1 w1 with
  | HandlerPanics w2 => Reconcile r k w = Panics w2
  | Handled w2 o2 ev => history w2 = history w1 → seen w2 = seen w1 → same_object o1 o2 →
      ∃ w3 o3, Reconcile r k w = reportEvent (PostProcessReconcile o2 o) ev w3 ∧
        configMaps w3 = configMaps w2 ∧ current w3 !! nameOf o = Some o3 ∧ same_object o o3 ∧
        fin ∈ finalizers o3 ∧ status o3 = status (PostProcessReconcile o2 o) ∧ only (nameOf o) w w3
  end.
Proof.
  intros Hu Hf Hskip Hd. destruct (up_to_date_state k w o Hu) as (s & Hs & Hname & Hlead & Hnl).
  destruct (setFinalizer_quiet o w Hf Hd (utd_current _ _ _ Hu)) as (w1 & oc & Hset & Hcm & Hc & Hso & Hst & Hin & Ho1).
  exists (PreProcessReconcile oc), w1. unfold same_object, nameOf, finalizers, deletion.
  rewrite PreProcess_meta, PreProcess_content. split; [exact Hso|]. split; [exact Hin|]. split; [exact Hcm|]. split; [exact Ho1|].
  assert (Hrec : Reconcile r k w = match runMethod r DoReconcileKind (Some (ReconcileKind (reconciler r))) o w with
    | inr (w, err) => Returns w (Some err) | inl (HandlerPanics w) => Panics w
    | inl (Handled w resource ev) => match synchronizeStatus r s o resource w with
        | (w, Some err) => Returns w (Some err) | (w, None) => reportEvent resource ev w end end).
  { unfold Reconcile. rewrite Hs, Hnl, Hname, (quiet_lister _ _ _ (utd_cached _ _ _ Hu)).
    unfold reconcileMethodFor. unfold deletion in Hd. by rewrite Hd, Hlead. }
  rewrite Hrec. cbn [runMethod]. rewrite Hset, Hskip. cbv zeta. clear Hrec.
  destruct (ReconcileKind (reconciler r) (PreProcessReconcile oc) w1) as [w2 o2 ev|w2]; [|done].
  intros Hh2 Hs2 (Hct2 & Hn2 & Hd2 & Hg2).
  assert (only (nameOf o) w w2) as Ho2 by (etrans; [exact Ho1|by apply only_same_history]).
  assert (current w2 = current w1) as Hcur by (unfold current; by rewrite Hh2).
  unfold synchronizeStatus. rewrite Hskip, Hlead. cbn [negb].
  destruct (Semantic_DeepEqual _ _) eqn:He.
  - apply Semantic_DeepEqual_iff in He. exists w2, oc. split; [done|]. split; [done|]. rewrite Hcur.
    split; [exact Hc|]. split; [exact Hso|]. split; [exact Hin|]. split; [by rewrite Hst|exact Ho2].
  - assert (nameOf (PostProcessReconcile o2 o) = nameOf o) as Hpn.
    { unfold nameOf. rewrite PostProcess_meta. destruct Hso as (_ & Hso & _). unfold nameOf in Hso. congruence. }
    assert (status o ≠ status (PostProcessReconcile o2 o)) as Hne.
    { intros Heq%Semantic_DeepEqual_iff. congruence. }
    destruct (updateStatus_quiet o (PostProcessReconcile o2 o) oc w2) as (w3 & o3 & Hup & Hcm3 & Hc3 & Hst3 & Hso3 & Hf3 & Ho3).
    { by rewrite Hpn. } { apply (utd_version _ _ _ Hu). } { by rewrite Hpn, Hcur. }
    { rewrite Hpn. by destruct Hso as (_ & ? & _). } { done. }
    rewrite Hup. exists w3, o3. split; [done|]. split; [done|]. rewrite Hpn in Hc3. split; [exact Hc3|].
    split; [exact (transitivity Hso Hso3)|].
    split; [unfold finalizers in Hf3; by rewrite Hf3|]. split; [done|].
    rewrite Hpn in Ho3. by etrans.
Qed.

Lemma reportEvent_error o err w : EventAs err = None → reportEvent o (Some err) w = Returns w (Some err).
Proof using QS. intros He. unfold reportEvent. rewrite He, quiet_recorder. by destruct (_ || _). Qed.

(** The cache is as it was. *)
Lemma only_cached n w w' m o : only n w w' → cached w !! m = Some o → cached w' !! m = Some o.
Proof using Type.
  intros [Hs Hh _]. unfold cached. rewrite Hs. destruct (history w !! seen w) as [objs|] eqn:He.
  - by rewrite (prefix_lookup_Some _ _ _ _ He Hh).
  - cbn. by rewrite lookup_empty.
Qed.

(** A call that finalizes: it takes the finalizer away if the handler succeeds, and
    with the last one the object goes. *)
Lemma Reconcile_finalizes k w o f w2 ev : up_to_date k w o → FinalizeKind (reconciler r) = Some f →
  deletion o ≠ None → fin ∈ finalizers o → f o w = Handled w2 o ev → history w2 = history w →
  seen w2 = seen w →
  match ev with
  | None => ∃ w3, Reconcile r k w = Returns w3 None ∧ configMaps w3 = configMaps w2 ∧
      only (nameOf o) w w3 ∧ match current w3 !! nameOf o with
      | None => ∀ g, g ∈ finalizers o → g = fin
      | Some o3 => same_object o o3 ∧ finalizers o3 ≠ [] ∧ ∀ g, g ∈ finalizers o3 ↔ g ∈ finalizers o ∧ g ≠ fin
      end
  | Some err => EventAs err = None →
      Reconcile r k w = Returns w2 (Some err) ∧ current w2 !! nameOf o = Some o
  end.
Proof.
  intros Hu Hf Hd Hin Hr Hh Hse. destruct (up_to_date_state k w o Hu) as (s & Hs & Hname & Hlead & Hnl).
  assert (Hrec : Reconcile r k w = match runMethod r DoFinalizeKind (Some f) o w with
    | inr (w, err) => Returns w (Some err) | inl (HandlerPanics w) => Panics w
    | inl (Handled w resource ev) => match synchronizeStatus r s o resource w with
        | (w, Some err) => Returns w (Some err) | (w, None) => reportEvent resource ev w end end).
  { unfold Reconcile. rewrite Hs, Hnl, Hname, (quiet_lister _ _ _ (utd_cached _ _ _ Hu)).
    unfold reconcileMethodFor. unfold deletion in Hd. destruct (om_DeletionTimestamp _); [|done].
    by rewrite Hf, Hlead. }
  assert (Hsync : ∀ o1 w1, status o1 = status o → synchronizeStatus r s o o1 w1 = (w1, None)).
  { intros o1 w1 Hst. unfold synchronizeStatus. destruct (skipStatusUpdates r); [done|].
    assert (Semantic_DeepEqual (status o) (status o1) = true) as -> by (by apply Semantic_DeepEqual_iff). done. }
  assert (current w2 !! nameOf o = Some o) as Hc2.
  { unfold current. rewrite Hh. apply (utd_current _ _ _ Hu). }
  rewrite Hrec. cbn [runMethod]. rewrite Hr. clear Hrec. destruct ev as [err|].
  - intros Hev. assert (clearFinalizer r o (Some err) w2 = (w2, Ok o)) as Hcl.
    { unfold clearFinalizer. rewrite Hf. destruct (isNil _); [done|]. rewrite Hev.
      unfold updateFinalizersFiltered, newFinalizers. rewrite !decide_True by (by apply elem_of_list_to_set). done. }
    rewrite Hcl, Hsync by done. split; [|done]. by apply reportEvent_error.
  - destruct (clearFinalizer_quiet o w2 (ex_intro _ f Hf) Hd Hc2 Hin) as (w3 & o3 & Hcl & Hcm & Hc & Hso & Hst & Hfs & Ho).
    rewrite Hcl, Hsync by done. exists w3. split; [done|]. split; [done|].
    split; [etrans; [by apply (only_same_history _ w w2)|exact Ho]|]. rewrite Hc. unfold kept.
    destruct (decide _) as [[Hnil _]|Hn].
    2: { split; [done|]. split; [|done]. intros Hnil. apply Hn. split; [done|].
         destruct Hso as (_ & _ & -> & _). done. }
    intros g Hg. destruct (decide (g = fin)) as [|Hne]; [done|].
    exfalso. assert (g ∈ finalizers o3) as Hg3 by by apply Hfs. rewrite Hnil in Hg3. by apply elem_of_nil in Hg3.
Qed.

End Quiet.

(** * Calls for every object *)

(** What the ConfigMap says of an object. *)
Definition entry {R} (w : World R) (n : string) : option string := configMap w ≫= λ cm, cm !! n.

Lemma listed_entry {R} (w : World R) n : listed w n ↔ is_Some (entry w n).
Proof.
  unfold listed, entry. destruct (configMap w) as [cm|]; cbn; [|split; [by intros (? & ? & _)|by intros [? ?]]].
  split; [by intros (? & [= <-] & ?)|by exists cm].
Qed.

(** Two states that agree about one object. *)
Definition same_at {R} `{RS : !Resource R} (n : string) (w w' : World R) : Prop :=
  current w' !! n = current w !! n ∧ entry w' n = entry w n.

Lemma same_at_refl {R} `{RS : !Resource R} n (w : World R) : same_at n w w.
Proof. done. Qed.
Lemma same_at_trans {R} `{RS : !Resource R} n (w1 w2 w3 : World R) : same_at n w1 w2 → same_at n w2 w3 → same_at n w1 w3.
Proof. intros [] []. split; by etrans. Qed.

Section Calls.
Context {R : Type} `{RS : !Resource R} `{E : GoErrors} `{CL : !Clients (World R) R} `{J : JsonText}.
Variable r : reconcilerImpl (World R) R.
Abbreviation W := (World R).

(** The calls for the keys of the queue, one after the other. *)
Fixpoint calls (keys : list string) (w : W) : W :=
  match keys with
  | [] => w
  | k :: keys => calls keys (endedWorld (Reconcile r k w))
  end.

(** A key that names the object and is the leader's, now and later. *)
Definition leads (k n : string) : Prop :=
  ∃ ns, SplitMetaNamespaceKey k = Ok (ns, n) ∧ ∀ w : W, IsLeaderFor ns n w = true.

(** The frame of a call: other objects, other entries and the cache. *)
Record frame (n : string) (w w' : W) : Prop := {
  frame_only : only n w w';
  frame_entry m : m ≠ n → entry w' m = entry w m
}.

Lemma frame_insert n text w w' : configMap w' = Some (<[n := text]> (default ∅ (configMap w))) → only n w w' →
  entry w' n = Some text ∧ frame n w w'.
Proof using Type.
  intros Hcm Ho. unfold entry. rewrite Hcm. split; [apply lookup_insert_eq|]. split; [done|]. intros m Hm.
  unfold entry. rewrite Hcm. cbn. rewrite lookup_insert_ne by done. by destruct (configMap w).
Qed.
Lemma frame_delete n w w' : configMap w' = delete n <$> configMap w → only n w w' →
  entry w' n = None ∧ frame n w w'.
Proof using Type.
  intros Hcm Ho. split; [unfold entry; rewrite Hcm; destruct (configMap w); cbn; [apply lookup_delete_eq|done]|].
  split; [done|]. intros m Hm. unfold entry. rewrite Hcm. destruct (configMap w); cbn; [|done]. by rewrite lookup_delete_ne.
Qed.
Lemma frame_keep n w w' : configMap w' = configMap w → only n w w' → entry w' n = entry w n ∧ frame n w w'.
Proof using Type. intros Hcm Ho. unfold entry. rewrite Hcm. split; [done|]. split; [done|]. intros m _. unfold entry. by rewrite Hcm. Qed.

Lemma frame_same_at n m w w' : frame n w w' → m ≠ n → same_at m w w'.
Proof using Type. intros [Ho He] Hm. split; [by apply (only_current _ _ _ Ho)|by apply He]. Qed.

(** The object is not in the ConfigMap, and the controller no longer holds it. *)
Definition released (fin : string) (w : W) (o : R) : Prop :=
  entry w (nameOf o) = None ∧
  ∀ o', current w !! nameOf o = Some o' → same_object o o' ∧ fin ∉ finalizers o'.

Lemma call_releases `{QS : !QuietServer} `{RL : !ResourceLaws} k w o f : up_to_date k w o →
  FinalizeKind (reconciler r) = Some f → deletion o ≠ None → finalizerName r ∈ finalizers o →
  f o w = Handled (write (delete (nameOf o) <$> configMap w) w) o None →
  let w' := endedWorld (Reconcile r k w) in released (finalizerName r) w' o ∧ frame (nameOf o) w w'.
Proof using Type.
  intros Hu Hf Hd Hin Hr.
  destruct (Reconcile_finalizes r k w o f _ None Hu Hf Hd Hin Hr eq_refl eq_refl) as (w3 & -> & Hcm & Ho & Hcur).
  cbn [endedWorld]. destruct (frame_delete (nameOf o) w w3) as [He Hfr]; [unfold configMap at 1; by rewrite Hcm|done|].
  split; [|done]. split; [done|]. intros o' Hc. rewrite Hc in Hcur. destruct Hcur as (Hso & _ & Hfs).
  split; [done|]. by intros [_ ?]%Hfs.
Qed.

(** What a call achieves for an object, in terms of the states before and after it,
    of which only what they say about the object matters. *)
Variables (done_for : W → W → R → Prop) (callable : R → Prop).
Hypothesis done_for_ext : ∀ w1 w2 w1' w2' o, same_at (nameOf o) w1 w2 → same_at (nameOf o) w1' w2' →
  done_for w1 w1' o → done_for w2 w2' o.
Hypothesis call_does : ∀ k w o, up_to_date k w o → callable o →
  let w' := endedWorld (Reconcile r k w) in done_for w w' o ∧ frame (nameOf o) w w'.

Lemma calls_lemma keys os w :
  Forall2 (λ k o, leads k (nameOf o)) keys os → NoDup (nameOf <$> os) →
  Forall (λ o, cached w !! nameOf o = Some o ∧ current w !! nameOf o = Some o ∧ version o ≠ "") os →
  Forall callable os →
  let w' := calls keys w in
  Forall (done_for w w') os ∧ ∀ m, m ∉ nameOf <$> os → same_at m w w'.
Proof.
  intros Hl. revert w. induction Hl as [|k o keys os Hk _ IH]; intros w Hnd Hcc Hca; [done|].
  cbv zeta. cbn [calls fmap list_fmap] in *. apply NoDup_cons in Hnd as [Hnin Hnd].
  apply Forall_cons in Hcc as [(Hc1 & Hc2 & Hv) Hcc]. apply Forall_cons in Hca as [Hco Hca].
  assert (up_to_date k w o) as Hu.
  { destruct Hk as (ns & Hk & Hlead). split; [exists ns; by split|done..]. }
  destruct (call_does k w o Hu Hco) as [Hdone Hfr].
  set (w1 := endedWorld (Reconcile r k w)) in *.
  assert (∀ o', o' ∈ os → nameOf o' ≠ nameOf o) as Hne.
  { intros o' Ho' Heq. apply Hnin. rewrite <-Heq. by apply list_elem_of_fmap_2. }
  destruct (IH w1) as [Hall Hrest]; [done| |done|].
  { apply Forall_forall. intros o' Ho'. rewrite Forall_forall in Hcc. destruct (Hcc o' Ho') as (Ha & Hb & ?).
    split; [by eapply only_cached; [apply Hfr|]|]. split; [|done].
    by rewrite (only_current _ _ _ (frame_only _ _ _ Hfr)) by by apply Hne. }
  split.
  - constructor.
    + eapply done_for_ext; [apply same_at_refl|by apply Hrest|exact Hdone].
    + rewrite Forall_forall in Hall |- *. intros o' Ho'. eapply done_for_ext; [|apply same_at_refl|by apply Hall].
      destruct (frame_same_at _ (nameOf o') _ _ Hfr) as [? ?]; [by apply Hne|]. by split.
  - intros m [Hm Hm']%not_elem_of_cons. eapply same_at_trans; [by eapply frame_same_at|by apply Hrest].
Qed.

(** With a cache that has caught up, one call for every object. *)
Lemma calls_all (w : W) (keys names : list string)
    (Hcaught_up : cached w = current w)
    (Hobjects : ∀ n o, current w !! n = Some o → nameOf o = n ∧ version o ≠ "")
    (Hcallable : ∀ n o, current w !! n = Some o → callable o)
    (Hnames : NoDup names ∧ ∀ n, n ∈ names ↔ is_Some (current w !! n))
    (Hkeys : Forall2 leads keys names) :
  let w' := calls keys w in
  (∀ n o, current w !! n = Some o → done_for w w' o) ∧ ∀ n, current w !! n = None → same_at n w w'.
Proof.
  destruct Hnames as [Hnd Hin]. set (os := omap (λ n, current w !! n) names).
  assert (nameOf <$> os = names) as Hos.
  { unfold os. assert (∀ n, n ∈ names → is_Some (current w !! n)) as Hs by (intros n; apply Hin).
    clear -Hs Hobjects. induction names as [|n l IH]; [done|]. cbn.
    destruct (Hs n ltac:(left)) as [o Ho]. rewrite Ho. cbn. destruct (Hobjects n o Ho) as [-> _].
    rewrite IH; [done|]. intros m Hm. apply Hs. by right. }
  assert (∀ o, o ∈ os ↔ ∃ n, current w !! n = Some o) as Hel.
  { intros o. unfold os. rewrite list_elem_of_omap. split; [intros (n & _ & Hn); by exists n|].
    intros [n Hn]. exists n. split; [apply Hin; by eexists|done]. }
  destruct (calls_lemma keys os w) as [Hall Hrest].
  - apply (Forall2_fmap_r nameOf leads). by rewrite Hos.
  - by rewrite Hos.
  - apply Forall_forall. intros o [n Hn]%Hel. destruct (Hobjects n o Hn) as [-> Hv]. by rewrite Hcaught_up.
  - apply Forall_forall. intros o [n Hn]%Hel. by eapply Hcallable.
  - rewrite Forall_forall in Hall. cbv zeta. split; [intros n o Hn; apply Hall, Hel; by exists n|].
    intros n Hn. apply Hrest. rewrite Hos, Hin, Hn. by intros [? ?].
Qed.

End Calls.

(** The calls make the steps of the protocol. *)
Lemma calls_reaches {R} `{RS : !Resource R} `{E : GoErrors} `{CL : !Clients (World R) R} `{J : JsonText}
    `{RL : !ResourceLaws} (r : reconcilerImpl (World R) R) (accepted : R → Prop) (prompt : Prop)
    (accepted_content : ∀ o o', nameOf o' = nameOf o → content o' = content o → accepted o → accepted o')
    `{SL : !ServerLaws (finalizerName r) accepted} keys w :
  handlers_ok r prompt → wf accepted r w → reaches accepted r prompt w (calls r keys w).
Proof.
  intros HK. unfold reaches. revert w. induction keys as [|k keys IH]; intros w Hw; [done|]. cbn [calls].
  pose proof (Reconcile_lemma (SL := SL) accepted r prompt accepted_content k w HK Hw) as Hr.
  etrans; [exact Hr|]. apply IH. by apply (reaches_wf accepted r prompt accepted_content w).
Qed.
