(* ===== verification/ToyServer.v ===== *)
(** A concrete API server for the witnesses: it has no other users, it answers every
    request, and it gives every write a version that is longer than all before. *)

From S2P Require Import Prelude.
From S2P Require Import Encoding.
From S2P Require Import K8s.
From S2P Require Import GenReconciler.
From S2P Require Import ApiServer.
From S2P Require ToyText.

#[local] Open Scope nat_scope.


#[local] Existing Instance ToyText.toyText.

(** * Errors *)

Inductive error :=
  | Plain (msg : string)
  | Wrapped (msg : string) (err : error)
  | Event (event : ReconcilerEvent)
  | SkipKey (key : string)
  | NotFound
  | Conflict.

Fixpoint text (err : error) : string :=
  match err with
  | Plain msg => msg
  | Wrapped msg err => msg +:+ text err
  | Event event => event_Error event
  | SkipKey key => "skipped key " +:+ quote key
  | NotFound => "not found"
  | Conflict => "the object has been modified"
  end.
Fixpoint event (err : error) : option ReconcilerEvent :=
  match err with Event e => Some e | Wrapped _ err => event err | _ => None end.
Fixpoint skip (err : error) : bool :=
  match err with SkipKey _ => true | Wrapped _ err => skip err | _ => false end.

#[export] Instance errors : GoErrors := {|
  GoError := error;
  Error := text;
  errors_New := Plain;
  wrap := Wrapped;
  EventAs := event;
  isReconcilerEvent err := match err with Event _ => true | _ => false end;
  NewSkipKey := SkipKey;
  IsSkipKey := skip;
  IsRequeueKey _ := false;
  IsNotFound err := match err with NotFound => true | _ => false end;
  IsConflict err := match err with Conflict => true | _ => false end
|}.

(** * The server *)

Section Server.
Context {R : Type} `{RS : !Resource R}.
Variable set_meta : R → ObjectMeta → R.

Definition stamp (v : string) (fs : list string) (o : R) : R :=
  let m := objectMeta o in
  set_meta o {| om_Name := om_Name m; om_Namespace := om_Namespace m; om_UID := om_UID m;
    om_ResourceVersion := v; om_Generation := om_Generation m; om_Labels := om_Labels m;
    om_DeletionTimestamp := om_DeletionTimestamp m; om_Finalizers := fs |}.

Definition longest (l : list string) : nat := foldr (λ s n, Nat.max (String.length s) n) 0 l.
Definition versions (w : World R) : list string :=
  objs ← history w; (λ p : string * R, version p.2) <$> map_to_list objs.
Fixpoint vs (n : nat) : string := match n with O => "" | S n => String "v" (vs n) end.
Definition newVersion (w : World R) : string := vs (S (longest (versions w))).

Definition updateStatus (o : R) (w : World R) : World R * result error R :=
  match current w !! nameOf o with
  | None => (w, Err NotFound)
  | Some o0 =>
      if decide (version o0 = version o) then
        let o1 := stamp (newVersion w) (finalizers o0) (with_status o0 (status o)) in
        (put (nameOf o) (Some o1) w, Ok o1)
      else (w, Err Conflict)
  end.

Definition strings (l : list json) : list string :=
  omap (λ j, match j with JStr s => Some s | _ => None end) l.

Definition patch (n text : string) (w : World R) : World R * result error R :=
  match current w !! n, jsonParse text with
  | Some o0, Some (JObj [(_, JObj [(_, JArr fs); (_, JStr v)])]) =>
      if decide (version o0 = v) then
        let o1 := stamp (newVersion w) (strings fs) o0 in (put n (kept o1) w, Ok o1)
      else (w, Err Conflict)
  | _, _ => (w, Err NotFound)
  end.

#[export] Instance clients : Clients (World R) R := {|
  client_Get n w := (w, match current w !! n with Some o => Ok o | None => Err NotFound end);
  client_UpdateStatus := updateStatus;
  client_Patch := patch;
  lister_Get n w := match cached w !! n with Some o => Ok o | None => Err NotFound end;
  lister_List w := Ok (map_to_list (cached w)).*2;
  recorder_Event _ _ _ _ w := w;
  IsLeaderFor _ _ _ := true;
  RetryUpdateConflicts := tries 4 0;
  SplitMetaNamespaceKey k := Ok ("", k)
|}.

(** ** Its laws *)

Hypothesis set_meta_meta : ∀ o m, objectMeta (set_meta o m) = m.
Hypothesis set_meta_content : ∀ o m, content (set_meta o m) = content o.
Hypothesis set_meta_status : ∀ o m, status (set_meta o m) = status o.

Lemma longest_ge l s : s ∈ l → String.length s ≤ longest l.
Proof.
  induction 1 as [s l|s s' l _ IH]; cbn; [apply Nat.le_max_l|]. etrans; [exact IH|apply Nat.le_max_r].
Qed.
Lemma vs_length n : String.length (vs n) = n.
Proof. induction n as [|n IH]; [done|]. cbn. by rewrite IH. Qed.

Lemma newVersion_fresh w : fresh (newVersion w) w.
Proof.
  split; [done|]. intros objs n o Hobjs Ho Hv.
  assert (version o ∈ versions w) as Hin.
  { unfold versions. apply list_elem_of_bind. exists objs. split; [|done].
    apply list_elem_of_fmap. exists (n, o). split; [done|]. by apply elem_of_map_to_list. }
  apply longest_ge in Hin. rewrite Hv in Hin. unfold newVersion in Hin. rewrite vs_length in Hin. lia.
Qed.

Lemma last_elem {A} (l : list A) x : last l = Some x → x ∈ l.
Proof using Type. rewrite last_lookup. apply list_elem_of_lookup_2. Qed.

Lemma stamp_version v fs o : version (stamp v fs o) = v.
Proof using set_meta_meta. unfold version, stamp. cbn. by rewrite set_meta_meta. Qed.

Lemma stamp_finalizers v fs o : finalizers_written o fs (stamp v fs o).
Proof using All.
  unfold finalizers_written, finalizers, deletion, nameOf, stamp. cbn.
  by rewrite set_meta_meta, set_meta_content, set_meta_status.
Qed.

Lemma strings_JStr fs : strings (JStr <$> fs) = fs.
Proof. induction fs as [|f fs IH]; [done|]. cbn. f_equal. exact IH. Qed.

Lemma patch_eq n fs v w : patch n (jsonText (finalizersPatch fs v)) w =
  match current w !! n with
  | Some o0 => if decide (version o0 = v) then
      (put n (kept (stamp (newVersion w) fs o0)) w, Ok (stamp (newVersion w) fs o0)) else (w, Err Conflict)
  | None => (w, Err NotFound)
  end.
Proof.
  unfold patch. cbn [jsonParse jsonText ToyText.toyText]. rewrite ToyText.parse_text.
  destruct (current w !! n) as [o0|]; [|done]. cbn. fold (strings (JStr <$> fs)). by rewrite strings_JStr.
Qed.

Context `{RL : !ResourceLaws}.

Lemma stamp_status v o0 o : status_written o0 o (stamp v (finalizers o0) (with_status o0 (status o))).
Proof using All.
  unfold status_written, finalizers, deletion, nameOf, stamp. cbn.
  rewrite set_meta_meta, set_meta_content, set_meta_status. cbn.
  by rewrite with_status_status, with_status_content, with_status_meta.
Qed.

#[export] Instance server_laws fin accepted : ServerLaws fin accepted.
Proof using All.
  split.
  - intros n w w' res [= <- <-]. split; [done|]. intros o. destruct (current w !! n); [by intros [= ->]|done].
  - cbn. unfold updateStatus. intros o w w' res H. exists w. split; [done|].
    destruct (current w !! nameOf o) as [o0|] eqn:Hc; [|injection H as <- <-; left; split; [done|by eexists]].
    destruct (decide _) as [Hv|]; injection H as <- <-; [right|left; split; [done|by eexists]].
    eexists o0, _. split; [done|]. split; [by right|]. split; [apply stamp_status|]. rewrite stamp_version.
    split; [apply newVersion_fresh|done].
  - cbn [client_Patch clients]. intros n fs v w w' res H. rewrite patch_eq in H. exists w. split; [done|].
    destruct (current w !! n) as [o0|] eqn:Hc; [|injection H as <- <-; left; split; [done|by eexists]].
    destruct (decide _) as [Hv|]; injection H as <- <-; [right|left; split; [done|by eexists]].
    eexists o0, _. split; [done|]. split; [by right|]. split; [apply stamp_finalizers|]. rewrite stamp_version.
    split; [apply newVersion_fresh|]. split; [done|]. by intros o [= <-].
  - intros n w o. cbn. destruct (cached w !! n); naive_solver.
  - intros n w Hn. cbn. rewrite Hn. by eexists.
  - done.
  - by exists 4.
Qed.

#[export] Instance quiet_server : QuietServer.
Proof using All.
  split.
  - intros n w o Ho. cbn. by rewrite Ho.
  - cbn. unfold updateStatus. intros o o0 w Hc Hv. rewrite Hc, decide_True by done.
    eexists. split; [done|apply stamp_status].
  - cbn. unfold updateStatus. intros o o0 w Hc Hv _. rewrite Hc, decide_False by done. by eexists.
  - cbn [client_Patch clients]. intros n fs o0 w Hc. rewrite patch_eq, Hc, decide_True by done.
    eexists. split; [done|]. split; [apply stamp_finalizers|]. rewrite stamp_version. intros Hv.
    destruct (newVersion_fresh w) as [_ Hf]. unfold current in Hc.
    destruct (last (history w)) as [objs|] eqn:Hl; [|done]. apply last_elem in Hl.
    by apply (Hf objs n o0 Hl Hc).
  - intros n w o Ho. cbn. by rewrite Ho.
  - done.
  - by exists 3.
Qed.

End Server.
