(* ===== verification/Controllers.v ===== *)
(** The two controllers (pkg/reconciler/clusterimagepolicy/controller.go,
    pkg/reconciler/trustroot/controller.go): the generated reconcilers around the
    [ReconcileKind] and [FinalizeKind] of policies and trust roots, and the events
    that fill their queues. *)

From S2P Require Import Prelude.
From S2P Require Import Encoding.
From S2P Require Import Names.
From S2P Require Import K8s.
From S2P Require Import Oci.
From S2P Require Import SigstoreKeys.
From S2P Require Import Tuf.
From S2P Require TrustRoot.
From S2P Require Import TrustKeys.
From S2P Require Import V1alpha1.
From S2P Require Import ConfigMaps.
From S2P Require Import Lifecycle.
From S2P Require Reconcile.
From S2P Require Import TrustRootReconcile.
From S2P Require Import GenReconciler.
From S2P Require Import ApiServer.

(** * controller.go *)

(** What the informers tell a controller of: its resources, and Secrets and
    ConfigMaps, by namespace and name. *)
Inductive notice :=
  | ResourceChanged (namespace name : string)
  | SecretChanged (namespace name : string)
  | ConfigMapChanged (namespace name : string).

(** What its handlers do: enqueue a key, tell the tracker of an object, with the type
    that [EnsureTypeMeta] gives it, which enqueues the resources that track the object,
    or enqueue every resource. *)
Inductive action :=
  | Enqueue (namespace name : string)
  | OnChanged (ref : Reconcile.TrackerReference)
  | GlobalResync.

Definition ImagePoliciesConfigName : string := "config-image-policies".
Definition SigstoreKeysConfigName : string := "config-sigstore-keys".

Section Wiring.
Context `{P : Parsers}.

(** The filter of the last handler of each controller. *)
Definition isConfigMap (name namespace' name' : string) : bool :=
  (namespace' ==s systemNamespace) && (name' ==s name).

(** The reference to an object of [corev1.SchemeGroupVersion]. *)
Definition coreObject (kind namespace name : string) : Reconcile.TrackerReference :=
  {| Reconcile.ref_APIVersion := "v1"; Reconcile.ref_Kind := kind; Reconcile.ref_Namespace := namespace;
     Reconcile.ref_Name := name |}.

Definition policy_onNotice (n : notice) : list action :=
  match n with
  | ResourceChanged ns name => [Enqueue ns name]
  | SecretChanged ns name => [OnChanged (coreObject "Secret" ns name)]
  | ConfigMapChanged ns name =>
      OnChanged (coreObject "ConfigMap" ns name) ::
      (if isConfigMap ImagePoliciesConfigName ns name then [GlobalResync] else [])
  end.

Definition trustroot_onNotice (n : notice) : list action :=
  match n with
  | ResourceChanged ns name => [Enqueue ns name]
  | SecretChanged _ _ => []
  | ConfigMapChanged ns name =>
      if isConfigMap SigstoreKeysConfigName ns name then [GlobalResync] else []
  end.

End Wiring.

(** [ToContext] and [FromContextOrDefaults] of the controller of policies: a context
    is the period attached to it. *)
Definition policy_ToContext (ctx : option Z) (duration : Z) : option Z := Some duration.
Definition policy_FromContextOrDefaults (DefaultResyncPeriod : Z) (ctx : option Z) : Z :=
  match ctx with Some x => x | None => DefaultResyncPeriod end.

(** * The reconcilers *)

Definition options {W R : Type} (finalizerName : string) : Options (W := W) (R := R) := {|
  opt_FinalizerName := finalizerName; opt_AgentName := ""; opt_SkipStatusUpdates := false;
  opt_PromoteFilterFunc := None; opt_PromoteFunc := None |}.

Section Policies.
Context `{P : Parsers} `{KM : Reconcile.KMSPkg} `{JP : JSONPatch} `{JT : JsonText} `{CS : ConditionSets}
  `{KS : KnativeStatus} `{E : GoErrors}.
Variable QuoteRune : Z → string.
(** What a call finds in the cluster and of its ConfigMap. *)
Variables (env : World ClusterImagePolicy → Reconcile.Cluster)
  (meets : World ClusterImagePolicy → Reconcile.Meets).

Definition policy_ReconcileKind : doReconcile (W := World ClusterImagePolicy) (R := ClusterImagePolicy) := λ c w,
  let rec := Reconcile.ReconcileKind QuoteRune (env w) (meets w) (configMap w) c in
  let w := write (Reconcile.r_live rec) w in
  let c := policy_with_status c (Reconcile.r_status rec) in
  match Reconcile.r_out rec with
  | Reconcile.Return _ => Handled w c None
  | Reconcile.Fails err => Handled w c (Some (errors_New err))
  | Reconcile.Panics => HandlerPanics w
  end.

Definition policy_FinalizeKind : doReconcile (W := World ClusterImagePolicy) (R := ClusterImagePolicy) := λ c w,
  let (live, err) := Reconcile.FinalizeKind (meets w) (configMap w) c in
  Handled (write live w) c (errors_New <$> err).

Definition policy_finalizerName : string := "clusterimagepolicies.policy.sigstore.dev".

Definition policy_Interface : Interface (World ClusterImagePolicy) ClusterImagePolicy := {|
  ReconcileKind := policy_ReconcileKind;
  FinalizeKind := Some policy_FinalizeKind;
  ObserveKind := None;
  ObserveDeletion := None
|}.

(** The reconciler that [NewController] makes. *)
Definition policy_NewController : option (Impl (W := World ClusterImagePolicy) (R := ClusterImagePolicy)) :=
  NewImpl "clusterimagepolicy-controller" "clusterimagepolicies.policy.sigstore.dev" policy_Interface
    [options policy_finalizerName].

Definition policy_reconciler : reconcilerImpl (World ClusterImagePolicy) ClusterImagePolicy :=
  {| reconciler := policy_Interface; finalizerName := policy_finalizerName; skipStatusUpdates := false |}.

End Policies.

Section TrustRoots.
Abbreviation TR := TrustRoot.TrustRoot.
Context `{L : LogKeys} `{T : TufPkg} `{TF : TrustFormats} `{JP : JSONPatch} `{CS : ConditionSets}
  `{KS : KnativeStatus} `{E : GoErrors}.
Variable untar : string → result string Archive.
Variable uaString : string.
Variable meets : World TR → Reconcile.Meets.

Definition trustroot_ReconcileKind : doReconcile (W := World TR) (R := TR) := λ t w,
  let '(live, st, out) := tr_ReconcileKind untar uaString (meets w) (configMap w) t in
  let w := write live w in
  let t := trustroot_with_status t st in
  match out with
  | Reconcile.Return _ => Handled w t None
  | Reconcile.Fails err => Handled w t (Some (errors_New err))
  | Reconcile.Panics => HandlerPanics w
  end.

Definition trustroot_FinalizeKind : doReconcile (W := World TR) (R := TR) := λ t w,
  let (live, err) := tr_FinalizeKind (meets w) (configMap w) t in
  Handled (write live w) t (errors_New <$> err).

Definition trustroot_FinalizerName : string := "trustroots.policy.sigstore.dev".

Definition trustroot_Interface : Interface (World TR) TR := {|
  ReconcileKind := trustroot_ReconcileKind;
  FinalizeKind := Some trustroot_FinalizeKind;
  ObserveKind := None;
  ObserveDeletion := None
|}.

Definition trustroot_NewController : option (Impl (W := World TR) (R := TR)) :=
  trustroot_NewImpl trustroot_Interface [options trustroot_FinalizerName].

Definition trustroot_reconciler : reconcilerImpl (World TR) TR :=
  {| reconciler := trustroot_Interface; finalizerName := trustroot_FinalizerName; skipStatusUpdates := false |}.

End TrustRoots.
