(* ===== verification/ControllersSpec.v ===== *)
(** What the two controllers guarantee in a cluster where others act at the same
    time: their handlers follow the protocol of GenReconcilerSpec, so that the
    entries of their ConfigMaps are those of resources that are still there, and
    their runs are runs of Published. *)

From S2P Require Import Prelude.
From S2P Require Import Encoding.
From S2P Require Import Names.
From S2P Require Import K8s.
From S2P Require Import Oci.
From S2P Require Import SigstoreKeys.
From S2P Require Import Tuf.
From S2P Require TrustRoot.
From S2P Require Import TrustKeys.
From S2P Require Import V1alpha1.
From S2P Require Import ConfigMaps.
From S2P Require Import Lifecycle.
From S2P Require Reconcile.
From S2P Require Import ReconcileSpec.
From S2P Require Published.
From S2P Require Import TrustRootReconcile.
From S2P Require Import GenReconciler.
From S2P Require Import ApiServer.
From S2P Require Import GenReconcilerSpec.
From S2P Require Import Convergence.
From S2P Require ToyText.
From S2P Require ToyServer.
From S2P Require Import Controllers.

#[local] Set Default Proof Using "Type*".

(** * What is documented of errors and statuses *)

(** An error made of a text is no event. *)
Class GoErrorLaws `{E : GoErrors} : Prop := {
  EventAs_New msg : EventAs (errors_New msg) = None
}.
Class KnativeStatusLaws `{KS : KnativeStatus} : Prop := {
  statusEqual_iff s s' : statusEqual s s' = true ↔ s = s'
}.

(** After a reconciliation, the generation is observed, and the conditions are as the
    reconciliation left them. *)
Class PostProcessLaws `{KS : KnativeStatus} `{CS : ConditionSets} : Prop := {
  postProcess_generation g s old : ObservedGeneration (postProcess g s old) = g;
  postProcess_state g s old t : Lifecycle.state (postProcess g s old) t = Lifecycle.state s t
}.

#[export] Instance policy_laws `{KL : KnativeStatusLaws} : ResourceLaws (RS := policy_resource).
Proof. split; try done. apply statusEqual_iff. Qed.
#[export] Instance trustroot_laws `{KL : KnativeStatusLaws} : ResourceLaws (RS := trustroot_resource).
Proof. split; try done. apply statusEqual_iff. Qed.

(** * ConfigMaps after a write *)

Section Written.
Context {R : Type} `{RS : !Resource R}.

Lemma listed_write (cm : option (gmap string string)) (w : World R) n :
  listed (write cm w) n ↔ ∃ m, cm = Some m ∧ is_Some (m !! n).
Proof. done. Qed.

Lemma listed_insert (live : option (gmap string string)) (w : World R) name text n : live = configMap w →
  listed (write (Some (<[name := text]> (default ∅ live))) w) n → n = name ∨ listed w n.
Proof.
  intros -> (m & [= <-] & Hm). destruct (decide (n = name)) as [|Hn]; [by left|right].
  rewrite lookup_insert_ne in Hm by done. unfold listed.
  destruct (configMap w) as [cm|]; [by exists cm|]. cbn in Hm. rewrite lookup_empty in Hm. by destruct Hm.
Qed.

Lemma listed_delete (w : World R) name n : listed (write (delete name <$> configMap w) w) n →
  n ≠ name ∧ listed w n.
Proof.
  intros (m & Hm & Hn). unfold listed. destruct (configMap w) as [cm|]; [|done].
  injection Hm as <-. destruct (decide (n = name)) as [->|Hne].
  - rewrite lookup_delete_eq in Hn. by destruct Hn.
  - rewrite lookup_delete_ne in Hn by done. split; [done|]. by exists cm.
Qed.

Lemma listed_same (w : World R) n : listed (write (configMap w) w) n → listed w n.
Proof. done. Qed.

(** A copy that is current is one that the ConfigMap has had. *)
Lemma current_seen (w : World R) meets : Published.current (configMap w) meets → Published.seen (configMaps w) meets.
Proof.
  unfold Published.current, configMap. intros Hc cm. destruct (configMaps w) as [|[live|] past]; cbn in Hc.
  - by destruct Hc as [msg ->].
  - rewrite Hc. intros [= ->]. left.
  - by destruct Hc as [msg ->].
Qed.

End Written.

(** * What leads to another call *)

Section Changes.
Context `{P : Parsers} `{KM : Reconcile.KMSPkg} `{JP : JSONPatch} `{JT : JsonText} `{CS : ConditionSets}.
Variable QuoteRune : Z → string.

(** What the informers tell of a changed Secret or ConfigMap. *)
Definition changed (kind namespace name : string) (n : notice) : Prop :=
  kind = "Secret" ∧ n = SecretChanged namespace name ∨ kind = "ConfigMap" ∧ n = ConfigMapChanged namespace name.

(** C33: a change of what a policy was made of leads to another call. Whatever Secret
    or ConfigMap a reconciliation reads, of whatever namespace and name, however it
    ends, it has passed the tracker before a reference, and the policy that is to be
    called again; the object's namespace is the controller's own, whatever namespace
    the policy gives; and when this object changes, the informers' handler passes the
    tracker the same reference: API version, kind, namespace and name. A change of the
    controllers' own ConfigMaps brings every policy, or trust root, back to the queue. *)
Theorem changes_lead_to_calls (env : Reconcile.Cluster) (meets : Reconcile.Meets)
    (live : option (gmap string string)) (cip : ClusterImagePolicy) :
  let log := Reconcile.r_log (Reconcile.ReconcileKind QuoteRune env meets live cip) in
  (∀ i kind namespace name, log !! i = Some (Reconcile.Read kind namespace name) →
     namespace = systemNamespace ∧
     ∃ ref n, Reconcile.Track ref (om_Name (cip_ObjectMeta cip)) ∈ take i log ∧
       changed kind namespace name n ∧ OnChanged ref ∈ policy_onNotice n) ∧
  GlobalResync ∈ policy_onNotice (ConfigMapChanged systemNamespace ImagePoliciesConfigName) ∧
  GlobalResync ∈ trustroot_onNotice (ConfigMapChanged systemNamespace SigstoreKeysConfigName).
Proof.
  cbv zeta. split.
  - intros i kind namespace name Hi.
    destruct (ReconcileKind_tracks QuoteRune env meets live cip i kind namespace name Hi) as (Hk & Hns & Ht).
    split; [done|]. exists (reference kind namespace name).
    destruct Hk as [->| ->]; eexists; (split; [exact Ht|]); (split; [unfold changed; eauto|left]).
  - unfold policy_onNotice, trustroot_onNotice, isConfigMap. rewrite !String.eqb_refl. cbn. set_solver.
Qed.

End Changes.

(** * Policies *)

Section Policies.
Context `{P : Parsers} `{KM : Reconcile.KMSPkg} `{JP : JSONPatch} `{JT : JsonText} `{CS : ConditionSets}
  `{KS : KnativeStatus} `{E : GoErrors} `{CL : !Clients (World ClusterImagePolicy) ClusterImagePolicy}.
Context `{JL : !JSONPatchLaws} `{CSL : !ConditionSetLaws} `{EL : !GoErrorLaws} `{KL : !KnativeStatusLaws}.
Variable QuoteRune : Z → string.
Variables (env : World ClusterImagePolicy → Reconcile.Cluster)
  (meets : World ClusterImagePolicy → Reconcile.Meets).
(** The policies the admission webhook lets in. *)
Variable admitted : ClusterImagePolicy → Prop.
Hypothesis admitted_content : ∀ o o', nameOf o' = nameOf o → content o' = content o → admitted o → admitted o'.
Context `{SL : !ServerLaws policy_finalizerName admitted}.

Abbreviation r := (policy_reconciler QuoteRune env meets).

(** Whether the lister of ConfigMaps has, at every call, the one that is there. *)
Definition prompt : Prop := ∀ w, Published.current (configMap w) (meets w).

Lemma policy_NewController_Some :
  impl_rec <$> policy_NewController QuoteRune env meets = Some r.
Proof. done. Qed.

Lemma policy_handlers_ok : handlers_ok r prompt.
Proof.
  split; [by eexists|done|done| | |].
  - intros o w. cbn [ReconcileKind reconciler policy_reconciler policy_Interface policy_ReconcileKind].
    set (rec := Reconcile.ReconcileKind QuoteRune (env w) (meets w) (configMap w) o).
    exists (Reconcile.r_live rec). unfold policy_ReconcileKind. fold rec.
    split; [by destruct (Reconcile.r_out rec)|]. intros HP n Hn.
    pose proof (Published.ReconcileKind_lemma QuoteRune (env w) (meets w) (configMap w) o (HP w)) as Hk.
    cbv zeta in Hk. fold rec in Hk. destruct (Reconcile.r_out rec) as [u|err|].
    + destruct Hk as [_ (cip' & _ & Hk)]. rewrite Hk in Hn. by eapply listed_insert.
    + destruct Hk as [_ Hk]. rewrite Hk in Hn. right.
      destruct (Reconcile.fault (meets w)); [by apply listed_same|by apply listed_delete in Hn as [_ Hn]].
    + destruct Hk as [Hk _]. rewrite Hk in Hn. right. by apply listed_same.
  - intros o w w' o' ev. cbn [ReconcileKind reconciler policy_reconciler policy_Interface]. unfold policy_ReconcileKind.
    destruct (Reconcile.r_out _); [| |done]; by intros [= _ <- _].
  - intros f o w [= <-]. unfold policy_FinalizeKind.
    pose proof (λ HP : prompt, Published.FinalizeKind_current (meets w) (configMap w) o (HP w)) as Hk.
    destruct (Reconcile.FinalizeKind (meets w) (configMap w) o) as [live err].
    exists live, (errors_New <$> err). split; [done|].
    destruct err as [err|]; cbn; split.
    + intros HP n Hn. destruct (Hk HP) as [-> _]. by apply listed_same.
    + apply EventAs_New.
    + intros HP n Hn. rewrite (Hk HP) in Hn. by apply listed_delete in Hn as [_ Hn].
    + intros HP Hn. rewrite (Hk HP) in Hn. apply listed_delete in Hn as [Hn _]. done.
Qed.

(** C13: no policy outlives its resource: whatever users and the informers do between
    and during the calls of the controller, in whatever order it is called for which
    keys, and whichever requests fail, take effect although they fail, or are
    retried, every entry of the ConfigMap is that of a ClusterImagePolicy that the
    server still holds, with the controller's finalizer on it, provided that the
    controller's copies of the ConfigMap are current. *)
Theorem policy_entries_owned (Hprompt : prompt) (w : World ClusterImagePolicy) (Hruns : runs admitted r w)
    (name : string) (Hlisted : listed w name) :
  ∃ o, current w !! name = Some o ∧ admitted o ∧ policy_finalizerName ∈ finalizers o.
Proof.
  destruct (runs_owned admitted r prompt admitted_content w Hprompt policy_handlers_ok Hruns name Hlisted) as (o & Ho & Hf).
  exists o. split; [done|]. split; [|done].
  pose proof (runs_wf admitted r prompt admitted_content w policy_handlers_ok Hruns) as Hw.
  by destruct (wf_current_object admitted r w name o Hw Ho) as (_ & Ha & _).
Qed.

(** * The protocol of the controller *)

(** What may happen to the policies and the ConfigMap, said of the handlers of the
    controller itself: besides what others do and the writes of statuses, the finalizer
    is added to policies that are not being deleted, and removed from those that are,
    after FinalizeKind succeeded for them; and the ConfigMap is written by ReconcileKind
    for a policy that has been read as one that is not being deleted while the server
    holds it with the finalizer, and by FinalizeKind for one that has been read as
    being deleted. *)
Inductive lawful : World ClusterImagePolicy → Prop :=
  | lawful_start : lawful start
  | lawful_others w w' : lawful w → others policy_finalizerName admitted w w' → lawful w'
  | lawful_status n o0 desired o1 w : lawful w → current w !! n = Some o0 → status_written o0 desired o1 →
      fresh (version o1) w → lawful (put n (Some o1) w)
  | lawful_adds n o0 o1 w : lawful w → current w !! n = Some o0 → deletion o0 = None →
      finalizers_written o0 (finalizers o0 ++ [policy_finalizerName]) o1 → fresh (version o1) w →
      lawful (put n (Some o1) w)
  | lawful_clears n o0 fs o1 w w0 : lawful w → current w !! n = Some o0 → deletion o0 ≠ None →
      before w0 w → (Reconcile.FinalizeKind (meets w0) (configMap w0) o0).2 = None →
      before (write (Reconcile.FinalizeKind (meets w0) (configMap w0) o0).1 w0) w →
      (∀ f, f ∈ fs ↔ f ∈ finalizers o0 ∧ f ≠ policy_finalizerName) →
      finalizers_written o0 fs o1 → fresh (version o1) w → lawful (put n (kept o1) w)
  | lawful_reconcile o w : lawful w → read w o → admitted o → deletion o = None →
      (∃ o', current w !! nameOf o = Some o' ∧ policy_finalizerName ∈ finalizers o') →
      lawful (write (Reconcile.r_live (Reconcile.ReconcileKind QuoteRune (env w) (meets w) (configMap w) o)) w)
  | lawful_finalize o w : lawful w → read w o → admitted o → deletion o ≠ None →
      lawful (write (Reconcile.FinalizeKind (meets w) (configMap w) o).1 w).

Lemma reconciledWorld o w : handledWorld (ReconcileKind (reconciler r) o w) =
  write (Reconcile.r_live (Reconcile.ReconcileKind QuoteRune (env w) (meets w) (configMap w) o)) w.
Proof.
  cbn [ReconcileKind reconciler policy_reconciler policy_Interface]. unfold policy_ReconcileKind.
  by destruct (Reconcile.r_out _).
Qed.
Lemma finalizedWorld o w : handledWorld (policy_FinalizeKind meets o w) =
  write (Reconcile.FinalizeKind (meets w) (configMap w) o).1 w.
Proof. unfold policy_FinalizeKind. by destruct (Reconcile.FinalizeKind _ _ _). Qed.

Lemma finalized_None w o : finalized r w o → ∃ w0, before w0 w ∧
  (Reconcile.FinalizeKind (meets w0) (configMap w0) o).2 = None ∧
  before (write (Reconcile.FinalizeKind (meets w0) (configMap w0) o).1 w0) w.
Proof.
  intros (f & w0 & w1 & o' & [= <-] & Hf & H0 & H1). exists w0. split; [done|].
  unfold policy_FinalizeKind in Hf. destruct (Reconcile.FinalizeKind _ _ _) as [live [err|]]; [done|].
  cbn in Hf |- *. injection Hf as Hw _. by rewrite Hw.
Qed.

Lemma step_lawful w w' : lawful w → step admitted r prompt w w' → lawful w'.
Proof.
  intros Hw. destruct 1 as [w w' Ho|n o0 desired o1 w|n o0 o1 w|n o0 fs o1 w Hc Hd Hl Hset Hfd Hfs|o w|f o w Hfin].
  - by eapply lawful_others.
  - by eapply lawful_status.
  - by eapply lawful_adds.
  - destruct (finalized_None w o0 Hfd) as (w0 & ? & ? & ?). by eapply (lawful_clears n o0 fs o1 w w0).
  - rewrite reconciledWorld. by apply lawful_reconcile.
  - injection Hfin as <-. rewrite finalizedWorld. by apply lawful_finalize.
Qed.

Lemma runs_lawful w : runs admitted r w → lawful w.
Proof.
  intros Hr. pose proof (runs_reaches (SL := SL) admitted r prompt admitted_content w policy_handlers_ok Hr) as H.
  assert (∀ w1 w2, reaches admitted r prompt w1 w2 → lawful w1 → lawful w2) as Hreach.
  { induction 1 as [|w1 w2 w3 Hs _ IH]; [done|]. intros Hl. by eapply IH, step_lawful. }
  by eapply Hreach, lawful_start.
Qed.

(** * Runs of Published *)

Hypothesis meets_seen : ∀ w, Published.seen (configMaps w) (meets w).

Lemma step_run w w' : wf admitted r w → Published.run QuoteRune admitted (configMaps w) →
  step admitted r prompt w w' → Published.run QuoteRune admitted (configMaps w').
Proof.
  intros Hw Hr Hs. assert (∃ past, configMaps w = configMap w :: past) as [past Hpast].
  { unfold configMap. destruct Hr; cbn; by eexists. }
  destruct Hs as [w w' Ho|n o0 desired o1 w|n o0 o1 w|n o0 fs o1 w|o w _ Ha _ _|f o w Hfin _ _ _]; [|done..| |].
  - destruct Ho; cbn in *; try done. rewrite Hpast in Hr |- *. by apply Published.run_delete.
  - rewrite reconciledWorld. cbn [configMaps write]. pose proof (meets_seen w) as Hm. rewrite Hpast in Hr, Hm |- *.
    by apply Published.run_reconcile.
  - injection Hfin as <-. rewrite finalizedWorld. cbn [configMaps write]. pose proof (meets_seen w) as Hm.
    rewrite Hpast in Hr, Hm |- *. by apply Published.run_finalize.
Qed.

Lemma reaches_run w w' : wf admitted r w → Published.run QuoteRune admitted (configMaps w) →
  reaches admitted r prompt w w' → Published.run QuoteRune admitted (configMaps w').
Proof.
  intros Hw Hr. induction 1 as [|w1 w2 w3 Hs _ IH]; [done|].
  apply IH; [by apply (step_wf admitted r prompt admitted_content w1 w2 policy_handlers_ok)|by apply (step_run w1)].
Qed.

(** C14: the whole controller refines its protocol and the runs that the other theorems
    suppose. Whatever the generated reconciler does, called for any keys in any order,
    with its retries and its errors, and with others who act meanwhile: the ConfigMap
    is written only by ReconcileKind for an admitted policy that was read as one that
    is not being deleted, at a time when the server holds it with the finalizer, and by
    FinalizeKind for one that was read as being deleted; the finalizer is added only to
    policies that are not being deleted, and removed only from those that are, after
    FinalizeKind succeeded for the very object; nothing else is written but statuses.
    The values of the ConfigMap are those of a run of Published, if the lister of
    ConfigMaps returns values that the ConfigMap has had, however old. *)
Theorem system_refines_run (w : World ClusterImagePolicy) (Hruns : runs admitted r w) :
  lawful w ∧ Published.run QuoteRune admitted (configMaps w).
Proof.
  split; [by apply runs_lawful|].
  apply (reaches_run start); [apply wf_start|apply Published.run_start|].
  exact (runs_reaches (SL := SL) admitted r prompt admitted_content w policy_handlers_ok Hruns).
Qed.

End Policies.

(** * Calls that nothing disturbs *)

Section Undisturbed.
Context `{P : Parsers} `{KM : Reconcile.KMSPkg} `{JP : JSONPatch} `{JT : JsonText} `{CS : ConditionSets}
  `{KS : KnativeStatus} `{E : GoErrors} `{CL : !Clients (World ClusterImagePolicy) ClusterImagePolicy}.
Context `{JL : !JSONPatchLaws} `{CSL : !ConditionSetLaws} `{EL : !GoErrorLaws} `{KL : !KnativeStatusLaws}
  `{PL : !PostProcessLaws} `{QS : !QuietServer}.
Variable QuoteRune : Z → string.
Variable cluster : Reconcile.Cluster.
Variable meets : World ClusterImagePolicy → Reconcile.Meets.
Hypothesis undisturbed : ∀ w, Published.current (configMap w) (meets w) ∧ Reconcile.fault (meets w) = None.

Abbreviation r := (policy_reconciler QuoteRune (λ _, cluster) meets).

(** One undisturbed call brings a policy that is not being deleted to one of two
    ends. It succeeds: then the policy carries the finalizer, its status on the
    server is ready for its generation, and the ConfigMap is as before but for the
    policy's entry, which is the text of its inlined form. Or it returns an error:
    then the policy carries the finalizer, its status on the server is failed for
    its generation, and the entry is gone. It may also panic, and then the
    ConfigMap is untouched. The writes of the finalizer and of the status go to
    different versions, so that the second is retried after a conflict. *)
Theorem policy_converges (k : string) (w : World ClusterImagePolicy) (o : ClusterImagePolicy)
    (Hcall : up_to_date k w o) (Hd : deletion o = None) :
  match Reconcile r k w with
  | Returns w' None => ∃ o1 cip' o', same_object o o1 ∧ inlined cluster o1 cip' ∧
      configMap w' = Some (<[nameOf o := Reconcile.entryText cip']> (default ∅ (configMap w))) ∧
      current w' !! nameOf o = Some o' ∧ same_object o o' ∧ policy_finalizerName ∈ finalizers o' ∧
      IsReady (om_Generation (cip_ObjectMeta o')) (status o') = true ∧ only (nameOf o) w w'
  | Returns w' (Some _) => ∃ o', configMap w' = delete (nameOf o) <$> configMap w ∧
      current w' !! nameOf o = Some o' ∧ same_object o o' ∧ policy_finalizerName ∈ finalizers o' ∧
      IsFailed (om_Generation (cip_ObjectMeta o')) (status o') = true ∧ only (nameOf o) w w'
  | Panics w' => configMap w' = configMap w
  end.
Proof.
  destruct (Reconcile_quiet r k w o Hcall ltac:(by eexists) eq_refl Hd) as (o1 & w1 & Hso & _ & Hcm & _ & Hk).
  cbn [ReconcileKind reconciler policy_reconciler policy_Interface] in Hk. unfold policy_ReconcileKind in Hk.
  destruct (undisturbed w1) as [Hc Hf].
  pose proof (Published.ReconcileKind_lemma QuoteRune cluster (meets w1) (configMap w1) o1 Hc) as Hrec.
  cbv zeta in Hrec, Hk. set (rec := Reconcile.ReconcileKind QuoteRune cluster (meets w1) (configMap w1) o1) in *.
  rewrite Hf in Hrec. assert (configMap w1 = configMap w) as Hcmw by (unfold configMap; by rewrite Hcm).
  assert (Hname : om_Name (cip_ObjectMeta o1) = nameOf o) by apply Hso.
  assert (Hgen : ∀ o3 : ClusterImagePolicy, same_object o o3 →
    om_Generation (cip_ObjectMeta o1) = om_Generation (cip_ObjectMeta o3)).
  { intros o3 (_ & _ & _ & Hg3). destruct Hso as (_ & _ & _ & Hg1). cbn in Hg1, Hg3. congruence. }
  destruct (Reconcile.r_out rec) as [u|err|].
  - destruct (Hk eq_refl eq_refl) as (w3 & o3 & -> & Hcm3 & Hc3 & Hso3 & Hfin3 & Hst3 & Ho3); [done|]. cbn [reportEvent].
    destruct Hrec as (Hready & cip' & Hin & Hlive). exists o1, cip', o3. split; [done|]. split; [done|].
    split; [unfold configMap at 1; rewrite Hcm3; cbn; by rewrite Hlive, Hname, Hcmw|].
    split; [done|]. split; [done|]. split; [done|]. rewrite Hst3. cbn. unfold IsReady, IsTrue.
    rewrite postProcess_generation, postProcess_state, Hready. cbn. by rewrite (Hgen o3 Hso3), Z.eqb_refl.
  - destruct (Hk eq_refl eq_refl) as (w3 & o3 & -> & Hcm3 & Hc3 & Hso3 & Hfin3 & Hst3 & Ho3); [done|].
    rewrite reportEvent_error by apply EventAs_New.
    destruct Hrec as (Hready & Hlive). exists o3.
    split; [unfold configMap at 1; rewrite Hcm3; cbn; by rewrite Hlive, Hname, Hcmw|].
    split; [done|]. split; [done|]. split; [done|]. rewrite Hst3. cbn. unfold IsFailed, IsFalse.
    rewrite postProcess_generation, postProcess_state, Hready. cbn. by rewrite (Hgen o3 Hso3), Z.eqb_refl.
  - rewrite Hk. destruct Hrec as [Hlive _]. unfold configMap at 1. cbn. by rewrite Hlive.
Qed.

(** One undisturbed call ends the life of a policy that is being deleted: its
    entry, and no other, is gone from the ConfigMap, its finalizer is gone from the
    policy, no other finalizer is, and if it was the only one the policy is gone. *)
Theorem policy_finalized (k : string) (w : World ClusterImagePolicy) (o : ClusterImagePolicy)
    (Hcall : up_to_date k w o) (Hd : deletion o ≠ None) (Hfin : policy_finalizerName ∈ finalizers o) :
  ∃ w', Reconcile r k w = Returns w' None ∧ configMap w' = delete (nameOf o) <$> configMap w ∧
    only (nameOf o) w w' ∧ match current w' !! nameOf o with
    | None => ∀ f, f ∈ finalizers o → f = policy_finalizerName
    | Some o' => same_object o o' ∧ finalizers o' ≠ [] ∧
        ∀ f, f ∈ finalizers o' ↔ f ∈ finalizers o ∧ f ≠ policy_finalizerName
    end.
Proof.
  destruct (undisturbed w) as [Hc Hf].
  pose proof (Published.FinalizeKind_current (meets w) (configMap w) o Hc) as Hk.
  assert (Hr : policy_FinalizeKind meets o w =
    Handled (write (delete (nameOf o) <$> configMap w) w) o None).
  { unfold policy_FinalizeKind. destruct (Reconcile.FinalizeKind _ _ _) as [live [err|]].
    - destruct Hk as [_ Hk]. congruence.
    - by rewrite Hk. }
  destruct (Reconcile_finalizes r k w o (policy_FinalizeKind meets) _ None Hcall eq_refl Hd Hfin Hr eq_refl eq_refl)
    as (w3 & Hrec & Hcm & Honly & Hcur).
  exists w3. split; [done|]. split; [unfold configMap at 1; by rewrite Hcm|]. by split.
Qed.

End Undisturbed.

(** ** A copy of the ConfigMap that is not current *)

Section Stale.
Context `{P : Parsers} `{KM : Reconcile.KMSPkg} `{JP : JSONPatch} `{JT : JsonText} `{CS : ConditionSets}
  `{KS : KnativeStatus} `{E : GoErrors} `{CL : !Clients (World ClusterImagePolicy) ClusterImagePolicy}.
Context `{JL : !JSONPatchLaws} `{KL : !KnativeStatusLaws} `{QS : !QuietServer}.
Variable QuoteRune : Z → string.
Variable env : World ClusterImagePolicy → Reconcile.Cluster.
Variable meets : World ClusterImagePolicy → Reconcile.Meets.

(** C38: the finalizer trusts a copy that may be old. If the lister's copy of the
    ConfigMap does not have the policy's entry yet, a call for a policy that is being
    deleted succeeds and takes the finalizer away, with which the policy goes if it
    has no other, but leaves the ConfigMap as it is: an entry that is there stays in
    force without a policy, and no later call removes it. *)
Theorem stale_copy_orphans_entry (k : string) (w : World ClusterImagePolicy) (o : ClusterImagePolicy)
    (Hcall : up_to_date k w o) (Hd : deletion o ≠ None) (Hfin : finalizers o = [policy_finalizerName])
    (stale : gmap string string) (Hstale : Reconcile.existing (meets w) = Ok stale)
    (Hmissing : stale !! nameOf o = None) :
  ∃ w', Reconcile (policy_reconciler QuoteRune env meets) k w = Returns w' None ∧
    configMap w' = configMap w ∧ current w' !! nameOf o = None.
Proof.
  assert (Hr : policy_FinalizeKind meets o w = Handled (write (configMap w) w) o None).
  { unfold policy_FinalizeKind, Reconcile.FinalizeKind, Reconcile.removeCIPEntry. rewrite Hstale.
    pose proof (CreateRemovePatch_spec (nameOf o) stale) as Hp. unfold CreateRemovePatch in *.
    change (om_Name (cip_ObjectMeta o)) with (nameOf o). rewrite delete_id in * by done.
    destruct (create_total stale stale) as [p Hpatch]. rewrite Hpatch in *.
    assert (patch_empty p = true) as -> by (by eapply create_empty). done. }
  assert (policy_finalizerName ∈ finalizers o) as Hin by (rewrite Hfin; left).
  destruct (Reconcile_finalizes (policy_reconciler QuoteRune env meets) k w o (policy_FinalizeKind meets) _ None
    Hcall eq_refl Hd Hin Hr eq_refl eq_refl) as (w3 & Hrec & Hcm & _ & Hcur).
  exists w3. split; [done|]. split; [unfold configMap at 1; by rewrite Hcm|].
  destruct (current w3 !! nameOf o) as [o3|]; [|done]. exfalso. destruct Hcur as (_ & Hne & Hiff).
  destruct (finalizers o3) as [|g l]; [done|]. destruct (proj1 (Hiff g) ltac:(left)) as [Hg Hng].
  rewrite Hfin in Hg. by apply list_elem_of_singleton in Hg.
Qed.

End Stale.

(** * Trust roots *)

Section TrustRoots.
Abbreviation TR := TrustRoot.TrustRoot.
Context `{L : LogKeys} `{T : TufPkg} `{TF : TrustFormats} `{JP : JSONPatch} `{CS : ConditionSets}
  `{KS : KnativeStatus} `{E : GoErrors} `{JT : JsonText} `{CL : !Clients (World TR) TR}.
Context `{JL : !JSONPatchLaws} `{EL : !GoErrorLaws} `{KL : !KnativeStatusLaws}.
Variable untar : string → result string Archive.
Variable uaString : string.
Variable meets : World TR → Reconcile.Meets.
Variable admitted : TR → Prop.
Hypothesis admitted_content : ∀ o o', nameOf o' = nameOf o → content o' = content o → admitted o → admitted o'.
Context `{SL : !ServerLaws trustroot_FinalizerName admitted}.

Abbreviation r := (trustroot_reconciler untar uaString meets).
Definition tr_prompt : Prop := ∀ w, Published.current (configMap w) (meets w).

Lemma trustroot_NewController_Some :
  impl_rec <$> trustroot_NewController untar uaString meets = Some r.
Proof. done. Qed.

Lemma tr_ReconcileKind_live m live t : Published.current live m →
  let '(live', _, _) := tr_ReconcileKind untar uaString m live t in
  live' = live ∨ ∃ text, live' = Some (<[nameOf t := text]> (default ∅ live)).
Proof.
  intros Hc. unfold tr_ReconcileKind. cbv zeta. destruct (getSigstoreKeys _ _ t) as [sk|err]; [|by left].
  destruct (setLogIDs sk) as [sk'|err|]; [|by left..].
  rewrite tr_updateConfigMap_eq. pose proof (Published.updateConfigMap_current m live (nameOf t) (protojson_Marshal sk') Hc) as Hu.
  change (om_Name (TrustRoot.tr_ObjectMeta t)) with (nameOf t).
  destruct (Reconcile.updateConfigMap _ _ _ _) as [live' [err|]]; [by destruct Hu as [-> _]; left|].
  right. by eexists.
Qed.

Lemma tr_FinalizeKind_live m live t : Published.current live m →
  match tr_FinalizeKind m live t with
  | (live', None) => live' = delete (nameOf t) <$> live
  | (live', Some _) => live' = live
  end.
Proof.
  unfold Published.current, tr_FinalizeKind. destruct live as [cm|]; [|by intros [msg ->]].
  intros ->. unfold removeTrustRootEntry, tr_CreateRemovePatch, api_Patch. pose proof (CreateRemovePatch_spec (nameOf t) cm) as Hp.
  change (om_Name (TrustRoot.tr_ObjectMeta t)) with (nameOf t).
  destruct (CreateRemovePatch cm _) as [[p|]|err]; cbn; [|by rewrite delete_id|done].
  destruct (Reconcile.fault m); cbn; [done|]. by rewrite Hp.
Qed.

Lemma trustroot_handlers_ok : handlers_ok r tr_prompt.
Proof.
  split; [by eexists|done|done| | |].
  - intros o w. cbn [ReconcileKind reconciler trustroot_reconciler trustroot_Interface]. unfold trustroot_ReconcileKind.
    pose proof (λ HP : tr_prompt, tr_ReconcileKind_live (meets w) (configMap w) o (HP w)) as Hk.
    destruct (tr_ReconcileKind _ _ _ _ _) as [[live st] out]. exists live. split; [by destruct out|].
    intros HP n Hn. destruct (Hk HP) as [->|[text ->]]; [right; by apply listed_same|by eapply listed_insert].
  - intros o w w' o' ev. cbn [ReconcileKind reconciler trustroot_reconciler trustroot_Interface].
    unfold trustroot_ReconcileKind. destruct (tr_ReconcileKind _ _ _ _ _) as [[live st] [u|err|]]; [| |done]; by intros [= _ <- _].
  - intros f o w [= <-]. unfold trustroot_FinalizeKind.
    pose proof (λ HP : tr_prompt, tr_FinalizeKind_live (meets w) (configMap w) o (HP w)) as Hk.
    destruct (tr_FinalizeKind (meets w) (configMap w) o) as [live [err|]];
      eexists live, _; (split; [done|]); cbn; split.
    + intros HP n Hn. rewrite (Hk HP) in Hn. by apply listed_same.
    + apply EventAs_New.
    + intros HP n Hn. rewrite (Hk HP) in Hn. by apply listed_delete in Hn as [_ Hn].
    + intros HP Hn. rewrite (Hk HP) in Hn. apply listed_delete in Hn as [Hn _]. done.
Qed.

(** The same of the trust roots and their ConfigMap. *)
Theorem trustroot_entries_owned (Hprompt : tr_prompt) (w : World TR) (Hruns : runs admitted r w)
    (name : string) (Hlisted : listed w name) :
  ∃ o, current w !! name = Some o ∧ trustroot_FinalizerName ∈ finalizers o.
Proof.
  by apply (runs_owned admitted r tr_prompt admitted_content w Hprompt trustroot_handlers_ok Hruns).
Qed.

End TrustRoots.

(** * A concrete cluster *)

Module ToyControllers.

#[local] Existing Instances ToyNames.names ToyParsers.parsers ToyCluster.kms RFC6902.jsonPatch
  RFC6902.laws LivingConditions.conditionSets LivingConditions.laws ToyText.toyText ToyServer.errors.

#[export] Instance knative : KnativeStatus := {|
  preProcess deps generation s :=
    let s := cs_InitializeConditions deps s in
    if (ObservedGeneration s =? generation)%Z then s
    else LivingConditions.set ConditionReady "Unknown" "unsuccessfully observed a new generation" s;
  postProcess generation s _ := {| ObservedGeneration := generation; Conditions := Conditions s |};
  statusEqual s s' := bool_decide (s = s')
|}.
#[export] Instance knative_laws : KnativeStatusLaws.
Proof. split. intros s s'. apply bool_decide_eq_true. Qed.
#[export] Instance postProcess_laws : PostProcessLaws.
Proof. by split. Qed.
#[export] Instance error_laws : GoErrorLaws.
Proof. by split. Qed.

Definition set_meta (c : ClusterImagePolicy) (m : ObjectMeta) : ClusterImagePolicy :=
  {| cip_TypeMeta := cip_TypeMeta c; cip_ObjectMeta := m; Spec := Spec c; cip_Status := cip_Status c |}.
#[export] Instance clients : Clients (World ClusterImagePolicy) ClusterImagePolicy := ToyServer.clients set_meta.
#[export] Instance server_laws fin accepted : ServerLaws fin accepted :=
  ToyServer.server_laws set_meta (λ _ _, eq_refl) (λ _ _, eq_refl) (λ _ _, eq_refl) fin accepted.
#[export] Instance quiet_server : QuietServer :=
  ToyServer.quiet_server set_meta (λ _ _, eq_refl) (λ _ _, eq_refl) (λ _ _, eq_refl).

Definition meets (w : World ClusterImagePolicy) : Reconcile.Meets := Published.ToySystem.fresh (configMap w).
Lemma meets_current w : Published.current (configMap w) (meets w).
Proof. unfold Published.current, meets. destruct (configMap w); [done|]. by eexists. Qed.
Lemma meets_seen w : Published.seen (configMaps w) (meets w).
Proof.
  intros cm. unfold meets, configMap. destruct (configMaps w) as [|[live|] past]; cbn; [done| |done].
  intros [= ->]. left.
Qed.

Definition reconciler : reconcilerImpl (World ClusterImagePolicy) ClusterImagePolicy :=
  policy_reconciler (λ _, "") (λ _, ToyCluster.cluster) meets.

(** A policy is created, the cache gets it, and the controller is called; then the
    policy is deleted, the cache gets all, and the controller is called again. *)
Definition created : World ClusterImagePolicy := deliver (put "policy" (Some ToyCluster.before) start).
Definition reconciled : World ClusterImagePolicy := endedWorld (Reconcile reconciler "policy" created).
Definition deleted (o : ClusterImagePolicy) : ClusterImagePolicy :=
  let m := cip_ObjectMeta o in
  set_meta o {| om_Name := om_Name m; om_Namespace := om_Namespace m; om_UID := om_UID m;
    om_ResourceVersion := ToyServer.newVersion reconciled; om_Generation := om_Generation m;
    om_Labels := om_Labels m; om_DeletionTimestamp := Some 1%Z; om_Finalizers := om_Finalizers m |}.
Definition deleting : World ClusterImagePolicy :=
  let w := put "policy" (deleted <$> (current reconciled !! "policy")) reconciled in
  {| history := history w; seen := pred (length (history w)); configMaps := configMaps w |}.

Definition dying : ClusterImagePolicy := default ToyCluster.before (current deleting !! "policy").

(** Whether a call has returned no error. *)
Definition succeeds (e : ended (World ClusterImagePolicy)) : bool :=
  match e with Returns _ None => true | _ => false end.
Lemma succeeds_Returns e : succeeds e = true → e = Returns (endedWorld e) None.
Proof. by destruct e as [w [err|]|w]. Qed.
Lemma created_reconciled : Reconcile reconciler "policy" created = Returns reconciled None.
Proof. apply succeeds_Returns. vm_compute. reflexivity. Qed.

Definition any (c : ClusterImagePolicy) : Prop := True.

Lemma runs_created : runs any reconciler created.
Proof.
  eapply runs_others; [eapply runs_others; [apply runs_start|]|].
  - apply (other_creates policy_finalizerName any "policy" ToyCluster.before); try done.
    + split; [done|]. intros objs n o ->%list_elem_of_singleton. by rewrite lookup_empty.
    + apply not_elem_of_nil.
  - apply cache_advances. cbn. lia.
Qed.

Lemma runs_reconciled : runs any reconciler reconciled.
Proof. apply runs_reconcile, runs_created. Qed.

End ToyControllers.

#[local] Existing Instances ToyNames.names ToyParsers.parsers ToyCluster.kms RFC6902.jsonPatch
  RFC6902.laws LivingConditions.conditionSets LivingConditions.laws ToyText.toyText ToyServer.errors
  ToyControllers.knative ToyControllers.knative_laws ToyControllers.postProcess_laws ToyControllers.error_laws
  ToyControllers.clients ToyControllers.server_laws ToyControllers.quiet_server.

Lemma policy_entries_owned_witness :
  listed ToyControllers.reconciled "policy" ∧
  ∃ o, current ToyControllers.reconciled !! "policy" = Some o ∧ policy_finalizerName ∈ finalizers o.
Proof.
  assert (listed ToyControllers.reconciled "policy") as Hl.
  { unfold listed. exists (default ∅ (configMap ToyControllers.reconciled)).
    split; [vm_compute; reflexivity|]. apply (bool_decide_unpack _). vm_compute. reflexivity. }
  split; [exact Hl|].
  destruct (policy_entries_owned (λ _, "") (λ _, ToyCluster.cluster) ToyControllers.meets ToyControllers.any
    (λ _ _ _ _ H, H) ToyControllers.meets_current ToyControllers.reconciled ToyControllers.runs_reconciled
    "policy" Hl) as (o & Ho & _ & Hf).
  exists o. split; [exact Ho|exact Hf].
Defined.

Lemma system_refines_run_witness :
  lawful (λ _, "") (λ _, ToyCluster.cluster) ToyControllers.meets ToyControllers.any ToyControllers.reconciled ∧
  Published.run (λ _, "") ToyControllers.any (configMaps ToyControllers.reconciled) ∧
  length (configMaps ToyControllers.reconciled) = 2.
Proof.
  destruct (system_refines_run (λ _, "") (λ _, ToyCluster.cluster) ToyControllers.meets ToyControllers.any
    (λ _ _ _ _ H, H) ToyControllers.meets_seen ToyControllers.reconciled ToyControllers.runs_reconciled) as [H1 H2].
  split; [exact H1|]. split; [exact H2|vm_compute; reflexivity].
Defined.

Lemma policy_converges_witness :
  ∃ o', current ToyControllers.reconciled !! "policy" = Some o' ∧
    IsReady (om_Generation (cip_ObjectMeta o')) (status o') = true.
Proof.
  pose proof (policy_converges (λ _, "") ToyCluster.cluster ToyControllers.meets
    (λ w, conj (ToyControllers.meets_current w) eq_refl) "policy" ToyControllers.created ToyCluster.before) as H.
  fold ToyControllers.reconciler in H.
  rewrite ToyControllers.created_reconciled in H. destruct H as (o1 & cip' & o' & _ & _ & _ & Hc & _ & _ & Hready & _).
  - split; [by exists ""|vm_compute; reflexivity|vm_compute; reflexivity|discriminate].
  - reflexivity.
  - exists o'. split; [exact Hc|exact Hready].
Defined.

Lemma policy_finalized_witness :
  ∃ w', Reconcile ToyControllers.reconciler "policy" ToyControllers.deleting = Returns w' None ∧
    configMap w' = Some ∅.
Proof.
  assert (up_to_date "policy" ToyControllers.deleting ToyControllers.dying) as Hu.
  { split; [by exists ""|vm_compute; reflexivity|vm_compute; reflexivity|vm_compute; discriminate]. }
  assert (deletion ToyControllers.dying ≠ None) as Hd by (vm_compute; discriminate).
  assert (policy_finalizerName ∈ finalizers ToyControllers.dying) as Hf by (vm_compute; left).
  destruct (policy_finalized (λ _, "") ToyCluster.cluster ToyControllers.meets
    (λ w, conj (ToyControllers.meets_current w) eq_refl) "policy" ToyControllers.deleting
    ToyControllers.dying Hu Hd Hf) as (w' & Hr & Hcm & _).
  exists w'. split; [exact Hr|]. rewrite Hcm. vm_compute. reflexivity.
Defined.

Lemma stale_copy_orphans_entry_witness :
  let stale (w : World ClusterImagePolicy) := Published.ToySystem.fresh (Some ∅) in
  listed ToyControllers.deleting "policy" ∧
  ∃ w', Reconcile (policy_reconciler (λ _, "") (λ _, ToyCluster.cluster) stale) "policy" ToyControllers.deleting
      = Returns w' None ∧
    configMap w' = configMap ToyControllers.deleting ∧ current w' !! "policy" = None.
Proof.
  intros stale. split.
  - exists (default ∅ (configMap ToyControllers.deleting)).
    split; [vm_compute; reflexivity|]. apply (bool_decide_unpack _). vm_compute. reflexivity.
  - apply (stale_copy_orphans_entry (λ _, "") (λ _, ToyCluster.cluster) stale "policy" ToyControllers.deleting
      ToyControllers.dying) with (stale := ∅); [|vm_compute; discriminate|vm_compute; reflexivity|reflexivity|
      apply lookup_empty].
    split; [by exists ""|vm_compute; reflexivity|vm_compute; reflexivity|vm_compute; discriminate].
Defined.
