(* ===== verification/Resync.v ===== *)
(** A resynchronisation of the controller of policies (the [impl.GlobalResync] of
    pkg/reconciler/clusterimagepolicy/controller.go): one call of the generated
    reconciler for every policy, from any state that the controller and others may
    have left, brings the ConfigMap to what the policies say. *)

From S2P Require Import Prelude.
From S2P Require Import Encoding.
From S2P Require Import Names.
From S2P Require Import K8s.
From S2P Require Import Oci.
From S2P Require Import V1alpha1.
From S2P Require Import ConfigMaps.
From S2P Require Import Lifecycle.
From S2P Require Reconcile.
From S2P Require Import ReconcileSpec.
From S2P Require Published.
From S2P Require Import GenReconciler.
From S2P Require Import ApiServer.
From S2P Require Import GenReconcilerSpec.
From S2P Require Import Convergence.
From S2P Require ToyText.
From S2P Require ToyServer.
From S2P Require Import Controllers.
From S2P Require Import ControllersSpec.

#[local] Set Default Proof Using "Type*".

Section Resync.
Context `{P : Parsers} `{KM : Reconcile.KMSPkg} `{JP : JSONPatch} `{JT : JsonText} `{CS : ConditionSets}
  `{KS : KnativeStatus} `{E : GoErrors} `{CL : !Clients (World ClusterImagePolicy) ClusterImagePolicy}.
Context `{JL : !JSONPatchLaws} `{CSL : !ConditionSetLaws} `{EL : !GoErrorLaws} `{KL : !KnativeStatusLaws}
  `{PL : !PostProcessLaws} `{QS : !QuietServer}.
Variable QuoteRune : Z → string.
Variable cluster : Reconcile.Cluster.
Variable meets : World ClusterImagePolicy → Reconcile.Meets.
Hypothesis undisturbed : ∀ w, Published.current (configMap w) (meets w) ∧ Reconcile.fault (meets w) = None.

Abbreviation r := (policy_reconciler QuoteRune (λ _, cluster) meets).
Abbreviation W := (World ClusterImagePolicy).

(** A call for each of the keys. *)
Definition resync : list string → W → W := calls r.

(** The policy is in force as it is now, and its status says so. *)
Definition in_force (w : W) (o : ClusterImagePolicy) : Prop :=
  (∃ o1 cip', same_object o o1 ∧ inlined cluster o1 cip' ∧ entry w (nameOf o) = Some (Reconcile.entryText cip')) ∧
  ∃ o', current w !! nameOf o = Some o' ∧ same_object o o' ∧ policy_finalizerName ∈ finalizers o' ∧
    IsReady (om_Generation (cip_ObjectMeta o')) (status o') = true.

(** The policy is not in force, and its status says so. *)
Definition refused (w : W) (o : ClusterImagePolicy) : Prop :=
  entry w (nameOf o) = None ∧
  ∃ o', current w !! nameOf o = Some o' ∧ same_object o o' ∧ policy_finalizerName ∈ finalizers o' ∧
    IsFailed (om_Generation (cip_ObjectMeta o')) (status o') = true.

Definition converged (w : W) (o : ClusterImagePolicy) : Prop :=
  match deletion o with
  | None => in_force w o ∨ refused w o
  | Some _ => released policy_finalizerName w o
  end.

(** It depends on nothing else. *)
Lemma converged_ext (w1 w2 w1' w2' : W) o : same_at (nameOf o) w1 w2 → same_at (nameOf o) w1' w2' →
  converged w1' o → converged w2' o.
Proof using Type. unfold converged, in_force, refused, released. by intros _ [-> ->]. Qed.

Lemma same_object_Spec (o o1 : ClusterImagePolicy) : same_object o o1 → Spec o1 = Spec o.
Proof using Type. by intros ([= _ H] & _). Qed.

(** A policy that the controller may be called for: if it is being deleted, the
    controller still holds it, and if not, the inlining does not panic. *)
Record callable (o : ClusterImagePolicy) : Prop := {
  callable_safe : deletion o = None → Published.logs_safely o;
  callable_held : deletion o ≠ None → policy_finalizerName ∈ finalizers o
}.

Lemma Reconcile_no_panic k w o : up_to_date k w o → deletion o = None → Published.logs_safely o →
  ∀ w', Reconcile r k w ≠ Panics w'.
Proof.
  intros Hu Hd Hsafe w' Hp.
  destruct (Reconcile_quiet r k w o Hu ltac:(by eexists) eq_refl Hd) as (o1 & w1 & Hso & _ & _ & _ & Hk).
  cbn [ReconcileKind reconciler policy_reconciler policy_Interface] in Hk. unfold policy_ReconcileKind in Hk.
  pose proof (Published.ReconcileKind_calm QuoteRune cluster (meets w1) (configMap w1) o1) as Hc.
  unfold Published.logs_safely in *. rewrite (same_object_Spec o o1 Hso) in Hc. specialize (Hc Hsafe).
  cbv zeta in Hk. destruct (Reconcile.r_out _) as [u|err|]; [| |done].
  all: destruct (Hk eq_refl eq_refl) as (w3 & o3 & Hr & _); [done|]; rewrite Hp in Hr; unfold reportEvent in Hr; cbn in Hr;
    repeat case_match; discriminate.
Qed.

Lemma call_converges k w o : up_to_date k w o → callable o →
  let w' := endedWorld (Reconcile r k w) in converged w' o ∧ frame (nameOf o) w w'.
Proof.
  intros Hu [Hsafe Hheld]. cbv zeta. unfold converged. destruct (deletion o) as [t|] eqn:Hd.
  - destruct (undisturbed w) as [Hc Hf].
    apply (call_releases r k w o (policy_FinalizeKind meets) Hu eq_refl); [by rewrite Hd|exact (Hheld ltac:(done))|].
    pose proof (Published.FinalizeKind_current (meets w) (configMap w) o Hc) as Hk. unfold policy_FinalizeKind.
    destruct (Reconcile.FinalizeKind _ _ _) as [live [err|]]; [destruct Hk; congruence|by rewrite Hk].
  - pose proof (policy_converges QuoteRune cluster meets undisturbed k w o Hu Hd) as Hk.
    pose proof (Reconcile_no_panic k w o Hu Hd (Hsafe eq_refl)) as Hn.
    destruct (Reconcile r k w) as [w' [err|]|w']; [| |by destruct (Hn w')]; cbn [endedWorld].
    + destruct Hk as (o' & Hcm & Hc & Hso & Hf & Hst & Ho). destruct (frame_delete _ _ _ Hcm Ho) as [He Hfr].
      split; [|done]. right. split; [done|]. by exists o'.
    + destruct Hk as (o1 & cip' & o' & Hso1 & Hin & Hcm & Hc & Hso & Hf & Hst & Ho).
      destruct (frame_insert _ _ _ _ Hcm Ho) as [He Hfr].
      split; [|done]. left. split; [by exists o1, cip'|]. by exists o'.
Qed.

Lemma resync_all (w : W) (keys names : list string)
    (Hcaught_up : cached w = current w)
    (Hentries : ∀ n, listed w n → is_Some (current w !! n))
    (Hobjects : ∀ n o, current w !! n = Some o → nameOf o = n ∧ version o ≠ "")
    (Hcallable : ∀ n o, current w !! n = Some o → callable o)
    (Hnames : NoDup names ∧ ∀ n, n ∈ names ↔ is_Some (current w !! n))
    (Hkeys : Forall2 leads keys names) :
  let w' := resync keys w in
  (∀ n o, current w !! n = Some o → converged w' o) ∧
  ∀ n text, entry w' n = Some text → ∃ o, current w !! n = Some o ∧ deletion o = None ∧ in_force w' o.
Proof.
  destruct (calls_all r (λ _, converged) callable converged_ext call_converges w keys names) as [Hall Hrest]; [done..|].
  fold resync in Hall, Hrest. cbv zeta. split; [done|]. intros n text Ht. destruct (current w !! n) as [o|] eqn:Hn.
  - pose proof (Hall n o Hn) as Hc. destruct (Hobjects n o Hn) as [Hname _].
    exists o. split; [done|]. unfold converged in Hc.
    destruct (deletion o); [destruct Hc as [Hc _]; rewrite Hname in Hc; congruence|].
    split; [done|]. destruct Hc as [|[Hc _]]; [done|]. rewrite Hname in Hc. congruence.
  - exfalso. destruct (Hrest n Hn) as [_ He]. rewrite He in Ht.
    destruct (Hentries n) as [o Ho]; [apply listed_entry; by eexists|]. congruence.
Qed.

(** C15: a resynchronisation makes the ConfigMap what the policies say. Start from
    any state in which every entry is that of a policy that is there, as
    [policy_entries_owned] says of every run, with a cache that has caught up, the
    policies that are being deleted still held by the controller's finalizer, and none
    of the others such that inlining it can panic, and call the controller once for
    every policy, in any order, undisturbed. Then every policy that
    is not being deleted is either in force, with the text of its inlined form, and
    ready, or not in force, and failed; no policy that is being deleted is in force,
    and the controller's finalizer holds none of them; and there is no other entry. *)
Theorem resync_converges (w : W) (keys names : list string)
    (Hcaught_up : cached w = current w)
    (Hentries : ∀ n, listed w n → is_Some (current w !! n))
    (Hobjects : ∀ n o, current w !! n = Some o → nameOf o = n ∧ version o ≠ "")
    (Hcallable : ∀ n o, current w !! n = Some o → callable o)
    (Hnames : NoDup names ∧ ∀ n, n ∈ names ↔ is_Some (current w !! n))
    (Hkeys : Forall2 leads keys names) :
  let w' := resync keys w in
  (∀ n o, current w !! n = Some o → converged w' o) ∧
  ∀ n text, entry w' n = Some text → ∃ o, current w !! n = Some o ∧ deletion o = None ∧ in_force w' o.
Proof. by eapply resync_all. Qed.

End Resync.

(** * Three policies *)

#[local] Existing Instances ToyNames.names ToyParsers.parsers ToyCluster.kms RFC6902.jsonPatch
  RFC6902.laws LivingConditions.conditionSets LivingConditions.laws ToyText.toyText ToyServer.errors
  ToyControllers.knative ToyControllers.knative_laws ToyControllers.postProcess_laws ToyControllers.error_laws
  ToyControllers.clients ToyControllers.server_laws ToyControllers.quiet_server.

Module ThreePolicies.

(** The first is being deleted while its entry is there; the second is new; the
    secret of the third is missing. *)
Definition first : ClusterImagePolicy := ToyControllers.set_meta ToyCluster.before
  {| om_Name := "policy"; om_Namespace := ""; om_UID := "uid"; om_ResourceVersion := "1"; om_Generation := 1;
     om_Labels := ∅; om_DeletionTimestamp := Some 1%Z; om_Finalizers := [policy_finalizerName] |}.
Definition second : ClusterImagePolicy := ToyCluster.cip "second"
  [ToyCluster.authority (ToyCluster.keyRef (Some ToyCluster.secret) "" "") "ghcr.io/sigs" []]
  (Some (ToyCluster.policy "" None (Some ToyCluster.rules))).
Definition third : ClusterImagePolicy := ToyCluster.cip "third"
  [ToyCluster.authority (ToyCluster.keyRef (Some {| secret_Name := "lost"; secret_Namespace := "" |}) "" "")
     "ghcr.io/sigs" []] None.

Definition objects : gmap string ClusterImagePolicy :=
  {[ "policy" := first; "second" := second; "third" := third ]}.
Definition before : World ClusterImagePolicy :=
  {| history := [objects]; seen := 0; configMaps := [Some {[ "policy" := "outdated" ]}] |}.
Definition names : list string := ["third"; "policy"; "second"].
Definition after : World ClusterImagePolicy :=
  resync (λ _, "") ToyCluster.cluster ToyControllers.meets names before.

Lemma objects_forall (Q : string → ClusterImagePolicy → Prop) :
  Q "policy" first → Q "second" second → Q "third" third →
  ∀ n o, objects !! n = Some o → Q n o.
Proof.
  intros H1 H2 H3. change (map_Forall Q objects). unfold objects. apply map_Forall_insert_2; [done|].
  apply map_Forall_insert_2; [done|]. by apply map_Forall_singleton.
Qed.

End ThreePolicies.

Lemma resync_converges_witness :
  dom <$> configMap ThreePolicies.before = Some {[ "policy" ]} ∧
  dom <$> configMap ThreePolicies.after = Some {[ "second" ]} ∧
  (∀ n o, current ThreePolicies.before !! n = Some o →
    converged ToyCluster.cluster ThreePolicies.after o) ∧
  released policy_finalizerName ThreePolicies.after ThreePolicies.first ∧ refused ThreePolicies.after ThreePolicies.third ∧
  in_force ToyCluster.cluster ThreePolicies.after ThreePolicies.second.
Proof.
  split; [vm_compute; reflexivity|]. split; [vm_compute; reflexivity|].
  destruct (resync_converges (λ _, "") ToyCluster.cluster ToyControllers.meets
    (λ w, conj (ToyControllers.meets_current w) eq_refl) ThreePolicies.before ThreePolicies.names
    ThreePolicies.names) as [Hall Hent].
  - reflexivity.
  - intros n [text Ht]%listed_entry. change (({[ "policy" := "outdated" ]} : gmap string string) !! n = Some text) in Ht.
    apply lookup_singleton_Some in Ht as [<- _]. by eexists.
  - apply ThreePolicies.objects_forall; split; (reflexivity || vm_compute; discriminate).
  - apply ThreePolicies.objects_forall; split; try (vm_compute; discriminate); try (intros H; by destruct H); try done.
    + intros _. vm_compute. left.
    + intros _. right. intros a att p Ha Hatt. apply list_elem_of_singleton in Ha as ->. by apply elem_of_nil in Hatt.
    + intros _. right. intros a att p Ha Hatt. apply list_elem_of_singleton in Ha as ->. by apply elem_of_nil in Hatt.
  - split; [apply (bool_decide_unpack _); vm_compute; reflexivity|]. intros n. split.
    + intros Hn. repeat (apply elem_of_cons in Hn as [->|Hn]; [by eexists|]). by apply elem_of_nil in Hn.
    + intros [o Ho]. revert n o Ho. apply ThreePolicies.objects_forall; set_solver.
  - repeat constructor; exists ""; by split.
  - split; [exact Hall|].
    assert (entry ThreePolicies.after "second" = None → False) as Hs by (vm_compute; discriminate).
    assert (entry ThreePolicies.after "third" = None) as Ht by (vm_compute; reflexivity).
    split; [exact (Hall "policy" _ eq_refl)|].
    split; [destruct (Hall "third" _ eq_refl) as [[(? & ? & _ & _ & H) _]|H]; [|exact H]|
            destruct (Hall "second" _ eq_refl) as [H|[H _]]; [exact H|]].
    + by pose proof (eq_trans (eq_sym H) Ht).
    + by destruct (Hs H).
Defined.
