(* ===== verification/TrustRootResync.v ===== *)
(** The controller of trust roots in a cluster: its runs are runs of
    TrustRootPublished, and a resynchronisation (the [impl.GlobalResync] of
    pkg/reconciler/trustroot/controller.go) brings the ConfigMap to what the trust
    roots say. *)

From S2P Require Import Prelude.
From S2P Require Import Encoding.
From S2P Require Import K8s.
From S2P Require Import Oci.
From S2P Require Import SigstoreKeys.
From S2P Require Import Tuf.
From S2P Require TrustRoot.
From S2P Require Import TrustKeys.
From S2P Require Import ConfigMaps.
From S2P Require Import Lifecycle.
From S2P Require Reconcile.
From S2P Require Published.
From S2P Require Import TrustRootReconcile.
From S2P Require Import TrustRootSpec.
From S2P Require Import TrustRootPublished.
From S2P Require Import GenReconciler.
From S2P Require Import ApiServer.
From S2P Require Import GenReconcilerSpec.
From S2P Require Import Convergence.
From S2P Require ToyText.
From S2P Require ToyServer.
From S2P Require Import Controllers.
From S2P Require Import ControllersSpec.

#[local] Set Default Proof Using "Type*".

#[local] Abbreviation TR := TrustRoot.TrustRoot.
#[local] Abbreviation W := (World TR).

(** * Runs of the controller *)

Section Runs.
Context `{L : LogKeys} `{T : TufPkg} `{TF : TrustFormats} `{JP : JSONPatch} `{CS : ConditionSets}
  `{KS : KnativeStatus} `{E : GoErrors} `{JT : JsonText} `{CL : !Clients W TR}.
Context `{JL : !JSONPatchLaws} `{EL : !GoErrorLaws} `{KL : !KnativeStatusLaws}.
Variable untar : string → result string Archive.
Variable uaString : string.
Variable meets : W → Reconcile.Meets.
Variable admitted : TR → Prop.
Hypothesis admitted_content : ∀ o o', nameOf o' = nameOf o → content o' = content o → admitted o → admitted o'.
Context `{SL : !ServerLaws trustroot_FinalizerName admitted}.
Hypothesis meets_seen : ∀ w, Published.seen (configMaps w) (meets w).

Abbreviation r := (trustroot_reconciler untar uaString meets).
Abbreviation tr_run := (tr_run untar uaString).
Abbreviation prompt := (tr_prompt meets).

Lemma tr_step_run w w' : tr_run (configMaps w) → step admitted r prompt w w' → tr_run (configMaps w').
Proof using meets_seen.
  intros Hr Hs. assert (∃ past, configMaps w = configMap w :: past) as [past Hpast].
  { unfold configMap. destruct Hr; cbn; by eexists. }
  destruct Hs as [w w' Ho|n o0 desired o1 w|n o0 o1 w|n o0 fs o1 w|o w|f o w Hfin]; [|done..| |].
  - destruct Ho; cbn in *; try done. rewrite Hpast in Hr |- *. by apply tr_run_delete.
  - assert (Hw' : handledWorld (ReconcileKind (reconciler r) o w) =
      write (tr_ReconcileKind untar uaString (meets w) (configMap w) o).1.1 w).
    { cbn [ReconcileKind reconciler trustroot_reconciler trustroot_Interface]. unfold trustroot_ReconcileKind.
      by destruct (tr_ReconcileKind _ _ _ _ _) as [[live st] [u|err|]]. }
    rewrite Hw'. cbn [configMaps write]. pose proof (meets_seen w) as Hm. rewrite Hpast in Hr, Hm |- *.
    by apply tr_run_reconcile.
  - injection Hfin as <-. assert (Hw' : handledWorld (trustroot_FinalizeKind meets o w) =
      write (tr_FinalizeKind (meets w) (configMap w) o).1 w).
    { unfold trustroot_FinalizeKind. by destruct (tr_FinalizeKind _ _ _). }
    rewrite Hw'. cbn [configMaps write]. pose proof (meets_seen w) as Hm. rewrite Hpast in Hr, Hm |- *.
    by apply tr_run_finalize.
Qed.

Lemma tr_reaches_run w w' : tr_run (configMaps w) → reaches admitted r prompt w w' → tr_run (configMaps w').
Proof using meets_seen. intros Hr. induction 1 as [|w1 w2 w3 Hs _ IH]; [done|]. apply IH. by apply (tr_step_run w1). Qed.

(** The values that the ConfigMap of the trust roots has while the generated
    reconciler runs among others are those of a run of its two methods. *)
Lemma trustroot_refines_run (w : W) (Hruns : runs admitted r w) : tr_run (configMaps w).
Proof.
  apply (tr_reaches_run start); [apply tr_run_start|].
  exact (runs_reaches (SL := SL) admitted r prompt admitted_content w (trustroot_handlers_ok untar uaString meets admitted admitted_content) Hruns).
Qed.

End Runs.

(** * Calls that nothing disturbs *)

Section Keys.
Context `{L : LogKeys} `{T : TufPkg} `{TF : TrustFormats} `{JP : JSONPatch} `{CS : ConditionSets}.
Context `{JL : !JSONPatchLaws} `{CSL : !ConditionSetLaws}.
Variable untar : string → result string Archive.
Variable uaString : string.

(** The keys of a trust root, with the ids of its logs. *)
Definition keysFor (t : TR) : Reconcile.outcome SigstoreKeys :=
  match getSigstoreKeys untar uaString t with Err err => Reconcile.Fails err | Ok sk => setLogIDs sk end.

Lemma keysFor_keys_of t sk : keysFor t = Reconcile.Return sk → keys_of untar uaString t sk.
Proof using Type.
  unfold keysFor. destruct (getSigstoreKeys untar uaString t) as [sk0|] eqn:Hg; [|done]. intros Hs.
  exists sk0. split; [done|]. pose proof (setLogIDs_spec sk0) as H. by rewrite Hs in H.
Qed.

(** They are a matter of its specification, and of its name in an error. *)
Lemma getSigstoreKeys_same (t t' : TR) : TrustRoot.tr_Spec t' = TrustRoot.tr_Spec t → om_Name (TrustRoot.tr_ObjectMeta t') = om_Name (TrustRoot.tr_ObjectMeta t) →
  getSigstoreKeys untar uaString t' = getSigstoreKeys untar uaString t.
Proof using Type. unfold getSigstoreKeys. by intros -> ->. Qed.

Lemma tr_ReconcileKind_quiet m live t : Published.current live m → Reconcile.fault m = None →
  match keysFor t with
  | Reconcile.Return sk => ∃ st, tr_ReconcileKind untar uaString m live t =
      (Some (<[om_Name (TrustRoot.tr_ObjectMeta t) := protojson_Marshal sk]> (default ∅ live)), st,
       Reconcile.Return tt) ∧ Lifecycle.state st ConditionReady = Some "True"
  | Reconcile.Fails err => ∃ st, tr_ReconcileKind untar uaString m live t = (live, st, Reconcile.Fails err) ∧
      (is_Err (getSigstoreKeys untar uaString t) → Lifecycle.state st ConditionReady = Some "False")
  | Reconcile.Panics => True
  end.
Proof.
  intros Hc Hf. unfold keysFor, tr_ReconcileKind. cbv zeta. destruct (getSigstoreKeys _ _ t) as [sk0|err].
  2: { eexists. split; [done|]. intros _. apply tr_InlineKeysFailed_not_ready. }
  destruct (setLogIDs sk0) as [sk|err|]; [|eexists; split; [done|by intros [? ?]]|done].
  rewrite tr_updateConfigMap_eq. pose proof (Published.updateConfigMap_current m live (om_Name (TrustRoot.tr_ObjectMeta t)) (protojson_Marshal sk) Hc) as Hu.
  destruct (Reconcile.updateConfigMap _ _ _ _) as [live' [err|]]; [by destruct Hu as [_ []]|].
  rewrite Hu. eexists. split; [done|]. apply tr_ready.
Qed.

Lemma tr_FinalizeKind_quiet m live t : Published.current live m → Reconcile.fault m = None →
  tr_FinalizeKind m live t = (delete (om_Name (TrustRoot.tr_ObjectMeta t)) <$> live, None).
Proof using JL.
  unfold Published.current, tr_FinalizeKind. intros Hc Hf. destruct live as [cm|]; [|by destruct Hc as [msg ->]].
  rewrite Hc. unfold removeTrustRootEntry, tr_CreateRemovePatch, api_Patch.
  pose proof (CreateRemovePatch_spec (om_Name (TrustRoot.tr_ObjectMeta t)) cm) as Hp.
  destruct (CreateRemovePatch cm _) as [[p|]|err]; cbn; [|by rewrite delete_id|done]. rewrite Hf. cbn. by rewrite Hp.
Qed.

End Keys.

Section Resync.
Context `{L : LogKeys} `{T : TufPkg} `{TF : TrustFormats} `{JP : JSONPatch} `{CS : ConditionSets}
  `{KS : KnativeStatus} `{E : GoErrors} `{JT : JsonText} `{CL : !Clients W TR}.
Context `{JL : !JSONPatchLaws} `{CSL : !ConditionSetLaws} `{EL : !GoErrorLaws} `{KL : !KnativeStatusLaws}
  `{PL : !PostProcessLaws} `{QS : !QuietServer}.
Variable untar : string → result string Archive.
Variable uaString : string.
Variable meets : W → Reconcile.Meets.
Hypothesis undisturbed : ∀ w, Published.current (configMap w) (meets w) ∧ Reconcile.fault (meets w) = None.

Abbreviation r := (trustroot_reconciler untar uaString meets).
Abbreviation keysFor := (keysFor untar uaString).

Definition tr_resync : list string → W → W := calls r.

(** What a call leaves of a trust root that is not being deleted: if its keys can be
    had, they are published, and it is ready; if not, its entry is what it was (if
    deriving them panics, the call does not return). *)
Definition tr_published (w w' : W) (t : TR) : Prop :=
  ∃ t', current w' !! nameOf t = Some t' ∧ same_object t t' ∧ trustroot_FinalizerName ∈ finalizers t' ∧
  match keysFor t with
  | Reconcile.Return sk => entry w' (nameOf t) = Some (protojson_Marshal sk) ∧
      tr_IsReady (om_Generation (TrustRoot.tr_ObjectMeta t')) (status t') = true
  | Reconcile.Fails _ => entry w' (nameOf t) = entry w (nameOf t) ∧
      (is_Err (getSigstoreKeys untar uaString t) →
       tr_IsFailed (om_Generation (TrustRoot.tr_ObjectMeta t')) (status t') = true)
  | Reconcile.Panics => False
  end.

Definition tr_converged (w w' : W) (t : TR) : Prop :=
  match deletion t with
  | None => tr_published w w' t
  | Some _ => released trustroot_FinalizerName w' t
  end.

Lemma tr_converged_ext w1 w2 w1' w2' t : same_at (nameOf t) w1 w2 → same_at (nameOf t) w1' w2' →
  tr_converged w1 w1' t → tr_converged w2 w2' t.
Proof using Type. unfold tr_converged, tr_published, released. by intros [_ ->] [-> ->]. Qed.

(** If it is being deleted, the controller still holds it, and if not, deriving its keys
    does not panic. *)
Definition tr_callable (t : TR) : Prop :=
  match deletion t with
  | None => keysFor t ≠ Reconcile.Panics
  | Some _ => trustroot_FinalizerName ∈ finalizers t
  end.

Lemma tr_call_publishes k w t : up_to_date k w t → deletion t = None → keysFor t ≠ Reconcile.Panics →
  let w' := endedWorld (Reconcile r k w) in tr_published w w' t ∧ frame (nameOf t) w w'.
Proof.
  intros Hu Hd Hcalm. destruct (Reconcile_quiet r k w t Hu ltac:(by eexists) eq_refl Hd) as (t1 & w1 & Hso & _ & Hcm & _ & Hk).
  cbn [ReconcileKind reconciler trustroot_reconciler trustroot_Interface] in Hk. unfold trustroot_ReconcileKind in Hk.
  destruct (undisturbed w1) as [Hc Hf].
  pose proof (tr_ReconcileKind_quiet untar uaString (meets w1) (configMap w1) t1 Hc Hf) as Hq.
  assert (getSigstoreKeys untar uaString t1 = getSigstoreKeys untar uaString t) as Hget.
  { destruct Hso as ([= _ Hs] & Hn & _). by apply getSigstoreKeys_same. }
  assert (keysFor t1 = keysFor t) as Hkeys by (unfold TrustRootResync.keysFor; by rewrite Hget).
  rewrite Hkeys, Hget in Hq. change (om_Name (TrustRoot.tr_ObjectMeta t1)) with (nameOf t1) in Hq. unfold tr_published.
  assert (configMap w1 = configMap w) as Hcmw by (unfold configMap; by rewrite Hcm).
  assert (nameOf t1 = nameOf t) as Hname by apply Hso. rewrite Hcmw, Hname in Hq.
  assert (Hgen : ∀ t3 : TR, same_object t t3 →
    om_Generation (TrustRoot.tr_ObjectMeta t1) = om_Generation (TrustRoot.tr_ObjectMeta t3)).
  { intros t3 (_ & _ & _ & Hg3). destruct Hso as (_ & _ & _ & Hg1). cbn in Hg1, Hg3. congruence. }
  rewrite Hcmw in Hk. cbv zeta. destruct (keysFor t) as [sk|err|]; [| |done]; destruct Hq as (st & Heq & Hst); rewrite Heq in Hk.
  all: destruct (Hk eq_refl eq_refl) as (w3 & t3 & -> & Hcm3 & Hc3 & Hso3 & Hfin3 & Hst3 & Ho3); [done|]; cbn [fmap option_fmap option_map].
  - cbn [reportEvent endedWorld]. destruct (frame_insert (nameOf t) (protojson_Marshal sk) w w3) as [He Hfr];
      [unfold configMap at 1; by rewrite Hcm3|done|].
    split; [|done]. exists t3. split; [done|]. split; [done|]. split; [done|]. split; [done|].
    rewrite Hst3. cbn. unfold tr_IsReady, IsTrue.
    rewrite postProcess_generation, postProcess_state, Hst. cbn. by rewrite (Hgen t3 Hso3), Z.eqb_refl.
  - rewrite reportEvent_error by apply EventAs_New. cbn [endedWorld].
    destruct (frame_keep (nameOf t) w w3) as [He Hfr]; [unfold configMap at 1; by rewrite Hcm3|done|].
    split; [|done]. exists t3. split; [done|]. split; [done|]. split; [done|]. split; [done|]. intros Herr.
    rewrite Hst3. cbn. unfold tr_IsFailed, IsFalse.
    rewrite postProcess_generation, postProcess_state, (Hst Herr). cbn. by rewrite (Hgen t3 Hso3), Z.eqb_refl.
Qed.

Lemma tr_call_converges k w t : up_to_date k w t → tr_callable t →
  let w' := endedWorld (Reconcile r k w) in tr_converged w w' t ∧ frame (nameOf t) w w'.
Proof.
  intros Hu Hheld. cbv zeta. unfold tr_converged, tr_callable in *.
  destruct (deletion t) as [d|] eqn:Hd; [|by apply tr_call_publishes].
  apply (call_releases r k w t (trustroot_FinalizeKind meets) Hu eq_refl); [by rewrite Hd|done|].
  destruct (undisturbed w) as [Hc Hf]. unfold trustroot_FinalizeKind. by rewrite tr_FinalizeKind_quiet.
Qed.

Lemma tr_resync_all (w : W) (keys names : list string)
    (Hcaught_up : cached w = current w)
    (Hobjects : ∀ n t, current w !! n = Some t → nameOf t = n ∧ version t ≠ "")
    (Hcallable : ∀ n t, current w !! n = Some t → tr_callable t)
    (Hnames : NoDup names ∧ ∀ n, n ∈ names ↔ is_Some (current w !! n))
    (Hkeys : Forall2 leads keys names) :
  let w' := tr_resync keys w in
  (∀ n t, current w !! n = Some t → tr_converged w w' t) ∧ ∀ n, current w !! n = None → same_at n w w'.
Proof. by apply (calls_all r tr_converged tr_callable tr_converged_ext tr_call_converges w keys names). Qed.

End Resync.
