(* ===== verification/DeepCopy.v ===== *)
(** Go's memory as far as copies of objects need it, and what a deep copy is: the
    statements of which the generated DeepCopyInto functions are made, and the
    lemmas, resolved as instances, that compose them. The functions are in
    DeepCopyV1alpha1, DeepCopyV1beta1 and DeepCopyDuck.

    A type is described by its fields. The structs of other packages that hold only
    strings (TypeMeta, GroupVersionResource, SecretReference, LocalObjectReference),
    which the code copies by assignment, are plain data; those with a DeepCopyInto of
    their own (ObjectMeta, ListMeta, LabelSelector, URL, Status, PodTemplateSpec) are an
    interface with the laws of a deep copy. *)

From S2P Require Import Prelude.

#[local] Set Default Proof Using "Type*".
#[local] Set Warnings "-register-all".

(** * Memory *)

Definition loc : Type := positive.

(** A value: plain data (strings, numbers, bools), a pointer, a slice, which refers
    to its array, a struct, by its fields, and a value of a type of another
    package, as its plain part and its references. *)
Inductive val :=
  | Plain (s : string)
  | Ptr (p : option loc)
  | Slice (p : option loc)
  | Struct (fields : list (string * val))
  | Foreign (s : string) (refs : list loc).

(** A location holds the target of a pointer or the array of a slice. *)
Inductive cell := Cell (v : val) | Array (vs : list val).
Definition heap : Type := gmap loc cell.

(** Go types; [TForeign] is a struct of another package with a DeepCopyInto. *)
Inductive ty :=
  | TPlain
  | TPtr (t : ty)
  | TSlice (t : ty)
  | TStruct (fields : list (string * ty))
  | TForeign (name : string).

(** ** What an observer sees *)

Inductive tree := Leaf (s : string) | Nil | Node (l : list tree).

(** Values of other packages, as their package defines them. *)
Class ForeignTypes := {
  foreign_view : string → heap → val → option (tree * list loc);
  foreign_DeepCopyInto : string → val → heap → option (val * heap)
}.

Section View.
Context `{FT : ForeignTypes}.

(** The content of a value of a type, and the locations it is made of. A value that
    is not of the type, or refers to nothing, has none. *)
Definition node (r : list (tree * list loc)) : tree * list loc := (Node r.*1, concat r.*2).

Fixpoint view (t : ty) (h : heap) (v : val) {struct t} : option (tree * list loc) :=
  match t, v with
  | TPlain, Plain s => Some (Leaf s, [])
  | TPtr _, Ptr None => Some (Nil, [])
  | TPtr t, Ptr (Some l) =>
      match h !! l with
      | Some (Cell v) => '(tr, ls) ← view t h v; Some (Node [tr], l :: ls)
      | _ => None
      end
  | TSlice _, Slice None => Some (Nil, [])
  | TSlice t, Slice (Some l) =>
      match h !! l with
      | Some (Array vs) => r ← mapM (view t h) vs; Some (Node r.*1, l :: concat r.*2)
      | _ => None
      end
  | TStruct fts, Struct fvs =>
      node <$> (fix go (fts : list (string * ty)) (fvs : list (string * val)) :=
        match fts, fvs with
        | [], [] => Some []
        | (f, t) :: fts, (g, v) :: fvs =>
            if decide (f = g) then x ← view t h v; xs ← go fts fvs; Some (x :: xs) else None
        | _, _ => None
        end) fts fvs
  | TForeign name, v => foreign_view name h v
  | _, _ => None
  end.

(** The fields of a struct. *)
Fixpoint viewFields (h : heap) (fts : list (string * ty)) (fvs : list (string * val)) :
    option (list (tree * list loc)) :=
  match fts, fvs with
  | [], [] => Some []
  | (f, t) :: fts, (g, v) :: fvs =>
      if decide (f = g) then x ← view t h v; xs ← viewFields h fts fvs; Some (x :: xs) else None
  | _, _ => None
  end.

Lemma view_Struct fts h fvs : view (TStruct fts) h (Struct fvs) = node <$> viewFields h fts fvs.
Proof.
  cbn. f_equal. revert fvs. induction fts as [|[f t] fts IH]; intros [|[g v] fvs]; try done.
  cbn. destruct (decide _); [|done]. destruct (view t h v); [|done]. cbn. by rewrite IH.
Qed.

End View.

(** * The statements of the generated code *)

(** A call of DeepCopyInto: from the value at [in] to the one at [out]; it fails
    where Go would panic. *)
Definition Copier : Type := val → heap → option (val * heap).

Definition alloc (c : cell) (h : heap) : loc * heap :=
  let l := fresh (dom h) in (l, <[l := c]> h).

Section Statements.
Context `{FT : ForeignTypes}.

(** The assignment of the value at [in] to the one at [out]. *)
Definition assign : Copier := λ v h, Some (v, h).

(** A pointer: nil is kept; else a new target, into which the old one is copied. *)
Definition new (c : Copier) : Copier := λ v h,
  match v with
  | Ptr None => Some (v, h)
  | Ptr (Some l) =>
      match h !! l with
      | Some (Cell x) =>
          '(y, h) ← c x h;
          let (l', h) := alloc (Cell y) h in Some (Ptr (Some l'), h)
      | _ => None
      end
  | _ => None
  end.

(** The loop over the indices of a slice, copying element after element. *)
Fixpoint each (c : Copier) (vs : list val) (h : heap) : option (list val * heap) :=
  match vs with
  | [] => Some ([], h)
  | v :: vs => '(v', h) ← c v h; '(vs', h) ← each c vs h; Some (v' :: vs', h)
  end.

(** A slice: nil is kept; else a new array of the same length, filled element by
    element, or, with [assign], by the builtin copy. *)
Definition make (c : Copier) : Copier := λ v h,
  match v with
  | Slice None => Some (v, h)
  | Slice (Some l) =>
      match h !! l with
      | Some (Array vs) =>
          '(vs', h) ← each c vs h;
          let (l', h) := alloc (Array vs') h in Some (Slice (Some l'), h)
      | _ => None
      end
  | _ => None
  end.

(** The copier of a field, among those that the body of the function treats. *)
Fixpoint treats (f : string) (l : list (string * Copier)) : Copier :=
  match l with
  | [] => assign
  | (g, c) :: l => if decide (f = g) then c else treats f l
  end.

(** The assignment of the whole struct, and then the fields that are treated. *)
Fixpoint copyFields (l : list (string * Copier)) (fvs : list (string * val)) (h : heap) :
    option (list (string * val) * heap) :=
  match fvs with
  | [] => Some ([], h)
  | (f, v) :: fvs =>
      '(v', h) ← treats f l v h; '(fvs', h) ← copyFields l fvs h; Some ((f, v') :: fvs', h)
  end.
Definition into (l : list (string * Copier)) : Copier := λ v h,
  match v with
  | Struct fvs => '(fvs', h) ← copyFields l fvs h; Some (Struct fvs', h)
  | _ => None
  end.

(** A DeepCopyInto of another package. *)
Definition foreign (name : string) : Copier := foreign_DeepCopyInto name.

(** [DeepCopy], of a pointer. *)
Definition DeepCopy (c : Copier) : Copier := new c.

(** [DeepCopyObject]: an interface that holds the copy, or the nil interface. *)
Definition DeepCopyObject (copy : Copier) (v : val) (h : heap) : option (option val * heap) :=
  '(v, h) ← copy v h;
  Some (match v with Ptr None => None | v => Some v end, h).

End Statements.
Arguments assign : simpl never.
Arguments new : simpl never.
Arguments make : simpl never.
Arguments into : simpl never.
Arguments foreign : simpl never.

(** * Deep copies *)

(** What the other packages document: a value's content is in its locations, and
    their deep copies are deep. *)
Definition agree (h h' : heap) (ls : list loc) : Prop := ∀ l, l ∈ ls → h' !! l = h !! l.

Section Deep.
Context `{FT : ForeignTypes}.

(** The copy has the content of the value, in locations that nothing had before. *)
Class Deep (t : ty) (c : Copier) : Prop :=
  deep h v tr ls : view t h v = Some (tr, ls) →
    ∃ v' h' ls', c v h = Some (v', h') ∧ h ⊆ h' ∧ view t h' v' = Some (tr, ls') ∧
      ∀ l, l ∈ ls' → h !! l = None.

Class ForeignLaws : Prop := {
  foreign_frame name h h' v r : foreign_view name h v = Some r → agree h h' r.2 → foreign_view name h' v = Some r;
  foreign_alive name h v r : foreign_view name h v = Some r → ∀ l, l ∈ r.2 → is_Some (h !! l);
  foreign_deep name : Deep (TForeign name) (foreign name)
}.
#[global] Existing Instance foreign_deep.
End Deep.
Arguments ForeignLaws FT : clear implicits.

(** Types without references: an assignment is a deep copy. *)
Class Flat `{FT : ForeignTypes} (t : ty) : Prop :=
  flat h v r : view t h v = Some r → r.2 = [] ∧ ∀ h', view t h' v = Some r.

(** The fields of a struct are each flat, or each copied deeply. *)
Class FlatFields `{FT : ForeignTypes} (fts : list (string * ty)) : Prop :=
  flat_fields : Forall (λ f, Flat f.2) fts.
Class DeepFields `{FT : ForeignTypes} (fts : list (string * ty)) (l : list (string * Copier)) : Prop :=
  deep_fields : Forall (λ f, Deep f.2 (treats f.1 l)) fts.

(** ** Induction on types *)

Section Induction.
Variable P : ty → Prop.
Hypothesis Plain_case : P TPlain.
Hypothesis Ptr_case : ∀ t, P t → P (TPtr t).
Hypothesis Slice_case : ∀ t, P t → P (TSlice t).
Hypothesis Struct_case : ∀ fts, Forall (λ f, P f.2) fts → P (TStruct fts).
Hypothesis Foreign_case : ∀ name, P (TForeign name).

Fixpoint ty_rect' (t : ty) : P t :=
  match t with
  | TPlain => Plain_case
  | TPtr t => Ptr_case t (ty_rect' t)
  | TSlice t => Slice_case t (ty_rect' t)
  | TStruct fts => Struct_case fts
      ((fix go (fts : list (string * ty)) : Forall (λ f, P f.2) fts :=
        match fts with
        | [] => Forall_nil_2 _
        | f :: fts => Forall_cons_2 _ f fts (ty_rect' f.2) (go fts)
        end) fts)
  | TForeign name => Foreign_case name
  end.
End Induction.

(** ** Views *)

Lemma agree_app h h' k l : agree h h' (k ++ l) ↔ agree h h' k ∧ agree h h' l.
Proof. unfold agree. set_solver. Qed.

Section Views.
Context `{FT : ForeignTypes} {FL : ForeignLaws FT}.

(** A field's value, then those of the other fields. *)
Lemma viewFields_cons h f t fts fvs r :
  viewFields h ((f, t) :: fts) fvs = Some r ↔
  ∃ v fvs' x xs, fvs = (f, v) :: fvs' ∧ r = x :: xs ∧ view t h v = Some x ∧ viewFields h fts fvs' = Some xs.
Proof.
  split.
  - destruct fvs as [|[g v] fvs]; [done|]. cbn. case_decide; [subst|done].
    intros (x & Hx & (xs & Hxs & [= <-])%bind_Some)%bind_Some. eauto 10.
  - intros (v & fvs' & x & xs & -> & -> & Hx & Hxs). cbn. rewrite decide_True by done. by rewrite Hx, Hxs.
Qed.

(** A value's content depends only on the locations it is made of, *)
Lemma view_frame t h h' v r : view t h v = Some r → agree h h' r.2 → view t h' v = Some r.
Proof.
  revert v r. induction t as [|t IH|t IH|fts IH|name] using ty_rect'; intros v r Hv Ha.
  - done.
  - destruct v as [|[l|]| | |]; try done. cbn in *. destruct (h !! l) as [[w|]|] eqn:E; try done.
    destruct (view t h w) as [[tr ls]|] eqn:Ew; [|done]. cbn in *. simplify_eq.
    rewrite (Ha l), E by (cbn; set_solver). rewrite (IH w _ Ew); [done|].
    intros k Hk. apply Ha. cbn in *. set_solver.
  - destruct v as [| |[l|]| |]; try done. cbn in *. destruct (h !! l) as [[|vs]|] eqn:E; try done.
    destruct (mapM (view t h) vs) as [rs|] eqn:Ew; [|done]. cbn in *. simplify_eq.
    rewrite (Ha l), E by (cbn; set_solver).
    assert (agree h h' (concat rs.*2)) as Har by (intros k Hk; apply Ha; cbn; set_solver). clear Ha E.
    assert (mapM (view t h') vs = Some rs) as ->; [|done].
    apply mapM_Some. apply mapM_Some in Ew. induction Ew as [|w r vs rs Hw Hws IHw]; [done|].
    cbn in Har. apply agree_app in Har as [Hr Hrs]. constructor; [by apply IH|by apply IHw].
  - destruct v as [| | |fvs|]; try done. rewrite view_Struct in *.
    destruct (viewFields h fts fvs) as [rs|] eqn:E; [|done]. cbn in *. simplify_eq.
    enough (viewFields h' fts fvs = Some rs) as -> by done.
    revert fvs rs E Ha. induction IH as [|[f t] fts IHt IHts IHfs]; intros fvs rs E Ha; [by destruct fvs|].
    apply viewFields_cons in E as (v & fvs' & x & xs & -> & -> & Hx & Hxs).
    cbn in Ha. apply agree_app in Ha as [Hr Hrs].
    apply viewFields_cons. exists v, fvs', x, xs. repeat split; [by apply IHt|by apply IHfs].
  - by eapply foreign_frame.
Qed.

(** which are allocated. *)
Lemma view_alive t h v r : view t h v = Some r → ∀ l, l ∈ r.2 → is_Some (h !! l).
Proof.
  revert v r. induction t as [|t IH|t IH|fts IH|name] using ty_rect'; intros v r Hv k Hk.
  - destruct v; simplify_eq/=. by apply not_elem_of_nil in Hk.
  - destruct v as [|[l|]| | |]; try done; cbn in *; [|simplify_eq/=; by apply not_elem_of_nil in Hk].
    destruct (h !! l) as [[w|]|] eqn:E; try done.
    destruct (view t h w) as [[tr ls]|] eqn:Ew; [|done]. cbn in *. simplify_eq/=.
    apply elem_of_cons in Hk as [->|Hk]; [by eexists|]. by eapply (IH w (tr, ls)).
  - destruct v as [| |[l|]| |]; try done; cbn in *; [|simplify_eq/=; by apply not_elem_of_nil in Hk].
    destruct (h !! l) as [[|vs]|] eqn:E; try done.
    destruct (mapM (view t h) vs) as [rs|] eqn:Ew; [|done]. cbn in *. simplify_eq/=.
    apply elem_of_cons in Hk as [->|Hk]; [by eexists|].
    clear E. apply mapM_Some in Ew. induction Ew as [|w r vs rs Hw Hws IHw]; cbn in Hk; [by apply not_elem_of_nil in Hk|].
    apply elem_of_app in Hk as [Hk|Hk]; [by eapply IH|by apply IHw].
  - destruct v as [| | |fvs|]; try done. rewrite view_Struct in *.
    destruct (viewFields h fts fvs) as [rs|] eqn:E; [|done]. cbn in *. simplify_eq/=.
    revert fvs rs E Hk. induction IH as [|[f t] fts IHt IHts IHfs]; intros fvs rs E Hk.
    { destruct fvs; simplify_eq/=. by apply not_elem_of_nil in Hk. }
    apply viewFields_cons in E as (v & fvs' & x & xs & -> & -> & Hx & Hxs). cbn in Hk.
    apply elem_of_app in Hk as [Hk|Hk]; [by eapply IHt|by eapply IHfs].
  - by eapply foreign_alive.
Qed.

(** So more memory changes no view. *)
Lemma view_weaken t h h' v r : view t h v = Some r → h ⊆ h' → view t h' v = Some r.
Proof.
  intros Hv Hs. eapply view_frame; [done|]. intros l Hl.
  destruct (view_alive t h v r Hv l Hl) as [c Hc]. rewrite Hc. by eapply lookup_weaken.
Qed.
Lemma viewFields_weaken fts h h' fvs r : viewFields h fts fvs = Some r → h ⊆ h' → viewFields h' fts fvs = Some r.
Proof.
  intros Hv Hs. revert fvs r Hv. induction fts as [|[f t] fts IH]; intros fvs r Hv; [by destruct fvs|].
  apply viewFields_cons in Hv as (v & fvs' & x & xs & -> & -> & Hx & Hxs).
  apply viewFields_cons. exists v, fvs', x, xs. repeat split; [by eapply view_weaken|by apply IH].
Qed.
Lemma mapM_view_weaken t h h' vs r : mapM (view t h) vs = Some r → h ⊆ h' → mapM (view t h') vs = Some r.
Proof.
  rewrite !mapM_Some. intros Hv Hs. eapply Forall2_impl; [exact Hv|]. intros v x Hx. exact (view_weaken t h h' v x Hx Hs).
Qed.

End Views.

(** ** The statements copy deeply *)

Section Copies.
Context `{FT : ForeignTypes} {FL : ForeignLaws FT}.

(** What is fresh in a larger memory is fresh. *)
Lemma fresh_weaken (h h' : heap) l : h' !! l = None → h ⊆ h' → h !! l = None.
Proof. intros Hl Hs. by eapply lookup_weaken_None. Qed.

Lemma alloc_spec c (h : heap) l h' :
  alloc c h = (l, h') → h !! l = None ∧ h ⊆ h' ∧ h' !! l = Some c.
Proof.
  unfold alloc. intros [= <- <-]. assert (h !! fresh (dom h) = None) by (apply not_elem_of_dom, is_fresh).
  split_and!; try done; [by apply insert_subseteq|apply lookup_insert_eq].
Qed.

(** The elements of an array. *)
Lemma each_deep t c `{!Deep t c} h vs r :
  mapM (view t h) vs = Some r →
  ∃ vs' h' r', each c vs h = Some (vs', h') ∧ h ⊆ h' ∧ mapM (view t h') vs' = Some r' ∧
    r'.*1 = r.*1 ∧ ∀ l, l ∈ concat r'.*2 → h !! l = None.
Proof.
  revert h r. induction vs as [|v vs IH]; intros h r Hr.
  { injection Hr as <-. exists [], h, []. split_and!; set_solver. }
  apply mapM_Some in Hr. apply Forall2_cons_inv_l in Hr as ([tr ls] & r' & Hv & Hvs & ->).
  destruct (deep h v tr ls Hv) as (v' & h1 & ls1 & Hc & H1 & Hv1 & Hf1).
  apply mapM_Some in Hvs. destruct (IH h1 r') as (vs' & h2 & r2 & Hcs & H2 & Hv2 & Hr2 & Hf2).
  { by eapply mapM_view_weaken. }
  exists (v' :: vs'), h2, ((tr, ls1) :: r2). cbn. rewrite Hc; cbn. rewrite Hcs; cbn.
  rewrite (view_weaken t h1 h2 v' (tr, ls1)) by done. cbn. rewrite Hv2. cbn. rewrite Hr2.
  split_and!; try done; [by etrans|]. intros l [Hl|Hl]%elem_of_app; [by apply Hf1|].
  eapply fresh_weaken; [by apply Hf2|done].
Qed.

(** The fields of a struct. *)
Lemma copyFields_deep fts cs `{HD : !DeepFields fts cs} h fvs r :
  viewFields h fts fvs = Some r →
  ∃ fvs' h' r', copyFields cs fvs h = Some (fvs', h') ∧ h ⊆ h' ∧ viewFields h' fts fvs' = Some r' ∧
    r'.*1 = r.*1 ∧ ∀ l, l ∈ concat r'.*2 → h !! l = None.
Proof.
  unfold DeepFields in HD. revert h fvs r. induction HD as [|[f t] fts Hf HD IH]; intros h fvs r Hr.
  { destruct fvs; [|done]. injection Hr as <-. exists [], h, []. split_and!; set_solver. }
  apply viewFields_cons in Hr as (v & fvs' & [tr ls] & xs & -> & -> & Hx & Hxs). cbn in Hf.
  destruct (Hf h v tr ls Hx) as (v' & h1 & ls1 & Hc & H1 & Hv1 & Hf1).
  destruct (IH h1 fvs' xs) as (vs' & h2 & r2 & Hcs & H2 & Hv2 & Hr2 & Hf2).
  { by eapply viewFields_weaken. }
  exists ((f, v') :: vs'), h2, ((tr, ls1) :: r2). cbn. rewrite Hc; cbn. rewrite Hcs; cbn.
  rewrite decide_True by done. rewrite (view_weaken t h1 h2 v' (tr, ls1)) by done. cbn. rewrite Hv2. cbn. rewrite Hr2.
  split_and!; try done; [by etrans|]. intros l [Hl|Hl]%elem_of_app; [by apply Hf1|].
  eapply fresh_weaken; [by apply Hf2|done].
Qed.

#[export] Instance assign_deep t `{!Flat t} : Deep t assign.
Proof.
  intros h v tr ls Hv. destruct (flat h v _ Hv) as [Hl Hh]. cbn in Hl. subst ls.
  exists v, h, []. split_and!; try done. set_solver.
Qed.

#[export] Instance new_deep t c `{!Deep t c} : Deep (TPtr t) (new c).
Proof.
  intros h v tr ls Hv. destruct v as [|[l|]| | |]; try done; cbn in Hv.
  - destruct (h !! l) as [[w|]|] eqn:El; try done. destruct (view t h w) as [[tr1 ls1]|] eqn:Ew; [|done].
    cbn in Hv. simplify_eq. unfold new. rewrite El. destruct (deep h w tr1 ls1 Ew) as (w' & h1 & ls2 & Hc & H1 & Hv1 & Hf1).
    rewrite Hc; cbn [mbind option_bind]. destruct (alloc (Cell w') h1) as [l' h2] eqn:Ea.
    apply alloc_spec in Ea as (Hn & H2 & Hl'). exists (Ptr (Some l')), h2, (l' :: ls2).
    cbn [view]. rewrite Hl'. rewrite (view_weaken t h1 h2 w' (tr1, ls2)) by done. split_and!; try done; [by etrans|].
    intros k [->|Hk]%elem_of_cons; [by eapply fresh_weaken|by apply Hf1].
  - simplify_eq. exists (Ptr None), h, []. split_and!; set_solver.
Qed.

#[export] Instance make_deep t c `{!Deep t c} : Deep (TSlice t) (make c).
Proof.
  intros h v tr ls Hv. destruct v as [| |[l|]| |]; try done; cbn in Hv.
  - destruct (h !! l) as [[|ws]|] eqn:El; try done. destruct (mapM (view t h) ws) as [r|] eqn:Ew; [|done].
    cbn in Hv. simplify_eq. unfold make. rewrite El. destruct (each_deep t c h ws r Ew) as (ws' & h1 & r1 & Hc & H1 & Hv1 & Hr1 & Hf1).
    rewrite Hc; cbn [mbind option_bind]. destruct (alloc (Array ws') h1) as [l' h2] eqn:Ea.
    apply alloc_spec in Ea as (Hn & H2 & Hl'). exists (Slice (Some l')), h2, (l' :: concat r1.*2).
    cbn [view]. rewrite Hl'. rewrite (mapM_view_weaken t h1 h2 ws' r1) by done. cbn. rewrite Hr1.
    split_and!; try done; [by etrans|].
    intros k [->|Hk]%elem_of_cons; [by eapply fresh_weaken|by apply Hf1].
  - simplify_eq. exists (Slice None), h, []. split_and!; set_solver.
Qed.

#[export] Instance into_deep fts cs `{!DeepFields fts cs} : Deep (TStruct fts) (into cs).
Proof.
  intros h v tr ls Hv. destruct v as [| | |fvs|]; try done. rewrite view_Struct in Hv.
  destruct (viewFields h fts fvs) as [r|] eqn:Er; [|done]. injection Hv as <- <-.
  destruct (copyFields_deep fts cs h fvs r Er) as (fvs' & h' & r' & Hc & H1 & Hv1 & Hr1 & Hf1).
  exists (Struct fvs'), h', (concat r'.*2). unfold into. rewrite Hc; cbn [mbind option_bind].
  rewrite view_Struct, Hv1. cbn [fmap option_fmap option_map]. unfold node. by rewrite Hr1.
Qed.

#[export] Instance Plain_flat : Flat TPlain.
Proof. intros h v r Hv. destruct v; try done. cbn in Hv. by simplify_eq. Qed.

#[export] Instance Struct_flat fts `{HF : !FlatFields fts} : Flat (TStruct fts).
Proof.
  intros h v r Hv. destruct v as [| | |fvs|]; try done. rewrite view_Struct in Hv.
  destruct (viewFields h fts fvs) as [rs|] eqn:Er; [|done]. cbn in Hv. simplify_eq.
  enough (concat rs.*2 = [] ∧ ∀ h', viewFields h' fts fvs = Some rs) as [Hc Hh].
  { split; [done|]. intros h'. rewrite view_Struct, Hh. done. }
  unfold FlatFields in HF. revert fvs rs Er. induction HF as [|[f t] fts Hf HF IH]; intros fvs rs Er.
  { destruct fvs; [|done]. injection Er as <-. done. }
  apply viewFields_cons in Er as (v & fvs' & x & xs & -> & -> & Hx & Hxs).
  destruct (Hf h v x Hx) as [Hl Hv], (IH fvs' xs Hxs) as [Hls Hvs]. cbn in *. split; [by rewrite Hl, Hls|].
  intros h'. rewrite decide_True by done. by rewrite Hv, Hvs.
Qed.

(** ** What a deep copy is for *)

(** The copy has the original's content; whatever is then done to the memory that the
    copy is made of, the original keeps its content, and conversely. *)
Definition independent (t : ty) (copy : Copier) : Prop :=
  ∀ h p tr ls, view (TPtr t) h p = Some (tr, ls) →
  ∃ p' h' ls', copy p h = Some (p', h') ∧ view (TPtr t) h' p' = Some (tr, ls') ∧
    (∀ h2, (∀ l, l ∉ ls' → h2 !! l = h' !! l) → view (TPtr t) h2 p = Some (tr, ls)) ∧
    (∀ h2, (∀ l, l ∉ ls → h2 !! l = h' !! l) → view (TPtr t) h2 p' = Some (tr, ls')).

Lemma DeepCopy_independent t c `{!Deep t c} : independent t (DeepCopy c).
Proof.
  intros h p tr ls Hv. destruct (new_deep t c h p tr ls Hv) as (p' & h' & ls' & Hc & Hs & Hv' & Hf).
  exists p', h', ls'. split_and!; try done; intros h2 Hh2.
  - eapply view_frame; [by eapply view_weaken|]. intros l Hl. apply Hh2. intros Hl'.
    destruct (view_alive _ _ _ _ Hv l Hl) as [x Hx]. by rewrite (Hf l Hl') in Hx.
  - eapply view_frame; [done|]. intros l Hl. apply Hh2. intros Hl'.
    destruct (view_alive _ _ _ _ Hv l Hl') as [x Hx]. by rewrite (Hf l Hl) in Hx.
Qed.

End Copies.

(** A struct's fields, one by one. *)
Ltac deep :=
  first [apply into_deep | apply Struct_flat];
  unfold DeepFields, FlatFields;
  repeat lazymatch goal with
  | |- Forall _ [] => apply Forall_nil_2
  | |- Forall _ (_ :: _) => apply Forall_cons_2
  end; cbn; apply _.
