(* ===== verification/DeepCopyV1beta1.v ===== *)
(** The types of pkg/apis/policy/v1beta1 as memory holds them, and the functions of its
    zz_generated.deepcopy.go. *)

From S2P Require Import Prelude DeepCopy.

#[local] Set Default Proof Using "Type*".

(** * Types *)

Definition RemotePolicy : ty := TStruct [
  ("URL", TForeign "apis.URL");
  ("Sha256sum", TPlain)
].
Definition ConfigMapReference : ty := TStruct [
  ("Name", TPlain);
  ("Namespace", TPlain);
  ("Key", TPlain)
].
Definition Policy : ty := TStruct [
  ("Type", TPlain);
  ("Data", TPlain);
  ("Remote", TPtr RemotePolicy);
  ("ConfigMapRef", TPtr ConfigMapReference);
  ("FetchConfigFile", TPtr TPlain);
  ("IncludeSpec", TPtr TPlain);
  ("IncludeObjectMeta", TPtr TPlain);
  ("IncludeTypeMeta", TPtr TPlain)
].
Definition Attestation : ty := TStruct [
  ("Name", TPlain);
  ("PredicateType", TPlain);
  ("Policy", TPtr Policy)
].
Definition KeyRef : ty := TStruct [
  ("SecretRef", TPtr TPlain);
  ("Data", TPlain);
  ("KMS", TPlain);
  ("HashAlgorithm", TPlain)
].
Definition Identity : ty := TStruct [
  ("Issuer", TPlain);
  ("Subject", TPlain);
  ("IssuerRegExp", TPlain);
  ("SubjectRegExp", TPlain)
].
Definition KeylessRef : ty := TStruct [
  ("URL", TPtr (TForeign "apis.URL"));
  ("Identities", TSlice Identity);
  ("CACert", TPtr KeyRef);
  ("TrustRootRef", TPlain);
  ("InsecureIgnoreSCT", TPtr TPlain)
].
Definition StaticRef : ty := TStruct [
  ("Action", TPlain);
  ("Message", TPlain)
].
Definition Source : ty := TStruct [
  ("OCI", TPlain);
  ("SignaturePullSecrets", TSlice TPlain);
  ("TagPrefix", TPtr TPlain)
].
Definition TLog : ty := TStruct [
  ("URL", TPtr (TForeign "apis.URL"));
  ("TrustRootRef", TPlain)
].
Definition RFC3161Timestamp : ty := TStruct [
  ("TrustRootRef", TPlain)
].
Definition GMSignerRef : ty := TStruct [
  ("AppID", TPlain);
  ("NodeID", TPlain);
  ("UserID", TPlain)
].
Definition GMSignatureRef : ty := TStruct [
  ("VerifyURL", TPlain);
  ("TenantID", TPlain);
  ("Signer", GMSignerRef);
  ("RequestTimeoutMs", TPlain)
].
Definition Authority : ty := TStruct [
  ("Name", TPlain);
  ("Key", TPtr KeyRef);
  ("Keyless", TPtr KeylessRef);
  ("Static", TPtr StaticRef);
  ("Sources", TSlice Source);
  ("CTLog", TPtr TLog);
  ("Attestations", TSlice Attestation);
  ("RFC3161Timestamp", TPtr RFC3161Timestamp);
  ("GMSignature", TPtr GMSignatureRef);
  ("SignatureFormat", TPlain)
].
Definition ImagePattern : ty := TStruct [
  ("Glob", TPlain)
].
Definition MatchResource : ty := TStruct [
  ("GroupVersionResource", TPlain);
  ("ResourceSelector", TPtr (TForeign "metav1.LabelSelector"))
].
Definition ClusterImagePolicySpec : ty := TStruct [
  ("Images", TSlice ImagePattern);
  ("Authorities", TSlice Authority);
  ("Policy", TPtr Policy);
  ("Mode", TPlain);
  ("Match", TSlice MatchResource)
].
Definition ClusterImagePolicyStatus : ty := TStruct [
  ("Status", TForeign "duckv1.Status")
].
Definition ClusterImagePolicy : ty := TStruct [
  ("TypeMeta", TPlain);
  ("ObjectMeta", TForeign "metav1.ObjectMeta");
  ("Spec", ClusterImagePolicySpec);
  ("Status", ClusterImagePolicyStatus)
].
Definition ClusterImagePolicyList : ty := TStruct [
  ("TypeMeta", TPlain);
  ("ListMeta", TForeign "metav1.ListMeta");
  ("Items", TSlice ClusterImagePolicy)
].

(** * Functions *)

Section Functions.
Context `{FT : ForeignTypes}.

Definition RemotePolicy_DeepCopyInto : Copier := into [
  ("URL", foreign "apis.URL")
].
Definition RemotePolicy_DeepCopy : Copier := DeepCopy RemotePolicy_DeepCopyInto.

Definition ConfigMapReference_DeepCopyInto : Copier := into [].
Definition ConfigMapReference_DeepCopy : Copier := DeepCopy ConfigMapReference_DeepCopyInto.

Definition Policy_DeepCopyInto : Copier := into [
  ("Remote", new RemotePolicy_DeepCopyInto);
  ("ConfigMapRef", new assign);
  ("FetchConfigFile", new assign);
  ("IncludeSpec", new assign);
  ("IncludeObjectMeta", new assign);
  ("IncludeTypeMeta", new assign)
].
Definition Policy_DeepCopy : Copier := DeepCopy Policy_DeepCopyInto.

Definition Attestation_DeepCopyInto : Copier := into [
  ("Policy", new Policy_DeepCopyInto)
].
Definition Attestation_DeepCopy : Copier := DeepCopy Attestation_DeepCopyInto.

Definition KeyRef_DeepCopyInto : Copier := into [
  ("SecretRef", new assign)
].
Definition KeyRef_DeepCopy : Copier := DeepCopy KeyRef_DeepCopyInto.

Definition Identity_DeepCopyInto : Copier := into [].
Definition Identity_DeepCopy : Copier := DeepCopy Identity_DeepCopyInto.

Definition KeylessRef_DeepCopyInto : Copier := into [
  ("URL", new (foreign "apis.URL"));
  ("Identities", make assign);
  ("CACert", new KeyRef_DeepCopyInto);
  ("InsecureIgnoreSCT", new assign)
].
Definition KeylessRef_DeepCopy : Copier := DeepCopy KeylessRef_DeepCopyInto.

Definition StaticRef_DeepCopyInto : Copier := into [].
Definition StaticRef_DeepCopy : Copier := DeepCopy StaticRef_DeepCopyInto.

Definition Source_DeepCopyInto : Copier := into [
  ("SignaturePullSecrets", make assign);
  ("TagPrefix", new assign)
].
Definition Source_DeepCopy : Copier := DeepCopy Source_DeepCopyInto.

Definition TLog_DeepCopyInto : Copier := into [
  ("URL", new (foreign "apis.URL"))
].
Definition TLog_DeepCopy : Copier := DeepCopy TLog_DeepCopyInto.

Definition RFC3161Timestamp_DeepCopyInto : Copier := into [].
Definition RFC3161Timestamp_DeepCopy : Copier := DeepCopy RFC3161Timestamp_DeepCopyInto.

Definition GMSignerRef_DeepCopyInto : Copier := into [].
Definition GMSignerRef_DeepCopy : Copier := DeepCopy GMSignerRef_DeepCopyInto.

Definition GMSignatureRef_DeepCopyInto : Copier := into [
  ("Signer", assign)
].
Definition GMSignatureRef_DeepCopy : Copier := DeepCopy GMSignatureRef_DeepCopyInto.

Definition Authority_DeepCopyInto : Copier := into [
  ("Key", new KeyRef_DeepCopyInto);
  ("Keyless", new KeylessRef_DeepCopyInto);
  ("Static", new assign);
  ("Sources", make Source_DeepCopyInto);
  ("CTLog", new TLog_DeepCopyInto);
  ("Attestations", make Attestation_DeepCopyInto);
  ("RFC3161Timestamp", new assign);
  ("GMSignature", new assign)
].
Definition Authority_DeepCopy : Copier := DeepCopy Authority_DeepCopyInto.

Definition ImagePattern_DeepCopyInto : Copier := into [].
Definition ImagePattern_DeepCopy : Copier := DeepCopy ImagePattern_DeepCopyInto.

Definition MatchResource_DeepCopyInto : Copier := into [
  ("GroupVersionResource", assign);
  ("ResourceSelector", new (foreign "metav1.LabelSelector"))
].
Definition MatchResource_DeepCopy : Copier := DeepCopy MatchResource_DeepCopyInto.

Definition ClusterImagePolicySpec_DeepCopyInto : Copier := into [
  ("Images", make assign);
  ("Authorities", make Authority_DeepCopyInto);
  ("Policy", new Policy_DeepCopyInto);
  ("Match", make MatchResource_DeepCopyInto)
].
Definition ClusterImagePolicySpec_DeepCopy : Copier := DeepCopy ClusterImagePolicySpec_DeepCopyInto.

Definition ClusterImagePolicyStatus_DeepCopyInto : Copier := into [
  ("Status", foreign "duckv1.Status")
].
Definition ClusterImagePolicyStatus_DeepCopy : Copier := DeepCopy ClusterImagePolicyStatus_DeepCopyInto.

Definition ClusterImagePolicy_DeepCopyInto : Copier := into [
  ("TypeMeta", assign);
  ("ObjectMeta", foreign "metav1.ObjectMeta");
  ("Spec", ClusterImagePolicySpec_DeepCopyInto);
  ("Status", ClusterImagePolicyStatus_DeepCopyInto)
].
Definition ClusterImagePolicy_DeepCopy : Copier := DeepCopy ClusterImagePolicy_DeepCopyInto.
Definition ClusterImagePolicy_DeepCopyObject := DeepCopyObject ClusterImagePolicy_DeepCopy.

Definition ClusterImagePolicyList_DeepCopyInto : Copier := into [
  ("TypeMeta", assign);
  ("ListMeta", foreign "metav1.ListMeta");
  ("Items", make ClusterImagePolicy_DeepCopyInto)
].
Definition ClusterImagePolicyList_DeepCopy : Copier := DeepCopy ClusterImagePolicyList_DeepCopyInto.
Definition ClusterImagePolicyList_DeepCopyObject := DeepCopyObject ClusterImagePolicyList_DeepCopy.

End Functions.

(** * The copies are deep *)

Section Deep.
Context `{FT : ForeignTypes} {FL : ForeignLaws FT}.

#[export] Instance RemotePolicy_deep : Deep RemotePolicy RemotePolicy_DeepCopyInto.
Proof. deep. Qed.
#[export] Instance ConfigMapReference_flat : Flat ConfigMapReference.
Proof. deep. Qed.
#[export] Instance ConfigMapReference_deep : Deep ConfigMapReference ConfigMapReference_DeepCopyInto.
Proof. deep. Qed.
#[export] Instance Policy_deep : Deep Policy Policy_DeepCopyInto.
Proof. deep. Qed.
#[export] Instance Attestation_deep : Deep Attestation Attestation_DeepCopyInto.
Proof. deep. Qed.
#[export] Instance KeyRef_deep : Deep KeyRef KeyRef_DeepCopyInto.
Proof. deep. Qed.
#[export] Instance Identity_flat : Flat Identity.
Proof. deep. Qed.
#[export] Instance Identity_deep : Deep Identity Identity_DeepCopyInto.
Proof. deep. Qed.
#[export] Instance KeylessRef_deep : Deep KeylessRef KeylessRef_DeepCopyInto.
Proof. deep. Qed.
#[export] Instance StaticRef_flat : Flat StaticRef.
Proof. deep. Qed.
#[export] Instance StaticRef_deep : Deep StaticRef StaticRef_DeepCopyInto.
Proof. deep. Qed.
#[export] Instance Source_deep : Deep Source Source_DeepCopyInto.
Proof. deep. Qed.
#[export] Instance TLog_deep : Deep TLog TLog_DeepCopyInto.
Proof. deep. Qed.
#[export] Instance RFC3161Timestamp_flat : Flat RFC3161Timestamp.
Proof. deep. Qed.
#[export] Instance RFC3161Timestamp_deep : Deep RFC3161Timestamp RFC3161Timestamp_DeepCopyInto.
Proof. deep. Qed.
#[export] Instance GMSignerRef_flat : Flat GMSignerRef.
Proof. deep. Qed.
#[export] Instance GMSignerRef_deep : Deep GMSignerRef GMSignerRef_DeepCopyInto.
Proof. deep. Qed.
#[export] Instance GMSignatureRef_flat : Flat GMSignatureRef.
Proof. deep. Qed.
#[export] Instance GMSignatureRef_deep : Deep GMSignatureRef GMSignatureRef_DeepCopyInto.
Proof. deep. Qed.
#[export] Instance Authority_deep : Deep Authority Authority_DeepCopyInto.
Proof. deep. Qed.
#[export] Instance ImagePattern_flat : Flat ImagePattern.
Proof. deep. Qed.
#[export] Instance ImagePattern_deep : Deep ImagePattern ImagePattern_DeepCopyInto.
Proof. deep. Qed.
#[export] Instance MatchResource_deep : Deep MatchResource MatchResource_DeepCopyInto.
Proof. deep. Qed.
#[export] Instance ClusterImagePolicySpec_deep : Deep ClusterImagePolicySpec ClusterImagePolicySpec_DeepCopyInto.
Proof. deep. Qed.
#[export] Instance ClusterImagePolicyStatus_deep : Deep ClusterImagePolicyStatus ClusterImagePolicyStatus_DeepCopyInto.
Proof. deep. Qed.
#[export] Instance ClusterImagePolicy_deep : Deep ClusterImagePolicy ClusterImagePolicy_DeepCopyInto.
Proof. deep. Qed.
#[export] Instance ClusterImagePolicyList_deep : Deep ClusterImagePolicyList ClusterImagePolicyList_DeepCopyInto.
Proof. deep. Qed.

End Deep.
