(* ===== verification/DeepCopyDuck.v ===== *)
(** The duck type PodScalable of pkg/apis/duck/v1beta1 as memory holds it, and the
    functions of its zz_generated.deepcopy.go. *)

From S2P Require Import Prelude DeepCopy.

#[local] Set Default Proof Using "Type*".

(** * Types *)

Definition PodScalableSpec : ty := TStruct [
  ("Replicas", TPtr TPlain);
  ("Selector", TPtr (TForeign "metav1.LabelSelector"));
  ("Template", TForeign "corev1.PodTemplateSpec")
].
Definition PodScalableStatus : ty := TStruct [
  ("Replicas", TPlain)
].
Definition PodScalable : ty := TStruct [
  ("TypeMeta", TPlain);
  ("ObjectMeta", TForeign "metav1.ObjectMeta");
  ("Spec", PodScalableSpec);
  ("Status", PodScalableStatus)
].
Definition PodScalableList : ty := TStruct [
  ("TypeMeta", TPlain);
  ("ListMeta", TForeign "metav1.ListMeta");
  ("Items", TSlice PodScalable)
].

(** * Functions *)

Section Functions.
Context `{FT : ForeignTypes}.

Definition PodScalableSpec_DeepCopyInto : Copier := into [
  ("Replicas", new assign);
  ("Selector", new (foreign "metav1.LabelSelector"));
  ("Template", foreign "corev1.PodTemplateSpec")
].
Definition PodScalableSpec_DeepCopy : Copier := DeepCopy PodScalableSpec_DeepCopyInto.

Definition PodScalableStatus_DeepCopyInto : Copier := into [].
Definition PodScalableStatus_DeepCopy : Copier := DeepCopy PodScalableStatus_DeepCopyInto.

Definition PodScalable_DeepCopyInto : Copier := into [
  ("TypeMeta", assign);
  ("ObjectMeta", foreign "metav1.ObjectMeta");
  ("Spec", PodScalableSpec_DeepCopyInto);
  ("Status", assign)
].
Definition PodScalable_DeepCopy : Copier := DeepCopy PodScalable_DeepCopyInto.
Definition PodScalable_DeepCopyObject := DeepCopyObject PodScalable_DeepCopy.

Definition PodScalableList_DeepCopyInto : Copier := into [
  ("TypeMeta", assign);
  ("ListMeta", foreign "metav1.ListMeta");
  ("Items", make PodScalable_DeepCopyInto)
].
Definition PodScalableList_DeepCopy : Copier := DeepCopy PodScalableList_DeepCopyInto.
Definition PodScalableList_DeepCopyObject := DeepCopyObject PodScalableList_DeepCopy.

End Functions.

(** * The copies are deep *)

Section Deep.
Context `{FT : ForeignTypes} {FL : ForeignLaws FT}.

#[export] Instance PodScalableSpec_deep : Deep PodScalableSpec PodScalableSpec_DeepCopyInto.
Proof. deep. Qed.
#[export] Instance PodScalableStatus_flat : Flat PodScalableStatus.
Proof. deep. Qed.
#[export] Instance PodScalableStatus_deep : Deep PodScalableStatus PodScalableStatus_DeepCopyInto.
Proof. deep. Qed.
#[export] Instance PodScalable_deep : Deep PodScalable PodScalable_DeepCopyInto.
Proof. deep. Qed.
#[export] Instance PodScalableList_deep : Deep PodScalableList PodScalableList_DeepCopyInto.
Proof. deep. Qed.

End Deep.
