(* ===== verification/DeepCopySpec.v ===== *)
(** The copies that the reconcilers and the conversions take of the informers'
    objects: independent of them, for every type of the API that an informer holds.
    A concrete package of other types shows that the assumptions can hold. *)

From S2P Require Import Prelude DeepCopy DeepCopyV1alpha1 DeepCopyV1beta1 DeepCopyDuck.

#[local] Set Default Proof Using "Type*".

(** C37: the generated DeepCopy functions are deep: for the policies of both versions,
    the trust roots, the pods' duck type and the lists of each, the copy has the
    content of the original, no later write to the memory of the copy changes the
    original (the object in the informer's cache, which must not be modified), and no
    later write to the memory of the original changes the copy. *)
Theorem API_copies_independent `{FT : ForeignTypes} {FL : ForeignLaws FT} :
  independent DeepCopyV1alpha1.ClusterImagePolicy DeepCopyV1alpha1.ClusterImagePolicy_DeepCopy ∧
  independent DeepCopyV1alpha1.ClusterImagePolicyList DeepCopyV1alpha1.ClusterImagePolicyList_DeepCopy ∧
  independent TrustRoot TrustRoot_DeepCopy ∧
  independent TrustRootList TrustRootList_DeepCopy ∧
  independent DeepCopyV1beta1.ClusterImagePolicy DeepCopyV1beta1.ClusterImagePolicy_DeepCopy ∧
  independent DeepCopyV1beta1.ClusterImagePolicyList DeepCopyV1beta1.ClusterImagePolicyList_DeepCopy ∧
  independent PodScalable PodScalable_DeepCopy ∧
  independent PodScalableList PodScalableList_DeepCopy.
Proof. split_and!; apply DeepCopy_independent, _. Qed.

(** * A concrete memory *)

Module ToyTypes.
#[local] Open Scope positive_scope.

(** The plain data at a location. *)
Definition plain_at (h : heap) (l : loc) : option tree :=
  match h !! l with Some (Cell (Plain s)) => Some (Leaf s) | _ => None end.

(** A type of another package: a string and references to strings. *)
Definition toy_view (_ : string) (h : heap) (v : val) : option (tree * list loc) :=
  match v with
  | Foreign s refs => cs ← mapM (plain_at h) refs; Some (Node (Leaf s :: cs), refs)
  | _ => None
  end.
Fixpoint toy_refs (refs : list loc) (h : heap) : option (list loc * heap) :=
  match refs with
  | [] => Some ([], h)
  | l :: refs =>
      c ← h !! l; let (l', h) := alloc c h in
      '(refs', h) ← toy_refs refs h; Some (l' :: refs', h)
  end.
#[export] Instance types : ForeignTypes := {|
  foreign_view := toy_view;
  foreign_DeepCopyInto _ v h :=
    match v with Foreign s refs => '(refs', h) ← toy_refs refs h; Some (Foreign s refs', h) | _ => None end
|}.

Lemma plain_at_frame h h' refs cs :
  mapM (plain_at h) refs = Some cs → agree h h' refs → mapM (plain_at h') refs = Some cs.
Proof.
  rewrite !mapM_Some. intros Hv Ha. induction Hv as [|l c refs cs Hl Hv IH]; constructor.
  - unfold plain_at in *. rewrite Ha by set_solver. done.
  - apply IH. intros k Hk. apply Ha. set_solver.
Qed.
Lemma plain_at_alive h refs cs :
  mapM (plain_at h) refs = Some cs → ∀ l, l ∈ refs → is_Some (h !! l).
Proof.
  rewrite mapM_Some. intros Hv k Hk. induction Hv as [|l c refs cs Hl Hv IH]; [by apply not_elem_of_nil in Hk|].
  apply elem_of_cons in Hk as [->|Hk]; [|by apply IH]. unfold plain_at in Hl. by destruct (h !! l).
Qed.
Lemma toy_refs_deep h refs cs :
  mapM (plain_at h) refs = Some cs →
  ∃ refs' h', toy_refs refs h = Some (refs', h') ∧ h ⊆ h' ∧ mapM (plain_at h') refs' = Some cs ∧
    ∀ l, l ∈ refs' → h !! l = None.
Proof.
  revert h cs. induction refs as [|l refs IH]; intros h cs Hv.
  { injection Hv as <-. exists [], h. split_and!; try done. set_solver. }
  apply mapM_Some, Forall2_cons_inv_l in Hv as (c & cs' & Hl & Hv & ->). apply mapM_Some in Hv.
  cbn [toy_refs]. destruct (h !! l) as [x|] eqn:El; [|unfold plain_at in Hl; by rewrite El in Hl].
  cbn [mbind option_bind]. destruct (alloc x h) as [l' h1] eqn:Ea. apply alloc_spec in Ea as (Hn & H1 & Hl').
  destruct (IH h1 cs') as (refs' & h2 & E & H2 & Hv' & Hf).
  { eapply plain_at_frame; [done|]. intros k Hk. destruct (plain_at_alive h refs cs' Hv k Hk) as [y Hy].
    rewrite Hy. by eapply lookup_weaken. }
  rewrite E. exists (l' :: refs'), h2. split_and!; [done|by etrans| |].
  - cbn. rewrite Hv'. unfold plain_at at 1. rewrite (lookup_weaken h1 h2 l' x) by done.
    unfold plain_at in Hl. rewrite El in Hl. by rewrite Hl.
  - intros k [->|Hk]%elem_of_cons; [done|]. eapply fresh_weaken; [by apply Hf|done].
Qed.

#[export] Instance laws : ForeignLaws types.
Proof.
  split.
  - intros name h h' v r Hv Ha. destruct v as [| | | |s refs]; try done. cbn in *. unfold toy_view in *.
    destruct (mapM (plain_at h) refs) as [cs|] eqn:E; [|done]. cbn in Hv. simplify_eq.
    by rewrite (plain_at_frame h h' refs cs).
  - intros name h v r Hv. destruct v as [| | | |s refs]; try done. cbn in *. unfold toy_view in *.
    destruct (mapM (plain_at h) refs) as [cs|] eqn:E; [|done]. cbn in Hv. simplify_eq. by eapply plain_at_alive.
  - intros name h v tr ls Hv. destruct v as [| | | |s refs]; try done. cbn in *. unfold toy_view in *.
    destruct (mapM (plain_at h) refs) as [cs|] eqn:E; [|done]. cbn in Hv. simplify_eq.
    destruct (toy_refs_deep h ls cs E) as (refs' & h' & E' & Hs & Hv' & Hf). unfold foreign. cbn. rewrite E'.
    exists (Foreign s refs'), h', refs'. cbn. rewrite Hv'. done.
Qed.

(** Go's zero value of a type. *)
Fixpoint zero (t : ty) : val :=
  match t with
  | TPlain => Plain EmptyString
  | TPtr _ => Ptr None
  | TSlice _ => Slice None
  | TStruct fts => Struct ((λ '(f, t), (f, zero t)) <$> fts)
  | TForeign _ => Foreign EmptyString []
  end.

(** A struct with one field set. *)
Definition with_field (f : string) (x v : val) : val :=
  match v with
  | Struct fvs => Struct ((λ '(g, y), (g, if decide (f = g) then x else y)) <$> fvs)
  | v => v
  end.

(** A policy, at location 1, with a name, and one authority, whose key is at 3. *)
Definition key : val := with_field "Data" (Plain "PEM") (zero KeyRef).
Definition authority : val := with_field "Key" (Ptr (Some 3)) (zero Authority).
Definition policy : val :=
  with_field "ObjectMeta" (Foreign "policy" [4])
    (with_field "Spec" (with_field "Authorities" (Slice (Some 2)) (zero ClusterImagePolicySpec))
      (zero DeepCopyV1alpha1.ClusterImagePolicy)).
Definition memory : gmap loc cell :=
  <[1 := Cell policy]> (<[2 := Array [authority]]> (<[3 := Cell key]> {[4 := Cell (Plain "label")]})).

End ToyTypes.
#[local] Existing Instances ToyTypes.types ToyTypes.laws.

(** A policy in a concrete memory: all that its copy refers to is new, so that the
    original may be erased without changing the copy. *)
Lemma API_copies_independent_witness :
  ∃ tr ls p' h' ls',
    view (TPtr DeepCopyV1alpha1.ClusterImagePolicy) ToyTypes.memory (Ptr (Some 1%positive)) = Some (tr, ls) ∧
    DeepCopyV1alpha1.ClusterImagePolicy_DeepCopy (Ptr (Some 1%positive)) ToyTypes.memory = Some (p', h') ∧
    view (TPtr DeepCopyV1alpha1.ClusterImagePolicy) (h' ∖ ToyTypes.memory) p' = Some (tr, ls').
Proof.
  pose proof (proj1 (API_copies_independent)) as Hi.
  edestruct (Hi ToyTypes.memory (Ptr (Some 1%positive))) as (p' & h' & ls' & Hc & Hv & _ & Hw).
  { vm_compute. reflexivity. }
  eexists _, _, p', h', ls'. split_and!; [vm_compute; reflexivity|exact Hc|].
  apply Hw. intros l Hl. change heap with (gmap loc cell) in *. rewrite lookup_difference.
  assert (ToyTypes.memory !! l = None) as E; [|by rewrite E].
  rewrite !not_elem_of_cons in Hl. destruct Hl as (? & ? & ? & ? & _).
  unfold ToyTypes.memory. by rewrite !lookup_insert_ne, lookup_singleton_ne by congruence.
Defined.
