(* ===== verification/Informers.v ===== *)
(** The informers that the controllers share (pkg/client/informers/externalversions)
    and the listers over their caches (pkg/client/listers). The informers themselves
    are client-go's: a value with an identity, that runs until its stop channel is
    closed. The factory's methods hold its lock, so each is one step; a goroutine's
    end is a step of its own. *)

From S2P Require Import Prelude.

#[local] Set Default Proof Using "Type*".

(** * factory.go *)

Section Factory.
(** [SharedIndexInformer], the client, stop channels, the functions that filter the
    options of a list, and [ListOptions]. *)
Variable Informer Client Stop ListOptions : Type.
Let Tweak : Type := ListOptions → ListOptions.

(** A type of objects, as [reflect.TypeOf] gives it. *)
Definition Kind : Type := string.

(** Besides the fields of the struct: the goroutines that the wait group counts, and
    all that were ever started. The maps' absent keys are false or missing. *)
Record sharedInformerFactory := {
  client : Client;
  namespace : string;
  tweakListOptions : option Tweak;
  defaultResync : Z;
  customResync : gmap Kind Z;
  informers : gmap Kind Informer;
  startedInformers : gset Kind;
  shuttingDown : bool;
  wg : list (Kind * Informer * Stop);
  launched : list (Kind * Informer * Stop)
}.

Definition SharedInformerOption : Type := sharedInformerFactory → sharedInformerFactory.

(** [resyncConfig] as the pairs of the map, in the order it is ranged over. *)
Definition WithCustomResyncConfig (resyncConfig : list (Kind * Z)) : SharedInformerOption := λ f,
  {| client := client f; namespace := namespace f; tweakListOptions := tweakListOptions f;
     defaultResync := defaultResync f;
     customResync := foldl (λ m '(k, v), <[k := v]> m) (customResync f) resyncConfig;
     informers := informers f; startedInformers := startedInformers f; shuttingDown := shuttingDown f;
     wg := wg f; launched := launched f |}.
Definition WithTweakListOptions (tweak : option Tweak) : SharedInformerOption := λ f,
  {| client := client f; namespace := namespace f; tweakListOptions := tweak;
     defaultResync := defaultResync f; customResync := customResync f;
     informers := informers f; startedInformers := startedInformers f; shuttingDown := shuttingDown f;
     wg := wg f; launched := launched f |}.
Definition WithNamespace (ns : string) : SharedInformerOption := λ f,
  {| client := client f; namespace := ns; tweakListOptions := tweakListOptions f;
     defaultResync := defaultResync f; customResync := customResync f;
     informers := informers f; startedInformers := startedInformers f; shuttingDown := shuttingDown f;
     wg := wg f; launched := launched f |}.

Definition NamespaceAll : string := "".
Definition NewSharedInformerFactoryWithOptions (c : Client) (resync : Z) (options : list SharedInformerOption) :
    sharedInformerFactory :=
  foldl (λ factory opt, opt factory)
    {| client := c; namespace := NamespaceAll; tweakListOptions := None; defaultResync := resync;
       customResync := ∅; informers := ∅; startedInformers := ∅; shuttingDown := false; wg := []; launched := [] |}
    options.
Definition NewSharedInformerFactory (c : Client) (resync : Z) : sharedInformerFactory :=
  NewSharedInformerFactoryWithOptions c resync [].
Definition NewFilteredSharedInformerFactory (c : Client) (resync : Z) (ns : string) (tweak : option Tweak) :
    sharedInformerFactory :=
  NewSharedInformerFactoryWithOptions c resync [WithNamespace ns; WithTweakListOptions tweak].

(** One round of the loop of [Start]. *)
Definition startOne (stopCh : Stop) (f : sharedInformerFactory) (i : Kind * Informer) : sharedInformerFactory :=
  let '(informerType, informer) := i in
  if decide (informerType ∈ startedInformers f) then f else
  {| client := client f; namespace := namespace f; tweakListOptions := tweakListOptions f;
     defaultResync := defaultResync f; customResync := customResync f; informers := informers f;
     startedInformers := {[informerType]} ∪ startedInformers f; shuttingDown := shuttingDown f;
     wg := (informerType, informer, stopCh) :: wg f;
     launched := (informerType, informer, stopCh) :: launched f |}.
(** [order]: the map of the informers in the order it is ranged over. *)
Definition Start (stopCh : Stop) (order : list (Kind * Informer)) (f : sharedInformerFactory) : sharedInformerFactory :=
  if shuttingDown f then f else foldl (startOne stopCh) f order.

(** [Shutdown] sets the flag, and returns when the wait group counts no goroutine. *)
Definition Shutdown_flag (f : sharedInformerFactory) : sharedInformerFactory :=
  {| client := client f; namespace := namespace f; tweakListOptions := tweakListOptions f;
     defaultResync := defaultResync f; customResync := customResync f; informers := informers f;
     startedInformers := startedInformers f; shuttingDown := true; wg := wg f; launched := launched f |}.
Definition Shutdown_returns (f : sharedInformerFactory) : bool :=
  match wg f with [] => true | _ => false end.

(** [WaitForCacheSync] of one informer is client-go's. *)
Definition WaitForCacheSync (synced : Informer → bool) (f : sharedInformerFactory) : gmap Kind bool :=
  synced <$> filter (λ i, i.1 ∈ startedInformers f) (informers f).

Definition InformerFor (informerType : Kind) (newFunc : Client → Z → Informer) (f : sharedInformerFactory) :
    Informer * sharedInformerFactory :=
  match informers f !! informerType with
  | Some informer => (informer, f)
  | None =>
      let resyncPeriod := default (defaultResync f) (customResync f !! informerType) in
      let informer := newFunc (client f) resyncPeriod in
      (informer,
       {| client := client f; namespace := namespace f; tweakListOptions := tweakListOptions f;
          defaultResync := defaultResync f; customResync := customResync f;
          informers := <[informerType := informer]> (informers f);
          startedInformers := startedInformers f; shuttingDown := shuttingDown f;
          wg := wg f; launched := launched f |})
  end.

(** ** The factory at work *)

(** The calls of any number of goroutines, and the ends of those it started. *)
Inductive step : sharedInformerFactory → sharedInformerFactory → Prop :=
  | step_start stopCh order f : order ≡ₚ map_to_list (informers f) → step f (Start stopCh order f)
  | step_shutdown f : step f (Shutdown_flag f)
  | step_informer ty newFunc f : step f (InformerFor ty newFunc f).2
  | step_ended f l1 g l2 :
      wg f = l1 ++ g :: l2 →
      step f {| client := client f; namespace := namespace f; tweakListOptions := tweakListOptions f;
                defaultResync := defaultResync f; customResync := customResync f; informers := informers f;
                startedInformers := startedInformers f; shuttingDown := shuttingDown f;
                wg := l1 ++ l2; launched := launched f |}.

Definition kind_of (g : Kind * Informer * Stop) : Kind := g.1.1.

(** Each informer was launched at most once, it is the factory's for its type, and
    the goroutines that run are among those launched. *)
Record consistent (f : sharedInformerFactory) : Prop := {
  started_once : NoDup (kind_of <$> launched f);
  started_kinds : ∀ k, k ∈ startedInformers f ↔ k ∈ kind_of <$> launched f;
  started_known : ∀ k i stop, (k, i, stop) ∈ launched f → informers f !! k = Some i;
  running_launched : wg f ⊆+ launched f
}.

Lemma startOne_consistent stopCh f i :
  consistent f → informers f !! i.1 = Some i.2 →
  consistent (startOne stopCh f i) ∧ informers (startOne stopCh f i) = informers f.
Proof.
  intros [H1 H2 H3 H4] Hi. destruct i as [k i]. cbn in Hi |- *. case_decide as Hk; [done|]. split; [|done].
  split; cbn.
  - constructor; [|done]. by rewrite <-H2.
  - intros k'. rewrite elem_of_union, elem_of_singleton, elem_of_cons, H2. done.
  - intros k' i' stop [[= -> -> _]|Hin]%elem_of_cons; [done|by eapply H3].
  - by apply submseteq_skip.
Qed.

Lemma step_consistent f f' : step f f' → consistent f → consistent f'.
Proof.
  intros [stopCh order f1 Ho|f1|ty newFunc f1|f1 l1 g l2 Hw] H.
  - unfold Start. destruct (shuttingDown f1); [done|].
    assert (Forall (λ i, informers f1 !! i.1 = Some i.2) order) as Hall.
    { apply Forall_forall. intros [k i] Hin. rewrite Ho in Hin. by apply elem_of_map_to_list in Hin. }
    clear Ho. revert f1 H Hall. induction order as [|i order IH]; intros f1 H Hall; [done|].
    apply Forall_cons in Hall as [Hi Hall]. cbn [foldl]. destruct (startOne_consistent stopCh f1 i H Hi) as [Hc Heq].
    apply IH; [done|]. by rewrite Heq.
  - destruct H as [H1 H2 H3 H4]. by split.
  - unfold InformerFor. destruct (informers f1 !! ty) as [i|] eqn:E; [done|]. destruct H as [H1 H2 H3 H4].
    split; cbn; try done. intros k i stop Hin. apply H3 in Hin as Hi. rewrite lookup_insert_ne; [done|].
    intros ->. congruence.
  - destruct H as [H1 H2 H3 H4]. split; cbn; try done. rewrite Hw in H4. etrans; [|exact H4].
    apply submseteq_app; [done|]. by apply submseteq_cons.
Qed.

(** No informer is started once the factory is shutting down, and none replaced. *)
Lemma step_keeps f f' : step f f' →
  informers f ⊆ informers f' ∧ (shuttingDown f = true → shuttingDown f' = true ∧ launched f' = launched f ∧ wg f' ⊆+ wg f).
Proof.
  intros [stopCh order f1 Ho|f1|ty newFunc f1|f1 l1 g l2 Hw]; cbn.
  - split; [|intros Hs; unfold Start; by rewrite Hs]. unfold Start. destruct (shuttingDown f1); [done|]. clear Ho.
    revert f1. induction order as [|[k i] order IH]; intros f1; [done|]. cbn [foldl]. etrans; [|apply IH].
    cbn. by case_decide.
  - done.
  - unfold InformerFor. destruct (informers f1 !! ty) eqn:E; [done|]. cbn. split; [|done]. by apply insert_subseteq.
  - split; [done|]. intros Hs. rewrite Hw. split_and!; [done..|]. apply submseteq_app; [done|by apply submseteq_cons].
Qed.

Lemma new_consistent c resync : consistent (NewSharedInformerFactory c resync).
Proof using.
  split; cbn.
  - constructor.
  - intros k. rewrite elem_of_nil. set_solver.
  - intros k i stop H. by apply elem_of_nil in H.
  - done.
Qed.

(** Whatever calls are made of a new factory in whatever order: an informer is started
    at most once, [InformerFor] keeps giving the one that was made first, and with a
    call of [Shutdown] starting is over, so that the call returns as soon as the
    goroutines that run then have ended. *)
Lemma factory_starts_once c resync f : rtc step (NewSharedInformerFactory c resync) f →
  NoDup (kind_of <$> launched f) ∧
  ∀ f', rtc step f f' →
    (∀ k i newFunc, informers f !! k = Some i → (InformerFor k newFunc f').1 = i) ∧
    (shuttingDown f = true → launched f' = launched f ∧ (length (wg f') ≤ length (wg f))%nat).
Proof.
  intros Hf. assert (consistent f) as Hc.
  { revert Hf. generalize (new_consistent c resync). generalize (NewSharedInformerFactory c resync). intros f0 H0 Hf.
    induction Hf as [|f1 f2 f3 Hs Hf IH]; [done|]. apply IH. by eapply step_consistent. }
  split; [apply Hc|]. clear Hf Hc. intros f' Hf.
  assert (informers f ⊆ informers f' ∧ (shuttingDown f = true → shuttingDown f' = true ∧ launched f' = launched f ∧ wg f' ⊆+ wg f))
    as [Hi Hs].
  { induction Hf as [f1|f1 f2 f3 Hs Hf IH]; [done|]. apply step_keeps in Hs as [Hi Hs]. destruct IH as [IHi IHs].
    split; [by etrans|]. intros E. apply Hs in E as (E & Hl & Hw). apply IHs in E as (E & Hl' & Hw').
    split_and!; [done|by rewrite Hl', Hl|by etrans]. }
  split.
  - intros k i newFunc Hk. unfold InformerFor. by rewrite (lookup_weaken _ _ _ _ Hk Hi).
  - intros E. destruct (Hs E) as (_ & Hl & Hw). split; [done|by apply submseteq_length].
Qed.

End Factory.

(** * The informers and listers of a resource *)

Section Resource.
Context {R Informer Client Stop ListOptions Watch E : Type}.
(** The type's name; the client's list and watch of the resource; client-go's
    informer over them; its cache by key, with the error of a look-up, and all that
    a selector matches; and the error for what is not found. *)
Variable kindName : Kind.
Variable resourceName : string.
Variable client_List : Client → ListOptions → result E (list R).
Variable client_Watch : Client → ListOptions → result E Watch.
Variable NewSharedIndexInformer :
  (ListOptions → result E (list R)) → (ListOptions → result E Watch) → Kind → Z → Informer.
Variable Selector : Type.
Variable GetByKey : Informer → string → result E (option R).
Variable ListAll : Informer → Selector → result E (list R).
Variable NewNotFound : string → string → E.

Definition tweaked (tweak : option (ListOptions → ListOptions)) (options : ListOptions) : ListOptions :=
  match tweak with Some t => t options | None => options end.
Definition NewFilteredInformer (c : Client) (resyncPeriod : Z) (tweak : option (ListOptions → ListOptions)) : Informer :=
  NewSharedIndexInformer (λ options, client_List c (tweaked tweak options))
    (λ options, client_Watch c (tweaked tweak options)) kindName resyncPeriod.
Definition NewInformer (c : Client) (resyncPeriod : Z) : Informer := NewFilteredInformer c resyncPeriod None.

(** [defaultInformer] and [Informer]: the factory's informer of the type. *)
Definition defaultInformer (tweak : option (ListOptions → ListOptions)) (c : Client) (resyncPeriod : Z) : Informer :=
  NewFilteredInformer c resyncPeriod tweak.
Definition SharedInformer (f : sharedInformerFactory Informer Client Stop ListOptions) :
    Informer * sharedInformerFactory Informer Client Stop ListOptions :=
  InformerFor Informer Client Stop ListOptions kindName
    (defaultInformer (tweakListOptions Informer Client Stop ListOptions f)) f.

(** The lister over the cache of an informer. *)
Definition Lister_List (indexer : Informer) (selector : Selector) : result E (list R) := ListAll indexer selector.
Definition Lister_Get (indexer : Informer) (name : string) : result E R :=
  match GetByKey indexer name with
  | Err err => Err err
  | Ok None => Err (NewNotFound resourceName name)
  | Ok (Some obj) => Ok obj
  end.

End Resource.

(** generic.go: the kinds that [ForResource] knows, by group, version and resource. *)
Definition ForResource (group version resource : string) : result string Kind :=
  if group !=s "policy.sigstore.dev" then Err "no informer found"
  else if (version ==s "v1alpha1") && (resource ==s "clusterimagepolicies") then Ok "v1alpha1.ClusterImagePolicy"
  else if (version ==s "v1alpha1") && (resource ==s "trustroots") then Ok "v1alpha1.TrustRoot"
  else if (version ==s "v1beta1") && (resource ==s "clusterimagepolicies") then Ok "v1beta1.ClusterImagePolicy"
  else Err "no informer found".

(** The three resources. *)

Definition policies_NewFilteredInformer {R Informer Client ListOptions Watch E} :=
  @NewFilteredInformer R Informer Client ListOptions Watch E "v1alpha1.ClusterImagePolicy".
Definition policies_NewInformer {R Informer Client ListOptions Watch E} :=
  @NewInformer R Informer Client ListOptions Watch E "v1alpha1.ClusterImagePolicy".
Definition policies_Informer {R Informer Client Stop ListOptions Watch E} :=
  @SharedInformer R Informer Client Stop ListOptions Watch E "v1alpha1.ClusterImagePolicy".
Definition policies_List {R Informer E} := @Lister_List R Informer E.
Definition policies_Get {R Informer E} := @Lister_Get R Informer E "clusterimagepolicy".

Definition trustroots_NewFilteredInformer {R Informer Client ListOptions Watch E} :=
  @NewFilteredInformer R Informer Client ListOptions Watch E "v1alpha1.TrustRoot".
Definition trustroots_NewInformer {R Informer Client ListOptions Watch E} :=
  @NewInformer R Informer Client ListOptions Watch E "v1alpha1.TrustRoot".
Definition trustroots_Informer {R Informer Client Stop ListOptions Watch E} :=
  @SharedInformer R Informer Client Stop ListOptions Watch E "v1alpha1.TrustRoot".
Definition trustroots_List {R Informer E} := @Lister_List R Informer E.
Definition trustroots_Get {R Informer E} := @Lister_Get R Informer E "trustroot".

Definition beta_policies_NewFilteredInformer {R Informer Client ListOptions Watch E} :=
  @NewFilteredInformer R Informer Client ListOptions Watch E "v1beta1.ClusterImagePolicy".
Definition beta_policies_NewInformer {R Informer Client ListOptions Watch E} :=
  @NewInformer R Informer Client ListOptions Watch E "v1beta1.ClusterImagePolicy".
Definition beta_policies_Informer {R Informer Client Stop ListOptions Watch E} :=
  @SharedInformer R Informer Client Stop ListOptions Watch E "v1beta1.ClusterImagePolicy".
Definition beta_policies_List {R Informer E} := @Lister_List R Informer E.
Definition beta_policies_Get {R Informer E} := @Lister_Get R Informer E "clusterimagepolicy".
