(* ===== verification/RestClient.v ===== *)
(** The typed clients of the API server
    (pkg/client/clientset/versioned): the request that each method makes, and the
    configurations from which clients are built. client-go's REST client, which sends
    a request and decodes the answer, is an interface. At the end, the operations that
    the generated reconciler asks of a client are requests of this one. *)

From S2P Require Import Prelude.
From S2P Require Import K8s.
From S2P Require Import Encoding.
From S2P Require GM.
From S2P Require Import GenReconciler.
From S2P Require ToyText.
From S2P Require ToyServer.

#[local] Set Default Proof Using "Type*".

(** * Requests *)

Inductive Verb := GET | POST | PUT | DELETE | PATCH (patchType : string).

(** [metav1.ListOptions], as far as the clients read or set it; the options of the
    other methods are passed on. *)
Record ListOptions := { TimeoutSeconds : option Z; Watch : bool; lo_rest : json }.
Definition set_Watch (opts : ListOptions) : ListOptions :=
  {| TimeoutSeconds := TimeoutSeconds opts; Watch := true; lo_rest := lo_rest opts |}.
Inductive Params := NoParams | PList (opts : ListOptions) | PGet (opts : json) | PCreate (opts : json) | PUpdate (opts : json)
  | PPatch (opts : json).

Section Requests.
Context {R : Type}.

Inductive Body := NoBody | BObject (o : R) | BDelete (opts : json) | BBytes (data : string).

Record Request := {
  verb : Verb;
  resource : string;
  name : option string;
  subresource : list string;
  params : Params;
  timeout : Z;
  body : Body
}.

(** The builder of client-go: each method sets a part. *)
Definition request (v : Verb) (r : string) : Request :=
  {| verb := v; resource := r; name := None; subresource := []; params := NoParams; timeout := 0; body := NoBody |}.
Definition Name (n : string) (q : Request) : Request :=
  {| verb := verb q; resource := resource q; name := Some n; subresource := subresource q; params := params q;
     timeout := timeout q; body := body q |}.
Definition SubResource (l : list string) (q : Request) : Request :=
  {| verb := verb q; resource := resource q; name := name q; subresource := l; params := params q;
     timeout := timeout q; body := body q |}.
Definition VersionedParams (p : Params) (q : Request) : Request :=
  {| verb := verb q; resource := resource q; name := name q; subresource := subresource q; params := p;
     timeout := timeout q; body := body q |}.
Definition Timeout (d : Z) (q : Request) : Request :=
  {| verb := verb q; resource := resource q; name := name q; subresource := subresource q; params := params q;
     timeout := d; body := body q |}.
Definition WithBody (b : Body) (q : Request) : Request :=
  {| verb := verb q; resource := resource q; name := name q; subresource := subresource q; params := params q;
     timeout := timeout q; body := b |}.

End Requests.
Arguments Body : clear implicits.
Arguments Request : clear implicits.

(** client-go's REST client, on the world: a request whose answer is an object, a
    list, a watch, or nothing. *)
Class RestInterface (W R : Type) `{GoErrors} := {
  WatchInterface : Type;
  Do_Into : Request R → W → W * result GoError R;
  Do_Into_List : Request R → W → W * result GoError (list R);
  Do_Watch : Request R → W → W * result GoError WatchInterface;
  Do_Error : Request R → W → W * option GoError
}.

(** * The typed client of a resource *)

Section Typed.
Context {W R : Type} `{E : GoErrors} `{RS : !Resource R} `{RI : !RestInterface W R}.
(** The resource's name. *)
Variable resource : string.

(** The number of seconds, as a [time.Duration], times [time.Second], in 64 bits. *)
Definition timeoutOf (opts : ListOptions) : Z :=
  match TimeoutSeconds opts with
  | None => 0
  | Some n => GM.wrap64 (n * (1000 * GM.Millisecond))
  end.

Definition Get (n : string) (options : json) : W → W * result GoError R :=
  Do_Into (VersionedParams (PGet options) (Name n (request GET resource))).
Definition List (opts : ListOptions) : W → W * result GoError (list R) :=
  Do_Into_List (Timeout (timeoutOf opts) (VersionedParams (PList opts) (request GET resource))).
Definition WatchAll (opts : ListOptions) : W → W * result GoError WatchInterface :=
  Do_Watch (Timeout (timeoutOf opts) (VersionedParams (PList (set_Watch opts)) (request GET resource))).
Definition Create (o : R) (opts : json) : W → W * result GoError R :=
  Do_Into (WithBody (BObject o) (VersionedParams (PCreate opts) (request POST resource))).
Definition Update (o : R) (opts : json) : W → W * result GoError R :=
  Do_Into (WithBody (BObject o) (VersionedParams (PUpdate opts)
    (Name (om_Name (objectMeta o)) (request PUT resource)))).
Definition UpdateStatus (o : R) (opts : json) : W → W * result GoError R :=
  Do_Into (WithBody (BObject o) (VersionedParams (PUpdate opts)
    (SubResource ["status"] (Name (om_Name (objectMeta o)) (request PUT resource))))).
Definition Delete (n : string) (opts : json) : W → W * option GoError :=
  Do_Error (WithBody (BDelete opts) (Name n (request DELETE resource))).
Definition DeleteCollection (opts : json) (listOpts : ListOptions) : W → W * option GoError :=
  Do_Error (WithBody (BDelete opts)
    (Timeout (timeoutOf listOpts) (VersionedParams (PList listOpts) (request DELETE resource)))).
Definition Patch (n pt data : string) (opts : json) (subresources : list string) : W → W * result GoError R :=
  Do_Into (WithBody (BBytes data) (VersionedParams (PPatch opts)
    (SubResource subresources (Name n (request (PATCH pt) resource))))).

(** A request's deadline is the number of seconds asked for, as long as it fits; a
    larger number wraps around and may even be negative. *)
Lemma timeoutOf_fits opts n : TimeoutSeconds opts = Some n →
  (0 ≤ n < 9223372037 → timeoutOf opts = n * (1000 * GM.Millisecond))%Z ∧
  (n = 9223372037 → timeoutOf opts < 0)%Z.
Proof using.
  intros Hn. unfold timeoutOf. rewrite Hn. unfold GM.wrap64, GM.Millisecond. split; [|by intros ->].
  intros H. rewrite Z.mod_small; lia.
Qed.

End Typed.

(** ** The three resources *)

Definition clusterimagepolicies : string := "clusterimagepolicies".
Definition trustroots : string := "trustroots".

Section Resources.
Context {W R : Type} `{E : GoErrors} `{RS : !Resource R} `{RI : !RestInterface W R}.

Definition policies_Get := Get clusterimagepolicies.
Definition policies_List := List clusterimagepolicies.
Definition policies_Watch := WatchAll clusterimagepolicies.
Definition policies_Create := Create clusterimagepolicies.
Definition policies_Update := Update clusterimagepolicies.
Definition policies_UpdateStatus := UpdateStatus clusterimagepolicies.
Definition policies_Delete := Delete clusterimagepolicies.
Definition policies_DeleteCollection := DeleteCollection clusterimagepolicies.
Definition policies_Patch := Patch clusterimagepolicies.

Definition trustroots_Get := Get trustroots.
Definition trustroots_List := List trustroots.
Definition trustroots_Watch := WatchAll trustroots.
Definition trustroots_Create := Create trustroots.
Definition trustroots_Update := Update trustroots.
Definition trustroots_UpdateStatus := UpdateStatus trustroots.
Definition trustroots_Delete := Delete trustroots.
Definition trustroots_DeleteCollection := DeleteCollection trustroots.
Definition trustroots_Patch := Patch trustroots.

Definition beta_policies_Get := Get clusterimagepolicies.
Definition beta_policies_List := List clusterimagepolicies.
Definition beta_policies_Watch := WatchAll clusterimagepolicies.
Definition beta_policies_Create := Create clusterimagepolicies.
Definition beta_policies_Update := Update clusterimagepolicies.
Definition beta_policies_UpdateStatus := UpdateStatus clusterimagepolicies.
Definition beta_policies_Delete := Delete clusterimagepolicies.
Definition beta_policies_DeleteCollection := DeleteCollection clusterimagepolicies.
Definition beta_policies_Patch := Patch clusterimagepolicies.

End Resources.

(** * Configurations *)

Section Configs.
(** float32, of which the code asks only whether a number is positive. *)
Variable Float : Type.
Variable positive : Float → bool.

(** [rest.Config]: the parts that the code reads or sets, and the rest. The rate
    limiter is one that was given, or one made of a rate and a burst. *)
Inductive RateLimiter := GivenLimiter (id : string) | TokenBucket (qps : Float) (burst : Z).
Record RestConfig := {
  UserAgent : string;
  QPS : Float;
  Burst : Z;
  Limiter : option RateLimiter;
  GroupVersion : option (string * string);
  APIPath : string;
  Serializer : option string;
  rc_rest : json
}.
Definition set_UserAgent (ua : string) (c : RestConfig) : RestConfig :=
  {| UserAgent := ua; QPS := QPS c; Burst := Burst c; Limiter := Limiter c; GroupVersion := GroupVersion c;
     APIPath := APIPath c; Serializer := Serializer c; rc_rest := rc_rest c |}.
Definition set_Limiter (l : RateLimiter) (c : RestConfig) : RestConfig :=
  {| UserAgent := UserAgent c; QPS := QPS c; Burst := Burst c; Limiter := Some l; GroupVersion := GroupVersion c;
     APIPath := APIPath c; Serializer := Serializer c; rc_rest := rc_rest c |}.

(** client-go's default user agent, HTTP clients, and the clients of REST and of the
    discovery made from a configuration and one of them. *)
Variable HTTPClient RESTClient DiscoveryClient : Type.
Variable DefaultKubernetesUserAgent : string.
Variable HTTPClientFor : RestConfig → result string HTTPClient.
Variable RESTClientForConfigAndClient : RestConfig → HTTPClient → result string RESTClient.
Variable NewDiscoveryClientForConfigAndClient : RestConfig → HTTPClient → result string DiscoveryClient.

(** [setConfigDefaults] of the packages of both versions. *)
Definition setConfigDefaults (version : string) (config : RestConfig) : RestConfig :=
  {| UserAgent := if UserAgent config ==s "" then DefaultKubernetesUserAgent else UserAgent config;
     QPS := QPS config; Burst := Burst config; Limiter := Limiter config;
     GroupVersion := Some ("policy.sigstore.dev", version); APIPath := "/apis";
     Serializer := Some "scheme.Codecs.WithoutConversion"; rc_rest := rc_rest config |}.
Definition group_NewForConfigAndClient (version : string) (c : RestConfig) (h : HTTPClient) : result string RESTClient :=
  RESTClientForConfigAndClient (setConfigDefaults version c) h.
Definition group_NewForConfig (version : string) (c : RestConfig) : result string RESTClient :=
  let config := setConfigDefaults version c in
  httpClient ← HTTPClientFor config;
  group_NewForConfigAndClient version config httpClient.

Record Clientset := { policyV1alpha1 : RESTClient; policyV1beta1 : RESTClient; discovery : DiscoveryClient }.

Definition NewForConfigAndClient (c : RestConfig) (httpClient : HTTPClient) : result string Clientset :=
  configShallowCopy ←
    (if isNil (Limiter c) && positive (QPS c) then
       if (Burst c <=? 0)%Z
       then Err "burst is required to be greater than 0 when RateLimiter is not set and QPS is set to greater than 0"
       else Ok (set_Limiter (TokenBucket (QPS c) (Burst c)) c)
     else Ok c);
  a ← group_NewForConfigAndClient "v1alpha1" configShallowCopy httpClient;
  b ← group_NewForConfigAndClient "v1beta1" configShallowCopy httpClient;
  d ← NewDiscoveryClientForConfigAndClient configShallowCopy httpClient;
  Ok {| policyV1alpha1 := a; policyV1beta1 := b; discovery := d |}.

Definition NewForConfig (c : RestConfig) : result string Clientset :=
  let configShallowCopy := if UserAgent c ==s "" then set_UserAgent DefaultKubernetesUserAgent c else c in
  httpClient ← HTTPClientFor configShallowCopy;
  NewForConfigAndClient configShallowCopy httpClient.

(** [NewForConfigOrDie]: [None] is a panic. *)
Definition NewForConfigOrDie (c : RestConfig) : option Clientset :=
  match NewForConfig c with Ok cs => Some cs | Err _ => None end.

(** Both versions' clients share one rate limiter: that of the configuration, or one
    with its rate and burst. *)
Lemma NewForConfigAndClient_limits c h cs :
  NewForConfigAndClient c h = Ok cs →
  ∃ c', RESTClientForConfigAndClient (setConfigDefaults "v1alpha1" c') h = Ok (policyV1alpha1 cs) ∧
    RESTClientForConfigAndClient (setConfigDefaults "v1beta1" c') h = Ok (policyV1beta1 cs) ∧
    Limiter c' = match Limiter c with
      | Some l => Some l
      | None => if positive (QPS c) then Some (TokenBucket (QPS c) (Burst c)) else None end.
Proof using.
  unfold NewForConfigAndClient, group_NewForConfigAndClient. intros H.
  destruct (Limiter c) as [l|] eqn:El; cbn in H.
  - destruct (RESTClientForConfigAndClient (setConfigDefaults "v1alpha1" c) h) as [a|] eqn:Ea; [|done]. cbn in H.
    destruct (RESTClientForConfigAndClient (setConfigDefaults "v1beta1" c) h) as [b|] eqn:Eb; [|done]. cbn in H.
    destruct (NewDiscoveryClientForConfigAndClient c h) as [d|]; [|done]. injection H as <-. by exists c.
  - destruct (positive (QPS c)); cbn in H; [destruct (Burst c <=? 0)%Z; [done|]|]; cbn in H.
    all: destruct (RESTClientForConfigAndClient (setConfigDefaults "v1alpha1" _) h) as [a|] eqn:Ea; [|done]; cbn in H;
      destruct (RESTClientForConfigAndClient (setConfigDefaults "v1beta1" _) h) as [b|] eqn:Eb; [|done]; cbn in H;
      destruct (NewDiscoveryClientForConfigAndClient _ h) as [d|]; [|done]; injection H as <-; by eexists.
Qed.

End Configs.

(** * The clients of the generated reconcilers *)

Section Reconciler.
Context {W R : Type} `{E : GoErrors} `{RS : !Resource R} `{RI : !RestInterface W R} `{CL : !Clients W R} `{J : JsonText}.
Variable resource : string.

Definition MergePatchType : string := "application/merge-patch+json".
(** A [GetOptions], [UpdateOptions] or [PatchOptions] without fields. *)
Definition noOptions : json := JObj [].

(** The calls of the typed client that the generated reconcilers make. *)
Definition getter_Get (n : string) : W → W * result GoError R := Get resource n noOptions.
Definition updater_UpdateStatus (existing : R) : W → W * result GoError R := UpdateStatus resource existing noOptions.
Definition patcher_Patch (resourceName patch : string) : W → W * result GoError R :=
  Patch resource resourceName MergePatchType patch noOptions [].

(** The reconcilers' clients, with these calls; the others are as they were. *)
Definition typedClients : Clients W R := {|
  client_Get := getter_Get;
  client_UpdateStatus := updater_UpdateStatus;
  client_Patch := patcher_Patch;
  lister_Get := lister_Get;
  lister_List := lister_List;
  recorder_Event := recorder_Event;
  IsLeaderFor := IsLeaderFor;
  RetryUpdateConflicts := RetryUpdateConflicts;
  SplitMetaNamespaceKey := SplitMetaNamespaceKey
|}.

(** ** Its requests *)

(** What a reconciliation may send: gets by name, updates of the status alone, by the
    subresource, of an object that was read, and merge patches of the finalizers. *)
Inductive read (x : R) : Prop :=
  | read_lister n w : lister_Get n w = Ok x → read x
  | read_server n w : (Get resource n noOptions w).2 = Ok x → read x.
Inductive allowed : Request R → Prop :=
  | allowed_Get n : allowed (VersionedParams (PGet noOptions) (Name n (request GET resource)))
  | allowed_UpdateStatus x st : read x →
      allowed (WithBody (BObject (with_status x st)) (VersionedParams (PUpdate noOptions)
        (SubResource ["status"] (Name (om_Name (objectMeta (with_status x st))) (request PUT resource)))))
  | allowed_Patch n finalizers version :
      allowed (WithBody (BBytes (jsonText (finalizersPatch finalizers version))) (VersionedParams (PPatch noOptions)
        (SubResource [] (Name n (request (PATCH MergePatchType) resource))))).

(** The requests that have been sent, which recording an event and retrying add
    nothing to, nor do the handlers, who use other clients. *)
Variable sent : W → list (Request R).
Hypothesis Do_sent : ∀ q w, sent (Do_Into q w).1 = sent w ++ [q].
Hypothesis recorder_sent : ∀ m t reason msg w, sent (recorder_Event m t reason msg w) = sent w.
Hypothesis Retry_sent : ∀ f w, rtc (λ w1 w2, ∃ n, sent w2 = sent (f n w1).1) w (RetryUpdateConflicts f w).1.

Definition silent (h : doReconcile (W := W) (R := R)) : Prop :=
  ∀ o w, sent (match h o w with Handled w _ _ => w | HandlerPanics w => w end) = sent w.
Definition silent_handlers (r : reconcilerImpl W R) : Prop :=
  silent (ReconcileKind (reconciler r)) ∧
  (∀ h, FinalizeKind (reconciler r) = Some h → silent h) ∧
  (∀ h, ObserveKind (reconciler r) = Some h → silent h) ∧
  (∀ del ns n w, ObserveDeletion (reconciler r) = Some del → sent (del ns n w).1 = sent w).

Definition sends (w w' : W) : Prop := ∃ l, sent w' = sent w ++ l ∧ Forall allowed l.

Lemma sends_none w w' : sent w' = sent w → sends w w'.
Proof using. intros Es. exists []. by rewrite app_nil_r. Qed.
Lemma sends_trans w1 w2 w3 : sends w1 w2 → sends w2 w3 → sends w1 w3.
Proof using.
  intros (l1 & E1 & H1) (l2 & E2 & H2). exists (l1 ++ l2). rewrite E2, E1, app_assoc.
  split; [done|by apply Forall_app].
Qed.
Lemma sends_one q w : allowed q → sends w (Do_Into q w).1.
Proof using Do_sent. intros H. exists [q]. by rewrite Do_sent, Forall_singleton. Qed.

#[local] Existing Instance typedClients | 0.
#[local] Hint Resolve sends_none sends_one : core.

Lemma updateFinalizers_sends r o fs w :
  sends w (updateFinalizersFiltered (CL := typedClients) r o fs w).1.
Proof using Do_sent recorder_sent.
  unfold updateFinalizersFiltered. destruct (newFinalizers _ _ _) as [finalizers|]; [|by apply sends_none].
  cbn [client_Patch typedClients recorder_Event]. unfold patcher_Patch.
  match goal with |- context [Patch ?a ?b ?c ?d ?e ?f ?w] =>
    assert (sends w (Patch a b c d e f w).1) as H by (apply sends_one, allowed_Patch);
    destruct (Patch a b c d e f w) as [w1 [x|err]] end;
  cbn [fst] in *; (eapply sends_trans; [exact H|]; by apply sends_none, recorder_sent).
Qed.

Lemma attempt_sends existing desired n w : read existing →
  sends w (updateStatus_attempt (CL := typedClients) existing desired n w).1.
Proof using Do_sent.
  intros Hr. unfold updateStatus_attempt. cbn [client_Get client_UpdateStatus typedClients]. unfold getter_Get, updater_UpdateStatus.
  assert (∀ x w, read x → sends w
    (if Semantic_DeepEqual (status x) (status desired) then (w, None)
     else match UpdateStatus resource (with_status x (status desired)) noOptions w with
          | (w, Ok _) => (w, None) | (w, Err err) => (w, Some err) end).1) as Hup.
  { intros x w1 Hx. destruct (Semantic_DeepEqual _ _); [by apply sends_none|].
    pose proof (sends_one _ w1 (allowed_UpdateStatus x (status desired) Hx)) as H.
    unfold UpdateStatus. by destruct (Do_Into _ w1) as [w2 [y|err]]. }
  destruct (0 <? n)%nat; [|by apply Hup].
  pose proof (sends_one _ w (allowed_Get (om_Name (objectMeta desired)))) as H.
  destruct (Get resource (om_Name (objectMeta desired)) noOptions w) as [w1 [x|err]] eqn:Eg; unfold Get in Eg; rewrite Eg in H; [|exact H].
  eapply sends_trans; [exact H|]. apply Hup. eapply (read_server x _ w). unfold Get. by rewrite Eg.
Qed.

Lemma updateStatus_sends existing desired w : read existing →
  sends w (updateStatus (CL := typedClients) existing desired w).1.
Proof using Do_sent Retry_sent.
  intros Hr. unfold updateStatus. cbn [RetryUpdateConflicts typedClients].
  induction (Retry_sent (updateStatus_attempt (CL := typedClients) existing desired) w) as [w1|w1 w2 w3 [n Hn] _ IH];
    [by apply sends_none|].
  eapply sends_trans; [|exact IH]. destruct (attempt_sends existing desired n w1 Hr) as (l & El & Hl).
  exists l. by rewrite Hn.
Qed.

Lemma setFinalizer_sends r o w : sends w (setFinalizerIfFinalizer (CL := typedClients) r o w).1.
Proof using Do_sent recorder_sent.
  unfold setFinalizerIfFinalizer. destruct (FinalizeKind _); [apply updateFinalizers_sends|by apply sends_none].
Qed.
Lemma clearFinalizer_sends r o ev w : sends w (clearFinalizer (CL := typedClients) r o ev w).1.
Proof using Do_sent recorder_sent.
  unfold clearFinalizer. destruct (FinalizeKind _); [|by apply sends_none].
  destruct (isNil _); [by apply sends_none|apply updateFinalizers_sends].
Qed.

Definition worldOf (e : ended W) : W := match e with Returns w _ => w | Panics w => w end.

Lemma runMethod_sends r s o w : silent_handlers r → s_roi s = ObserveKind (reconciler r) →
  let (m, do) := reconcileMethodFor r s o in
  sends w (match runMethod (CL := typedClients) r m do o w with
           | inl (Handled w _ _) => w | inl (HandlerPanics w) => w | inr (w, _) => w end).
Proof using Do_sent recorder_sent.
  intros (Hrec & Hfin & Hobs & _) Hroi.
  assert (∀ h o w, silent h → sends w (match h o w with Handled w _ _ => w | HandlerPanics w => w end)) as Hsil.
  { intros h o' w' Hh. by apply sends_none, Hh. }
  unfold reconcileMethodFor. destruct (om_DeletionTimestamp (objectMeta o)).
  - destruct (FinalizeKind (reconciler r)) as [fin|] eqn:Ef; [|by apply sends_none].
    destruct (isLeader s); [|by apply sends_none]. cbn [runMethod].
    pose proof (Hsil fin o w (Hfin fin eq_refl)) as H. destruct (fin o w) as [w1 x ev|w1]; [|done].
    pose proof (clearFinalizer_sends r x ev w1) as H'.
    destruct (clearFinalizer r x ev w1) as [w2 [y|err]]; cbn [fst] in H'; by eapply sends_trans.
  - destruct (isLeader s).
    + cbn [runMethod]. pose proof (setFinalizer_sends r o w) as H.
      destruct (setFinalizerIfFinalizer r o w) as [w1 [x|err]]; [|done]. cbn [fst] in H.
      set (x' := if skipStatusUpdates r then x else PreProcessReconcile x).
      pose proof (Hsil _ x' w1 Hrec) as H'.
      destruct (GenReconciler.ReconcileKind (reconciler r) x' w1) as [w2 y ev|w2]; by eapply sends_trans.
    + destruct (s_roi s) as [h|] eqn:Es; [|by apply sends_none]. cbn [runMethod].
      by apply Hsil, Hobs.
Qed.

Lemma reportEvent_sends x ev w : sends w (worldOf (reportEvent (CL := typedClients) x ev w)).
Proof using recorder_sent.
  unfold reportEvent. repeat case_match; cbn [worldOf]; apply sends_none; first [done|apply recorder_sent].
Qed.

Lemma synchronizeStatus_sends r s original x w : read original →
  sends w (synchronizeStatus (CL := typedClients) r s original x w).1.
Proof using Do_sent recorder_sent Retry_sent.
  intros Hr. unfold synchronizeStatus. destruct (skipStatusUpdates r); [by apply sends_none|].
  destruct (Semantic_DeepEqual _ _); [by apply sends_none|]. destruct (negb _); [by apply sends_none|].
  pose proof (updateStatus_sends original x w Hr) as H.
  destruct (updateStatus original x w) as [w1 [err|]]; cbn [fst] in *; [|done].
  eapply sends_trans; [exact H|]. apply sends_none, recorder_sent.
Qed.

(** C16: the generated reconcilers change nothing of a resource but its finalizers and
    its status: whatever their handlers do and however often a request is retried, all
    that a call of [Reconcile] sends by the client of its resource are gets by name,
    merge patches of the finalizers, and updates of the status subresource with an
    object that was read, only its status being another. So they never write the
    specification of a policy, by which the webhook judges. *)
Theorem Reconcile_requests (r : reconcilerImpl W R) (Hr : silent_handlers r) (k : string) (w : W) :
  sends w (worldOf (Reconcile (CL := typedClients) r k w)).
Proof using Do_sent recorder_sent Retry_sent.
  unfold Reconcile. unfold newState. destruct (SplitMetaNamespaceKey k) as [[ns n]|err]; [|by apply sends_none].
  cbn [s_name]. destruct (isNotLeaderNorObserver _); [by apply sends_none|].
  cbn [lister_Get typedClients]. destruct (lister_Get n w) as [original|err] eqn:El.
  2: { destruct (IsNotFound err); [|by apply sends_none]. unfold observeDeletion. cbn [s_namespace s_name].
       destruct Hr as (_ & _ & _ & Hdel). destruct (ObserveDeletion (reconciler r)) as [del|]; [|by apply sends_none].
       pose proof (Hdel del ns n w eq_refl) as H. destruct (del ns n w) as [w1 err1]. by apply sends_none. }
  pose proof (runMethod_sends r {| s_key := k; s_namespace := ns; s_name := n; s_roi := ObserveKind (reconciler r);
    isLeader := IsLeaderFor ns n w |} original w Hr eq_refl) as H.
  cbn [IsLeaderFor typedClients].
  destruct (reconcileMethodFor r _ original) as [m do].
  destruct (runMethod r m do original w) as [[w1 x ev|w1]|[w1 err]]; [|done..].
  assert (read original) as Hread by (by eapply read_lister).
  pose proof (synchronizeStatus_sends r {| s_key := k; s_namespace := ns; s_name := n; s_roi := ObserveKind (reconciler r);
    isLeader := IsLeaderFor ns n w |} original x w1 Hread) as H'.
  destruct (synchronizeStatus r _ original x w1) as [w2 [err|]]; cbn [fst worldOf] in *; [by eapply sends_trans|].
  eapply sends_trans; [exact H|]. eapply sends_trans; [exact H'|]. apply reportEvent_sends.
Qed.

End Reconciler.

(** * A concrete client *)

Module ToyRest.

#[local] Existing Instances ToyServer.errors ToyText.toyText.

(** An object: its metadata, and a status of one bit. *)
Definition object : Type := ObjectMeta * bool.
#[export] Instance resource : Resource object := {|
  objectMeta := fst;
  ResourceContent := unit;
  content _ := tt;
  ResourceStatus := bool;
  status := snd;
  with_status o s := (o.1, s);
  Semantic_DeepEqual := Bool.eqb;
  PreProcessReconcile o := o;
  PostProcessReconcile o _ := o
|}.

Definition stored : object :=
  ({| om_Name := "policy"; om_Namespace := ""; om_UID := ""; om_ResourceVersion := "1"; om_Generation := 1;
      om_Labels := ∅; om_DeletionTimestamp := None; om_Finalizers := [] |}, false).

(** The world is the requests that were sent, which are all answered. *)
Definition W : Type := list (Request object).
#[export] Instance rest : RestInterface W object := {|
  WatchInterface := unit;
  Do_Into q w := (w ++ [q], Ok stored);
  Do_Into_List q w := (w ++ [q], Ok [stored]);
  Do_Watch q w := (w ++ [q], Ok tt);
  Do_Error q w := (w ++ [q], None)
|}.
#[export] Instance base : Clients W object := {|
  client_Get _ w := (w, Err ToyServer.NotFound);
  client_UpdateStatus _ w := (w, Err ToyServer.NotFound);
  client_Patch _ _ w := (w, Err ToyServer.NotFound);
  lister_Get _ _ := Ok stored;
  lister_List _ := Ok [stored];
  recorder_Event _ _ _ _ w := w;
  IsLeaderFor _ _ _ := true;
  RetryUpdateConflicts f w := f 0%nat w;
  SplitMetaNamespaceKey k := Ok ("", k)
|}.

(** A reconciler that sets the status. *)
Definition reconciler : reconcilerImpl W object :=
  {| reconciler := {| ReconcileKind o w := Handled w (o.1, true) None;
                      FinalizeKind := Some (λ o w, Handled w o None);
                      ObserveKind := None; ObserveDeletion := None |};
     finalizerName := "clusterimagepolicies.policy.sigstore.dev"; skipStatusUpdates := false |}.

End ToyRest.

#[local] Existing Instances ToyServer.errors ToyText.toyText ToyRest.resource ToyRest.rest ToyRest.base.

(** It sends the patch of the finalizers and the update of the status. *)
Lemma Reconcile_requests_witness :
  let w := worldOf (Reconcile (CL := typedClients clusterimagepolicies) ToyRest.reconciler "policy" []) in
  (verb <$> w) = [PATCH MergePatchType; PUT] ∧ (subresource <$> w) = [[]; ["status"]] ∧
  Forall (allowed clusterimagepolicies) w.
Proof.
  destruct (Reconcile_requests (RI := ToyRest.rest) (CL := ToyRest.base) clusterimagepolicies (λ w : ToyRest.W, w) (λ q w, eq_refl) (λ m t reason msg w, eq_refl)
    (λ f w, rtc_once w (f 0%nat w).1 (ex_intro _ 0%nat eq_refl)) ToyRest.reconciler) with (k := "policy") (w := [] : ToyRest.W)
    as (l & El & Hl).
  - split_and!; [done|by intros h [= <-]|done|done].
  - cbv zeta. split; [vm_compute; reflexivity|]. split; [vm_compute; reflexivity|].
    change ([] ++ l) with l in El. rewrite <-El in Hl. exact Hl.
Defined.
