(* ===== verification/Azure.v ===== *)
(** The credential helper of Azure's registries
    (pkg/webhook/registryauth/azure/acrhelper.go). Azure's SDK and the parsing of URLs
    are an interface; what the helper asks of the SDK is recorded. *)

From S2P Require Import Prelude.
From S2P Require Import Pem.

Class AzureSDK := {
  (** [azidentity.NewDefaultAzureCredential], [GetToken] for scopes, [url.Parse] with
      the URL's text, and [GetFromExchange] at an endpoint, with the type of the
      grant, the service, the tenant and the access token *)
  NewDefaultAzureCredential : result string string;
  GetToken : string → list string → result string string;
  urlParse : string → result string string;
  GetFromExchange : string → string → string → string → string → result string string
}.

(** The requests to Azure. *)
Inductive Asked := Token (scopes : list string) | Exchange (endpoint service tenant token : string).

Section Helper.
Context `{A : AzureSDK}.
(** [os.Getenv]. *)
Variable getenv : string → string.

Definition isACR (registryURL : string) : bool := HasSuffix registryURL ".azurecr.io".

Definition Add : option string := Some "add is unimplemented".
Definition Delete (serverURL : string) : option string := Some "delete is unimplemented".
Definition List : result string (gmap string string) := Err "list is unimplemented".

Definition scope : string := "https://management.azure.com/.default".
Definition tokenUser : string := "00000000-0000-0000-0000-000000000000".

(** The user and the secret, or an error, and what was asked of Azure. *)
Definition Get (registryURL : string) : result string (string * string) * list Asked :=
  if negb (isACR registryURL) then (Err "not an ACR registry", []) else
  match NewDefaultAzureCredential with
  | Err err => (Err ("failed to obtain a credential: " +:+ err), [])
  | Ok azCred =>
  match GetToken azCred [scope] with
  | Err err => (Err ("failed to get token: " +:+ err), [Token [scope]])
  | Ok accessToken =>
  match urlParse ("https://" +:+ registryURL) with
  | Err err => (Err ("failed to parse registry URL: " +:+ err), [Token [scope]])
  | Ok registryWithScheme =>
  let tenantID := getenv "AZURE_TENANT_ID" in
  if tenantID ==s "" then (Err "AZURE_TENANT_ID environment variable not found", [Token [scope]]) else
  let asked := [Token [scope]; Exchange registryWithScheme registryURL tenantID accessToken] in
  match GetFromExchange registryWithScheme "access_token" registryURL tenantID accessToken with
  | Err err => (Err ("failed to get refresh token: " +:+ err), asked)
  | Ok refreshToken => (Ok (tokenUser, refreshToken), asked)
  end end end end.

(** The process's token is shown to registries of Azure only, and a credential is one
    that Azure gave in exchange for it. *)
Lemma Get_asks registryURL r asked : Get registryURL = (r, asked) →
  (isACR registryURL = false → asked = []) ∧
  (∀ endpoint service tenant token, Exchange endpoint service tenant token ∈ asked →
     service = registryURL ∧ urlParse ("https://" +:+ registryURL) = Ok endpoint ∧
     tenant = getenv "AZURE_TENANT_ID" ∧ tenant ≠ "") ∧
  (∀ user secret, r = Ok (user, secret) → user = tokenUser ∧
     ∃ endpoint token, Exchange endpoint registryURL (getenv "AZURE_TENANT_ID") token ∈ asked ∧
       GetFromExchange endpoint "access_token" registryURL (getenv "AZURE_TENANT_ID") token = Ok secret).
Proof.
  unfold Get. destruct (isACR registryURL); cbn [negb].
  2: { intros [= <- <-]. split; [done|]. split; [|done]. by intros ? ? ? ? ?%elem_of_nil. }
  destruct NewDefaultAzureCredential as [cred|]; [|intros [= <- <-]; split_and!; try done; by intros ? ? ? ? ?%elem_of_nil].
  destruct (GetToken cred [scope]) as [token|].
  2: { intros [= <- <-]. split_and!; try done. by intros ? ? ? ? [?|?%elem_of_nil]%elem_of_cons. }
  destruct (urlParse _) as [endpoint|] eqn:Eu.
  2: { intros [= <- <-]. split_and!; try done. by intros ? ? ? ? [?|?%elem_of_nil]%elem_of_cons. }
  destruct (String.eqb_spec (getenv "AZURE_TENANT_ID") "") as [_|Ht].
  { intros [= <- <-]. split_and!; try done. by intros ? ? ? ? [?|?%elem_of_nil]%elem_of_cons. }
  assert (∀ e s t k, Exchange e s t k ∈ [Token [scope]; Exchange endpoint registryURL (getenv "AZURE_TENANT_ID") token] →
    s = registryURL ∧ Ok endpoint = Ok (E := string) e ∧ t = getenv "AZURE_TENANT_ID" ∧ t ≠ "") as Hx.
  { by intros e s t k [[=]|[[= -> -> -> ->]|?%elem_of_nil]%elem_of_cons]%elem_of_cons. }
  destruct (GetFromExchange _ _ _ _ _) as [secret|] eqn:Ex; intros [= <- <-]; split_and!; try done.
  intros user secret' [= <- <-]. split; [done|]. exists endpoint, token. split; [right; left|done].
Qed.

End Helper.
