(* ===== verification/PolicyTester.v ===== *)
(** The library that checks an image against policies outside of a cluster
    (pkg/policy): reading documents of policies, validating and compiling them,
    and the verifier over the compiled policies. *)

From S2P Require Import Prelude.
From S2P Require Import Names.
From S2P Require Import FieldErrors.
From S2P Require Import PCConfig.
From S2P Require Import K8s.
From S2P Require Import Encoding.
From S2P Require Import Common.
From S2P Require Import Oci.
From S2P Require Import SigstoreKeys.
From S2P Require V1beta1.
From S2P Require V1alpha1.
From S2P Require Conversion.
From S2P Require Import WebhookTypes.
From S2P Require WebhookJSON.
From S2P Require GM.
From S2P Require Import Cosign.
From S2P Require Import ImagePolicies.
From S2P Require Import CheckOpts.
From S2P Require Import Results.
From S2P Require Import Authority.
From S2P Require Import Gather.
From S2P Require Import Policies.

(** An [error] that is not nil: a text, or a field error, whose pointer may be nil. *)
Inductive error `{FieldErrors} := ErrorText (msg : string) | ErrorField (fe : option FieldError).

Record GroupVersionKind := { gvk_Group : string; gvk_Version : string; gvk_Kind : string }.
#[export] Instance GroupVersionKind_eq_dec : EqDecision GroupVersionKind.
Proof. solve_decision. Defined.

(** The libraries: sigs.k8s.io/yaml into an [unstructured.Unstructured] and the
    accessors of the latter; encoding/json for the API types, into a zero value,
    with and without [DisallowUnknownFields], and for the metadata attached to a
    context, whose error is ignored; [%v] of a kind and of a field error. *)
Class Documents `{F : FieldErrors} := {
  Unstructured : Type;
  yaml_Unmarshal : string → result string Unstructured;
  GetAPIVersion : Unstructured → string;
  GetKind : Unstructured → string;
  GetName : Unstructured → string;
  GetNamespace : Unstructured → string;
  kindOf : Unstructured → GroupVersionKind;
  GVK_String : GroupVersionKind → string;
  json_Marshal_object : Unstructured → result string string;
  json_Decode_beta : string → result string V1beta1.ClusterImagePolicy;
  json_Decode_alpha : string → result string V1alpha1.ClusterImagePolicy;
  json_Unmarshal_beta : string → result string V1beta1.ClusterImagePolicy;
  json_Unmarshal_alpha : string → result string V1alpha1.ClusterImagePolicy;
  convert_TypeMeta : json → TypeMeta;
  convert_ObjectMeta : json → ObjectMeta;
  FieldError_Error : option FieldError → string
}.

(** Where documents come from: [os.ReadFile]; [http.NewRequestWithContext]'s
    check, [http.DefaultClient.Do] and reading the body of its response. *)
Record Sources := {
  os_ReadFile : string → result string string;
  NewRequest : string → option string;
  http_Do : string → result string (result string string)
}.

Definition BetaKind : GroupVersionKind :=
  {| gvk_Group := "policy.sigstore.dev"; gvk_Version := "v1beta1"; gvk_Kind := "ClusterImagePolicy" |}.
Definition AlphaKind : GroupVersionKind :=
  {| gvk_Group := "policy.sigstore.dev"; gvk_Version := "v1alpha1"; gvk_Kind := "ClusterImagePolicy" |}.
Definition SecretKind : GroupVersionKind :=
  {| gvk_Group := ""; gvk_Version := "v1"; gvk_Kind := "Secret" |}.

(** * parse.go and validate.go *)

Definition separator : string := String "010" ("---" +:+ String "010" "").

Section Documents.
Context `{N : NamePkg} `{P : Parsers} `{F : FieldErrors} `{M : K8sMeta} `{D : !Documents}.
Variable ValidResourceNames : gset string.

Fixpoint Parse_loop (docs : list (nat * string)) (objs : list Unstructured) :
    result error (list Unstructured) :=
  match docs with
  | [] => Ok objs
  | (i, doc) :: rest =>
      let doc := TrimSpace doc in
      if doc ==s "" then Parse_loop rest objs else
      match yaml_Unmarshal doc with
      | Err err => Err (ErrorText ("decoding object[" +:+ pretty i +:+ "]: " +:+ err))
      | Ok obj =>
          if GetAPIVersion obj ==s "" then
            Err (ErrorField (ViaIndex i (Some (ErrMissingField ["apiVersion"]))))
          else if GetName obj ==s "" then
            Err (ErrorField (ViaIndex i (Some (ErrMissingField ["metadata.name"]))))
          else Parse_loop rest (objs ++ [obj])
      end
  end.
Definition Parse (document : string) : result error (list Unstructured) :=
  Parse_loop (indexed (SplitOn document separator)) [].

(** The interface [crd]: what [validate] needs of a decoded object. *)
Record crd (T : Type) := {
  crd_decode : string → result string T;
  crd_SetDefaults : T → T;
  crd_Validate : Ctx → T → option FieldError
}.
Definition beta_crd : crd V1beta1.ClusterImagePolicy :=
  {| crd_decode := json_Decode_beta; crd_SetDefaults := V1beta1.SetDefaults;
     crd_Validate := V1beta1.Validate ValidResourceNames |}.
Definition alpha_crd : crd V1alpha1.ClusterImagePolicy :=
  {| crd_decode := json_Decode_alpha; crd_SetDefaults := V1alpha1.SetDefaults;
     crd_Validate := V1alpha1.Validate ValidResourceNames |}.

(** The pair (warns, err). *)
Definition validate {T} (ctx : Ctx) (uo : Unstructured) (v : crd T) : option error * option error :=
  match json_Marshal_object uo with
  | Err err => (None, Some (ErrorText ("unable to marshal: " +:+ err)))
  | Ok b =>
      match crd_decode T v b with
      | Err err => (None, Some (ErrorText ("unable to unmarshal: " +:+ err)))
      | Ok object =>
          match crd_Validate T v ctx (crd_SetDefaults T v object) with
          | Some ve =>
              (match Filter WarningLevel (Some ve) with
               | Some warnFE => Some (ErrorField (Some warnFE)) | None => None end,
               match Filter ErrorLevel (Some ve) with
               | Some errorFE => Some (ErrorField (Some errorFE)) | None => None end)
          | None => (None, None)
          end
      end
  end.

(** Each policy assigns both results. *)
Fixpoint Validate_loop (ctx : Ctx) (uol : list (nat * Unstructured)) (warns : option error) :
    option error * option error :=
  match uol with
  | [] => (warns, None)
  | (i, uo) :: rest =>
      if bool_decide (kindOf uo = BetaKind) then
        match validate ctx uo beta_crd with
        | (warns, Some err) => (warns, Some err)
        | (warns, None) => Validate_loop ctx rest warns
        end
      else if bool_decide (kindOf uo = AlphaKind) then
        match validate ctx uo alpha_crd with
        | (warns, Some err) => (warns, Some err)
        | (warns, None) => Validate_loop ctx rest warns
        end
      else if bool_decide (kindOf uo = SecretKind) then
        if GetNamespace uo !=s "cosign-system" then
          (warns, Some (ErrorField (ViaIndex i
             (Some (ErrInvalidValue (GetNamespace uo) "metadata.namespace" [])))))
        else Validate_loop ctx rest warns
      else (warns, Some (ErrorText ("unknown type: " +:+ GVK_String (kindOf uo))))
  end.

Definition ErrEmptyDocument : string := "document is required to create policy".

Definition Validate (ctx : Ctx) (document : string) : option error * option error :=
  if (String.length document =? 0)%nat then (None, Some (ErrorText ErrEmptyDocument)) else
  match Parse document with
  | Err err => (None, Some err)
  | Ok uol => Validate_loop ctx (indexed uol) None
  end.

(** [convert] from an object. *)
Definition convert {T} (json_Unmarshal : string → result string T) (from : Unstructured) : result error T :=
  match json_Marshal_object from with
  | Err err => Err (ErrorText ("Marshal() = " +:+ err))
  | Ok bs => map_err (λ err, ErrorText ("Unmarshal() = " +:+ err)) (json_Unmarshal bs)
  end.

Definition zeroPolicy : V1alpha1.ClusterImagePolicy :=
  {| V1alpha1.cip_TypeMeta := {| Kind := ""; APIVersion := "" |};
     V1alpha1.cip_ObjectMeta := emptyObjectMeta; V1alpha1.Spec := Conversion.zeroSpec;
     V1alpha1.cip_Status := {| V1alpha1.duckStatus := {| ObservedGeneration := 0; Conditions := [] |} |} |}.

(** One pass of the loop: [None] for an object that is no policy. *)
Definition parsePolicy (obj : Unstructured) : result error (option V1alpha1.ClusterImagePolicy) :=
  match ParseGroupVersion (GetAPIVersion obj) with
  | Err err => Err (ErrorText ("error parsing apiVersion of: " +:+ err))
  | Ok (group, version) =>
      let gvk := {| gvk_Group := group; gvk_Version := version; gvk_Kind := GetKind obj |} in
      if bool_decide (gvk = BetaKind) then
        v1b1 ← convert json_Unmarshal_beta obj;
        Some <$> map_err ErrorText (Conversion.ConvertFrom zeroPolicy (Conversion.BetaCIP v1b1))
      else if bool_decide (gvk = AlphaKind) then Some <$> convert json_Unmarshal_alpha obj
      else Ok None
  end.

Fixpoint parsePolicies (ol : list Unstructured) (cips : list V1alpha1.ClusterImagePolicy) :
    result error (list V1alpha1.ClusterImagePolicy) :=
  match ol with
  | [] => Ok cips
  | obj :: rest =>
      match parsePolicy obj with
      | Err err => Err err
      | Ok None => parsePolicies rest cips
      | Ok (Some cip) => parsePolicies rest (cips ++ [cip])
      end
  end.

(** The warnings and, of (cips, err), the one that is not nil. *)
Definition ParseClusterImagePolicies (ctx : Ctx) (document : string) :
    option error * result error (list V1alpha1.ClusterImagePolicy) :=
  match Validate ctx document with
  | (warns, Some err) => (warns, Err err)
  | (warns, None) =>
      match Parse document with
      | Err err => (warns, Err err)
      | Ok ol => (warns, parsePolicies ol [])
      end
  end.

End Documents.

(** * policy.go *)

Record Source := { src_Data : string; src_Path : string; src_URL : string }.

(** A pointer to a slice: nil is not the empty slice. *)
Record Verification := { v_NoMatchPolicy : string; v_Policies : option (list Source) }.

Section Sources.
Context `{N : NamePkg} `{P : Parsers} `{F : FieldErrors} `{M : K8sMeta} `{D : !Documents}.
Variable ValidResourceNames : gset string.
Variable env : Sources.

Definition Error (e : error) : string :=
  match e with ErrorText msg => msg | ErrorField fe => FieldError_Error fe end.

(** The status of the response is not looked at. *)
Definition fetch (pd : Source) : result string string :=
  if src_Data pd !=s "" then Ok (src_Data pd)
  else if src_Path pd !=s "" then os_ReadFile env (src_Path pd)
  else if src_URL pd !=s "" then
    match NewRequest env (src_URL pd) with
    | Some err => Err err
    | None =>
        match http_Do env (src_URL pd) with
        | Err err => Err err
        | Ok body => body
        end
    end
  else Err "unsupported policy shape: &{  }".

(** The names of the fields that are set; [List] sorts them. *)
Definition fieldsSet (pd : Source) : list string :=
  (if src_Data pd !=s "" then ["data"] else []) ++
  (if src_Path pd !=s "" then ["path"] else []) ++
  (if src_URL pd !=s "" then ["url"] else []).

Definition Source_Validate (ctx : Ctx) (pd : Source) : option FieldError :=
  match fieldsSet pd with
  | [] => Some (ErrMissingOneOf ["data"; "path"; "url"])
  | [field] =>
      match fetch pd with
      | Err err => Some (newFieldError err [field])
      | Ok content =>
          match ParseClusterImagePolicies ValidResourceNames ctx content with
          | (_, Err err) => Some (ErrInvalidValue (Error err) field [])
          | (_, Ok _) => None
          end
      end
  | set => Some (ErrMultipleOneOf set)
  end.

Definition Verification_Validate (ctx : Ctx) (v : Verification) : option FieldError :=
  let errs := None in
  let policy := v_NoMatchPolicy v in
  let errs :=
    if (policy ==s "allow") || (policy ==s "deny") || (policy ==s "warn") then errs
    else if policy ==s "" then errs ⊕ Some (ErrMissingField ["noMatchPolicy"])
    else errs ⊕ Some (ErrInvalidValue policy "noMatchPolicy" []) in
  match v_Policies v with
  | None => errs ⊕ Some (ErrMissingField ["policies"])
  | Some policies => AlsoEach errs "policies" policies (Source_Validate ctx)
  end.

End Sources.

(** * verifier.go *)

Section Compile.
Context `{N : NamePkg} `{P : Parsers} `{F : FieldErrors} `{M : K8sMeta} `{D : !Documents}.
Variable ValidResourceNames : gset string.
Variable parseURL : string → result string URL.

(** The verifier: the writer of its warnings is the list its methods return. *)
Record impl := { verification : Verification; ipc : ImagePolicyConfig }.

(** What the webhook would hold of the policy: through JSON and back. *)
Definition roundtrip (cip : V1alpha1.ClusterImagePolicy) : result string ClusterImagePolicy :=
  map_err (append "Unmarshal() = ") (WebhookJSON.decode_ClusterImagePolicy parseURL
    (WebhookJSON.encode_ClusterImagePolicy (ConvertClusterImagePolicyV1alpha1ToWebhook cip))).

(** The policies so far and the warnings. *)
Definition addPolicy (acc : gmap string ClusterImagePolicy * list string)
    (cip : V1alpha1.ClusterImagePolicy) : gmap string ClusterImagePolicy * list string :=
  let '(policies, ww) := acc in
  let cip := V1alpha1.SetDefaults cip in
  let name := om_Name (V1alpha1.cip_ObjectMeta cip) in
  match policies !! name with
  | Some _ => (policies, ww ++ ["duplicate policy named " +:+ quote name +:+ ", skipping"])
  | None =>
      match roundtrip cip with
      | Err err => (policies, ww ++ ["roundtripping policy " +:+ err])
      | Ok compiled => (<[name := compiled]> policies, ww)
      end
  end.

(** [gather]: the loop over the sources. *)
Fixpoint gatherPolicies (env : Sources) (ctx : Ctx) (pol : list (nat * Source))
    (acc : gmap string ClusterImagePolicy * list string) :
    list string * result error ImagePolicyConfig :=
  match pol with
  | [] => (acc.2, Ok {| Policies := acc.1 |})
  | (i, p) :: rest =>
      match fetch env p with
      | Err err => (acc.2, Err (ErrorText err))
      | Ok content =>
          match ParseClusterImagePolicies ValidResourceNames ctx content with
          | (_, Err err) => (acc.2, Err (ErrorText ("parsing policies: " +:+ Error err)))
          | (warns, Ok l) =>
              let ww := match warns with
                | Some warns => acc.2 ++ ["policy " +:+ pretty i +:+ ": " +:+ Error warns]
                | None => acc.2 end in
              gatherPolicies env ctx rest (foldl addPolicy (acc.1, ww) l)
          end
      end
  end.

(** [None] is the panic of dereferencing nil policies. A source is fetched twice:
    when it is validated, and, in [env'], when it is compiled. *)
Definition Compile (env env' : Sources) (ctx : Ctx) (v : Verification) :
    option (list string * result error impl) :=
  match Verification_Validate ValidResourceNames env ctx v with
  | Some err => Some ([], Err (ErrorField (Some err)))
  | None =>
      match v_Policies v with
      | None => None
      | Some pol =>
          match gatherPolicies env' ctx (indexed pol) (∅, []) with
          | (ww, Err err) => Some (ww, Err err)
          | (ww, Ok c) => Some (ww, Ok {| verification := v; ipc := c |})
          end
      end
  end.

End Compile.

Section Verifier.
Context `{N : NamePkg} `{F : FieldErrors} `{P : Parsers} `{J : JsonText} `{C : Certs}
  `{T : CosignTypes} `{G : !Cosign} `{L : GM.LRU} `{M : K8sMeta} `{R : !Registry} `{HO : Host}
  `{D : !Documents}.

Definition getTypeMeta (ctx : WebhookCtx) : TypeMeta :=
  match GetIncludeTypeMeta ctx with
  | None => {| Kind := ""; APIVersion := "" |}
  | Some raw => convert_TypeMeta raw
  end.
Definition getObjectMeta (ctx : WebhookCtx) : ObjectMeta :=
  match GetIncludeObjectMeta ctx with
  | None => emptyObjectMeta
  | Some raw => convert_ObjectMeta raw
  end.

(** The loop over the errors of a policy without a result: what it warns of, and
    the error it returns. *)
Fixpoint surfaceErrors (errs : list goError) (ww : list string) : list string * option error :=
  match errs with
  | [] => (ww, None)
  | FieldErr fe :: rest =>
      let ww := match Filter WarningLevel (Some fe) with
        | Some warnFE => ww ++ [FieldError_Error (Some warnFE)] | None => ww end in
      match Filter ErrorLevel (Some fe) with
      | Some errorFE => (ww, Some (ErrorField (Some errorFE)))
      | None => surfaceErrors rest ww
      end
  | PlainError msg :: _ => (ww, Some (ErrorText msg))
  end.

(** The loop over the matching policies, in the order the map is ranged over. *)
Fixpoint verifyMatches (depth : nat) (s : Schedule) (ctx : WebhookCtx) (ref : Reference)
    (kc : KeychainOptions) (opts : list RemoteOption) (matches : list (string * ClusterImagePolicy))
    (ww : list string) : list string * option error :=
  match matches with
  | [] => (ww, None)
  | (name, p) :: rest =>
      match ValidatePolicy depth (sub s name) ctx "" ref p kc opts with
      | (Some _, _) => verifyMatches depth s ctx ref kc opts rest ww
      | (None, errs) =>
          match surfaceErrors errs ww with
          | (ww, Some err) => (ww, Some err)
          | (ww, None) => verifyMatches depth s ctx ref kc opts rest ww
          end
      end
  end.

Definition Verify (depth : nat) (s : Schedule) (ctx : WebhookCtx) (i : impl) (ref : Reference)
    (kc : KeychainOptions) (opts : list RemoteOption) : list string * option error :=
  let tm := getTypeMeta ctx in
  let om := getObjectMeta ctx in
  let order := shuffle (here (sub s "matching")) (map_to_list (Policies (ipc i))) in
  match GetMatchingPolicies (Some (ipc i)) order (Name ref) (Kind tm) (APIVersion tm) (om_Labels om) with
  | (_, Some err) => ([], Some (ErrorText err))
  | (matches, None) =>
      let policy := v_NoMatchPolicy (verification i) in
      let uncovered := RefString ref +:+ " is uncovered by policy" in
      let continue ww := verifyMatches depth (sub s "policies") ctx ref kc
        (opts ++ [WithAuthFromKeychain kc])
        (shuffle (here (sub s "policies")) (map_to_list matches)) ww in
      if (size matches =? 0)%nat then
        if policy ==s "allow" then ([], None)
        else if policy ==s "warn" then continue [uncovered]
        else if policy ==s "deny" then ([], Some (ErrorText uncovered))
        else ([], Some (ErrorText ("unsupported noMatchPolicy: " +:+ quote policy)))
      else continue []
  end.

End Verifier.
