(* ===== verification/PolicyTesterSpec.v ===== *)
(** What the library that checks images outside of a cluster promises: which
    documents it accepts, what it compiles them to, and that the webhook admits
    the images it accepts. *)

From S2P Require Import Prelude.
From S2P Require Import Names.
From S2P Require Import FieldErrors.
From S2P Require Import PCConfig.
From S2P Require Import K8s.
From S2P Require Import Encoding.
From S2P Require Import Common.
From S2P Require Import Oci.
From S2P Require Import SigstoreKeys.
From S2P Require V1beta1.
From S2P Require V1alpha1.
From S2P Require Conversion.
From S2P Require Import WebhookTypes.
From S2P Require WebhookJSON.
From S2P Require GM.
From S2P Require Import Cosign.
From S2P Require Import ImagePolicies.
From S2P Require Import CheckOpts.
From S2P Require Import Results.
From S2P Require Import Authority.
From S2P Require Import Gather.
From S2P Require Import Policies.
From S2P Require Import PoliciesSpec.
From S2P Require Import PolicyTester.

#[local] Set Default Proof Using "Type*".

(** * Documents *)

(** What the libraries document: an object's kind is that of its apiVersion and
    kind, and decoding without unknown fields is decoding. *)
Class DocumentLaws `{M : K8sMeta} `{D : Documents} : Prop := {
  kindOf_spec u : kindOf u = match ParseGroupVersion (GetAPIVersion u) with
    | Ok (g, v) => {| gvk_Group := g; gvk_Version := v; gvk_Kind := GetKind u |}
    | Err _ => {| gvk_Group := ""; gvk_Version := ""; gvk_Kind := "" |} end;
  Decode_Unmarshal_beta b o : json_Decode_beta b = Ok o → json_Unmarshal_beta b = Ok o;
  Decode_Unmarshal_alpha b o : json_Decode_alpha b = Ok o → json_Unmarshal_alpha b = Ok o
}.

Section Documents.
Context `{N : NamePkg} `{P : Parsers} `{F : FieldErrors} `{M : K8sMeta} `{D : !Documents}.
Variable ValidResourceNames : gset string.

Abbreviation Validate := (Validate ValidResourceNames).
Abbreviation Validate_loop := (Validate_loop ValidResourceNames).

(** The object decodes, and its defaulted form passes validation. *)
Definition decodesTo {T} (v : crd T) (uo : Unstructured) (o : T) : Prop :=
  ∃ b, json_Marshal_object uo = Ok b ∧ crd_decode T v b = Ok o.
Definition valid_as {T} (ctx : Ctx) (v : crd T) (uo : Unstructured) : Prop :=
  ∃ o, decodesTo v uo o ∧ Accepts (crd_Validate T v ctx (crd_SetDefaults T v o)).

Definition acceptable (ctx : Ctx) (uo : Unstructured) : Prop :=
  (kindOf uo = BetaKind ∧ valid_as ctx (beta_crd ValidResourceNames) uo) ∨
  (kindOf uo = AlphaKind ∧ valid_as ctx (alpha_crd ValidResourceNames) uo) ∨
  (kindOf uo = SecretKind ∧ GetNamespace uo = "cosign-system").

Lemma validate_accepts {T} ctx uo (v : crd T) : (validate ctx uo v).2 = None ↔ valid_as ctx v uo.
Proof.
  unfold validate, valid_as, decodesTo. destruct (json_Marshal_object uo) as [b|err].
  2: { split; [done|]. by intros (o & (b & Hb & _) & _). }
  destruct (crd_decode T v b) as [o|err] eqn:Ho.
  2: { split; [done|]. intros (o & (b' & [= <-] & Ho') & _). congruence. }
  transitivity (Accepts (crd_Validate T v ctx (crd_SetDefaults T v o))).
  - destruct (crd_Validate _ _ _ _) as [ve|]; cbn; [|by rewrite Accepts_nil].
    pose proof (Filter_None ErrorLevel (Some ve)) as Hf. unfold Accepts, Rejects.
    destruct (Filter ErrorLevel (Some ve)); cbn; rewrite <-Hf; done.
  - split; [eauto|]. intros (o' & (b' & [= <-] & Ho') & Ha). congruence.
Qed.

Lemma kinds_differ : BetaKind ≠ AlphaKind ∧ BetaKind ≠ SecretKind ∧ AlphaKind ≠ SecretKind.
Proof. by split_and!. Qed.

#[local] Ltac kinds := pose proof kinds_differ; intuition congruence.

Lemma Validate_loop_accepts ctx uol warns :
  (Validate_loop ctx uol warns).2 = None ↔ Forall (λ '(_, uo), acceptable ctx uo) uol.
Proof.
  revert warns. induction uol as [|[i uo] uol IH]; intros warns; [by split|].
  rewrite Forall_cons. cbn [Validate_loop snd]. unfold acceptable at 1.
  case_bool_decide as Hb.
  { pose proof (validate_accepts ctx uo (beta_crd ValidResourceNames)) as Hv. rewrite Hb.
    destruct (validate ctx uo _) as [w [err|]]; cbn in Hv |- *; rewrite ?IH, <-Hv; kinds. }
  case_bool_decide as Ha.
  { pose proof (validate_accepts ctx uo (alpha_crd ValidResourceNames)) as Hv. rewrite Ha.
    destruct (validate ctx uo _) as [w [err|]]; cbn in Hv |- *; rewrite ?IH, <-Hv; kinds. }
  case_bool_decide as Hs; [rewrite Hs|]; [|cbn; kinds].
  destruct (String.eqb_spec (GetNamespace uo) "cosign-system") as [Hn|Hn]; cbn [negb];
    rewrite ?IH; cbn; kinds.
Qed.

Lemma tester_Validate_iff (ctx : Ctx) (document : string) :
  (Validate ctx document).2 = None ↔
  document ≠ "" ∧ ∃ uol, Parse document = Ok uol ∧ Forall (acceptable ctx) uol.
Proof.
  unfold PolicyTester.Validate. destruct (Nat.eqb_spec (String.length document) 0) as [H0|H0].
  { destruct document; [|done]. split; [done|by intros []]. }
  assert (document ≠ "") as Hne by (by intros ->).
  destruct (Parse document) as [uol|err].
  - rewrite Validate_loop_accepts, Forall_indexed. split; [|intros (_ & ? & [= <-] & ?); done]. eauto.
  - split; [done|]. by intros (_ & ? & ? & _).
Qed.

(** A document is accepted exactly if it is not empty, it parses, and each of
    its objects is a ClusterImagePolicy that decodes without unknown fields and is
    valid once defaulted, as on admission, or a Secret of the namespace
    cosign-system. *)
Theorem tester_Validate_spec (ctx : Ctx) (document : string) :
  (Validate ctx document).2 = None ↔
  document ≠ "" ∧ ∃ uol, Parse document = Ok uol ∧ Forall (acceptable ctx) uol.
Proof. apply tester_Validate_iff. Qed.

(** The warnings of a document are those of its last policy. *)
Lemma Validate_loop_last ctx uol i uo warns : kindOf uo = BetaKind ∨ kindOf uo = AlphaKind →
  (Validate_loop ctx (uol ++ [(i, uo)]) warns).2 = None →
  (Validate_loop ctx (uol ++ [(i, uo)]) warns).1 = (Validate_loop ctx [(i, uo)] None).1.
Proof.
  intros Hk. revert warns. induction uol as [|[j u] uol IH]; intros warns; cbn [app].
  - cbn [Validate_loop]. repeat case_bool_decide; try (by destruct (validate ctx uo _) as [w [e|]]); kinds.
  - set (last := (Validate_loop ctx [(i, uo)] None).1) in *. cbn [Validate_loop].
    repeat case_bool_decide; [| | |done].
    1,2: destruct (validate ctx u _) as [w [e|]]; [done|]; apply IH.
    destruct (negb _); [done|]. apply IH.
Qed.

End Documents.

(** * Compiling *)

Section Compile.
Context `{N : NamePkg} `{P : Parsers} `{F : FieldErrors} `{M : K8sMeta} `{D : !Documents}.
Context `{DL : !DocumentLaws}.
Variable ValidResourceNames : gset string.
Variable parseURL : string → result string URL.
Hypothesis parseURL_String : ∀ u, parseURL (urlString u) = Ok u.

Abbreviation ParseClusterImagePolicies := (ParseClusterImagePolicies ValidResourceNames).
Abbreviation addPolicy := (addPolicy parseURL).
Abbreviation Compile := (Compile ValidResourceNames parseURL).

Definition policyName (cip : V1alpha1.ClusterImagePolicy) : string :=
  om_Name (V1alpha1.cip_ObjectMeta cip).

(** What the webhook holds of the defaulted policy, if it can read it. *)
Definition webhookForm (cip : V1alpha1.ClusterImagePolicy) : result string ClusterImagePolicy :=
  WebhookJSON.populate (ConvertClusterImagePolicyV1alpha1ToWebhook (V1alpha1.SetDefaults cip)).
Definition formNamed (name : string) (cip : V1alpha1.ClusterImagePolicy) : option ClusterImagePolicy :=
  if policyName cip ==s name then match webhookForm cip with Ok p => Some p | Err _ => None end else None.

Lemma roundtrip_webhookForm cip :
  roundtrip parseURL (V1alpha1.SetDefaults cip) = map_err (append "Unmarshal() = ") (webhookForm cip).
Proof. unfold roundtrip. by rewrite WebhookJSON.decode_encode_ClusterImagePolicy. Qed.

(** The first policy of a name that can be read is kept. *)
Lemma addPolicies_lookup cips m ww name :
  (foldl addPolicy (m, ww) cips).1 !! name =
  match m !! name with Some p => Some p | None => head (omap (formNamed name) cips) end.
Proof.
  revert m ww. induction cips as [|cip cips IH]; intros m ww; cbn [foldl omap list_omap].
  { cbn. by destruct (m !! name). }
  unfold PolicyTester.addPolicy at 2. cbv zeta. rewrite roundtrip_webhookForm.
  change (om_Name (V1alpha1.cip_ObjectMeta (V1alpha1.SetDefaults cip))) with (policyName cip).
  unfold formNamed at 1. destruct (String.eqb_spec (policyName cip) name) as [->|Hne].
  - destruct (m !! name) as [p|] eqn:Hm; [by rewrite IH, Hm|].
    destruct (webhookForm cip) as [p|err]; cbn [map_err]; rewrite IH, ?Hm; [|done].
    by rewrite lookup_insert_eq.
  - destruct (m !! policyName cip); [by rewrite IH|].
    destruct (webhookForm cip) as [p|err]; cbn [map_err]; rewrite IH; [|done].
    by rewrite lookup_insert_ne.
Qed.

Lemma parsePolicies_sound ol cips l : parsePolicies ol cips = Ok l →
  ∀ cip, cip ∈ l → cip ∈ cips ∨ ∃ uo, uo ∈ ol ∧ parsePolicy uo = Ok (Some cip).
Proof.
  revert cips. induction ol as [|uo ol IH]; intros cips; cbn [parsePolicies]; [intros [= ->]; by left|].
  destruct (parsePolicy uo) as [[c|]|err] eqn:Hp; [| |done]; intros Hl cip Hin;
    destruct (IH _ Hl cip Hin) as [Hc|(u & Hu & Hpu)]; try (right; exists u; by split; [right|]); [|by left].
  apply elem_of_app in Hc as [?| ->%list_elem_of_singleton]; [by left|].
  right. exists uo. split; [by left|done].
Qed.

(** The policy is what an object decodes to, or the conversion of that, and the
    object is valid once defaulted, in its own version. *)
Definition validated (ctx : Ctx) (cip : V1alpha1.ClusterImagePolicy) : Prop :=
  (∃ uo o, decodesTo (beta_crd ValidResourceNames) uo o ∧
     Accepts (V1beta1.Validate ValidResourceNames ctx (V1beta1.SetDefaults o)) ∧
     Conversion.ConvertFrom zeroPolicy (Conversion.BetaCIP o) = Ok cip) ∨
  (∃ uo, decodesTo (alpha_crd ValidResourceNames) uo cip ∧
     Accepts (V1alpha1.Validate ValidResourceNames ctx (V1alpha1.SetDefaults cip))).

Lemma parsePolicy_validated ctx uo cip : acceptable ValidResourceNames ctx uo →
  parsePolicy uo = Ok (Some cip) → validated ctx cip.
Proof.
  intros Hacc. unfold parsePolicy. pose proof (kindOf_spec uo) as Hk.
  destruct (ParseGroupVersion (GetAPIVersion uo)) as [[g v]|err]; [|done]. rewrite <-Hk. clear Hk.
  pose proof kinds_differ as (Hba & Hbs & Has).
  case_bool_decide as Hb; [|case_bool_decide as Ha; [|done]].
  - destruct Hacc as [[_ Hv]|[[? _]|[? _]]]; [|congruence..]. destruct Hv as (o & (b & Hm & Hd) & Hok).
    unfold convert. rewrite Hm. rewrite (Decode_Unmarshal_beta b o Hd). intros [= <-].
    left. exists uo, o. split; [by exists b|done].
  - destruct Hacc as [[? _]|[[_ Hv]|[? _]]]; [congruence| |congruence].
    destruct Hv as (o & (b & Hm & Hd) & Hok).
    unfold convert. rewrite Hm. rewrite (Decode_Unmarshal_alpha b o Hd). intros [= <-].
    right. exists uo. split; [by exists b|done].
Qed.

(** The policies of a source, each of which has been validated. *)
Definition policiesOf (env : Sources) (ctx : Ctx) (p : Source)
    (l : list V1alpha1.ClusterImagePolicy) : Prop :=
  (∃ content warns, fetch env p = Ok content ∧ ParseClusterImagePolicies ctx content = (warns, Ok l)) ∧
  Forall (validated ctx) l.

Lemma ParseClusterImagePolicies_sound ctx content warns l :
  ParseClusterImagePolicies ctx content = (warns, Ok l) →
  Forall (validated ctx) l.
Proof.
  unfold PolicyTester.ParseClusterImagePolicies.
  pose proof (tester_Validate_iff ValidResourceNames ctx content) as Hv.
  destruct (Validate ValidResourceNames ctx content) as [w [err|]]; [done|].
  destruct Hv as [(_ & uol & Hp & Hacc) _]; [done|]. rewrite Hp. intros [= _ Hl].
  apply Forall_forall. intros cip Hin.
  destruct (parsePolicies_sound _ _ _ Hl cip Hin) as [Hn|(uo & Hu & Hpu)]; [by apply elem_of_nil in Hn|].
  rewrite Forall_forall in Hacc. by eapply parsePolicy_validated; [apply Hacc|].
Qed.

Lemma gatherPolicies_sound env ctx pol acc ww c :
  gatherPolicies ValidResourceNames parseURL env ctx pol acc = (ww, Ok c) →
  ∃ ls, Forall2 (policiesOf env ctx) pol.*2 ls ∧
    ∀ name, Policies c !! name =
      match acc.1 !! name with Some p => Some p | None => head (omap (formNamed name) (concat ls)) end.
Proof.
  revert acc. induction pol as [|[i p] pol IH]; intros [m w]; cbn [gatherPolicies].
  { intros [= _ <-]. exists []. split; [constructor|]. intros name. cbn. by destruct (m !! name). }
  destruct (fetch env p) as [content|err] eqn:Hf; [|done].
  destruct (ParseClusterImagePolicies ctx content) as [warns [l|err]] eqn:Hp; [|done].
  intros (ls & Hls & Hlook)%IH. exists (l :: ls). split.
  - constructor; [|done]. split; [by eexists _, _|]. by eapply ParseClusterImagePolicies_sound.
  - intros name. rewrite Hlook, addPolicies_lookup. cbn [concat fst]. rewrite omap_app, head_app.
    by destruct (m !! name), (omap (formNamed name) l).
Qed.

(** C23: a compiled verifier holds, under each name, what the webhook would hold of
    the first policy of that name it can read, among the policies of the sources
    in order, each of which was decoded from an object that passed validation. *)
Theorem Compile_spec (env env' : Sources) (ctx : Ctx) (v : Verification) (ww : list string) (i : impl)
    (Hi : Compile env env' ctx v = Some (ww, Ok i)) :
  verification i = v ∧ ∃ pol ls, v_Policies v = Some pol ∧ Forall2 (policiesOf env' ctx) pol ls ∧
    ∀ name, Policies (ipc i) !! name = head (omap (formNamed name) (concat ls)).
Proof.
  unfold PolicyTester.Compile in Hi. destruct (Verification_Validate _ _ _ _); [done|].
  destruct (v_Policies v) as [pol|] eqn:Hpol; [|done].
  destruct (gatherPolicies _ _ _ _ _ _) as [w [c|err]] eqn:Hg; [|done]. injection Hi as <- <-.
  destruct (gatherPolicies_sound _ _ _ _ _ _ Hg) as (ls & Hls & Hlook).
  split; [done|]. exists pol, ls. by rewrite indexed_snd in Hls.
Qed.

Lemma compiled_verification env env' ctx v ww i : Compile env env' ctx v = Some (ww, Ok i) →
  verification i = v.
Proof using Type.
  unfold PolicyTester.Compile. destruct (Verification_Validate _ _ _ _); [done|].
  destruct (v_Policies v); [|done]. destruct (gatherPolicies _ _ _ _ _ _) as [w [c|err]]; [|done].
  by intros [= <- <-].
Qed.

Lemma gatherPolicies_ok env ctx pol acc :
  Forall (λ ip, Source_Validate ValidResourceNames env ctx ip.2 = None) pol →
  ∃ ww c, gatherPolicies ValidResourceNames parseURL env ctx pol acc = (ww, Ok c).
Proof using Type.
  revert acc. induction pol as [|[i p] pol IH]; intros acc; cbn [gatherPolicies]; [by eexists _, _|].
  rewrite Forall_cons. intros [Hp Hpol]. cbn in Hp. unfold Source_Validate in Hp.
  destruct (fieldsSet p) as [|f [|]]; [done| |done].
  destruct (fetch env p) as [content|err]; [|done].
  destruct (ParseClusterImagePolicies ctx content) as [warns [l|err]]; [|done]. by apply IH.
Qed.

(** Compiling never dereferences a nil list of policies, and, the sources being
    the same when they are fetched again, fails only for an invalid verification. *)
Theorem Compile_succeeds (env env' : Sources) (ctx : Ctx) (v : Verification) :
  Compile env env' ctx v ≠ None ∧
  (Verification_Validate ValidResourceNames env ctx v = None →
   ∃ ww i, Compile env env ctx v = Some (ww, Ok i)).
Proof using Type.
  unfold PolicyTester.Compile.
  assert (∀ e, Verification_Validate ValidResourceNames e ctx v = None → ∃ pol,
    v_Policies v = Some pol ∧ Forall (λ p, Source_Validate ValidResourceNames e ctx p = None) pol) as Hval.
  { intros e He. unfold Verification_Validate in He. destruct (v_Policies v) as [pol|].
    - exists pol. split; [done|]. by apply AlsoEach_None in He as [_ He].
    - by apply Also_None in He as [_ ?]. }
  split.
  - destruct (Verification_Validate _ env _ _) eqn:He; [done|].
    destruct (Hval env He) as (pol & -> & _). by destruct (gatherPolicies _ _ _ _ _ _) as [w [c|err]].
  - intros He. rewrite He. destruct (Hval env He) as (pol & -> & Hpol).
    destruct (gatherPolicies_ok env ctx (indexed pol) (∅, [])) as (ww & c & ->); [|by eexists _, _].
    rewrite <-indexed_snd, Forall_fmap in Hpol. exact Hpol.
Qed.

End Compile.

(** * Verifying, next to the webhook *)

Section Verifier.
Context `{N : NamePkg} `{F : FieldErrors} `{P : Parsers} `{J : JsonText} `{C : Certs}
  `{T : CosignTypes} `{G : !Cosign} `{L : GM.LRU} `{M : K8sMeta} `{R : !Registry} `{HO : Host}
  `{D : !Documents}.

(** An error of a policy that the verifier returns: any but a field error that is
    only a warning. *)
Definition surfaced (e : goError) : Prop :=
  match e with FieldErr fe => has ErrorLevel (Some fe) | PlainError _ => Logic.True end.

(** An error that the webhook does not count although it is no mere warning: one
    that is no field error, or a field error that also has a warning. *)
Definition discounted (e : goError) : Prop := surfaced e ∧ ¬ blocking e.

Lemma blocking_surfaced e : blocking e → surfaced e.
Proof.
  destruct e as [m|fe]; cbn; [done|]. intros Hw.
  by destruct (not_nil_has (Some fe)) as [?|?].
Qed.

Lemma surfaceErrors_spec errs ww : (surfaceErrors errs ww).2 = None ↔ ¬ Exists surfaced errs.
Proof.
  revert ww. induction errs as [|[m|fe] errs IH]; intros ww; rewrite ?Exists_nil, ?Exists_cons;
    cbn [surfaceErrors surfaced]; [by split; [intros _ []|]|naive_solver|].
  pose proof (Filter_None ErrorLevel (Some fe)) as Hf.
  destruct (Filter ErrorLevel (Some fe)); [naive_solver|]. rewrite IH. naive_solver.
Qed.

Lemma verifyMatches_spec depth s ctx ref kc opts matches ww :
  (verifyMatches depth s ctx ref kc opts matches ww).2 = None ↔
  Forall (λ '(name, p), (ValidatePolicy depth (sub s name) ctx "" ref p kc opts).1 = None →
    ¬ Exists surfaced (ValidatePolicy depth (sub s name) ctx "" ref p kc opts).2) matches.
Proof.
  revert ww. induction matches as [|[name p] matches IH]; intros ww; [by split|].
  rewrite Forall_cons. cbn [verifyMatches].
  destruct (ValidatePolicy _ _ _ _ _ _ _ _) as [[r|] errs]; cbn [fst snd]; [rewrite IH; naive_solver|].
  pose proof (surfaceErrors_spec errs ww) as Hs.
  destruct (surfaceErrors errs ww) as [ww' [err|]]; cbn [snd] in Hs |- *; [naive_solver|].
  rewrite IH. naive_solver.
Qed.

(** The policies that match in the verifier's context. *)
Definition testerMatches (s : Schedule) (ctx : WebhookCtx) (i : impl) (ref : Reference) :
    gmap string ClusterImagePolicy * option string :=
  GetMatchingPolicies (Some (ipc i))
    (shuffle (here (sub s "matching")) (map_to_list (Policies (ipc i)))) (Name ref)
    (Kind (getTypeMeta ctx)) (APIVersion (getTypeMeta ctx)) (om_Labels (getObjectMeta ctx)).

Lemma Verify_None depth s ctx i ref kc opts :
  (Verify depth s ctx i ref kc opts).2 = None ↔
  ∃ matches, testerMatches s ctx i ref = (matches, None) ∧
    (matches = ∅ → v_NoMatchPolicy (verification i) ∈ ["allow"; "warn"]) ∧
    map_Forall (λ name p,
      let v := verdict depth s ctx "" ref kc (opts ++ [WithAuthFromKeychain kc]) name p in
      v.1 = None → ¬ Exists surfaced v.2) matches.
Proof.
  unfold Verify. fold (testerMatches s ctx i ref). cbv zeta.
  destruct (testerMatches s ctx i ref) as [matches [err|]]; [naive_solver|].
  assert (∀ ww, (verifyMatches depth (sub s "policies") ctx ref kc (opts ++ [WithAuthFromKeychain kc])
    (shuffle (here (sub s "policies")) (map_to_list matches)) ww).2 = None ↔
    map_Forall (λ name p,
      let v := verdict depth s ctx "" ref kc (opts ++ [WithAuthFromKeychain kc]) name p in
      v.1 = None → ¬ Exists surfaced v.2) matches) as Hv.
  { intros ww. rewrite verifyMatches_spec, shuffle_Permutation, map_Forall_to_list. done. }
  destruct (Nat.eqb_spec (size matches) 0) as [Hz|Hz].
  - apply map_size_empty_inv in Hz as ->.
    destruct (String.eqb_spec (v_NoMatchPolicy (verification i)) "allow") as [->|Ha].
    { split; [|done]. intros _. exists ∅. split_and!; [done|by left|apply map_Forall_empty]. }
    destruct (String.eqb_spec (v_NoMatchPolicy (verification i)) "warn") as [->|Hw].
    { rewrite Hv. split; [|naive_solver]. intros H. exists ∅. split_and!; [done|by right; left|done]. }
    assert (v_NoMatchPolicy (verification i) ∉ ["allow"; "warn"]) as Hn by set_solver.
    destruct (_ ==s "deny"); (split; [done|]); intros (m & [= <-] & Hm & _); by destruct (Hn (Hm eq_refl)).
  - rewrite Hv. split; [|naive_solver]. intros H. exists matches. split_and!; [done| |done].
    intros ->. by rewrite map_size_empty in Hz.
Qed.

(** A policy none of whose errors is surfaced has a satisfied authority. *)
Lemma surfaced_satisfied depth s ctx ref kc opts name p : NoCancel s → cacheMiss ctx ref p →
  Mode p ≠ "warn" → Authorities p ≠ [] → Forall (answers ctx "" ref opts) (Authorities p) →
  (let v := verdict depth s ctx "" ref kc opts name p in v.1 = None → ¬ Exists surfaced v.2) →
  ∃ a m, a ∈ Authorities p ∧ authoritySatisfied ctx "" ref opts a m.
Proof.
  intros Hs Hmiss Hmode Hauth Hans Hv. cbv zeta in Hv. unfold verdict in Hv.
  destruct (ValidatePolicy _ _ _ _ _ _ _ _) as [[r|] errs] eqn:He.
  - apply (ValidatePolicy_Some _ _ _ _ _ _ _ _ _ _ Hmiss) in He.
    destruct (gatherAuthorities _ ctx "" ref p opts) as [errs' ms] eqn:Hg.
    destruct He as (_ & Hne & _). apply map_choose in Hne as (n & m & Hm).
    destruct (gatherAuthorities_sound (sub (sub s "policies") name) ctx "" ref p opts n m)
      as (a & Ha & _ & Hsat); [by rewrite Hg|]. by exists a, m.
  - exfalso. apply (Hv eq_refl). cbn [snd].
    eapply Exists_impl; [|apply blocking_surfaced].
    eapply failed_policy_blocks; [|done..]. by do 2 apply NoCancel_sub.
Qed.

Lemma uncovered_accepts ctx image field index :
  NoMatchPolicy (wc_pcConfig ctx) ∈ ["allow"; "warn"] ↔
  Accepts (setNoMatchingPoliciesError ctx image field index).
Proof.
  unfold setNoMatchingPoliciesError. cbv zeta. set (p := NoMatchPolicy _).
  unfold AllowAll, DenyAll, WarnAll.
  destruct (String.eqb_spec p "allow") as [->|Ha]; [rewrite Accepts_nil; set_solver|].
  destruct (String.eqb_spec p "deny") as [->|Hd].
  { unfold Accepts, Rejects. rewrite has_detailed. set_solver. }
  destruct (String.eqb_spec p "warn") as [->|Hw]; [rewrite Accepts_warning; set_solver|].
  unfold Accepts, Rejects. rewrite has_detailed. set_solver.
Qed.

(** C17: an image the verifier accepts is admitted by a webhook that has the same
    policies, the same answer to images no policy covers and the same context;
    and the converse holds unless a matching policy without a result has an error
    the webhook does not count. *)
Theorem tester_and_webhook (depth : nat) (s : Schedule) (ctx : WebhookCtx) (i : impl)
    (image field : string) (index : nat) (kc : KeychainOptions) (opts : list RemoteOption)
    (ref : Reference) (config : Config)
    (Hs : NoCancel s)
    (Hparse : ParseReference [] image = Ok ref)
    (Hconfig : tc_config (vc_trust (wc_verify ctx)) = Some config)
    (Hpolicies : cfg_ImagePolicyConfig config = Some (ipc i))
    (Huncovered : v_NoMatchPolicy (verification i) = NoMatchPolicy (wc_pcConfig ctx)) :
  let opts' := opts ++ [WithAuthFromKeychain kc] in
  let webhook := validateContainerImage depth s ctx image "" field index (Kind (getTypeMeta ctx))
    (APIVersion (getTypeMeta ctx)) (om_Labels (getObjectMeta ctx)) kc opts' in
  ((Verify depth s ctx i ref kc opts).2 = None → Accepts webhook) ∧
  (Accepts webhook →
   (∀ matches, testerMatches s ctx i ref = (matches, None) → map_Forall (λ name p,
      let v := verdict depth s ctx "" ref kc opts' name p in
      v.1 = None → ¬ Exists discounted v.2) matches) →
   (Verify depth s ctx i ref kc opts).2 = None).
Proof.
  cbv zeta. rewrite Verify_None.
  assert (matchingPolicies s config ref (Kind (getTypeMeta ctx)) (APIVersion (getTypeMeta ctx))
    (om_Labels (getObjectMeta ctx)) = testerMatches s ctx i ref) as Hm.
  { unfold matchingPolicies. by rewrite Hpolicies. }
  destruct (testerMatches s ctx i ref) as [matches [err|]] eqn:Ht.
  { split; [naive_solver|]. intros Ha. exfalso. apply Ha. unfold validateContainerImage.
    rewrite Hparse, Hconfig, Hm. unfold Rejects. by rewrite has_detailed. }
  destruct (decide (matches = ∅)) as [->|Hne].
  - unfold validateContainerImage. rewrite Hparse, Hconfig, Hm, Huncovered, map_size_empty. cbn [Nat.eqb negb].
    rewrite <-uncovered_accepts. split; [naive_solver|].
    intros Ha _. exists ∅. split_and!; [done|done|apply map_Forall_empty].
  - pose proof (image_rejected_lemma depth s ctx image "" field index _ _ _ kc
      (opts ++ [WithAuthFromKeychain kc]) ref config matches Hs Hparse Hconfig Hm Hne) as Hr.
    unfold Accepts. rewrite Hr. split.
    + intros (? & [= <-] & _ & Hf) (name & p & Hp & Hv & Hb). eapply (Hf name p Hp Hv).
      eapply Exists_impl; [exact Hb|]. apply blocking_surfaced.
    + intros Ha Hd. exists matches. split_and!; [done|done|]. intros name p Hp Hv Hx.
      apply (Hd matches eq_refl name p Hp Hv). apply Exists_exists in Hx as (e & He & Hse).
      apply Exists_exists. exists e. split; [done|]. split; [done|]. intros Hb. apply Ha.
      exists name, p. split_and!; [done|done|]. apply Exists_exists. by exists e.
Qed.

End Verifier.

(** * Concrete inputs *)

Module ToyTester.

#[local] Existing Instances ToyNames.names ToyParsers.parsers ToyMeta.meta ListFieldErrors.fieldErrors.

(** An object is its kind and name, separated by a space in a text. *)
Definition object (text : string) : result string (string * string) :=
  match SplitN2 text " " with [kind; name] => Ok (kind, name) | _ => Err "not an object" end.

Definition objectMeta (name : string) : ObjectMeta :=
  {| om_Name := name; om_Namespace := "cosign-system"; om_UID := ""; om_ResourceVersion := "";
     om_Generation := 0; om_Labels := ∅; om_DeletionTimestamp := None; om_Finalizers := [] |}.

(** A policy with an authority that lets every image of an organisation pass. *)
Definition alpha (name : string) : V1alpha1.ClusterImagePolicy :=
  {| V1alpha1.cip_TypeMeta := {| Kind := "ClusterImagePolicy"; APIVersion := "policy.sigstore.dev/v1alpha1" |};
     V1alpha1.cip_ObjectMeta := objectMeta name;
     V1alpha1.Spec := {| V1alpha1.Images := [{| V1alpha1.Glob := "ghcr.io/org/*" |}];
       V1alpha1.Authorities := [{| V1alpha1.auth_Name := ""; V1alpha1.Key := None; V1alpha1.Keyless := None;
         V1alpha1.Static := Some {| V1alpha1.Action := "pass"; V1alpha1.static_Message := "" |};
         V1alpha1.Sources := []; V1alpha1.CTLog := None; V1alpha1.Attestations := [];
         V1alpha1.auth_RFC3161Timestamp := None; V1alpha1.GMSignature := None;
         V1alpha1.SignatureFormat := "" |}];
       V1alpha1.spec_Policy := None; V1alpha1.Mode := ""; V1alpha1.spec_Match := [] |};
     V1alpha1.cip_Status := {| V1alpha1.duckStatus := {| ObservedGeneration := 0; Conditions := [] |} |} |}.

#[export] Instance documents : Documents := {|
  Unstructured := string * string;
  yaml_Unmarshal := object;
  GetAPIVersion u := if u.1 ==s "Secret" then "v1" else "policy.sigstore.dev/v1alpha1";
  GetKind u := u.1;
  GetName u := u.2;
  GetNamespace _ := "cosign-system";
  kindOf u := match ParseGroupVersion (if u.1 ==s "Secret" then "v1" else "policy.sigstore.dev/v1alpha1") with
    | Ok (g, v) => {| gvk_Group := g; gvk_Version := v; gvk_Kind := u.1 |}
    | Err _ => {| gvk_Group := ""; gvk_Version := ""; gvk_Kind := "" |} end;
  GVK_String k := gvk_Group k +:+ "/" +:+ gvk_Version k +:+ ", Kind=" +:+ gvk_Kind k;
  json_Marshal_object u := Ok (u.1 +:+ " " +:+ u.2);
  json_Decode_beta _ := Err "unknown field";
  json_Decode_alpha b := alpha ∘ snd <$> object b;
  json_Unmarshal_beta _ := Err "unknown field";
  json_Unmarshal_alpha b := alpha ∘ snd <$> object b;
  convert_TypeMeta _ := {| Kind := "Pod"; APIVersion := "v1" |};
  convert_ObjectMeta _ := emptyObjectMeta;
  FieldError_Error _ := "field error"
|}.
#[export] Instance documentLaws : DocumentLaws.
Proof. by split. Qed.

Definition env : Sources :=
  {| os_ReadFile f := if f ==s "policies.yaml" then Ok "ClusterImagePolicy second" else Err "no such file";
     NewRequest _ := None; http_Do _ := Err "offline" |}.

(** Two policies of one name and a secret, and a file with another policy. *)
Definition document : string :=
  Join ["ClusterImagePolicy first"; " "; "Secret key"; "ClusterImagePolicy first"] separator.
Definition verification : Verification :=
  {| v_NoMatchPolicy := "deny"; v_Policies := Some [
       {| src_Data := document; src_Path := ""; src_URL := "" |};
       {| src_Data := ""; src_Path := "policies.yaml"; src_URL := "" |}] |}.

Definition compiled : option (list string * result error impl) :=
  Compile ∅ (λ s, Ok {| urlString := s |}) env env emptyCtx verification.

End ToyTester.

#[local] Existing Instances ToyNames.names ToyParsers.parsers ToyCerts.certs ToyCosign.types
  ToyCosign.cosign ToyEnvelope.jsonText GM.ToyGM.lru_instance ToyMeta.meta
  ListFieldErrors.fieldErrors ToyWebhook.registry ToyWebhook.host ToyTester.documents ToyTester.documentLaws.

Lemma Compile_spec_witness :
  match ToyTester.compiled with
  | Some (_, Ok i) => ∃ ls, length ls = 2 ∧
      ∀ name, Policies (ipc i) !! name = head (omap (formNamed name) (concat ls))
  | _ => False
  end.
Proof.
  assert (match ToyTester.compiled with Some (_, Ok _) => true | _ => false end = true) as Hok
    by (vm_compute; reflexivity).
  destruct ToyTester.compiled as [[ww [i|e]]|] eqn:Hi; [|discriminate Hok..].
  destruct (Compile_spec ∅ (λ s, Ok {| urlString := s |}) (λ u, match u with {| urlString := s |} => eq_refl end)
    ToyTester.env ToyTester.env emptyCtx ToyTester.verification ww i Hi) as (_ & pol & ls & Hpol & Hls & Hlook).
  exists ls. split; [|exact Hlook]. injection Hpol as <-. symmetry. exact (Forall2_length _ _ _ Hls).
Defined.

Lemma Compile_succeeds_witness :
  ∃ ww i, ToyTester.compiled = Some (ww, Ok i).
Proof.
  apply (Compile_succeeds ∅ (λ s, Ok {| urlString := s |}) ToyTester.env ToyTester.env emptyCtx ToyTester.verification).
  vm_compute. reflexivity.
Defined.

Definition toyImpl (p : ClusterImagePolicy) : impl :=
  {| verification := ToyTester.verification; ipc := {| Policies := {[ "p" := p ]} |} |}.

Lemma tester_and_webhook_witness :
  (Verify 3 ToyWebhook.inOrder (ToyWebhook.ctx toyPolicies) (toyImpl toyPolicy) ToyWebhook.img ToyWebhook.kc []).2 = None ∧
  Accepts (validateContainerImage 3 ToyWebhook.inOrder (ToyWebhook.ctx toyPolicies) ToyWebhook.img ""
    "containers" 0 "" "" ∅ ToyWebhook.kc [WithAuthFromKeychain ToyWebhook.kc]).
Proof.
  assert (Verify 3 ToyWebhook.inOrder (ToyWebhook.ctx toyPolicies) (toyImpl toyPolicy) ToyWebhook.img
    ToyWebhook.kc [] = ([], None)) as Hv by (vm_compute; reflexivity).
  split; [rewrite Hv; reflexivity|].
  apply (tester_and_webhook 3 ToyWebhook.inOrder (ToyWebhook.ctx toyPolicies) (toyImpl toyPolicy)
    ToyWebhook.img "containers" 0 ToyWebhook.kc [] ToyWebhook.img (ToyWebhook.config toyPolicies)
    inOrder_NoCancel eq_refl eq_refl eq_refl eq_refl).
  rewrite Hv. reflexivity.
Defined.

(** An image that no policy of the verifier covers is refused. *)
Example tester_uncovered :
  notNil (Verify 3 ToyWebhook.inOrder (ToyWebhook.ctx toyPolicies) (toyImpl toyPolicy)
    "docker.io/library/app" ToyWebhook.kc []).2 = true.
Proof. vm_compute. reflexivity. Qed.
