(* ===== verification/Webhook.v ===== *)
(** The webhook's process (cmd/webhook/main.go): its settings, the resources it
    serves, and the contexts its stores give to the requests. At the end, what
    policies, reconciler and webhook promise together: from the policies that are
    admitted, through the ConfigMap, to the images of the workloads that are admitted;
    ProcessSpec completes it with main, the stores and the contexts of requests. *)

From S2P Require Import Prelude.
From S2P Require Import Names.
From S2P Require Import FieldErrors.
From S2P Require Import PCConfig.
From S2P Require Import K8s.
From S2P Require Import Encoding.
From S2P Require Import Common.
From S2P Require Import Oci.
From S2P Require Import SigstoreKeys.
From S2P Require V1alpha1.
From S2P Require Import WebhookTypes.
From S2P Require GM.
From S2P Require Import Cosign.
From S2P Require Import ImagePolicies.
From S2P Require Import CheckOpts.
From S2P Require Import Results.
From S2P Require Import Authority.
From S2P Require Import Gather.
From S2P Require Import Policies.
From S2P Require Import PoliciesSpec.
From S2P Require Import Workloads.
From S2P Require Import Validator.
From S2P Require Import ConfigMaps.
From S2P Require Import Lifecycle.
From S2P Require Reconcile.
From S2P Require ReconcileSpec.
From S2P Require Published.
From S2P Require PolicyTester.

#[local] Set Default Proof Using "Type*".

(** * Settings *)

Local Open Scope Z_scope.

(** [strconv.Atoi], of a 64-bit int: [None] is an error. *)
Fixpoint decimal (s : string) (acc : Z) : option Z :=
  match s with
  | EmptyString => Some acc
  | String c s' =>
      let n := Z.of_nat (nat_of_ascii c) in
      if (48 <=? n) && (n <=? 57) then decimal s' (10 * acc + (n - 48)) else None
  end.
Definition digits (s : string) : option Z := if s ==s "" then None else decimal s 0.
Definition Atoi (s : string) : option Z :=
  let v := match s with
    | String "-" s' => Z.opp <$> digits s'
    | String "+" s' => digits s'
    | _ => digits s
    end in
  v ≫= λ v, if (- 2 ^ 63 <=? v) && (v <? 2 ^ 63) then Some v else None.

(** [getenv] is [os.Getenv]: empty for a variable that is not set. *)
Definition envInt (getenv : string → string) (key : string) (def : Z) : Z :=
  let raw := getenv key in
  if raw ==s "" then def else
  match Atoi raw with
  | None => def
  | Some v => if v <? 0 then def else v
  end.

Definition DefaultCacheCapacity : Z := 4096.
Definition DefaultCacheTTLSeconds : Z := 30.
Definition Second : Z := 1000 * GM.Millisecond.

(** [time.Duration(n) * time.Second], in 64 bits. *)
Definition cacheCap (getenv : string → string) : Z := envInt getenv "GM_CACHE_CAPACITY" DefaultCacheCapacity.
Definition cacheTTL (getenv : string → string) : Z :=
  GM.wrap64 (envInt getenv "GM_CACHE_TTL_SECONDS" DefaultCacheTTLSeconds * Second).
Definition gmCache `{GM.LRU} (getenv : string → string) : GM.Cache :=
  GM.NewCache (cacheCap getenv) (cacheTTL getenv).

(** What a variable sets: the number it holds if that is not negative, else the
    default. A variable that is not set holds no number. *)
Inductive setting (raw : string) (def : Z) : Z → Prop :=
  | setting_given n : Atoi raw = Some n → 0 ≤ n → setting raw def n
  | setting_default : (∀ n, Atoi raw = Some n → n < 0) → setting raw def def.

Lemma envInt_setting getenv key def : setting (getenv key) def (envInt getenv key def).
Proof.
  unfold envInt. destruct (String.eqb_spec (getenv key) "") as [->|_].
  - by apply setting_default.
  - destruct (Atoi (getenv key)) as [v|] eqn:Hv; [|by apply setting_default; rewrite Hv].
    destruct (Z.ltb_spec v 0); [|by apply setting_given].
    apply setting_default. rewrite Hv. by intros n [= <-].
Qed.

Lemma setting_nonneg raw def n : 0 ≤ def → setting raw def n → 0 ≤ n.
Proof. by destruct 2. Qed.

Lemma wrap64_nonpos x : GM.wrap64 x ≤ 0 ↔ x mod 2 ^ 64 = 0 ∨ 2 ^ 63 ≤ x mod 2 ^ 64.
Proof.
  unfold GM.wrap64. rewrite Z.add_mod by lia. rewrite (Z.mod_small (2 ^ 63)) by lia.
  pose proof (Z.mod_pos_bound x (2 ^ 64)) as Hb.
  destruct (Z.lt_ge_cases (x mod 2 ^ 64) (2 ^ 63)).
  - rewrite Z.mod_small by lia. lia.
  - replace (x mod 2 ^ 64 + 2 ^ 63) with ((x mod 2 ^ 64 - 2 ^ 63) + 1 * 2 ^ 64) by lia.
    rewrite Z.mod_add, Z.mod_small by lia. lia.
Qed.

(** C40: each variable sets its number, or the default when it is not set, not a
    number or negative; the lifetime of the cache's entries is the int64 that wraps
    around from the nanoseconds of the seconds set, which are themselves as long as
    they fit; and the cache is disabled exactly by a capacity of zero or by a lifetime
    that, wrapped around, is not positive: as long as it fits, by zero seconds, and
    one second beyond, too. *)
Theorem cache_settings `{GM.LRU} (getenv : string → string) :
  ∃ capacity n, setting (getenv "GM_CACHE_CAPACITY") 4096 capacity ∧ setting (getenv "GM_CACHE_TTL_SECONDS") 30 n ∧
    let ns := n * 1000000000 in
    let ttl := cacheTTL getenv in
    - 2 ^ 63 ≤ ttl < 2 ^ 63 ∧ ttl mod 2 ^ 64 = ns mod 2 ^ 64 ∧
    (GM.c (gmCache getenv) = None ↔ capacity = 0 ∨ ns mod 2 ^ 64 = 0 ∨ 2 ^ 63 ≤ ns mod 2 ^ 64) ∧
    (GM.c (gmCache getenv) = None ∨ GM.c (gmCache getenv) = Some (GM.NewLRU capacity ttl)) ∧
    (n ≤ 9223372036 → ttl = ns ∧ (GM.c (gmCache getenv) = None ↔ capacity = 0 ∨ n = 0)) ∧
    (n = 9223372037 → ttl < 0 ∧ GM.c (gmCache getenv) = None).
Proof.
  set (capacity := cacheCap getenv). set (n := envInt getenv "GM_CACHE_TTL_SECONDS" DefaultCacheTTLSeconds).
  pose proof (envInt_setting getenv "GM_CACHE_CAPACITY" 4096 : setting _ _ capacity) as Hc.
  pose proof (envInt_setting getenv "GM_CACHE_TTL_SECONDS" 30 : setting _ _ n) as Hn.
  exists capacity, n. split; [done|]. split; [done|]. cbv zeta.
  apply setting_nonneg in Hc, Hn; [|lia..].
  assert (cacheTTL getenv = GM.wrap64 (n * 1000000000)) as Ht by done.
  assert (GM.c (gmCache getenv) = None ↔ capacity ≤ 0 ∨ cacheTTL getenv ≤ 0) as Hnone.
  { unfold gmCache, GM.NewCache. fold capacity.
    destruct (Z.leb_spec capacity 0), (Z.leb_spec (cacheTTL getenv) 0); cbn; split; intros; (done || lia). }
  assert (n ≤ 9223372036 → cacheTTL getenv = n * 1000000000) as Hfits.
  { intros Hle. rewrite Ht. apply GM.wrap64_id. lia. }
  split_and!.
  1, 2: rewrite Ht; unfold GM.wrap64; pose proof (Z.mod_pos_bound (n * 1000000000 + 2 ^ 63) (2 ^ 64)); lia.
  - rewrite Ht. unfold GM.wrap64. rewrite Zminus_mod_idemp_l. f_equal. lia.
  - rewrite Hnone, Ht, wrap64_nonpos. lia.
  - unfold gmCache, GM.NewCache. fold capacity. destruct (_ || _); [by left|by right].
  - intros Hle. split; [by apply Hfits|]. rewrite Hnone, Hfits by done. lia.
  - intros He. assert (cacheTTL getenv < 0) by (rewrite Ht, He; vm_compute; done).
    split; [done|]. apply Hnone. lia.
Qed.

Local Close Scope Z_scope.

(** * Resources *)

Inductive OperationType := Create | Update | Delete | Connect.
(** The duck types a resource is decoded to, and the wrappers that restrict its
    subresources and verbs. *)
Inductive Duck := DuckPod | DuckPodScalable | DuckWithPod | DuckCronJob.
Inductive GenericCRD := crdNoStatusUpdatesOrDeletes (d : Duck) | crdEphemeralContainers (d : Duck).

Definition SupportedSubResources (c : GenericCRD) : list string :=
  match c with
  | crdNoStatusUpdatesOrDeletes _ => [""]
  | crdEphemeralContainers _ => ["/ephemeralcontainers"; ""]
  end.
Definition SupportedVerbs (c : GenericCRD) : list OperationType :=
  match c with
  | crdNoStatusUpdatesOrDeletes _ => [Create; Update]
  | crdEphemeralContainers _ => [Create; Update]
  end.

Definition kind (group version kind : string) : PolicyTester.GroupVersionKind :=
  {| PolicyTester.gvk_Group := group; PolicyTester.gvk_Version := version; PolicyTester.gvk_Kind := kind |}.

Definition types : list (PolicyTester.GroupVersionKind * GenericCRD) :=
  [(kind "" "v1" "Pod", crdEphemeralContainers DuckPod);
   (kind "apps" "v1" "ReplicaSet", crdNoStatusUpdatesOrDeletes DuckPodScalable);
   (kind "apps" "v1" "Deployment", crdNoStatusUpdatesOrDeletes DuckPodScalable);
   (kind "apps" "v1" "StatefulSet", crdNoStatusUpdatesOrDeletes DuckPodScalable);
   (kind "apps" "v1" "DaemonSet", crdNoStatusUpdatesOrDeletes DuckWithPod);
   (kind "batch" "v1" "Job", crdNoStatusUpdatesOrDeletes DuckWithPod);
   (kind "batch" "v1" "CronJob", crdNoStatusUpdatesOrDeletes DuckCronJob);
   (kind "batch" "v1beta1" "CronJob", crdNoStatusUpdatesOrDeletes DuckCronJob)].

(** What [main] sets [common.ValidResourceNames] to. *)
Definition ValidResourceNames : gset string :=
  list_to_set ["replicasets"; "deployments"; "pods"; "cronjobs"; "jobs"; "statefulsets"; "daemonsets"].

(** The last letter of a kind, which decides its plural. *)
Definition regular (k : string) : bool :=
  match rev (list_ascii_of_string k) with
  | c :: _ => negb (Ascii.eqb c "s") && negb (Ascii.eqb c "y")
  | [] => false
  end.

(** The resources a policy may select are those the webhook serves: the names
    the validation of policies accepts are the plurals of the kinds the webhook is
    registered for, for the creation and the update of the resource itself.
    [meta.UnsafeGuessKindToResource] is known for a kind that ends neither in s
    nor in y: it is lower-cased and an s is added. *)
Theorem match_resources_served `{M : K8sMeta}
    (Hplural : ∀ k, regular k = true → UnsafeGuessKindToResource k = ToLower k +:+ "s") (r : string) :
  r ∈ ValidResourceNames ↔
  ∃ gvk crd, (gvk, crd) ∈ types ∧ UnsafeGuessKindToResource (PolicyTester.gvk_Kind gvk) = r ∧
    "" ∈ SupportedSubResources crd ∧ Create ∈ SupportedVerbs crd ∧ Update ∈ SupportedVerbs crd.
Proof.
  assert (Forall (λ t, UnsafeGuessKindToResource (PolicyTester.gvk_Kind t.1) =
    ToLower (PolicyTester.gvk_Kind t.1) +:+ "s") types) as Hp by (repeat constructor; by apply Hplural).
  assert (Forall (λ t, "" ∈ SupportedSubResources t.2 ∧ Create ∈ SupportedVerbs t.2 ∧
    Update ∈ SupportedVerbs t.2) types) as Hs by (repeat constructor; set_solver).
  assert (r ∈ ValidResourceNames ↔ r ∈ ((λ t, ToLower (PolicyTester.gvk_Kind t.1) +:+ "s") <$> types))
    as -> by (unfold ValidResourceNames; rewrite elem_of_list_to_set; cbn; set_solver).
  rewrite list_elem_of_fmap. rewrite Forall_forall in Hp, Hs. split.
  - intros ([gvk crd] & -> & Hin). exists gvk, crd. split; [done|]. split; [by apply Hp in Hin|].
    by apply Hs in Hin.
  - intros (gvk & crd & Hin & <- & _). exists (gvk, crd). split; [|done]. by apply Hp in Hin.
Qed.

(** * Contexts of requests *)

Section Contexts.
Context `{N : NamePkg} `{F : FieldErrors} `{P : Parsers} `{J : JsonText} `{C : Certs}
  `{T : CosignTypes} `{G : !Cosign} `{L : GM.LRU} `{M : K8sMeta} `{R : !Registry} `{HO : Host}
  `{RJ : ResourceJSON}.

(** What the two stores have loaded last, from the ConfigMaps
    config-image-policies, config-sigstore-keys and config-policy-controller. *)
Record Stores := {
  st_ImagePolicies : ImagePolicyConfig;
  st_SigstoreKeys : SigstoreKeysMap;
  st_PolicyController : PolicyControllerConfig
}.

(** [Store.Load] of pkg/apis/config. *)
Definition Load (st : Stores) : Config :=
  {| cfg_ImagePolicyConfig := Some (st_ImagePolicies st);
     cfg_SigstoreKeysConfig := Some (st_SigstoreKeys st) |}.

(** The callbacks that infuse the context of a request: for validation, the
    stores, the client of the HSM and the cache of what it verified, in the state
    the request finds them. The result cache of [ValidatePolicy] is not attached. *)
Definition validatingContext (st : Stores) (tufRoot : result string TrustedRoot)
    (gmClient : option GM.HSM) (gmState : GM.VerifyState) : WebhookCtx :=
  {| wc_verify := {| vc_trust := {| tc_pcConfig := st_PolicyController st; tc_config := Some (Load st);
                                   tufRoot := tufRoot |};
                     vc_gmClient := gmClient; vc_gmState := gmState |};
     wc_cache := None; wc_spec := None; wc_objectMeta := None; wc_typeMeta := None |}.

Lemma contextOf_verify rq w : wc_verify (contextOf rq w) = wc_verify (rq_ctx rq) ∧
  wc_cache (contextOf rq w) = wc_cache (rq_ctx rq).
Proof.
  destruct w; cbn [contextOf]; unfold includeAll, IncludeTypeMeta, IncludeObjectMeta, IncludeSpec;
    repeat case_match; done.
Qed.

(** An accepted image has matching policies, unless their search failed. *)
Lemma accepted_matches depth s ctx image ns field index kd apiVersion labels kc opts ref config :
  ParseReference [] image = Ok ref → tc_config (vc_trust (wc_verify ctx)) = Some config →
  Accepts (validateContainerImage depth s ctx image ns field index kd apiVersion labels kc opts) →
  ∃ policies, matchingPolicies s config ref kd apiVersion labels = (policies, None).
Proof.
  intros Hp Hc Ha. unfold validateContainerImage in Ha. rewrite Hp, Hc in Ha.
  destruct (matchingPolicies _ _ _ _ _ _) as [policies [err|]]; [|by eexists].
  exfalso. apply Ha. unfold Rejects. by rewrite has_detailed.
Qed.

Lemma matchingPolicies_applies s config c ref kd apiVersion labels policies :
  cfg_ImagePolicyConfig config = Some c →
  matchingPolicies s config ref kd apiVersion labels = (policies, None) →
  ∃ g v, ParseGroupVersion apiVersion = Ok (g, v) ∧
    let gvr := {| gvr_Group := g; gvr_Version := v; gvr_Resource := UnsafeGuessKindToResource kd |} in
    ∀ k p, policies !! k = Some p ↔ ImagePolicies.Policies c !! k = Some p ∧ applies (Name ref) gvr labels p.
Proof.
  intros Hc Hm. unfold matchingPolicies in Hm. rewrite Hc in Hm.
  destruct (ParseGroupVersion apiVersion) as [[g v]|err] eqn:Hgv.
  2: { unfold GetMatchingPolicies in Hm. by rewrite Hgv in Hm. }
  exists g, v. split; [done|]. cbv zeta.
  pose proof (GetMatchingPolicies_lemma c
    (shuffle (here (sub s "matching")) (map_to_list (ImagePolicies.Policies c))) (Name ref) kd apiVersion
    g v labels (shuffle_Permutation _ _) Hgv) as H.
  cbv zeta in H. rewrite Hm in H. destruct H as [Hdec Hr]. apply Hr.
  eapply map_Forall_impl; [by apply Hdec|]. intros k p [->|[-> _]]; by eexists.
Qed.

End Contexts.

(** * The whole system *)

Section EndToEnd.
Context `{N : NamePkg} `{F : FieldErrors} `{P : Parsers} `{J : JsonText} `{C : Certs}
  `{T : CosignTypes} `{G : !Cosign} `{L : GM.LRU} `{M : K8sMeta} `{R : !Registry} `{HO : Host}
  `{RJ : ResourceJSON} `{KM : Reconcile.KMSPkg} `{JP : JSONPatch} `{CS : ConditionSets}.
Context `{JL : !JSONPatchLaws} `{YL : !Published.YAMLLaws}.
Variable QuoteRune : Z → string.
Variable parseURL : string → result string URL.
Hypothesis parseURL_String : ∀ u, parseURL (urlString u) = Ok u.
Hypothesis PublicKeyPem_parses : ∀ signer pem,
  Reconcile.PublicKeyPem signer = Ok pem → is_Ok (UnmarshalPEMToPublicKey pem).

(** The system keeps its promise. Let the reconciler have maintained the
    ConfigMap of the policies, in any order of its calls, and the webhook have
    loaded it. If the webhook then admits a workload that is not exempt, every
    image of the workload is a digest reference, and, for every entry of the
    ConfigMap: the entry is the inlined form of an admitted policy of that name,
    as which the webhook holds it, and if the policy applies to the image and the workload, is not in warn mode
    and has authorities, then one of its authorities was satisfied for the image.
    This supposes that the request was not cancelled and that cosign answers. *)
Theorem admitted_images_satisfy_policies
    (admitted : V1alpha1.ClusterImagePolicy → Prop)
    (Hadmitted : ∀ cip, admitted cip →
       Published.validated ValidResourceNames cip ∧ Published.readable_sources cip)
    (past : list (option (gmap string string))) (live : gmap string string)
    (Hrun : Published.run QuoteRune admitted (Some live :: past))
    (order : list (string * string)) (Horder : order ≡ₚ map_to_list live)
    (st : Stores) (Hload : NewImagePoliciesConfigFromMap parseURL order = Ok (st_ImagePolicies st))
    (depth : nat) (s : Schedule) (Hs : NoCancel s)
    (rq : Request) (tufRoot : result string TrustedRoot) (gmClient : option GM.HSM) (gmState : GM.VerifyState)
    (Hctx : rq_ctx rq = validatingContext st tufRoot gmClient gmState)
    (w : Workload) (Hexempt : ¬ exempt rq w)
    (Haccepted : Accepts (Validate depth s rq w))
    (field : string) (i : nat) (image : string) (Himage : (field, (i, image)) ∈ podImages (podSpecOf w)) :
  let ns := getNamespace rq (om_Namespace (metaOf w)) in
  let opts := [WithAuthFromKeychain (keychainOptions ns (podSpecOf w))] in
  digestImage image ∧ ∃ ref g v, ParseReference [] image = Ok ref ∧
    ParseGroupVersion (APIVersion (typeOf w)) = Ok (g, v) ∧
    let gvr := {| gvr_Group := g; gvr_Version := v;
                  gvr_Resource := UnsafeGuessKindToResource (Kind (typeOf w)) |} in
    ∀ name text, live !! name = Some text → name ≠ "_example" →
    ∃ env cip cip' p, admitted cip ∧ om_Name (V1alpha1.cip_ObjectMeta cip) = name ∧
      ReconcileSpec.inlined env cip cip' ∧ text = Reconcile.entryText cip' ∧
      Published.webhookPolicy cip' = Ok p ∧ ImagePolicies.Policies (st_ImagePolicies st) !! name = Some p ∧
      (applies (Name ref) gvr (om_Labels (metaOf w)) p → Mode p ≠ "warn" → Authorities p ≠ [] →
       Forall (answers (contextOf rq w) ns ref opts) (Authorities p) →
       ∃ a m, a ∈ Authorities p ∧ authoritySatisfied (contextOf rq w) ns ref opts a m).
Proof.
  cbv zeta. set (ns := getNamespace rq (om_Namespace (metaOf w))).
  set (kc := keychainOptions ns (podSpecOf w)).
  destruct (contextOf_verify rq w) as [Hver Hcache]. rewrite Hctx in Hver, Hcache. cbn in Hcache.
  assert (tc_config (vc_trust (wc_verify (contextOf rq w))) = Some (Load st)) as Hconfig by by rewrite Hver.
  destruct (proj1 (admitted_workload_lemma depth s rq w) Haccepted) as [?|[_ Hall]]; [done|].
  rewrite Forall_forall in Hall. specialize (Hall _ Himage). destruct Hall as [Hdig Hacc].
  cbn [fst snd] in Hdig, Hacc. fold ns in Hacc. fold kc in Hacc. split; [done|].
  destruct Hdig as (ref & d & Hp & Hk).
  destruct (accepted_matches _ _ _ _ _ _ _ _ _ _ _ _ ref (Load st) Hp Hconfig Hacc) as [policies Hm].
  destruct (matchingPolicies_applies _ (Load st) (st_ImagePolicies st) _ _ _ _ _ eq_refl Hm)
    as (g & v & Hgv & Happ).
  exists ref, g, v. split; [done|]. split; [done|]. intros name text Ht Hne.
  destruct (Published.webhook_reads_lemma QuoteRune ValidResourceNames parseURL parseURL_String
    PublicKeyPem_parses admitted Hadmitted past live Hrun order Horder) as (c & Hc & Hpol).
  rewrite Hload in Hc. injection Hc as <-.
  destruct (Published.entry_readable QuoteRune ValidResourceNames PublicKeyPem_parses admitted Hadmitted past live Hrun name text Ht)
    as (env & cip & cip' & p & Had & Hn & Hi & Htext & Hweb).
  assert (ImagePolicies.Policies (st_ImagePolicies st) !! name = Some p) as Hlook.
  { apply Hpol. split; [done|]. exists env, cip, cip'. by rewrite <-Htext. }
  exists env, cip, cip', p. split_and!; [done..|]. intros Ha Hmode Hauth Hans.
  destruct (accepted_image_lemma depth _ _ image ns field i _ _ _ kc [WithAuthFromKeychain kc] ref (Load st)
    policies name p (NoCancel_sub _ _ (NoCancel_sub _ _ Hs)) Hp Hconfig Hm (proj2 (Happ name p) (conj Hlook Ha)) Hmode Hauth)
    as (r & _ & (a & m & Hin & Hsat & _) & _); [|done|done|by exists a, m].
  unfold cacheMiss. by rewrite Hcache.
Qed.

End EndToEnd.

(** * Concrete inputs *)

Module ToyProcess.

#[local] Existing Instances ToyNames.names ToyParsers.parsers ToyCerts.certs ToyCosign.types
  ToyCosign.cosign ToyText.toyText GM.ToyGM.lru_instance ListFieldErrors.fieldErrors
  PoliciesSpec.ToyWebhook.registry PoliciesSpec.ToyWebhook.host ToyValidator.resourceJSON
  ReconcileSpec.ToyCluster.kms RFC6902.jsonPatch RFC6902.laws LivingConditions.conditionSets
  Published.ToySystem.meta Published.ToySystem.laws.

(** A policy with a key of a key management service, reconciled once. *)
Definition cip : V1alpha1.ClusterImagePolicy := ReconcileSpec.ToyCluster.cip "policy"
  [ReconcileSpec.ToyCluster.authority (ReconcileSpec.ToyCluster.keyRef None "" "hashivault://k") "ghcr.io/sigs" []] None.
Definition admitted (c : V1alpha1.ClusterImagePolicy) : Prop :=
  Published.validated ValidResourceNames c ∧ Published.readable_sources c.
Definition reconciled : Reconcile.Reconciled := Reconcile.ReconcileKind (λ _, "")
  ReconcileSpec.ToyCluster.cluster (Published.ToySystem.fresh None) None cip.
Definition live : gmap string string := default ∅ (Reconcile.r_live reconciled).

Lemma process_run : Published.run (λ _, "") admitted [Some live; None].
Proof.
  assert (Some live = Reconcile.r_live reconciled) as -> by (vm_compute; reflexivity).
  apply Published.run_reconcile; [apply Published.run_start| |by intros cm [=]]. split.
  - exists emptyCtx. unfold Accepts, Rejects. apply (bool_decide_unpack _). vm_compute. reflexivity.
  - repeat constructor; intros _; by eexists.
Qed.

Definition parseURL (s : string) : result string URL := Ok {| urlString := s |}.
Definition st : Stores :=
  {| st_ImagePolicies := match NewImagePoliciesConfigFromMap parseURL (map_to_list live) with
       | Ok c => c | Err _ => {| ImagePolicies.Policies := ∅ |} end;
     st_SigstoreKeys := ∅; st_PolicyController := FromContextOrDefaults emptyCtx |}.
Definition request : Request :=
  {| rq_op := {| IsInCreate := true; IsInUpdate := false; IsInDelete := false;
                 IsInStatusUpdate := false; IsInSpec := false; cfgKey := None |};
     rq_body := None; rq_baseline := None;
     rq_ctx := validatingContext st (Err "offline") None {| GM.calls := 0; GM.cache := None |} |}.
(** What the webhook holds of the policy. *)
Definition held : ClusterImagePolicy :=
  match Published.webhookPolicy (ReconcileSpec.ToyCluster.cip "policy"
    [ReconcileSpec.ToyCluster.authority (ReconcileSpec.ToyCluster.keyRef None "PEM of hashivault://k" "")
       "ghcr.io/sigs" []] None) with
  | Ok p => p
  | Err _ => {| UID := ""; ResourceVersion := ""; Images := []; Authorities := []; cip_Policy := None;
                Mode := ""; cip_Match := [] |}
  end.
Definition image : string := "ghcr.io/org/app@sha256:d".
Definition pod : Workload := WPod (ToyValidator.pod image).

End ToyProcess.

#[local] Existing Instances ToyNames.names ToyParsers.parsers ToyCerts.certs ToyCosign.types
  ToyCosign.cosign ToyText.toyText GM.ToyGM.lru_instance ListFieldErrors.fieldErrors
  PoliciesSpec.ToyWebhook.registry PoliciesSpec.ToyWebhook.host ToyValidator.resourceJSON
  ReconcileSpec.ToyCluster.kms RFC6902.jsonPatch RFC6902.laws LivingConditions.conditionSets
  Published.ToySystem.meta Published.ToySystem.laws.

Lemma match_resources_served_witness :
  ∃ gvk crd, (gvk, crd) ∈ types ∧ ToLower (PolicyTester.gvk_Kind gvk) +:+ "s" = "cronjobs".
Proof.
  destruct (proj1 (match_resources_served (M := ToyMeta.meta) (λ k _, eq_refl) "cronjobs"))
    as (gvk & crd & Hin & Hr & _).
  - apply (bool_decide_unpack _). vm_compute. reflexivity.
  - exists gvk, crd. split; [exact Hin|exact Hr].
Defined.

Lemma admitted_images_satisfy_policies_witness :
  ∃ (p : ClusterImagePolicy) a m, a ∈ Authorities p ∧
    authoritySatisfied (contextOf ToyProcess.request ToyProcess.pod) "" (ToyProcess.image : Reference)
      [WithAuthFromKeychain (keychainOptions "" (podSpecOf ToyProcess.pod))] a m.
Proof.
  destruct (admitted_images_satisfy_policies (λ _, "") ToyProcess.parseURL
    (λ u, match u with {| urlString := s |} => eq_refl end) Published.ToyRun.kms_parses
    ToyProcess.admitted (λ c H, H) [None] ToyProcess.live ToyProcess.process_run
    (map_to_list ToyProcess.live) (reflexivity _) ToyProcess.st) with (depth := 3)
    (s := PoliciesSpec.ToyWebhook.inOrder) (rq := ToyProcess.request) (w := ToyProcess.pod)
    (field := "containers") (i := 0) (image := ToyProcess.image)
    (tufRoot := Err "offline" : result string TrustedRoot) (gmClient := None : option GM.HSM)
    (gmState := {| GM.calls := 0; GM.cache := None |} : GM.VerifyState)
    as (_ & ref & g & v & Hp & Hgv & H).
  - vm_compute. reflexivity.
  - exact PoliciesSpec.inOrder_NoCancel.
  - reflexivity.
  - intros [H|[H|[H|(ps & _ & _ & _ & H & _)]]]; try discriminate H. apply H. reflexivity.
  - apply None_Accepts. vm_compute. reflexivity.
  - vm_compute. left.
  - destruct (ToyProcess.live !! "policy") as [text|] eqn:Ht; [|vm_compute in Ht; discriminate Ht].
    destruct (H "policy" text Ht) as (env & cip & cip' & p & _ & _ & _ & _ & _ & Hlook & Hsat);
      [discriminate|]. exists p. clear H Ht.
    assert (Hm : option_map cip_Match (Some p) = Some []) by (rewrite <-Hlook; vm_compute; reflexivity).
    assert (Hi : option_map Images (Some p) = Some [{| V1alpha1.Glob := "ghcr.io/**" |}])
      by (rewrite <-Hlook; vm_compute; reflexivity).
    assert (Hd : option_map Mode (Some p) = Some "") by (rewrite <-Hlook; vm_compute; reflexivity).
    assert (Ha : option_map (λ p, Authorities p) (Some p) = Some (Authorities ToyProcess.held))
      by (rewrite <-Hlook; vm_compute; reflexivity).
    injection Hm as Hm. injection Hi as Hi. injection Hd as Hd. injection Ha as Ha.
    injection Hp as <-. rewrite Ha in *. apply Hsat.
    + split; [left; exact Hm|]. rewrite Hi. apply Exists_cons. left. split; [discriminate|].
      vm_compute. reflexivity.
    + rewrite Hd. discriminate.
    + vm_compute. discriminate.
    + let l := eval vm_compute in (Authorities ToyProcess.held) in change (Authorities ToyProcess.held) with l.
      apply Forall_cons_2; [|apply Forall_nil_2]. intros _ _ pull. vm_compute. discriminate.
Defined.
