(* ===== verification/Stores.v ===== *)
(** The stores of the configuration: how the webhook follows the three ConfigMaps that
    it reads (pkg/apis/config/store.go, pkg/config/store.go). knative's UntypedStore
    is an interface with the behaviour its documentation gives it. Main result: what
    a store serves is, for each of its ConfigMaps alone, the last version that could
    be read; and a store that follows the reconciler's ConfigMap serves its last
    version. *)

From S2P Require Import Prelude.
From S2P Require Import Names.
From S2P Require Import PCConfig.
From S2P Require Import K8s.
From S2P Require Import Encoding.
From S2P Require Import SigstoreKeys.
From S2P Require Import WebhookTypes.
From S2P Require Import ImagePolicies.
From S2P Require Import Controllers.

#[local] Set Default Proof Using "Type*".

(** * knative's store *)

(** The data of a ConfigMap, in the order in which the constructor ranges over it. *)
Definition Data : Type := list (string * string).
(** For the names of the ConfigMaps, the functions that make their values. *)
Definition Constructors (V : Type) : Type := list (string * (Data → result string V)).

(** The constructor of a ConfigMap. *)
Fixpoint constructor {V} (cs : Constructors V) (name : string) : option (Data → result string V) :=
  match cs with
  | [] => None
  | (n, f) :: cs => if name ==s n then Some f else constructor cs name
  end.

(** [OnConfigChanged] is [None] where the process ends with a fatal error. *)
Class UntypedStores := {
  UntypedStore : Type → Type;
  NewUntypedStore {V} : string → Constructors V → UntypedStore V;
  OnConfigChanged {V} : UntypedStore V → string → Data → option (UntypedStore V);
  UntypedLoad {V} : UntypedStore V → string → option V
}.

(** The stores made with the given constructors. *)
Inductive made `{U : UntypedStores} {V} (cs : Constructors V) : UntypedStore V → Prop :=
  | made_new label : made cs (NewUntypedStore label cs)
  | made_changed st name data st' : made cs st → OnConfigChanged st name data = Some st' → made cs st'.

(** Its documentation: "OnConfigChanged will invoke the mapped constructor against a
    Kubernetes ConfigMap. If successful it will be stored. If construction fails
    during the first appearance the store will log a fatal error. If construction
    fails while updating the store will log an error message." *)
Class UntypedStoreLaws (U : UntypedStores) := {
  load_new {V} label (cs : Constructors V) name : UntypedLoad (NewUntypedStore label cs) name = None;
  changed_read {V} (cs : Constructors V) st name data f v :
    made cs st → constructor cs name = Some f → f data = Ok v →
    ∃ st', OnConfigChanged st name data = Some st' ∧ UntypedLoad st' name = Some v ∧
      ∀ other, other ≠ name → UntypedLoad st' other = UntypedLoad st other;
  changed_first {V} (cs : Constructors V) st name data f err :
    made cs st → constructor cs name = Some f → f data = Err err → UntypedLoad st name = None →
    OnConfigChanged st name data = None;
  changed_later {V} (cs : Constructors V) st name data f err v :
    made cs st → constructor cs name = Some f → f data = Err err → UntypedLoad st name = Some v →
    ∃ st', OnConfigChanged st name data = Some st' ∧ ∀ other, UntypedLoad st' other = UntypedLoad st other
}.

(** ** A store and the changes it is told of *)

Section Changes.
Context `{U : UntypedStores} {V : Type}.

(** The changes, in order; [None] when one of them ended the process. *)
Fixpoint changes (st : UntypedStore V) (l : list (string * Data)) : option (UntypedStore V) :=
  match l with
  | [] => Some st
  | (name, data) :: l => st' ← OnConfigChanged st name data; changes st' l
  end.

(** For one ConfigMap: the last version that could be read, provided that the first
    could ([None] is the end of the process). *)
Fixpoint lastRead (f : Data → result string V) (v : option V) (l : list Data) : option (option V) :=
  match l with
  | [] => Some v
  | data :: l =>
      match f data, v with
      | Ok v', _ => lastRead f (Some v') l
      | Err _, Some v => lastRead f (Some v) l
      | Err _, None => None
      end
  end.

(** The versions of a ConfigMap among the changes. *)
Definition versions (name : string) (l : list (string * Data)) : list Data :=
  omap (λ c, if c.1 ==s name then Some c.2 else None) l.

Lemma versions_cons name n d l :
  versions name ((n, d) :: l) = if n ==s name then d :: versions name l else versions name l.
Proof using. unfold versions. cbn. by destruct (n ==s name). Qed.

Context {UL : UntypedStoreLaws U} (cs : Constructors V).

(** A store behaves as one cell per ConfigMap. *)
Lemma changes_lastRead l st :
  made cs st → Forall (λ c, is_Some (constructor cs c.1)) l →
  match changes st l with
  | Some st' => made cs st' ∧ ∀ name f, constructor cs name = Some f →
      lastRead f (UntypedLoad st name) (versions name l) = Some (UntypedLoad st' name)
  | None => ∃ name f, constructor cs name = Some f ∧
      lastRead f (UntypedLoad st name) (versions name l) = None
  end.
Proof.
  revert st. induction l as [|[name data] l IH]; intros st Hm Hl; [done|].
  apply Forall_cons in Hl as [[f Hf] Hl]. cbn [fst] in Hf. cbn [changes].
  assert (∀ st', OnConfigChanged st name data = Some st' →
    (∀ n g, constructor cs n = Some g →
      lastRead g (UntypedLoad st n) (versions n ((name, data) :: l)) =
      lastRead g (UntypedLoad st' n) (versions n l)) →
    match OnConfigChanged st name data ≫= λ st', changes st' l with
    | Some st' => made cs st' ∧ ∀ n g, constructor cs n = Some g →
        lastRead g (UntypedLoad st n) (versions n ((name, data) :: l)) = Some (UntypedLoad st' n)
    | None => ∃ n g, constructor cs n = Some g ∧
        lastRead g (UntypedLoad st n) (versions n ((name, data) :: l)) = None
    end) as Hstep.
  { intros st' Hst Heq. rewrite Hst. cbn [mbind option_bind].
    specialize (IH st' (made_changed cs st name data st' Hm Hst) Hl). destruct (changes st' l).
    - destruct IH as [IHm IH]. split; [done|]. intros n g Hg. by rewrite Heq, (IH n g Hg).
    - destruct IH as (n & g & Hg & Hn). exists n, g. by rewrite Heq. }
  destruct (f data) as [v|err] eqn:Ev.
  - destruct (changed_read cs st name data f v Hm Hf Ev) as (st' & Hst & Hload & Hother).
    apply (Hstep st' Hst). intros n g Hg. rewrite versions_cons.
    destruct (String.eqb_spec name n) as [<-|Hne]; [|by rewrite Hother by done].
    assert (g = f) as -> by congruence. cbn [lastRead]. by rewrite Ev, Hload.
  - destruct (UntypedLoad st name) as [v|] eqn:El.
    + destruct (changed_later cs st name data f err v Hm Hf Ev El) as (st' & Hst & Hother).
      apply (Hstep st' Hst). intros n g Hg. rewrite versions_cons, Hother.
      destruct (String.eqb_spec name n) as [<-|Hne]; [|done].
      assert (g = f) as -> by congruence. cbn [lastRead]. by rewrite Ev, El.
    + rewrite (changed_first cs st name data f err Hm Hf Ev El). cbn [mbind option_bind].
      exists name, f. split; [done|]. rewrite versions_cons, String.eqb_refl. cbn [lastRead]. by rewrite Ev, El.
Qed.

(** Versions that can all be read: the last is served. *)
Lemma lastRead_all f l v : Forall (λ d, is_Ok (f d)) l →
  lastRead f v l = Some (match last l with Some d => match f d with Ok v' => Some v' | Err _ => v end | None => v end).
Proof using.
  intros Hl. revert v. induction Hl as [|d l [w Hw] Hl IH]; intros v; [done|]. cbn [lastRead]. rewrite Hw, IH.
  destruct l as [|d' l]; [cbn; by rewrite Hw|]. rewrite last_cons_cons.
  destruct (last (d' :: l)) as [e|] eqn:He; [|by apply last_None in He].
  apply last_Some in He as [l' He]. rewrite He in Hl. apply Forall_app in Hl as [_ Hl].
  apply Forall_cons in Hl as [[u Hu] _]. by rewrite Hu.
Qed.

End Changes.

(** * The two stores *)

Section Stores.
Context `{N : NamePkg} `{P : Parsers} `{M : K8sMeta} `{U : UntypedStores} `{KF : KeysFormats}.
Variable parseURL : string → result string URL.

Definition NewImagePoliciesConfigFromConfigMap (data : Data) : result string ImagePolicyConfig :=
  NewImagePoliciesConfigFromMap parseURL data.
Definition NewSigstoreKeysFromConfigMap (data : Data) : result string SigstoreKeysMap :=
  NewSigstoreKeysFromMap data.
Definition NewPolicyControllerConfigOf (data : Data) : result string PolicyControllerConfig :=
  match NewPolicyControllerConfigFromConfigMap (list_to_map data) with
  | (c, None) => Ok c
  | (_, Some err) => Err err
  end.

(** ** pkg/apis/config *)

(** The types of the values of the store, which a type assertion distinguishes. *)
Inductive Stored := StoredPolicies (c : ImagePolicyConfig) | StoredKeys (m : SigstoreKeysMap).

Definition constructors : Constructors Stored :=
  [(ImagePoliciesConfigName, λ d, StoredPolicies <$> NewImagePoliciesConfigFromConfigMap d);
   (SigstoreKeysConfigName, λ d, StoredKeys <$> NewSigstoreKeysFromConfigMap d)].
Definition Store : Type := UntypedStore Stored.
Definition NewStore : Store := NewUntypedStore "image-policies" constructors.

(** [None] is the panic of a type assertion. *)
Definition Load (s : Store) : option Config :=
  match UntypedLoad s ImagePoliciesConfigName, UntypedLoad s SigstoreKeysConfigName with
  | Some (StoredPolicies c), Some (StoredKeys m) =>
      Some {| cfg_ImagePolicyConfig := Some c; cfg_SigstoreKeysConfig := Some m |}
  | _, _ => None
  end.

(** A request's context, as far as it holds the configuration. *)
Definition FromContext (ctx : option Config) : option Config := ctx.
Definition ToContext (ctx : option Config) (c : Config) : option Config := Some c.
Definition FromContextOrDefaults (ctx : option Config) : Config :=
  match FromContext ctx with
  | Some cfg => cfg
  | None =>
      {| cfg_ImagePolicyConfig := match NewImagePoliciesConfigFromMap parseURL [] with Ok c => Some c | Err _ => None end;
         cfg_SigstoreKeysConfig := match NewSigstoreKeysFromMap [] with Ok m => Some m | Err _ => None end |}
  end.
Definition Store_ToContext (s : Store) (ctx : option Config) : option (option Config) :=
  ToContext ctx <$> Load s.

(** ** pkg/config *)

Definition PolicyControllerConfigName : string := "config-policy-controller".
Definition pc_constructors : Constructors PolicyControllerConfig :=
  [(PolicyControllerConfigName, NewPolicyControllerConfigOf)].
Definition pc_Store : Type := UntypedStore PolicyControllerConfig.
Definition pc_NewStore : pc_Store := NewUntypedStore PolicyControllerConfigName pc_constructors.
Definition pc_Load (s : pc_Store) : option PolicyControllerConfig := UntypedLoad s PolicyControllerConfigName.
Definition pc_Store_ToContext (s : pc_Store) (ctx : Ctx) : option Ctx := PCConfig.ToContext ctx <$> pc_Load s.

(** * What the stores serve *)

Context {UL : UntypedStoreLaws U}.

Lemma lastRead_map {A B} (w : A → B) (f : Data → result string A) v l :
  lastRead (V := B) (λ d, w <$> f d) (option_map w v) l = option_map (option_map w) (lastRead f v l).
Proof using.
  revert v. induction l as [|d l IH]; intros v; [done|]. cbn. destruct (f d) as [a|err]; cbn.
  - by rewrite <-(IH (Some a)).
  - destruct v as [a|]; cbn; [by rewrite <-(IH (Some a))|done].
Qed.

(** Whatever is written to the ConfigMaps, readable or not. *)
Lemma NewStore_serves l :
  Forall (λ c, c.1 = ImagePoliciesConfigName ∨ c.1 = SigstoreKeysConfigName) l →
  let policies := lastRead NewImagePoliciesConfigFromConfigMap None (versions ImagePoliciesConfigName l) in
  let keys := lastRead NewSigstoreKeysFromConfigMap None (versions SigstoreKeysConfigName l) in
  match changes NewStore l with
  | Some s => ∃ c m, policies = Some c ∧ keys = Some m ∧
      Load s = match c, m with
               | Some c, Some m => Some {| cfg_ImagePolicyConfig := Some c; cfg_SigstoreKeysConfig := Some m |}
               | _, _ => None end
  | None => policies = None ∨ keys = None
  end.
Proof.
  intros Hl. cbv zeta. assert (Forall (λ c, is_Some (constructor constructors c.1)) l) as Hc.
  { eapply Forall_impl; [exact Hl|]. intros [n d] [->| ->]; by eexists. }
  pose proof (changes_lastRead constructors l NewStore (made_new _ _) Hc) as H.
  pose proof (lastRead_map StoredPolicies NewImagePoliciesConfigFromConfigMap None
    (versions ImagePoliciesConfigName l)) as Hp.
  pose proof (lastRead_map StoredKeys NewSigstoreKeysFromConfigMap None (versions SigstoreKeysConfigName l)) as Hk.
  cbn [option_map] in Hp, Hk.
  destruct (changes NewStore l) as [s|].
  - destruct H as [_ H]. unfold Load. pose proof (H ImagePoliciesConfigName _ eq_refl) as H1.
    pose proof (H SigstoreKeysConfigName _ eq_refl) as H2. unfold NewStore in H1, H2.
    rewrite load_new in H1, H2. rewrite Hp in H1. rewrite Hk in H2.
    destruct (lastRead NewImagePoliciesConfigFromConfigMap _ _) as [c|]; [|done].
    destruct (lastRead NewSigstoreKeysFromConfigMap _ _) as [m|]; [|done].
    injection H1 as <-. injection H2 as <-. exists c, m. split; [done|]. split; [done|].
    by destruct c, m.
  - destruct H as (n & f & Hf & H). unfold NewStore in H. rewrite load_new in H.
    unfold constructors, constructor in Hf.
    destruct (String.eqb_spec n ImagePoliciesConfigName) as [->|_].
    { injection Hf as <-. rewrite Hp in H. left. by destruct (lastRead _ _ _). }
    destruct (String.eqb_spec n SigstoreKeysConfigName) as [->|_]; [|done].
    injection Hf as <-. rewrite Hk in H. right. by destruct (lastRead _ _ _).
Qed.

Lemma pc_NewStore_serves l :
  Forall (λ c, c.1 = PolicyControllerConfigName) l →
  let config := lastRead NewPolicyControllerConfigOf None (versions PolicyControllerConfigName l) in
  match changes pc_NewStore l with
  | Some s => config = Some (pc_Load s)
  | None => config = None
  end.
Proof using UL.
  intros Hl. cbv zeta.
  assert (Forall (λ c, is_Some (constructor pc_constructors c.1)) l) as Hc.
  { eapply Forall_impl; [exact Hl|]. intros [n d] ->. by eexists. }
  pose proof (changes_lastRead pc_constructors l pc_NewStore (made_new _ _) Hc) as H.
  destruct (changes pc_NewStore l) as [s|].
  - destruct H as [_ H]. specialize (H PolicyControllerConfigName _ eq_refl). unfold pc_NewStore in H.
    by rewrite load_new in H.
  - destruct H as (n & f & Hf & H). unfold pc_NewStore in H. rewrite load_new in H.
    unfold pc_constructors, constructor in Hf.
    destruct (String.eqb_spec n PolicyControllerConfigName) as [->|_]; [by injection Hf as <-|done].
Qed.

(** C36: What the stores serve depends, for each ConfigMap, on its own versions only:
    it is the last version that could be read, so that a version that cannot be read
    changes nothing; the process ends when the first version of a ConfigMap cannot be
    read, and only then; and before a ConfigMap has been seen [Load] panics. *)
Theorem stores_serve_last_readable (l pl : list (string * Data))
    (Hl : Forall (λ c, c.1 = ImagePoliciesConfigName ∨ c.1 = SigstoreKeysConfigName) l)
    (Hpl : Forall (λ c, c.1 = PolicyControllerConfigName) pl) :
  let policies := lastRead NewImagePoliciesConfigFromConfigMap None (versions ImagePoliciesConfigName l) in
  let keys := lastRead NewSigstoreKeysFromConfigMap None (versions SigstoreKeysConfigName l) in
  let config := lastRead NewPolicyControllerConfigOf None (versions PolicyControllerConfigName pl) in
  match changes NewStore l with
  | Some s => ∃ c m, policies = Some c ∧ keys = Some m ∧
      Load s = match c, m with
               | Some c, Some m => Some {| cfg_ImagePolicyConfig := Some c; cfg_SigstoreKeysConfig := Some m |}
               | _, _ => None end
  | None => policies = None ∨ keys = None
  end ∧
  match changes pc_NewStore pl with
  | Some s => config = Some (pc_Load s)
  | None => config = None
  end.
Proof. split; [by apply NewStore_serves|by apply pc_NewStore_serves]. Qed.

End Stores.
Arguments Stored : clear implicits.

(** * A concrete store *)

Module ToyStores.

Record toyStore (V : Type) := { ts_constructors : Constructors V; ts_values : gmap string V }.
Arguments ts_constructors {V}. Arguments ts_values {V}.

Definition toy_changed {V} (st : toyStore V) (name : string) (data : Data) : option (toyStore V) :=
  match constructor (ts_constructors st) name, ts_values st !! name with
  | Some f, old =>
      match f data, old with
      | Ok v, _ => Some {| ts_constructors := ts_constructors st; ts_values := <[name := v]> (ts_values st) |}
      | Err _, Some _ => Some st
      | Err _, None => None
      end
  | None, _ => Some st
  end.

#[export] Instance stores : UntypedStores := {|
  UntypedStore := toyStore;
  NewUntypedStore V _ cs := {| ts_constructors := cs; ts_values := ∅ |};
  OnConfigChanged := @toy_changed;
  UntypedLoad V st name := ts_values st !! name
|}.

Lemma made_constructors {V} (cs : Constructors V) st : made cs st → ts_constructors st = cs.
Proof.
  induction 1 as [label|st name data st' Hm IH Hst]; [done|]. cbn in Hst. unfold toy_changed in Hst.
  split_matches; by simplify_eq.
Qed.

#[export] Instance laws : UntypedStoreLaws stores.
Proof.
  split; cbn.
  - done.
  - intros V cs st name data f v Hm Hf Hd. unfold toy_changed. rewrite (made_constructors cs st Hm), Hf, Hd.
    eexists. split; [done|]. cbn. split; [apply lookup_insert_eq|]. intros other Ho. by apply lookup_insert_ne.
  - intros V cs st name data f err Hm Hf Hd Hl. unfold toy_changed.
    by rewrite (made_constructors cs st Hm), Hf, Hd, Hl.
  - intros V cs st name data f err v Hm Hf Hd Hl. unfold toy_changed.
    rewrite (made_constructors cs st Hm), Hf, Hd, Hl. by eexists.
Qed.

(** A reader of keys that reads none. *)
#[export] Instance noKeys : KeysFormats := {|
  yaml_YAMLToJSON s := Ok s; protojson_Unmarshal _ := Err "no keys"; protojson_Marshal _ := "" |}.

End ToyStores.

#[local] Existing Instances ToyNames.names ToyParsers.parsers ToyMeta.meta ToyStores.stores ToyStores.laws ToyStores.noKeys.

(** Empty ConfigMaps, then versions that cannot be read: the first stay in force. *)
Lemma stores_serve_last_readable_witness :
  ∃ s ps c, Load s = Some {| cfg_ImagePolicyConfig := Some {| ImagePolicies.Policies := ∅ |};
                             cfg_SigstoreKeysConfig := Some ∅ |} ∧
    pc_Load ps = Some c ∧ NoMatchPolicy c = "allow".
Proof.
  destruct (stores_serve_last_readable (λ s, Ok {| urlString := s |})
    [(ImagePoliciesConfigName, []); (SigstoreKeysConfigName, []); (ImagePoliciesConfigName, [("policy", "")]);
     (SigstoreKeysConfigName, [("root", "?")])]
    [(PolicyControllerConfigName, [("no-match-policy", "allow")]);
     (PolicyControllerConfigName, [("enable-oci11", "maybe")])]) as [H1 H2].
  - repeat (apply Forall_cons_2; [first [left; reflexivity|right; reflexivity]|]). apply Forall_nil_2.
  - repeat (apply Forall_cons_2; [reflexivity|]). apply Forall_nil_2.
  - cbv zeta in H1, H2. destruct (changes (NewStore _) _) as [st|]; [|vm_compute in H1; by destruct H1].
    destruct (changes pc_NewStore _) as [ps|]; [|vm_compute in H2; discriminate H2].
    destruct H1 as (c & m & Hc & Hm & H1). vm_compute in Hc, Hm. injection Hc as <-. injection Hm as <-.
    injection H2 as H2. vm_compute in H2. exists st, ps. eexists. split; [exact H1|].
    split; [symmetry; exact H2|reflexivity].
Defined.
