(* ===== verification/Process.v ===== *)
(** The webhook's process (cmd/webhook/main.go): what [main] does with its flags and
    its environment, the contexts of the requests, and the admission controllers that
    it hands to knative, each with its path, its resources and what it attaches to a
    context. A context maps keys to values of their types, as in Go. *)

From S2P Require Import Prelude.
From S2P Require Import Names.
From S2P Require Import FieldErrors.
From S2P Require Import PCConfig.
From S2P Require Import K8s.
From S2P Require Import Encoding.
From S2P Require Import Oci.
From S2P Require Import SigstoreKeys.
From S2P Require Tuf.
From S2P Require TrustRoot.
From S2P Require V1alpha1.
From S2P Require V1beta1.
From S2P Require Import WebhookTypes.
From S2P Require GM.
From S2P Require Import Cosign.
From S2P Require Import ImagePolicies.
From S2P Require Import CheckOpts.
From S2P Require Import Results.
From S2P Require Import Authority.
From S2P Require Import Gather.
From S2P Require Import Policies.
From S2P Require Import Workloads.
From S2P Require Import Validator.
From S2P Require PolicyTester.
From S2P Require Import Webhook.
From S2P Require Controllers.
From S2P Require Import Stores.

#[local] Set Default Proof Using "Type*".

(** * main *)

Record Options := { ServiceName : string; Port : Z; SecretName : string; WorkQueueName : option string }.

Record Flags := {
  webhookName : string;
  tufMirror : string;
  tufRootFile : string;
  disableTUF : bool;
  mutatingCIPWebhookName : string;
  validatingCIPWebhookName : string;
  policyResyncPeriod : Z;
  trustrootResyncPeriod : Z;
  securePort : Z
}.

(** Their values if the command line has none; an hour has 3600 seconds. *)
Definition Hour : Z := 3600 * Webhook.Second.
Definition defaultFlags (DefaultRemoteRoot : string) (Port : Z) : Flags := {|
  webhookName := "policy.sigstore.dev";
  tufMirror := DefaultRemoteRoot;
  tufRootFile := "";
  disableTUF := false;
  mutatingCIPWebhookName := "defaulting.clusterimagepolicy.sigstore.dev";
  validatingCIPWebhookName := "validating.clusterimagepolicy.sigstore.dev";
  policyResyncPeriod := 10 * Hour;
  trustrootResyncPeriod := 24 * Hour;
  securePort := Port
|}.

(** The environment of the process: its variables, its files, sigstore's
    [tuf.Initialize] with a mirror and an optional root, and what the HSM answers to
    the client that [gm.NewClient] makes. *)
Record Environment := {
  Getenv : string → string;
  ReadFile : string → result string string;
  tuf_Initialize : string → option string → option string;
  gm_NewClient : GM.HSM
}.

(** The message of a panic, if the set-up of TUF ends in one. *)
Definition initializeTUF (env : Environment) (fl : Flags) : option string :=
  if disableTUF fl then None else
  match (if tufRootFile fl ==s "" then Ok None else Some <$> ReadFile env (tufRootFile fl)) : result string (option string) with
  | Err err => Some ("Failed to read alternate TUF root file " +:+ tufRootFile fl +:+ " : " +:+ err)
  | Ok tufRootBytes =>
      match tuf_Initialize env (tufMirror fl) tufRootBytes with
      | Some err => Some ("Failed to initialize TUF client from " +:+ tufRootFile fl +:+ " : " +:+ err)
      | None => None
      end
  end.

Section Process.
Context `{N : NamePkg} `{F : FieldErrors} `{P : Parsers} `{J : JsonText} `{C : Certs}
  `{T : CosignTypes} `{G : !Cosign} `{L : GM.LRU} `{M : K8sMeta} `{R : !Registry} `{HO : Host}
  `{RJ : ResourceJSON} `{TP : Tuf.TufPkg} `{U : UntypedStores} `{KF : KeysFormats}.

(** * Contexts *)

(** The types that are the keys of contexts, and the types of their values. The
    callbacks get the context they are found in as the [rq_ctx] of a request. A
    client or cache may be attached as a nil pointer; the cache is the process's. *)
Inductive key :=
  | KubeClient | ConfigKey | PolicyControllerConfigKey
  | PodScalableValidator | PodValidator | PodSpecValidator | CronJobValidator
  | PodScalableDefaulter | PodDefaulter | PodSpecDefaulter | CronJobDefaulter
  | GMClientKey | GMCacheKey | PolicyResync | TrustRootResync | OptionsKey.
#[global] Instance key_eq_dec : EqDecision key.
Proof. solve_decision. Defined.

Definition valueOf (k : key) : Type :=
  match k with
  | KubeClient => unit
  | ConfigKey => Config
  | PolicyControllerConfigKey => PolicyControllerConfig
  | PodScalableValidator => Request → PodScalable → option FieldError
  | PodValidator => Request → Pod → option FieldError
  | PodSpecValidator => Request → WithPod → option FieldError
  | CronJobValidator => Request → CronJob → option FieldError
  | PodScalableDefaulter => Request → PodScalable → PodScalable
  | PodDefaulter => Request → Pod → Pod
  | PodSpecDefaulter => Request → WithPod → WithPod
  | CronJobDefaulter => Request → CronJob → CronJob
  | GMClientKey => option GM.HSM
  | GMCacheKey => option unit
  | PolicyResync | TrustRootResync => Z
  | OptionsKey => Options
  end.

Definition Context : Type := ∀ k, option (valueOf k).
Definition Background : Context := λ _, None.
Definition WithValue (k : key) (v : valueOf k) (ctx : Context) : Context := λ k',
  match decide (k = k') with
  | left e => match e in _ = k' return option (valueOf k') with eq_refl => Some v end
  | right _ => ctx k'
  end.

Lemma WithValue_eq k v ctx : WithValue k v ctx k = Some v.
Proof using.
  unfold WithValue. destruct (decide (k = k)) as [e|n]; [|done].
  by rewrite (Eqdep_dec.UIP_dec key_eq_dec e eq_refl).
Qed.
Lemma WithValue_ne k k' v ctx : k ≠ k' → WithValue k v ctx k' = ctx k'.
Proof using. intros Hne. unfold WithValue. by destruct (decide (k = k')). Qed.

(** [webhook.WithOptions], which takes the options by value, and [GetOptions]. *)
Definition WithOptions (ctx : Context) (opts : Options) : Context := WithValue OptionsKey opts ctx.
Definition GetOptions (ctx : Context) : Options :=
  default {| ServiceName := ""; Port := 0; SecretName := ""; WorkQueueName := None |} (ctx OptionsKey).

(** pkg/webhook/gm/context.go *)
Definition WithClient (ctx : Context) (c : option GM.HSM) : Context := WithValue GMClientKey c ctx.
Definition ClientFromContext (ctx : Context) : option GM.HSM := mjoin (ctx GMClientKey).
Definition WithCache (ctx : Context) (cache : option unit) : Context := WithValue GMCacheKey cache ctx.
Definition CacheFromContext (ctx : Context) : option unit := mjoin (ctx GMCacheKey).

(** pkg/apis/duck/v1beta1 *)
Definition WithPodScalableValidator (ctx : Context) (psv : Request → PodScalable → option FieldError) : Context :=
  WithValue PodScalableValidator psv ctx.
Definition GetPodScalableValidator (ctx : Context) := ctx PodScalableValidator.
Definition WithPodScalableDefaulter (ctx : Context) (psd : Request → PodScalable → PodScalable) : Context :=
  WithValue PodScalableDefaulter psd ctx.
Definition GetPodScalableDefaulter (ctx : Context) := ctx PodScalableDefaulter.

(** * The admission controllers *)

(** What a controller validates or defaults. *)
Inductive PolicyResource := AlphaClusterImagePolicy | AlphaTrustRoot | BetaClusterImagePolicy.
Definition typesCIP : list (PolicyTester.GroupVersionKind * PolicyResource) :=
  [(kind "policy.sigstore.dev" "v1alpha1" "ClusterImagePolicy", AlphaClusterImagePolicy);
   (kind "policy.sigstore.dev" "v1alpha1" "TrustRoot", AlphaTrustRoot);
   (kind "policy.sigstore.dev" "v1beta1" "ClusterImagePolicy", BetaClusterImagePolicy)].

(** The objects of the process that requests find in the state of their moment: the
    stores, the number of calls to the HSM and the cache of what it verified. *)
Record Shared := { sh_store : Store; sh_pcStore : pc_Store; sh_calls : nat; sh_gmCache : GM.Cache }.

(** [validation.NewAdmissionController] and [defaulting.NewAdmissionController] get a
    name, a path, resources, the function that infuses a request's context ([None] is
    a panic), whether unknown fields are disallowed, and the options of their context. *)
Inductive Resources :=
  | Workloads (handlers : list (PolicyTester.GroupVersionKind * GenericCRD))
  | PolicyResources (handlers : list (PolicyTester.GroupVersionKind * PolicyResource)).
Record AdmissionController := {
  ac_name : string;
  ac_path : string;
  ac_types : Resources;
  ac_withContext : Shared → Context → option Context;
  ac_disallowUnknownFields : bool;
  ac_options : Options
}.

(** The options with the queue of one controller. *)
Definition withQueue (ctx : Context) (name : string) : Context :=
  let woptions := GetOptions ctx in
  WithOptions ctx {| ServiceName := ServiceName woptions; Port := Port woptions;
                     SecretName := SecretName woptions; WorkQueueName := Some name |}.

(** [depth] and [s] bound and schedule the validation of one request. *)
Variable depth : nat.
Variable s : Schedule.

Definition NewValidatingAdmissionController (fl : Flags) (ctx : Context) : AdmissionController :=
  let ctx := withQueue ctx (webhookName fl +:+ "-validating") in
  let gmClient := ClientFromContext ctx in
  let gmCache := CacheFromContext ctx in
  {| ac_name := webhookName fl; ac_path := "/validations"; ac_types := Workloads types;
     ac_withContext := λ sh ctx,
       let ctx := WithValue KubeClient tt ctx in
       c ← Load (sh_store sh);
       let ctx := WithValue ConfigKey c ctx in
       pc ← pc_Load (sh_pcStore sh);
       let ctx := WithValue PolicyControllerConfigKey pc ctx in
       let ctx := WithPodScalableValidator ctx (ValidatePodScalable depth s) in
       let ctx := WithValue PodValidator (ValidatePod depth s) ctx in
       let ctx := WithValue PodSpecValidator (ValidatePodSpecable depth s) ctx in
       let ctx := WithValue CronJobValidator (ValidateCronJob depth s) ctx in
       let ctx := WithClient ctx gmClient in
       Some (WithCache ctx gmCache);
     ac_disallowUnknownFields := false; ac_options := GetOptions ctx |}.

Definition NewMutatingAdmissionController (fl : Flags) (ctx : Context) : AdmissionController :=
  let ctx := withQueue ctx (webhookName fl +:+ "-mutating") in
  let gmClient := ClientFromContext ctx in
  let gmCache := CacheFromContext ctx in
  {| ac_name := webhookName fl; ac_path := "/mutations"; ac_types := Workloads types;
     ac_withContext := λ _ ctx,
       let ctx := WithValue KubeClient tt ctx in
       let ctx := WithPodScalableDefaulter ctx ResolvePodScalable in
       let ctx := WithValue PodDefaulter ResolvePod ctx in
       let ctx := WithValue PodSpecDefaulter ResolvePodSpecable ctx in
       let ctx := WithValue CronJobDefaulter ResolveCronJob ctx in
       let ctx := WithClient ctx gmClient in
       Some (WithCache ctx gmCache);
     ac_disallowUnknownFields := false; ac_options := GetOptions ctx |}.

Definition NewPolicyValidatingAdmissionController (fl : Flags) (ctx : Context) : AdmissionController :=
  let ctx := withQueue ctx (validatingCIPWebhookName fl) in
  {| ac_name := validatingCIPWebhookName fl; ac_path := "/validating"; ac_types := PolicyResources typesCIP;
     ac_withContext := λ sh ctx,
       pc ← pc_Load (sh_pcStore sh); Some (WithValue PolicyControllerConfigKey pc ctx);
     ac_disallowUnknownFields := true; ac_options := GetOptions ctx |}.

Definition NewPolicyMutatingAdmissionController (fl : Flags) (ctx : Context) : AdmissionController :=
  let ctx := withQueue ctx (mutatingCIPWebhookName fl) in
  {| ac_name := mutatingCIPWebhookName fl; ac_path := "/defaulting"; ac_types := PolicyResources typesCIP;
     ac_withContext := λ _ ctx, Some ctx;
     ac_disallowUnknownFields := true; ac_options := GetOptions ctx |}.

(** What the controller of conversions is given for the one kind it converts: the
    name of the definition, the version that converts from and to all others, and
    an empty object per version. *)
Record Conversion := {
  cv_path : string;
  cv_Kind : string * string;
  cv_DefinitionName : string;
  cv_HubVersion : string;
  cv_Zygotes : list (string * PolicyResource);
  cv_options : Options
}.
Definition newConversionController (ctx : Context) : Conversion :=
  let ctx := withQueue ctx "resource-conversion" in
  {| cv_path := "/resource-conversion"; cv_Kind := ("policy.sigstore.dev", "ClusterImagePolicy");
     cv_DefinitionName := "clusterimagepolicies.policy.sigstore.dev"; cv_HubVersion := "v1alpha1";
     cv_Zygotes := [("v1alpha1", AlphaClusterImagePolicy); ("v1beta1", BetaClusterImagePolicy)];
     cv_options := GetOptions ctx |}.

(** ** What main hands to knative *)

Inductive Controller :=
  | Certificates
  | Validating (ac : AdmissionController)
  | Mutating (ac : AdmissionController)
  | TrustRoots (resync : option Z)
  | ClusterImagePolicies (resync : option Z)
  | Converting (cv : Conversion).

(** The process panics, or runs: with the names that policies may select, the cache,
    and the controllers, each made from the one context. *)
Inductive Main :=
  | Panics (message : string)
  | Runs (validResourceNames : gset string) (cache : GM.Cache) (controllers : list Controller).

Definition main (env : Environment) (fl : Flags) : Main :=
  let opts := {| ServiceName := "webhook"; Port := 8443; SecretName := "webhook-certs"; WorkQueueName := None |} in
  let ctx := WithOptions Background opts in
  (* [flag.IntVar] stores the flag in the variable, of which the context has a copy. *)
  let opts := {| ServiceName := ServiceName opts; Port := securePort fl; SecretName := SecretName opts;
                 WorkQueueName := WorkQueueName opts |} in
  match initializeTUF env fl with
  | Some message => Panics message
  | None =>
      let ctx := WithValue PolicyResync (policyResyncPeriod fl) ctx in
      let ctx := WithValue TrustRootResync (trustrootResyncPeriod fl) ctx in
      let ctx := WithClient ctx (Some (gm_NewClient env)) in
      let ctx := WithCache ctx (Some tt) in
      Runs Webhook.ValidResourceNames (gmCache (Getenv env))
        [Certificates; Validating (NewValidatingAdmissionController fl ctx);
         Mutating (NewMutatingAdmissionController fl ctx); TrustRoots (ctx TrustRootResync);
         ClusterImagePolicies (ctx PolicyResync); Validating (NewPolicyValidatingAdmissionController fl ctx);
         Mutating (NewPolicyMutatingAdmissionController fl ctx); Converting (newConversionController ctx)]
  end.

(** * Requests *)

(** knative's duck types, which do what the callback of the context does, if it has
    one ([duckv1.WithPodValidator] "associates a PodValidator with a context that is
    used to Validate" a pod, and so on), like PodScalable in this repository. *)
Class KnativeDucks := {
  Pod_Validate : option (Pod → option FieldError) → Pod → option FieldError;
  WithPod_Validate : option (WithPod → option FieldError) → WithPod → option FieldError;
  CronJob_Validate : option (CronJob → option FieldError) → CronJob → option FieldError;
  Pod_SetDefaults : option (Pod → Pod) → Pod → Pod;
  WithPod_SetDefaults : option (WithPod → WithPod) → WithPod → WithPod;
  CronJob_SetDefaults : option (CronJob → CronJob) → CronJob → CronJob
}.
Class KnativeDuckLaws `{K : KnativeDucks} : Prop := {
  Pod_Validate_callback f p : Pod_Validate (Some f) p = f p;
  WithPod_Validate_callback f p : WithPod_Validate (Some f) p = f p;
  CronJob_Validate_callback f p : CronJob_Validate (Some f) p = f p;
  Pod_SetDefaults_callback f p : Pod_SetDefaults (Some f) p = f p;
  WithPod_SetDefaults_callback f p : WithPod_SetDefaults (Some f) p = f p;
  CronJob_SetDefaults_callback f p : CronJob_SetDefaults (Some f) p = f p
}.
Context `{K : !KnativeDucks}.

(** What a request brings: its operation, its body, the old object of an update, and
    the public TUF root as it is when it is asked for. *)
Record Incoming := {
  in_op : Ctx; in_body : option (result string string); in_baseline : option PodScalable;
  in_tufRoot : result string TrustedRoot
}.

(** A request's operation with what its context holds. *)
Definition opOf (rq : Incoming) (ctx : Context) : Ctx :=
  {| IsInCreate := IsInCreate (in_op rq); IsInUpdate := IsInUpdate (in_op rq); IsInDelete := IsInDelete (in_op rq);
     IsInStatusUpdate := IsInStatusUpdate (in_op rq); IsInSpec := IsInSpec (in_op rq);
     cfgKey := ctx PolicyControllerConfigKey |}.
Definition requestOf (rq : Incoming) (sh : Shared) (ctx : Context) : Request :=
  {| rq_op := opOf rq ctx; rq_body := in_body rq; rq_baseline := in_baseline rq;
     rq_ctx := {| wc_verify := {|
         vc_trust := {| tc_pcConfig := PCConfig.FromContextOrDefaults (opOf rq ctx);
                        tc_config := Stores.FromContext (ctx ConfigKey); tufRoot := in_tufRoot rq |};
         vc_gmClient := ClientFromContext ctx;
         vc_gmState := {| GM.calls := sh_calls sh;
                          GM.cache := _ ← CacheFromContext ctx; Some (sh_gmCache sh) |} |};
       wc_cache := None; wc_spec := None; wc_objectMeta := None; wc_typeMeta := None |} |}.

Definition duckOf (w : Workload) : Duck :=
  match w with
  | WPodScalable _ => DuckPodScalable | WPodSpecable _ => DuckWithPod | WPod _ => DuckPod | WCronJob _ => DuckCronJob
  end.
(** The object that a wrapper embeds, whose methods are the wrapper's. *)
Definition embedded (crd : GenericCRD) : Duck :=
  match crd with crdNoStatusUpdatesOrDeletes d => d | crdEphemeralContainers d => d end.

Definition duck_Validate (rq : Incoming) (sh : Shared) (ctx : Context) (w : Workload) : option FieldError :=
  let r := requestOf rq sh ctx in
  match w with
  | WPodScalable ps => PodScalable_Validate ((λ f, f r) <$> GetPodScalableValidator ctx) ps
  | WPodSpecable wp => WithPod_Validate ((λ f, f r) <$> ctx PodSpecValidator) wp
  | WPod p => Pod_Validate ((λ f, f r) <$> ctx PodValidator) p
  | WCronJob c => CronJob_Validate ((λ f, f r) <$> ctx CronJobValidator) c
  end.
Definition duck_SetDefaults (rq : Incoming) (sh : Shared) (ctx : Context) (w : Workload) : Workload :=
  let r := requestOf rq sh ctx in
  match w with
  | WPodScalable ps => WPodScalable (PodScalable_SetDefaults ((λ f, f r) <$> GetPodScalableDefaulter ctx) ps)
  | WPodSpecable wp => WPodSpecable (WithPod_SetDefaults ((λ f, f r) <$> ctx PodSpecDefaulter) wp)
  | WPod p => WPod (Pod_SetDefaults ((λ f, f r) <$> ctx PodDefaulter) p)
  | WCronJob c => WCronJob (CronJob_SetDefaults ((λ f, f r) <$> ctx CronJobDefaulter) c)
  end.

(** The resources a controller knows: knative decodes the object of a request to the
    type that is registered for its kind. *)
Definition decodes (ac : AdmissionController) (w : Workload) : Prop :=
  match ac_types ac with
  | Workloads handlers => ∃ gvk crd, (gvk, crd) ∈ handlers ∧ embedded crd = duckOf w
  | PolicyResources _ => False
  end.

(** A policy as the webhook of policies decodes it; the variables are the error of
    encoding/json for a text that is no object, and the reading of an archive. *)
Inductive PolicyObject :=
  | Alpha (c : V1alpha1.ClusterImagePolicy) | Root (tr : TrustRoot.TrustRoot) | Beta (c : V1beta1.ClusterImagePolicy).
Variable unmarshalError : string → string.
Variable untar : string → result string Tuf.Archive.
Definition policy_Validate (names : gset string) (rq : Incoming) (ctx : Context) (o : PolicyObject) : option FieldError :=
  let ctx := opOf rq ctx in
  match o with
  | Alpha c => V1alpha1.Validate names ctx c
  | Root tr => TrustRoot.Validate unmarshalError untar ctx tr
  | Beta c => V1beta1.Validate names ctx c
  end.

End Process.
