(* ===== verification/ProcessSpec.v ===== *)
(** What the running webhook promises: its contexts give the validators what main
    prepared, its stores follow the reconciler's ConfigMap, and so what it admits
    satisfies the policies of the version it has seen last. *)

From S2P Require Import Prelude.
From S2P Require Import Names.
From S2P Require Import FieldErrors.
From S2P Require Import PCConfig.
From S2P Require Import K8s.
From S2P Require Import Encoding.
From S2P Require Import Oci.
From S2P Require Import SigstoreKeys.
From S2P Require Tuf.
From S2P Require TrustRoot.
From S2P Require TrustRootSpec.
From S2P Require V1alpha1.
From S2P Require Import WebhookTypes.
From S2P Require GM.
From S2P Require Import Cosign.
From S2P Require Import ImagePolicies.
From S2P Require Import CheckOpts.
From S2P Require Import Results.
From S2P Require Import Authority.
From S2P Require Import Gather.
From S2P Require Import Policies.
From S2P Require Import PoliciesSpec.
From S2P Require Import Workloads.
From S2P Require Import Validator.
From S2P Require Import ConfigMaps.
From S2P Require Import Lifecycle.
From S2P Require Reconcile.
From S2P Require ReconcileSpec.
From S2P Require Published.
From S2P Require TrustRootReconcile.
From S2P Require TrustRootPublished.
From S2P Require Controllers.
From S2P Require Import Webhook.
From S2P Require Import Stores.
From S2P Require Import Process.

#[local] Set Default Proof Using "Type*".

Section Spec.
Context `{N : NamePkg} `{F : FieldErrors} `{P : Parsers} `{J : JsonText} `{C : Certs}
  `{T : CosignTypes} `{G : !Cosign} `{L : GM.LRU} `{M : K8sMeta} `{R : !Registry} `{HO : Host}
  `{RJ : ResourceJSON} `{TP : Tuf.TufPkg} `{U : UntypedStores} `{KF : KeysFormats}.
Variable parseURL : string → result string URL.

(** * Contexts *)

Ltac look_up := repeat first [rewrite WithValue_eq | rewrite WithValue_ne by discriminate].

(** The port of the servers is fixed: the flag secure-port changes a variable that
    nothing reads any more. *)
Lemma secure_port_ignored depth s env fl names cache controllers :
  main depth s env fl = Runs names cache controllers →
  ∀ c, c ∈ controllers → match c with
    | Validating ac | Mutating ac => Port (ac_options ac) = 8443%Z
    | Converting cv => Port (cv_options cv) = 8443%Z
    | _ => Logic.True
    end.
Proof using.
  unfold main. destruct (initializeTUF env fl); [done|]. intros [= _ _ <-] c Hc.
  repeat (apply elem_of_cons in Hc as [->|Hc]; [try done|]); [..|by apply elem_of_nil in Hc];
    cbn; unfold withQueue, GetOptions, WithOptions, WithClient, WithCache; by look_up.
Qed.

Section Requests.
Context `{K : !KnativeDucks} {KL : KnativeDuckLaws}.

(** What a request of the validating webhook finds in its context: the loaded
    configurations, the HSM and the cache. *)
Definition loaded (sh : Shared) (c : Config) (pc : PolicyControllerConfig) : Prop :=
  Load (sh_store sh) = Some c ∧ pc_Load (sh_pcStore sh) = Some pc.

Lemma validating_context depth s env fl names cache controllers ac sh ctx rq w :
  main depth s env fl = Runs names cache controllers →
  Validating ac ∈ controllers → ac_path ac = "/validations" →
  ac_withContext ac sh Background = Some ctx →
  ∃ c pc, loaded sh c pc ∧
    let r := {| rq_op := opOf rq ctx; rq_body := in_body rq; rq_baseline := in_baseline rq;
                rq_ctx := {| wc_verify := {| vc_trust := {| tc_pcConfig := pc; tc_config := Some c;
                                                            tufRoot := in_tufRoot rq |};
                               vc_gmClient := Some (gm_NewClient env);
                               vc_gmState := {| GM.calls := sh_calls sh; GM.cache := Some (sh_gmCache sh) |} |};
                             wc_cache := None; wc_spec := None; wc_objectMeta := None; wc_typeMeta := None |} |} in
    requestOf rq sh ctx = r ∧ duck_Validate rq sh ctx w = Validate depth s r w.
Proof.
  unfold main. destruct (initializeTUF env fl); [done|]. intros [= _ _ <-] Hac Hp Hctx.
  assert (ac = NewValidatingAdmissionController depth s fl
    (WithCache (WithClient (WithValue TrustRootResync (trustrootResyncPeriod fl) (WithValue PolicyResync (policyResyncPeriod fl)
      (WithOptions Background {| ServiceName := "webhook"; Port := 8443; SecretName := "webhook-certs";
         WorkQueueName := None |}))) (Some (gm_NewClient env))) (Some tt))) as ->.
  { repeat (apply elem_of_cons in Hac as [Hac|Hac]; [first [discriminate Hac|injection Hac as ->; first [done|discriminate Hp]]|]).
    by apply elem_of_nil in Hac. }
  cbn [ac_withContext NewValidatingAdmissionController] in Hctx.
  destruct (Load (sh_store sh)) as [c|] eqn:Hc; [|done]. cbn [mbind option_bind] in Hctx.
  destruct (pc_Load (sh_pcStore sh)) as [pc|] eqn:Hpc; [|done]. cbn [mbind option_bind] in Hctx.
  injection Hctx as <-. exists c, pc. split; [done|]. cbv zeta.
  match goal with |- ?A = ?B ∧ _ => assert (A = B) as Hr end.
  { unfold requestOf, PCConfig.FromContextOrDefaults, PCConfig.FromContext, Stores.FromContext, ClientFromContext,
      CacheFromContext, WithClient, WithCache, withQueue, WithOptions, WithPodScalableValidator, opOf.
    cbn [cfgKey]. look_up. cbn [mjoin option_join mbind option_bind]. look_up. done. }
  split; [done|]. unfold duck_Validate. rewrite Hr. unfold GetPodScalableValidator, WithClient, WithCache, WithPodScalableValidator.
  destruct w; look_up; cbn [fmap option_fmap option_map PodScalable_Validate Validate]; [done|..].
  - apply WithPod_Validate_callback.
  - apply Pod_Validate_callback.
  - apply CronJob_Validate_callback.
Qed.

End Requests.
End Spec.

(** * The store behind the reconciler *)

#[local] Existing Instance TrustRootReconcile.trust_keys.

Section EndToEnd.
Context `{N : NamePkg} `{F : FieldErrors} `{P : Parsers} `{J : JsonText} `{C : Certs}
  `{T : CosignTypes} `{G : !Cosign} `{L : GM.LRU} `{M : K8sMeta} `{R : !Registry} `{HO : Host}
  `{RJ : ResourceJSON} `{TP : Tuf.TufPkg} `{U : UntypedStores} `{KM : Reconcile.KMSPkg} `{JP : JSONPatch}
  `{CS : ConditionSets} `{LK : !TrustKeys.LogKeys} `{TF : TrustRootReconcile.TrustFormats}.
Context `{JL : !JSONPatchLaws} `{YL : !Published.YAMLLaws} {UL : UntypedStoreLaws U}
  `{TL : !TrustRootPublished.KeysLaws (KF := TrustRootReconcile.trust_keys)}.
Variable untar : string → result string Tuf.Archive.
Variable uaString : string.
Variable QuoteRune : Z → string.
Variable parseURL : string → result string URL.
Hypothesis parseURL_String : ∀ u, parseURL (urlString u) = Ok u.
Hypothesis PublicKeyPem_parses : ∀ signer pem,
  Reconcile.PublicKeyPem signer = Ok pem → is_Ok (UnmarshalPEMToPublicKey pem).

(** A history's earlier part is a history. *)
Lemma run_suffix admitted later live past :
  Published.run QuoteRune admitted (later ++ live :: past) → Published.run QuoteRune admitted (live :: past).
Proof using.
  induction later as [|x later IH]; [done|]. intros H. apply IH.
  inversion H as [E|? ? ? ? ? H' ? ? E|? ? ? ? H' ? E|? ? H' E]; clear H.
  - by destruct later.
  - destruct later; simplify_eq/=; done.
  - destruct later; simplify_eq/=; done.
  - destruct later; simplify_eq/=; done.
Qed.

(** What the store is told of while the reconcilers run: any versions that the two
    ConfigMaps have had. *)
Definition delivered (history roots : list (option (gmap string string))) (change : string * Data) : Prop :=
  (change.1 = Controllers.ImagePoliciesConfigName ∧
     ∃ m, Some m ∈ history ∧ change.2 ≡ₚ map_to_list m) ∨
  (change.1 = Controllers.SigstoreKeysConfigName ∧
     ∃ m, Some m ∈ roots ∧ change.2 ≡ₚ map_to_list m).

Abbreviation tr_run := (TrustRootPublished.tr_run untar uaString).

(** Every version of the trust roots' can be read. *)
Lemma roots_readable (roots : list (option (gmap string string))) (Hroots : tr_run roots)
    (m : gmap string string) data :
  Some m ∈ roots → data ≡ₚ map_to_list m → is_Ok (NewSigstoreKeysFromConfigMap data).
Proof.
  intros (later & past & ->)%list_elem_of_split Hd. apply TrustRootPublished.tr_run_suffix in Hroots.
  destruct (TrustRootPublished.webhook_reads_trust_roots untar uaString past m Hroots data Hd) as (keys & Hk & _).
  by exists keys.
Qed.

Lemma roots_keys (roots : list (option (gmap string string))) (Hroots : tr_run roots)
    (m : gmap string string) data keys name sk :
  Some m ∈ roots → data ≡ₚ map_to_list m → NewSigstoreKeysFromConfigMap data = Ok keys → keys !! name = Some sk →
  ∃ t, om_Name (TrustRoot.tr_ObjectMeta t) = name ∧ TrustRootPublished.keys_of untar uaString t sk.
Proof.
  intros (later & past & ->)%list_elem_of_split Hd Hk Hsk. apply TrustRootPublished.tr_run_suffix in Hroots.
  destruct (TrustRootPublished.webhook_reads_trust_roots untar uaString past m Hroots data Hd) as (keys' & Hk' & Hlook).
  unfold NewSigstoreKeysFromConfigMap in Hk. rewrite Hk in Hk'. injection Hk' as <-.
  apply Hlook in Hsk as (_ & t & Hn & Hkeys & _). by exists t.
Qed.

(** Every version the reconciler has made can be read. *)
Lemma history_readable (admitted : V1alpha1.ClusterImagePolicy → Prop)
    (Hadmitted : ∀ cip, admitted cip →
       Published.validated Webhook.ValidResourceNames cip ∧ Published.readable_sources cip)
    (history : list (option (gmap string string))) (Hrun : Published.run QuoteRune admitted history) m data :
  Some m ∈ history → data ≡ₚ map_to_list m →
  ∃ past, Published.run QuoteRune admitted (Some m :: past) ∧
    is_Ok (NewImagePoliciesConfigFromMap parseURL data).
Proof.
  intros (later & past & ->)%list_elem_of_split Hd. apply run_suffix in Hrun. exists past. split; [done|].
  destruct (Published.webhook_reads_lemma QuoteRune Webhook.ValidResourceNames parseURL parseURL_String
    PublicKeyPem_parses admitted Hadmitted past m Hrun data Hd) as (c & Hc & _). by eexists.
Qed.

(** What is told of a ConfigMap. *)
Lemma told_versions name (l' : list (string * Data)) (told : Data → Prop) :
  Forall (λ ch, ch.1 = name → told ch.2) l' → Forall told (versions name l').
Proof using.
  intros Hl. apply Forall_forall. intros d ([n d'] & Hin & Hd)%list_elem_of_omap. cbn in Hd.
  destruct (String.eqb_spec n name) as [->|]; [|done]. injection Hd as ->. rewrite Forall_forall in Hl. by apply (Hl _ Hin).
Qed.

Lemma last_told {V} (f : Data → result string V) (told : Data → Prop) (Hok : ∀ d, told d → is_Ok (f d)) vs :
  Forall told vs → ∃ o, lastRead f None vs = Some o ∧
    ∀ v, o = Some v → ∃ d, last vs = Some d ∧ told d ∧ f d = Ok v.
Proof using.
  intros Hv. rewrite lastRead_all by (eapply Forall_impl; [exact Hv|exact Hok]). eexists. split; [done|].
  intros v. destruct (last vs) as [d|] eqn:Hd; [|done]. destruct (f d) as [v'|] eqn:Hf; [|done]. intros [= ->].
  exists d. split; [done|]. split; [|done]. apply last_Some in Hd as [l' ->]. apply Forall_app in Hv as [_ Hv].
  by apply Forall_cons in Hv as [? _].
Qed.

(** So the store never ends the process, and it serves the versions it has been told
    of last. *)
Lemma store_follows (admitted : V1alpha1.ClusterImagePolicy → Prop)
    (Hadmitted : ∀ cip, admitted cip →
       Published.validated Webhook.ValidResourceNames cip ∧ Published.readable_sources cip)
    (history : list (option (gmap string string))) (Hrun : Published.run QuoteRune admitted history)
    (roots : list (option (gmap string string))) (Hroots : tr_run roots)
    (l : list (string * Data)) (Hl : Forall (delivered history roots) l) :
  ∃ st, changes (NewStore parseURL) l = Some st ∧ ∀ c, Load st = Some c →
    (∃ past m data held, Some m ∈ history ∧ Published.run QuoteRune admitted (Some m :: past) ∧
       last (versions Controllers.ImagePoliciesConfigName l) = Some data ∧ data ≡ₚ map_to_list m ∧
       cfg_ImagePolicyConfig c = Some held ∧ NewImagePoliciesConfigFromMap parseURL data = Ok held) ∧
    (∃ m data keys, Some m ∈ roots ∧
       last (versions Controllers.SigstoreKeysConfigName l) = Some data ∧ data ≡ₚ map_to_list m ∧
       cfg_SigstoreKeysConfig c = Some keys ∧ NewSigstoreKeysFromConfigMap data = Ok keys).
Proof.
  destruct (last_told (NewImagePoliciesConfigFromConfigMap parseURL) (λ d, ∃ m, Some m ∈ history ∧ d ≡ₚ map_to_list m))
    with (vs := versions Controllers.ImagePoliciesConfigName l) as (op & Hp & Hp').
  { intros d (m & Hm & Hd). by destruct (history_readable admitted Hadmitted history Hrun m d Hm Hd) as (_ & _ & ?). }
  { apply told_versions. eapply Forall_impl; [exact Hl|]. intros [n d] [[_ H]|[Hn _]] Hn'; [done|].
    cbn in *. by rewrite Hn in Hn'. }
  destruct (last_told NewSigstoreKeysFromConfigMap (λ d, ∃ m, Some m ∈ roots ∧ d ≡ₚ map_to_list m))
    with (vs := versions Controllers.SigstoreKeysConfigName l) as (ok & Hk & Hk').
  { intros d (m & Hm & Hd). by apply (roots_readable roots Hroots m). }
  { apply told_versions. eapply Forall_impl; [exact Hl|]. intros [n d] [[Hn _]|[_ H]] Hn'; [|done].
    cbn in *. by rewrite Hn in Hn'. }
  pose proof (NewStore_serves parseURL l) as Hs. cbv zeta in Hs.
  specialize (Hs ltac:(eapply Forall_impl; [exact Hl|]; intros ch [[? _]|[? _]]; auto)).
  rewrite Hp, Hk in Hs.
  destruct (changes (NewStore parseURL) l) as [st|]; [|by destruct Hs]. exists st. split; [done|].
  destruct Hs as (cp & cm & [= <-] & [= <-] & Hload). intros c Hc. rewrite Hc in Hload.
  destruct op as [p|]; [|done]. destruct ok as [k|]; [|done]. injection Hload as ->. split.
  - destruct (Hp' p eq_refl) as (d & Hd & (m & Hm & Hdm) & Hf).
    destruct (history_readable admitted Hadmitted history Hrun m d Hm Hdm) as (past & Hpast & _). by exists past, m, d, p.
  - destruct (Hk' k eq_refl) as (d & Hd & (m & Hm & Hdm) & Hf). by exists m, d, k.
Qed.

(** ** The process *)

Context `{K : !KnativeDucks} {KL : KnativeDuckLaws}.
Variable unmarshalError : string → string.

(** A policy that the process's own webhook has let pass, for other than a status
    update, and whose sources are names of repositories. *)
Definition passed (names : gset string) (cip : V1alpha1.ClusterImagePolicy) : Prop :=
  (∃ rq ctx, IsInStatusUpdate (in_op rq) = false ∧
     Accepts (policy_Validate unmarshalError untar names rq ctx (Alpha cip))) ∧ Published.readable_sources cip.

Lemma passed_validated cip :
  passed Webhook.ValidResourceNames cip →
  Published.validated Webhook.ValidResourceNames cip ∧ Published.readable_sources cip.
Proof using.
  intros [(rq & ctx & Hs & Ha) Hr]. split; [|done]. exists (opOf rq ctx). cbn [policy_Validate] in Ha.
  unfold V1alpha1.Validate in Ha. cbn [opOf IsInStatusUpdate] in Ha. rewrite Hs in Ha.
  by apply Accepts_ViaField in Ha.
Qed.

Lemma running_webhook_lemma
    (depth : nat) (s : Schedule) (Hs : NoCancel s) (env : Environment) (fl : Flags)
    (names : gset string) (cache : GM.Cache) (controllers : list Controller)
    (Hmain : main depth s env fl = Runs names cache controllers)
    (history : list (option (gmap string string))) (Hrun : Published.run QuoteRune (passed names) history)
    (roots : list (option (gmap string string))) (Hroots : tr_run roots)
    (l : list (string * Data)) (Hl : Forall (delivered history roots) l) (sh : Shared)
    (Hst : changes (NewStore parseURL) l = Some (sh_store sh))
    (ac : AdmissionController) (Hac : Validating ac ∈ controllers) (Hpath : ac_path ac = "/validations")
    (ctx : Context) (Hctx : ac_withContext ac sh Background = Some ctx)
    (rq : Incoming) (w : Workload) (Haccepted : Accepts (duck_Validate rq sh ctx w))
    (Hexempt : ¬ exempt (requestOf rq sh ctx) w)
    (field : string) (i : nat) (image : string) (Himage : (field, (i, image)) ∈ podImages (podSpecOf w)) :
  let r := requestOf rq sh ctx in
  let ns := getNamespace r (om_Namespace (metaOf w)) in
  let opts := [WithAuthFromKeychain (keychainOptions ns (podSpecOf w))] in
  ∃ m data c held keys, Some m ∈ history ∧
    last (versions Controllers.ImagePoliciesConfigName l) = Some data ∧ data ≡ₚ map_to_list m ∧
    Load (sh_store sh) = Some c ∧ cfg_ImagePolicyConfig c = Some held ∧ cfg_SigstoreKeysConfig c = Some keys ∧
    (∀ name sk, keys !! name = Some sk → ∃ t, om_Name (TrustRoot.tr_ObjectMeta t) = name ∧
       TrustRootPublished.keys_of untar uaString t sk) ∧
  digestImage image ∧ ∃ ref g v, ParseReference [] image = Ok ref ∧
    ParseGroupVersion (APIVersion (typeOf w)) = Ok (g, v) ∧
    let gvr := {| gvr_Group := g; gvr_Version := v;
                  gvr_Resource := UnsafeGuessKindToResource (Kind (typeOf w)) |} in
    ∀ name text, m !! name = Some text → name ≠ "_example" →
    ∃ env' cip cip' p, passed names cip ∧ om_Name (V1alpha1.cip_ObjectMeta cip) = name ∧
      ReconcileSpec.inlined env' cip cip' ∧ text = Reconcile.entryText cip' ∧
      Published.webhookPolicy cip' = Ok p ∧ ImagePolicies.Policies held !! name = Some p ∧
      (applies (Name ref) gvr (om_Labels (metaOf w)) p → Mode p ≠ "warn" → Authorities p ≠ [] →
       Forall (answers (contextOf r w) ns ref opts) (Authorities p) →
       ∃ a a', a ∈ Authorities p ∧ authoritySatisfied (contextOf r w) ns ref opts a a').
Proof.
  assert (names = Webhook.ValidResourceNames) as ->.
  { unfold main in Hmain. destruct (initializeTUF env fl); [done|]. by injection Hmain as <- _ _. }
  destruct (validating_context depth s env fl _ cache controllers ac sh ctx rq w Hmain Hac Hpath Hctx)
    as (c & pc & [Hc Hpc] & Hr & Hv). cbv zeta. rewrite Hv, <-Hr in Haccepted.
  destruct (store_follows _ passed_validated history Hrun roots Hroots l Hl) as (st & Hst' & Hserves).
  rewrite Hst in Hst'. injection Hst' as <-.
  destruct (Hserves c Hc) as [(past & m & data & held & Hm & Hpast & Hlast & Hd & Hcp & Hread)
    (mk & dk & keys & Hmk & _ & Hdk & Hck & Hreadk)].
  destruct c as [cp ck]. cbn in Hcp, Hck. subst cp ck.
  pose proof (admitted_images_satisfy_policies QuoteRune parseURL parseURL_String PublicKeyPem_parses
    (passed Webhook.ValidResourceNames) passed_validated past m Hpast data Hd
    {| st_ImagePolicies := held; st_SigstoreKeys := keys; st_PolicyController := pc |} Hread
    depth s Hs (requestOf rq sh ctx) (in_tufRoot rq) (Some (gm_NewClient env))
    {| GM.calls := sh_calls sh; GM.cache := Some (sh_gmCache sh) |}) as H.
  assert (rq_ctx (requestOf rq sh ctx) = _) as Hrc by (by rewrite Hr).
  destruct (H Hrc w Hexempt Haccepted field i image Himage) as (Hdig & ref & g & v & Hp & Hgv & Hall).
  eexists m, data, _, held, keys. split_and!; try done.
  - intros name sk Hsk. eapply roots_keys; [exact Hroots|exact Hmk|exact Hdk|exact Hreadk|exact Hsk].
  - exists ref, g, v. split_and!; try done.
Qed.

(** C1: The running process keeps its promise. Let [main] have started it; let the
    reconciler have maintained the ConfigMap, in any order of its calls, for policies
    that the webhook of policies let pass; and let the webhook's store have been told
    of any of the versions that the ConfigMap has had, the last of them [m]. If a
    workload is then sent to the path of the validating webhook, decoded to the type
    registered for its kind, is not exempt, and is let pass, every image of it is a
    digest reference, and for every entry of [m]: the entry is the inlined form of a
    policy of that name that the webhook of policies let pass, as which the validating
    webhook holds it; and if the policy applies to the image and the workload, is not in warn mode and has authorities,
    one of its authorities was satisfied for the image. This supposes that the request
    was not cancelled and that cosign answers, and, in what the webhook of policies let
    pass ([passed]), that the sources of the policies name repositories. *)
Theorem running_webhook_admits_satisfying
    (depth : nat) (s : Schedule) (Hs : NoCancel s) (env : Environment) (fl : Flags)
    (names : gset string) (cache : GM.Cache) (controllers : list Controller)
    (Hmain : main depth s env fl = Runs names cache controllers)
    (history : list (option (gmap string string))) (Hrun : Published.run QuoteRune (passed names) history)
    (roots : list (option (gmap string string))) (Hroots : tr_run roots)
    (l : list (string * Data)) (Hl : Forall (delivered history roots) l) (sh : Shared)
    (Hst : changes (NewStore parseURL) l = Some (sh_store sh))
    (ac : AdmissionController) (Hac : Validating ac ∈ controllers) (Hpath : ac_path ac = "/validations")
    (ctx : Context) (Hctx : ac_withContext ac sh Background = Some ctx)
    (rq : Incoming) (w : Workload) (Haccepted : Accepts (duck_Validate rq sh ctx w))
    (Hexempt : ¬ exempt (requestOf rq sh ctx) w)
    (field : string) (i : nat) (image : string) (Himage : (field, (i, image)) ∈ podImages (podSpecOf w)) :
  let r := requestOf rq sh ctx in
  let ns := getNamespace r (om_Namespace (metaOf w)) in
  let opts := [WithAuthFromKeychain (keychainOptions ns (podSpecOf w))] in
  ∃ m data c held keys, Some m ∈ history ∧
    last (versions Controllers.ImagePoliciesConfigName l) = Some data ∧ data ≡ₚ map_to_list m ∧
    Load (sh_store sh) = Some c ∧ cfg_ImagePolicyConfig c = Some held ∧ cfg_SigstoreKeysConfig c = Some keys ∧
    (∀ name sk, keys !! name = Some sk → ∃ t, om_Name (TrustRoot.tr_ObjectMeta t) = name ∧
       TrustRootPublished.keys_of untar uaString t sk) ∧
  digestImage image ∧ ∃ ref g v, ParseReference [] image = Ok ref ∧
    ParseGroupVersion (APIVersion (typeOf w)) = Ok (g, v) ∧
    let gvr := {| gvr_Group := g; gvr_Version := v;
                  gvr_Resource := UnsafeGuessKindToResource (Kind (typeOf w)) |} in
    ∀ name text, m !! name = Some text → name ≠ "_example" →
    ∃ env' cip cip' p, passed names cip ∧ om_Name (V1alpha1.cip_ObjectMeta cip) = name ∧
      ReconcileSpec.inlined env' cip cip' ∧ text = Reconcile.entryText cip' ∧
      Published.webhookPolicy cip' = Ok p ∧ ImagePolicies.Policies held !! name = Some p ∧
      (applies (Name ref) gvr (om_Labels (metaOf w)) p → Mode p ≠ "warn" → Authorities p ≠ [] →
       Forall (answers (contextOf r w) ns ref opts) (Authorities p) →
       ∃ a a', a ∈ Authorities p ∧ authoritySatisfied (contextOf r w) ns ref opts a a').
Proof. by eapply running_webhook_lemma. Qed.

End EndToEnd.

(** * A concrete process *)

Module ToyMain.

#[local] Existing Instances ToyNames.names ToyParsers.parsers ToyCerts.certs ToyCosign.types
  ToyCosign.cosign ToyText.toyText TrustRootSpec.ToyTrustRoot.tuf GM.ToyGM.lru_instance ListFieldErrors.fieldErrors
  PoliciesSpec.ToyWebhook.registry PoliciesSpec.ToyWebhook.host ToyValidator.resourceJSON
  ReconcileSpec.ToyCluster.kms RFC6902.jsonPatch RFC6902.laws LivingConditions.conditionSets
  Published.ToySystem.meta Published.ToySystem.laws ToyStores.stores ToyStores.laws
  TrustRootPublished.ToyKeysText.trustFormats TrustRootPublished.ToyKeysText.keysLaws.

#[export] Instance ducks : KnativeDucks := {|
  Pod_Validate f p := match f with Some f => f p | None => None end;
  WithPod_Validate f p := match f with Some f => f p | None => None end;
  CronJob_Validate f p := match f with Some f => f p | None => None end;
  Pod_SetDefaults f p := match f with Some f => f p | None => p end;
  WithPod_SetDefaults f p := match f with Some f => f p | None => p end;
  CronJob_SetDefaults f p := match f with Some f => f p | None => p end
|}.
#[export] Instance duck_laws : KnativeDuckLaws.
Proof. by split. Qed.

Definition s : Schedule := PoliciesSpec.ToyWebhook.inOrder.
Definition environment : Environment :=
  {| Getenv := λ _, ""; ReadFile := λ _, Err "no file"; tuf_Initialize := λ _ _, None;
     gm_NewClient := λ _ _, GM.Response 200 "yes" |}.
Definition flags : Flags := defaultFlags "https://tuf.example.com" 8443.

Definition incoming : Incoming :=
  {| in_op := {| IsInCreate := true; IsInUpdate := false; IsInDelete := false;
                 IsInStatusUpdate := false; IsInSpec := false; cfgKey := None |};
     in_body := None; in_baseline := None; in_tufRoot := Err "offline" |}.

#[export] Instance logKeys : TrustKeys.LogKeys :=
  {| TrustKeys.keyKind _ := TrustKeys.ECDSAKey TrustKeys.P256; TrustKeys.GetTransparencyLogID _ := Ok "log" |}.
Definition untar (t : string) : result string Tuf.Archive := Err "no archive".

(** A trust root without keys, reconciled once. *)
Definition trustroot : TrustRoot.TrustRoot := {|
  TrustRoot.tr_TypeMeta := {| Kind := "TrustRoot"; APIVersion := "policy.sigstore.dev/v1alpha1" |};
  TrustRoot.tr_ObjectMeta := {| om_Name := "root"; om_Namespace := ""; om_UID := "uid";
    om_ResourceVersion := "1"; om_Generation := 1; om_Labels := ∅; om_DeletionTimestamp := None; om_Finalizers := [] |};
  TrustRoot.tr_Spec := {| TrustRoot.spec_Remote := None; TrustRoot.spec_Repository := None;
    TrustRoot.spec_SigstoreKeys := Some {| TrustRoot.CertificateAuthorities := []; TrustRoot.TLogs := [];
      TrustRoot.CTLogs := []; TrustRoot.TimeStampAuthorities := [] |} |};
  TrustRoot.tr_Status := {| ObservedGeneration := 1; Conditions := [] |} |}.
Definition roots : gmap string string := default ∅
  (TrustRootReconcile.tr_ReconcileKind untar "" (Published.ToySystem.fresh None) None trustroot).1.1.
Lemma roots_run : TrustRootPublished.tr_run untar "" [Some roots; None].
Proof.
  assert (Some roots = (TrustRootReconcile.tr_ReconcileKind untar "" (Published.ToySystem.fresh None) None trustroot).1.1)
    as -> by (vm_compute; reflexivity).
  apply TrustRootPublished.tr_run_reconcile; [apply TrustRootPublished.tr_run_start|]. by intros cm [=].
Qed.

(** The ConfigMaps as the stores are told of them. *)
Definition told : list (string * Data) :=
  [(Controllers.ImagePoliciesConfigName, map_to_list ToyProcess.live);
   (Controllers.SigstoreKeysConfigName, map_to_list roots)].
Lemma default_Some {A} (o : option A) d : bool_decide (is_Some o) = true → o = Some (default d o).
Proof. by destruct o. Qed.
Definition store : Store :=
  default (NewStore ToyProcess.parseURL) (changes (NewStore ToyProcess.parseURL) told).
Definition pcStore : pc_Store :=
  default pc_NewStore (changes pc_NewStore [(PolicyControllerConfigName, [])]).
Definition shared : Shared :=
  {| sh_store := store; sh_pcStore := pcStore; sh_calls := 0; sh_gmCache := GM.NewCache 4096 30 |}.

(** The controllers that main makes, the context that the first of them gives a
    request, and the request. *)
Definition controllers : list Controller :=
  match main 3 s environment flags with Runs _ _ cs => cs | Panics _ => [] end.
Definition validating : AdmissionController :=
  match controllers with
  | _ :: Validating ac :: _ => ac
  | _ => NewPolicyMutatingAdmissionController flags Background
  end.
Definition ctx : Context := default Background (ac_withContext validating shared Background).
Definition request : Request := requestOf incoming shared ctx.

Definition unmarshalError (t : string) : string := "cannot unmarshal".
Lemma policy_passed : passed untar unmarshalError Webhook.ValidResourceNames ToyProcess.cip.
Proof.
  split.
  - exists incoming, Background. split; [done|]. unfold Accepts, Rejects. apply (bool_decide_unpack _).
    vm_compute. reflexivity.
  - repeat constructor; intros _; by eexists.
Qed.
Lemma main_run :
  Published.run (λ _, "") (passed untar unmarshalError Webhook.ValidResourceNames) [Some ToyProcess.live; None].
Proof.
  assert (Some ToyProcess.live = Reconcile.r_live ToyProcess.reconciled) as -> by (vm_compute; reflexivity).
  apply Published.run_reconcile; [apply Published.run_start|exact policy_passed|by intros cm [=]].
Qed.
Lemma told_delivered : Forall (delivered [Some ToyProcess.live; None] [Some roots; None]) told.
Proof.
  apply Forall_cons_2; [|apply Forall_cons_2; [|apply Forall_nil_2]].
  - left. split; [done|]. exists ToyProcess.live. split; [by left|done].
  - right. split; [done|]. exists roots. split; [by left|done].
Qed.

End ToyMain.

#[local] Existing Instances ToyNames.names ToyParsers.parsers ToyCerts.certs ToyCosign.types
  ToyCosign.cosign ToyText.toyText TrustRootSpec.ToyTrustRoot.tuf GM.ToyGM.lru_instance ListFieldErrors.fieldErrors
  PoliciesSpec.ToyWebhook.registry PoliciesSpec.ToyWebhook.host ToyValidator.resourceJSON
  ReconcileSpec.ToyCluster.kms RFC6902.jsonPatch RFC6902.laws LivingConditions.conditionSets
  Published.ToySystem.meta Published.ToySystem.laws ToyStores.stores ToyStores.laws
  TrustRootPublished.ToyKeysText.trustFormats TrustRootPublished.ToyKeysText.keysLaws
  ToyMain.ducks ToyMain.duck_laws ToyMain.logKeys.

(** A pod with an image of a registry that the one policy covers. *)
Lemma running_webhook_admits_satisfying_witness :
  ∃ (p : ClusterImagePolicy) a a', a ∈ Authorities p ∧
    authoritySatisfied (contextOf ToyMain.request ToyProcess.pod) "" (ToyProcess.image : Reference)
      [WithAuthFromKeychain (keychainOptions "" (podSpecOf ToyProcess.pod))] a a'.
Proof.
  destruct (running_webhook_admits_satisfying ToyMain.untar "" (λ _, "") ToyProcess.parseURL
    (λ u, match u with {| urlString := s |} => eq_refl end) Published.ToyRun.kms_parses
    ToyMain.unmarshalError 3 ToyMain.s PoliciesSpec.inOrder_NoCancel ToyMain.environment ToyMain.flags
    Webhook.ValidResourceNames (gmCache (λ _, "")) ToyMain.controllers eq_refl
    [Some ToyProcess.live; None] ToyMain.main_run
    [Some ToyMain.roots; None] ToyMain.roots_run ToyMain.told ToyMain.told_delivered ToyMain.shared) with
    (ac := ToyMain.validating) (ctx := ToyMain.ctx) (rq := ToyMain.incoming) (w := ToyProcess.pod)
    (field := "containers") (i := 0) (image := ToyProcess.image)
    as (m & data & c & held & keys & Hm & Hlast & Hd & Hload & Hheld & _ & _ & _ & ref & g & v & Hp & Hgv & H).
  - apply ToyMain.default_Some. vm_compute. reflexivity.
  - apply (list_elem_of_lookup_2 _ 1). reflexivity.
  - vm_compute. reflexivity.
  - apply ToyMain.default_Some. vm_compute. reflexivity.
  - apply None_Accepts. vm_compute. reflexivity.
  - intros [H|[H|[H|(ps & _ & _ & _ & H & _)]]]; try discriminate H. apply H. reflexivity.
  - vm_compute. left.
  - assert (m = ToyProcess.live) as ->.
    { apply elem_of_cons in Hm as [Hm|Hm]; [exact (inj Some _ _ Hm)|].
      apply elem_of_cons in Hm as [Hm|Hm]; [discriminate Hm|exact (False_ind _ (not_elem_of_nil _ Hm))]. }
    assert (Hpol : ∀ o, o = Some c → Some (ImagePolicies.Policies held) =
      option_map (λ c, match cfg_ImagePolicyConfig c with Some h => ImagePolicies.Policies h | None => ∅ end) o)
      by (intros ? ->; unfold option_map; rewrite Hheld; reflexivity).
    apply Hpol in Hload. clear Hpol. rename Hload into Hpol.
    clear Hheld Hlast Hd Hm.
    destruct (ToyProcess.live !! "policy") as [text|] eqn:Ht; [|vm_compute in Ht; discriminate Ht].
    destruct (H "policy" text Ht) as (env & cip & cip' & p & _ & _ & _ & _ & _ & Hlook & Hsat);
      [discriminate|]. exists p. clear H Ht.
    assert (Hh : (ImagePolicies.Policies held !! "policy") = Some p) by exact Hlook. clear Hlook.
    apply (f_equal (λ m, m ≫= λ m, m !! "policy")) in Hpol. cbn [mbind option_bind] in Hpol. rewrite Hh in Hpol.
    assert (Hm : option_map cip_Match (Some p) = Some []) by (rewrite Hpol; vm_compute; reflexivity).
    assert (Hi : option_map Images (Some p) = Some [{| V1alpha1.Glob := "ghcr.io/**" |}])
      by (rewrite Hpol; vm_compute; reflexivity).
    assert (Hmd : option_map Mode (Some p) = Some "") by (rewrite Hpol; vm_compute; reflexivity).
    assert (Ha : option_map (λ p, Authorities p) (Some p) = Some (Authorities ToyProcess.held))
      by (rewrite Hpol; vm_compute; reflexivity).
    clear Hpol Hh. injection Hm as Hm. injection Hi as Hi. injection Hmd as Hmd. injection Ha as Ha.
    injection Hp as <-. rewrite Ha in *. apply Hsat.
    + split; [left; exact Hm|]. rewrite Hi. apply Exists_cons. left. split; [discriminate|].
      vm_compute. reflexivity.
    + rewrite Hmd. discriminate.
    + vm_compute. discriminate.
    + let l := eval vm_compute in (Authorities ToyProcess.held) in change (Authorities ToyProcess.held) with l.
      apply Forall_cons_2; [|apply Forall_nil_2]. intros _ _ pull. vm_compute. discriminate.
Defined.
