(* ===== verification/System.v ===== *)
(** From the policies of the cluster to the workloads: the controller of policies
    (Resync, ControllersSpec) and the process (ProcessSpec) put together. *)

From S2P Require Import Prelude.
From S2P Require Import Names.
From S2P Require Import FieldErrors.
From S2P Require Import PCConfig.
From S2P Require Import K8s.
From S2P Require Import Encoding.
From S2P Require Import Oci.
From S2P Require Import SigstoreKeys.
From S2P Require Tuf.
From S2P Require TrustRoot.
From S2P Require V1alpha1.
From S2P Require Import WebhookTypes.
From S2P Require WebhookJSON.
From S2P Require GM.
From S2P Require Import Cosign.
From S2P Require Import ImagePolicies.
From S2P Require Import CheckOpts.
From S2P Require Import Results.
From S2P Require Import Authority.
From S2P Require Import Gather.
From S2P Require Import Policies.
From S2P Require Import PoliciesSpec.
From S2P Require Import Workloads.
From S2P Require Import Validator.
From S2P Require Import ConfigMaps.
From S2P Require Import Lifecycle.
From S2P Require Reconcile.
From S2P Require ReconcileSpec.
From S2P Require Published.
From S2P Require TrustRootReconcile.
From S2P Require TrustRootPublished.
From S2P Require Import GenReconciler.
From S2P Require Import ApiServer.
From S2P Require Import GenReconcilerSpec.
From S2P Require Import Convergence.
From S2P Require Import Controllers.
From S2P Require Import ControllersSpec.
From S2P Require Import Resync.
From S2P Require Import Webhook.
From S2P Require Import Stores.
From S2P Require Import Process.
From S2P Require Import ProcessSpec.

#[local] Set Default Proof Using "Type*".

(** * What the webhook holds of a policy *)

Section Held.
Context `{N : NamePkg} `{F : FieldErrors} `{P : Parsers} `{J : JsonText} `{C : Certs}
  `{T : CosignTypes} `{M : K8sMeta} `{KM : Reconcile.KMSPkg}.

(** It applies to the same images and resources, in the same mode. *)
Definition same_scope (cip : V1alpha1.ClusterImagePolicy) (p : ClusterImagePolicy) : Prop :=
  Images p = V1alpha1.Images (V1alpha1.Spec cip) ∧ cip_Match p = V1alpha1.spec_Match (V1alpha1.Spec cip) ∧
  Mode p = V1alpha1.Mode (V1alpha1.Spec cip).

Lemma webhookPolicy_scope cip' p : Published.webhookPolicy cip' = Ok p → same_scope cip' p.
Proof.
  unfold Published.webhookPolicy, WebhookJSON.populate. intros H.
  destruct (mapM _ _) as [auths|err]; [|done]. by injection H as <-.
Qed.

Lemma inlined_scope env cip cip' p : ReconcileSpec.inlined env cip cip' → same_scope cip' p → same_scope cip p.
Proof. intros (_ & _ & ->). by unfold same_scope. Qed.

End Held.

(** * The system *)

#[local] Existing Instance TrustRootReconcile.trust_keys.

Section System.
Context `{N : NamePkg} `{F : FieldErrors} `{P : Parsers} `{J : JsonText} `{C : Certs}
  `{T : CosignTypes} `{G : !Cosign} `{L : GM.LRU} `{M : K8sMeta} `{R : !Registry} `{HO : Host}
  `{RJ : ResourceJSON} `{TP : Tuf.TufPkg} `{U : UntypedStores} `{KM : Reconcile.KMSPkg} `{JP : JSONPatch}
  `{CS : ConditionSets} `{KS : KnativeStatus} `{E : GoErrors} `{K : !KnativeDucks}
  `{LK : !TrustKeys.LogKeys} `{TF : TrustRootReconcile.TrustFormats}.
Context `{JL : !JSONPatchLaws} `{YL : !Published.YAMLLaws} {UL : UntypedStoreLaws U} {KDL : KnativeDuckLaws}
  `{CSL : !ConditionSetLaws} `{EL : !GoErrorLaws} `{KL : !KnativeStatusLaws} `{PL : !PostProcessLaws}
  `{TL : !TrustRootPublished.KeysLaws (KF := TrustRootReconcile.trust_keys)}.
Variable untar : string → result string Tuf.Archive.
Variable uaString : string.
Variable QuoteRune : Z → string.
Variable parseURL : string → result string URL.
Hypothesis parseURL_String : ∀ u, parseURL (urlString u) = Ok u.
Hypothesis PublicKeyPem_parses : ∀ signer pem,
  Reconcile.PublicKeyPem signer = Ok pem → is_Ok (UnmarshalPEMToPublicKey pem).
Variable unmarshalError : string → string.

Abbreviation CIP := V1alpha1.ClusterImagePolicy.
Abbreviation W := (World CIP).
Abbreviation admitted := (passed untar unmarshalError Webhook.ValidResourceNames).

(** The webhook of policies looks at the content of a policy only. *)
Lemma admitted_content (o o' : CIP) : nameOf o' = nameOf o → content o' = content o → admitted o → admitted o'.
Proof using Type.
  intros _ [= _ Hs]. unfold passed, Published.readable_sources, policy_Validate, V1alpha1.Validate. by rewrite Hs.
Qed.

(** The past: the controller among others, with copies of its ConfigMap that are
    current, but errors and other clusters. *)
Context {CL0 : Clients W CIP} {SL0 : ServerLaws (CL := CL0) policy_finalizerName admitted}.
Variables (env0 : W → Reconcile.Cluster) (meets0 : W → Reconcile.Meets).
Hypothesis current0 : ∀ w, Published.current (configMap w) (meets0 w).

(** The present: the controller alone. *)
Context {CL : Clients W CIP} {SL : ServerLaws (CL := CL) policy_finalizerName admitted} {QS : QuietServer (CL := CL)}.
Variables (cluster : Reconcile.Cluster) (meets : W → Reconcile.Meets).
Hypothesis undisturbed : ∀ w, Published.current (configMap w) (meets w) ∧ Reconcile.fault (meets w) = None.

Abbreviation r0 := (policy_reconciler QuoteRune env0 meets0).
Abbreviation r := (policy_reconciler QuoteRune (λ _, cluster) meets).
Abbreviation resync := (resync (CL := CL) QuoteRune cluster meets).

Lemma resync_run keys w : wf admitted r w → Published.run QuoteRune admitted (configMaps w) →
  Published.run QuoteRune admitted (configMaps (resync keys w)).
Proof.
  intros Hw Hr. pose proof (policy_handlers_ok (SL := SL) QuoteRune (λ _, cluster) meets admitted admitted_content) as HK.
  eapply (reaches_run QuoteRune (λ _, cluster) meets admitted admitted_content (λ w, current_seen w _ (proj1 (undisturbed w))) w);
    [done..|]. by apply (calls_reaches r admitted _ admitted_content (SL := SL)).
Qed.

(** Well-formedness is about the finalizer only. *)
Lemma wf_present w : wf admitted r0 w → wf admitted r w.
Proof using Type. by intros []. Qed.

(** What the webhook's store serves as the policy [n]. *)
Definition served (st : Store) (n : string) (p : ClusterImagePolicy) : Prop :=
  ∃ c held, Load st = Some c ∧ cfg_ImagePolicyConfig c = Some held ∧ ImagePolicies.Policies held !! n = Some p.

(** What the webhook enforces of a policy of the cluster. *)
Definition enforced (st : Store) (r : Request) (w : Workload) (image : string) (o : CIP) : Prop :=
  let ns := getNamespace r (om_Namespace (metaOf w)) in
  let opts := [WithAuthFromKeychain (keychainOptions ns (podSpecOf w))] in
  ∃ ref g v p, ParseReference [] image = Ok ref ∧ ParseGroupVersion (APIVersion (typeOf w)) = Ok (g, v) ∧
    served st (nameOf o) p ∧ same_scope o p ∧
    let gvr := {| gvr_Group := g; gvr_Version := v;
                  gvr_Resource := UnsafeGuessKindToResource (Kind (typeOf w)) |} in
    (∃ o1 cip', same_object o o1 ∧ ReconcileSpec.inlined cluster o1 cip' ∧ Published.webhookPolicy cip' = Ok p) ∧
    (applies (Name ref) gvr (om_Labels (metaOf w)) p → Mode p ≠ "warn" → Authorities p ≠ [] →
     Forall (answers (contextOf r w) ns ref opts) (Authorities p) →
     ∃ a a', a ∈ Authorities p ∧ authoritySatisfied (contextOf r w) ns ref opts a a').

(** C2: the cluster's policies govern its workloads. Let the controller have run among
    others, whatever they did and whichever requests failed, for policies that the
    webhook of policies let pass, with copies of the ConfigMap that were current at each
    call; then, with a cache that has caught up, with policies that are being deleted
    still held by its finalizer, and none of the others such that inlining it can panic,
    let it be called once for every policy, undisturbed; and let the webhook's store, told before of any of
    the values that the ConfigMap and the trust roots' have had, be told of the last. Then every policy of
    the cluster that is not being deleted either has a status that says it failed,
    or governs every workload that the validating webhook of the process that [main]
    started then lets pass and that is not exempt: the webhook holds the policy's
    inlined form, of the same scope, and if it applies to an image of the workload,
    is not in warn mode and has authorities, one of them was satisfied for the image,
    if the request was not cancelled and cosign answers. *)
Theorem cluster_policies_enforced
    (** the controller *)
    (w : W) (keys names : list string) (Hruns : runs (CL := CL0) admitted r0 w)
    (Hcaught_up : cached w = current w)
    (Hcallable : ∀ n o, current w !! n = Some o → callable o)
    (Hnames : NoDup names ∧ ∀ n, n ∈ names ↔ is_Some (current w !! n))
    (Hkeys : Forall2 (leads (CL := CL)) keys names)
    (** the process and its store *)
    (depth : nat) (s : Schedule) (Hs : NoCancel s) (env : Environment) (fl : Flags)
    (resources : gset string) (cache : GM.Cache) (controllers : list Controller)
    (Hmain : main depth s env fl = Runs resources cache controllers)
    (roots : list (option (gmap string string))) (Hroots : TrustRootPublished.tr_run untar uaString roots)
    (l : list (string * Data)) (Hl : Forall (delivered (configMaps (resync keys w)) roots) l)
    (m : gmap string string) (Hm : configMap (resync keys w) = Some m)
    (data : Data) (Hlast : last (versions ImagePoliciesConfigName l) = Some data) (Hdata : data ≡ₚ map_to_list m)
    (sh : Shared) (Hst : changes (NewStore parseURL) l = Some (sh_store sh))
    (** the request *)
    (ac : AdmissionController) (Hac : Validating ac ∈ controllers) (Hpath : ac_path ac = "/validations")
    (ctx : Context) (Hctx : ac_withContext ac sh Background = Some ctx)
    (rq : Incoming) (wl : Workload) (Haccepted : Accepts (duck_Validate rq sh ctx wl))
    (Hexempt : ¬ exempt (requestOf rq sh ctx) wl)
    (field : string) (i : nat) (image : string) (Himage : (field, (i, image)) ∈ podImages (podSpecOf wl))
    (** the policy *)
    (n : string) (o : CIP) (Ho : current w !! n = Some o) (Hd : deletion o = None) (Hn : n ≠ "_example") :
  refused (resync keys w) o ∨ in_force cluster (resync keys w) o ∧
    enforced (sh_store sh) (requestOf rq sh ctx) wl image o.
Proof.
  assert (resources = Webhook.ValidResourceNames) as ->.
  { unfold main in Hmain. destruct (initializeTUF env fl); [done|]. by injection Hmain as <- _ _. }
  pose proof (policy_handlers_ok (SL := SL0) QuoteRune env0 meets0 admitted admitted_content) as HK.
  pose proof (runs_wf (SL := SL0) admitted r0 _ admitted_content w HK Hruns) as Hwf.
  pose proof (runs_owned (SL := SL0) admitted r0 _ admitted_content w current0 HK Hruns) as Howned.
  assert (Published.run QuoteRune admitted (configMaps w)) as Hrun.
  { eapply (reaches_run (CL := CL0) QuoteRune env0 meets0 admitted admitted_content (λ w, current_seen w _ (current0 w)) start);
      [apply wf_start|apply Published.run_start|].
    by apply (runs_reaches (SL := SL0) admitted r0 _ admitted_content w HK). }
  apply (resync_run keys) in Hrun; [|by apply wf_present].
  assert (∀ n o, current w !! n = Some o → nameOf o = n ∧ version o ≠ "") as Hobj.
  { intros n' o' Ho'. by destruct (wf_current_object admitted r0 w n' o' Hwf Ho') as (? & _ & ?). }
  assert (converged cluster (resync keys w) o) as Hconv.
  { eapply (resync_all QuoteRune cluster meets undisturbed w keys names); try done.
    intros n' Hn'. destruct (Howned n' Hn') as (o' & Ho' & _). by eexists. }
  unfold converged in Hconv. rewrite Hd in Hconv. destruct Hconv as [Hin|Href]; [right|by left]. split; [done|].
  destruct (running_webhook_lemma untar uaString QuoteRune parseURL parseURL_String PublicKeyPem_parses
    unmarshalError depth s Hs env fl _ cache controllers Hmain _ Hrun roots Hroots l Hl sh Hst ac Hac Hpath ctx Hctx rq wl
    Haccepted Hexempt field i image Himage) as (m' & data' & c & held & ks & Hm' & Hlast' & Hdata' & Hload & Hheld & _ & _ & _ & ref & g & v & Hp & Hgv & Hall).
  rewrite Hlast in Hlast'. injection Hlast' as <-.
  assert (m' = m) as -> by (apply map_to_list_inj; by rewrite <-Hdata, <-Hdata').
  destruct Hin as [(o1 & cip' & Hso & Hinl & Hentry) _]. destruct (Hobj n o Ho) as [Hname _]. rewrite Hname in Hentry.
  unfold entry in Hentry. rewrite Hm in Hentry. cbn in Hentry.
  destruct (Hall n _ Hentry Hn) as (env' & cip1 & cip2 & p & _ & _ & _ & Ht & Hwp & Hlook & Hsat).
  assert (Published.webhookPolicy cip' = Ok p) as Hwp'.
  { by rewrite <-(Published.parseEntry_entryText parseURL), Ht, Published.parseEntry_entryText. }
  exists ref, g, v, p. split; [done|]. split; [done|].
  split; [rewrite Hname; by exists c, held|]. split.
  { apply webhookPolicy_scope in Hwp'. apply (inlined_scope _ _ _ _ Hinl) in Hwp'.
    unfold same_scope in *. by rewrite <-(same_object_Spec o o1 Hso). }
  split; [by exists o1, cip'|exact Hsat].
Qed.

End System.

(** * One policy and one pod *)

Module ToyCluster.

#[local] Existing Instances ToyNames.names ToyParsers.parsers ToyCerts.certs ToyCosign.types
  ToyCosign.cosign ToyText.toyText TrustRootSpec.ToyTrustRoot.tuf GM.ToyGM.lru_instance ListFieldErrors.fieldErrors
  PoliciesSpec.ToyWebhook.registry PoliciesSpec.ToyWebhook.host ToyValidator.resourceJSON
  ReconcileSpec.ToyCluster.kms RFC6902.jsonPatch RFC6902.laws LivingConditions.conditionSets LivingConditions.laws
  Published.ToySystem.meta Published.ToySystem.laws ToyStores.stores ToyStores.laws
  TrustRootPublished.ToyKeysText.trustFormats TrustRootPublished.ToyKeysText.keysLaws ToyMain.logKeys
  ToyMain.ducks ToyMain.duck_laws ToyServer.errors ToyControllers.knative ToyControllers.knative_laws
  ToyControllers.postProcess_laws ToyControllers.error_laws ToyControllers.clients
  ToyControllers.server_laws ToyControllers.quiet_server.

(** The policy is created, and the controller's cache gets it. *)
Definition before : World V1alpha1.ClusterImagePolicy := deliver (put "policy" (Some ToyProcess.cip) start).
Definition after : World V1alpha1.ClusterImagePolicy :=
  Resync.resync (λ _, "") ReconcileSpec.ToyCluster.cluster ToyControllers.meets ["policy"] before.
Definition published : gmap string string := default ∅ (configMap after).

Definition told : list (string * Data) :=
  [(ImagePoliciesConfigName, map_to_list published); (SigstoreKeysConfigName, map_to_list ToyMain.roots)].
Definition store : Store :=
  default (NewStore ToyProcess.parseURL) (changes (NewStore ToyProcess.parseURL) told).
Definition shared : Shared :=
  {| sh_store := store; sh_pcStore := ToyMain.pcStore; sh_calls := 0; sh_gmCache := GM.NewCache 4096 30 |}.
Definition ctx : Context := default Background (ac_withContext ToyMain.validating shared Background).

Lemma before_runs :
  runs (passed ToyMain.untar ToyMain.unmarshalError Webhook.ValidResourceNames) ToyControllers.reconciler before.
Proof.
  eapply runs_others; [eapply runs_others; [apply runs_start|]|].
  - apply (other_creates policy_finalizerName _ "policy" ToyProcess.cip); try done.
    + exact ToyMain.policy_passed.
    + split; [done|]. intros objs n o ->%list_elem_of_singleton. by rewrite lookup_empty.
    + apply not_elem_of_nil.
  - apply cache_advances. cbn. lia.
Qed.

Lemma before_current : current before = {[ "policy" := ToyProcess.cip ]}.
Proof. vm_compute. reflexivity. Qed.

Lemma cluster_told_delivered : Forall (delivered (configMaps after) [Some ToyMain.roots; None]) told.
Proof.
  apply Forall_cons_2; [|apply Forall_cons_2; [|apply Forall_nil_2]].
  - left. split; [done|]. exists published. split; [|done]. apply (list_elem_of_lookup_2 _ 0). vm_compute. reflexivity.
  - right. split; [done|]. exists ToyMain.roots. split; [by left|done].
Qed.

End ToyCluster.

#[local] Existing Instances ToyNames.names ToyParsers.parsers ToyCerts.certs ToyCosign.types
  ToyCosign.cosign ToyText.toyText TrustRootSpec.ToyTrustRoot.tuf GM.ToyGM.lru_instance ListFieldErrors.fieldErrors
  PoliciesSpec.ToyWebhook.registry PoliciesSpec.ToyWebhook.host ToyValidator.resourceJSON
  ReconcileSpec.ToyCluster.kms RFC6902.jsonPatch RFC6902.laws LivingConditions.conditionSets LivingConditions.laws
  Published.ToySystem.meta Published.ToySystem.laws ToyStores.stores ToyStores.laws
  TrustRootPublished.ToyKeysText.trustFormats TrustRootPublished.ToyKeysText.keysLaws ToyMain.logKeys
  ToyMain.ducks ToyMain.duck_laws ToyServer.errors ToyControllers.knative ToyControllers.knative_laws
  ToyControllers.postProcess_laws ToyControllers.error_laws ToyControllers.clients
  ToyControllers.server_laws ToyControllers.quiet_server.

Lemma cluster_policies_enforced_witness :
  ∃ p a a', served ToyCluster.store "policy" p ∧ a ∈ Authorities p ∧
    authoritySatisfied (contextOf (requestOf ToyMain.incoming ToyCluster.shared ToyCluster.ctx) ToyProcess.pod) ""
      (ToyProcess.image : Reference) [WithAuthFromKeychain (keychainOptions "" (podSpecOf ToyProcess.pod))] a a'.
Proof.
  assert (Hone : ∀ n o, current ToyCluster.before !! n = Some o → n = "policy" ∧ o = ToyProcess.cip).
  { intros n o. rewrite ToyCluster.before_current. by intros [<- <-]%lookup_singleton_Some. }
  destruct (cluster_policies_enforced ToyMain.untar "" (λ _, "") ToyProcess.parseURL
    (λ u, match u with {| urlString := s |} => eq_refl end) Published.ToyRun.kms_parses
    ToyMain.unmarshalError (λ _, ReconcileSpec.ToyCluster.cluster) ToyControllers.meets
    ToyControllers.meets_current ReconcileSpec.ToyCluster.cluster ToyControllers.meets
    (λ w, conj (ToyControllers.meets_current w) eq_refl) ToyCluster.before ["policy"] ["policy"]
    ToyCluster.before_runs) with (depth := 3) (s := ToyMain.s) (env := ToyMain.environment) (fl := ToyMain.flags)
    (cache := gmCache (λ _, "")) (controllers := ToyMain.controllers) (resources := Webhook.ValidResourceNames)
    (roots := [Some ToyMain.roots; None]) (l := ToyCluster.told) (m := ToyCluster.published) (sh := ToyCluster.shared)
    (data := map_to_list ToyCluster.published) (ac := ToyMain.validating) (ctx := ToyCluster.ctx)
    (rq := ToyMain.incoming) (wl := ToyProcess.pod) (field := "containers") (i := 0) (image := ToyProcess.image)
    (n := "policy") (o := ToyProcess.cip) as [[Href _]|[_ (ref & g & v & p & Hp & Hgv & Hserved & Hscope & _ & Hsat)]].
  - reflexivity.
  - intros n o [-> ->]%Hone. split; [|intros Hd; by destruct Hd]. intros _. right. intros a att q Ha Hatt.
    apply list_elem_of_singleton in Ha as ->. by apply elem_of_nil in Hatt.
  - split; [apply NoDup_singleton|]. intros n. rewrite list_elem_of_singleton. split.
    + intros ->. rewrite ToyCluster.before_current. by eexists.
    + by intros [o [-> _]%Hone].
  - apply Forall2_cons_2; [|apply Forall2_nil_2]. exists "". by split.
  - exact PoliciesSpec.inOrder_NoCancel.
  - reflexivity.
  - exact ToyMain.roots_run.
  - exact ToyCluster.cluster_told_delivered.
  - vm_compute. reflexivity.
  - reflexivity.
  - reflexivity.
  - apply ToyMain.default_Some. vm_compute. reflexivity.
  - apply (list_elem_of_lookup_2 _ 1). reflexivity.
  - vm_compute. reflexivity.
  - apply ToyMain.default_Some. vm_compute. reflexivity.
  - apply None_Accepts. vm_compute. reflexivity.
  - intros [H|[H|[H|(ps & _ & _ & _ & H & _)]]]; try discriminate H. apply H. reflexivity.
  - vm_compute. left.
  - rewrite ToyCluster.before_current. reflexivity.
  - reflexivity.
  - discriminate.
  - exfalso. revert Href. vm_compute. discriminate.
  - assert (Ha : Authorities p = Authorities ToyProcess.held).
    { destruct Hserved as (c & held & Hc & Hh & Hl). clear -Hc Hh Hl.
      apply (f_equal (λ o, o ≫= λ c, cfg_ImagePolicyConfig c ≫= λ h,
        (λ p : ClusterImagePolicy, Authorities p) <$> (ImagePolicies.Policies h !! "policy"))) in Hc.
      cbn [mbind option_bind] in Hc. rewrite Hh in Hc. cbn [mbind option_bind] in Hc.
      change (nameOf ToyProcess.cip) with "policy" in Hl. rewrite Hl in Hc. cbn [fmap option_fmap option_map] in Hc.
      assert (He : Some (Authorities ToyProcess.held) = Some (Authorities p)).
      { rewrite <-Hc. vm_compute. reflexivity. }
      by injection He. }
    destruct Hscope as (Hi & Hm & Hmd). injection Hp as <-. rewrite Ha in *.
    destruct Hsat as (a & a' & Hin & Hs).
    + split; [left; exact Hm|]. rewrite Hi. apply Exists_cons. left. split; [discriminate|]. vm_compute. reflexivity.
    + rewrite Hmd. discriminate.
    + vm_compute. discriminate.
    + let l := eval vm_compute in (Authorities ToyProcess.held) in change (Authorities ToyProcess.held) with l.
      apply Forall_cons_2; [|apply Forall_nil_2]. intros _ _ pull. vm_compute. discriminate.
    + exists p, a, a'. rewrite Ha. split; [exact Hserved|]. split; [exact Hin|exact Hs].
Defined.
