(* ===== verification/TrustSystem.v ===== *)
(** From the trust roots of the cluster to the keys that the webhook trusts: the
    controller of trust roots (TrustRootResync) and the webhook's store (ProcessSpec)
    put together. *)

From S2P Require Import Prelude.
From S2P Require Import Names.
From S2P Require Import FieldErrors.
From S2P Require Import K8s.
From S2P Require Import Encoding.
From S2P Require Import Oci.
From S2P Require Import SigstoreKeys.
From S2P Require Tuf.
From S2P Require TrustRoot.
From S2P Require Import TrustKeys.
From S2P Require V1alpha1.
From S2P Require Import WebhookTypes.
From S2P Require GM.
From S2P Require Import Cosign.
From S2P Require Import ImagePolicies.
From S2P Require Import CheckOpts.
From S2P Require Import Policies.
From S2P Require Import PoliciesSpec.
From S2P Require Import Workloads.
From S2P Require Import Validator.
From S2P Require Import ConfigMaps.
From S2P Require Import Lifecycle.
From S2P Require Reconcile.
From S2P Require ReconcileSpec.
From S2P Require Published.
From S2P Require Import TrustRootReconcile.
From S2P Require TrustRootSpec.
From S2P Require Import TrustRootPublished.
From S2P Require Import GenReconciler.
From S2P Require Import ApiServer.
From S2P Require Import GenReconcilerSpec.
From S2P Require Import Convergence.
From S2P Require ToyServer.
From S2P Require Import Controllers.
From S2P Require Import ControllersSpec.
From S2P Require Import TrustRootResync.
From S2P Require Import Webhook.
From S2P Require Import Stores.
From S2P Require Import Process.
From S2P Require Import ProcessSpec.

#[local] Set Default Proof Using "Type*".
#[local] Existing Instance trust_keys.

#[local] Abbreviation TR := TrustRoot.TrustRoot.
#[local] Abbreviation W := (World TR).

Section System.
Context `{N : NamePkg} `{F : FieldErrors} `{P : Parsers} `{J : JsonText} `{C : Certs}
  `{T : CosignTypes} `{G : !Cosign} `{L : GM.LRU} `{M : K8sMeta} `{R : !Registry} `{HO : Host}
  `{RJ : ResourceJSON} `{TP : Tuf.TufPkg} `{U : UntypedStores} `{KM : Reconcile.KMSPkg} `{JP : JSONPatch}
  `{CS : ConditionSets} `{LK : !LogKeys} `{TF : TrustFormats} `{KS : KnativeStatus} `{E : GoErrors}.
Context `{JL : !JSONPatchLaws} `{YL : !Published.YAMLLaws} {UL : UntypedStoreLaws U}
  `{TL : !KeysLaws (KF := trust_keys)} `{CSL : !ConditionSetLaws} `{EL : !GoErrorLaws} `{KL : !KnativeStatusLaws}
  `{PL : !PostProcessLaws}.
Variable untar : string → result string Tuf.Archive.
Variable uaString : string.
Variable QuoteRune : Z → string.
Variable parseURL : string → result string URL.
Hypothesis parseURL_String : ∀ u, parseURL (urlString u) = Ok u.
Hypothesis PublicKeyPem_parses : ∀ signer pem,
  Reconcile.PublicKeyPem signer = Ok pem → is_Ok (UnmarshalPEMToPublicKey pem).

(** The trust roots that the webhook of policies lets in. *)
Variable admitted : TR → Prop.
Hypothesis admitted_content : ∀ o o', nameOf o' = nameOf o → content o' = content o → admitted o → admitted o'.

(** The past: the controller among others, with copies of its ConfigMap that are
    current, but errors. *)
Context {CL0 : Clients W TR} {SL0 : ServerLaws (CL := CL0) trustroot_FinalizerName admitted}.
Variable meets0 : W → Reconcile.Meets.
Hypothesis current0 : ∀ w, Published.current (configMap w) (meets0 w).

(** The present: the controller alone. *)
Context {CL : Clients W TR} {SL : ServerLaws (CL := CL) trustroot_FinalizerName admitted} {QS : QuietServer (CL := CL)}.
Variable meets : W → Reconcile.Meets.
Hypothesis undisturbed : ∀ w, Published.current (configMap w) (meets w) ∧ Reconcile.fault (meets w) = None.

Abbreviation r0 := (trustroot_reconciler untar uaString meets0).
Abbreviation r := (trustroot_reconciler untar uaString meets).
Abbreviation tr_resync := (tr_resync (CL := CL) untar uaString meets).
Abbreviation keysFor := (keysFor untar uaString).
Abbreviation tr_callable := (tr_callable untar uaString).
Abbreviation tr_run := (tr_run untar uaString).

(** After any run, a resynchronisation is a run still. *)
Lemma tr_resync_run keys w : runs (CL := CL0) admitted r0 w → tr_run (configMaps (tr_resync keys w)).
Proof using All.
  intros Hruns. pose proof (trustroot_handlers_ok untar uaString meets0 admitted admitted_content) as HK0.
  pose proof (trustroot_handlers_ok untar uaString meets admitted admitted_content) as HK.
  apply (tr_reaches_run untar uaString meets admitted (λ w, current_seen w _ (proj1 (undisturbed w))) w).
  - by apply (trustroot_refines_run (SL := SL0) untar uaString meets0 admitted admitted_content
      (λ w, current_seen w _ (current0 w))).
  - apply (calls_reaches r admitted _ admitted_content (SL := SL)); [done|].
    by destruct (runs_wf (SL := SL0) admitted r0 _ admitted_content w HK0 Hruns).
Qed.

(** C3: the webhook trusts the keys of the cluster's trust roots. Let the controller
    of trust roots have run among others, whatever they did and whichever requests
    failed, as long as the copies of the ConfigMap it read were current at each call
    (with an old copy, a trust root finalized right after its creation leaves its entry
    behind for good, as policies do: [stale_copy_orphans_entry]); then, with a cache
    that has caught up, with trust roots that are being deleted still held by its
    finalizer, and the keys of the others derived without a panic, let it be called
    once for every trust root, undisturbed; and let the webhook's store, told before of
    any of the values that its two ConfigMaps have had, be told of the last of the trust
    roots'. Then it has not ended the process, and if it serves a configuration, this
    has for every trust root that is not being deleted, and whose keys can be had, these
    keys, and no others, but that a trust root whose keys cannot be had any more leaves
    those it had before. *)
Theorem cluster_trust_roots_trusted
    (** the controller *)
    (w : W) (keys names : list string) (Hruns : runs (CL := CL0) admitted r0 w)
    (Hcaught_up : cached w = current w)
    (Hcallable : ∀ n t, current w !! n = Some t → tr_callable t)
    (Hnames : NoDup names ∧ ∀ n, n ∈ names ↔ is_Some (current w !! n))
    (Hkeys : Forall2 (leads (CL := CL)) keys names)
    (** the store *)
    (valid : V1alpha1.ClusterImagePolicy → Prop)
    (Hvalid : ∀ cip, valid cip → Published.validated Webhook.ValidResourceNames cip ∧ Published.readable_sources cip)
    (history : list (option (gmap string string))) (Hhistory : Published.run QuoteRune valid history)
    (l : list (string * Data)) (Hl : Forall (delivered history (configMaps (tr_resync keys w))) l)
    (m : gmap string string) (Hm : configMap (tr_resync keys w) = Some m)
    (data : Data) (Hlast : last (versions SigstoreKeysConfigName l) = Some data) (Hdata : data ≡ₚ map_to_list m) :
  ∃ st, changes (NewStore parseURL) l = Some st ∧ ∀ c, Load st = Some c →
    ∃ trusted, cfg_SigstoreKeysConfig c = Some trusted ∧
    (∀ n t sk, current w !! n = Some t → deletion t = None → n ≠ "_example" → keysFor t = Reconcile.Return sk →
       trusted !! n = Some sk) ∧
    (∀ n sk, trusted !! n = Some sk → ∃ t, current w !! n = Some t ∧ deletion t = None ∧
       (keysFor t = Reconcile.Return sk ∨
        (∃ err, keysFor t = Reconcile.Fails err) ∧ entry w n = Some (protojson_Marshal sk))).
Proof using All.
  pose proof (trustroot_handlers_ok untar uaString meets0 admitted admitted_content) as HK0.
  pose proof (runs_wf (SL := SL0) admitted r0 _ admitted_content w HK0 Hruns) as Hwf.
  pose proof (runs_owned (SL := SL0) admitted r0 _ admitted_content w current0 HK0 Hruns) as Howned.
  pose proof (tr_resync_run keys w Hruns) as Hroots.
  assert (∀ n t, current w !! n = Some t → nameOf t = n ∧ version t ≠ "") as Hobj.
  { intros n t Ht. by destruct (wf_current_object admitted r0 w n t Hwf Ht) as (? & _ & ?). }
  destruct (tr_resync_all untar uaString meets undisturbed w keys names Hcaught_up Hobj Hcallable Hnames Hkeys)
    as [Hconv Hrest]. fold tr_resync in Hconv, Hrest.
  destruct (store_follows untar uaString QuoteRune parseURL parseURL_String PublicKeyPem_parses valid Hvalid history
    Hhistory _ Hroots l Hl) as (st & Hst & Hserves).
  exists st. split; [done|]. intros c Hc. destruct (Hserves c Hc) as [_ (m' & data' & trusted & _ & Hlast' & Hdata' & Htr & Hread)].
  rewrite Hlast in Hlast'. injection Hlast' as <-.
  assert (m' = m) as -> by (apply map_to_list_inj; by rewrite <-Hdata, <-Hdata').
  exists trusted. split; [done|].
  assert (∃ past, configMaps (tr_resync keys w) = Some m :: past) as [past Hpast].
  { unfold configMap in Hm. destruct (configMaps (tr_resync keys w)); [done|]. cbn in Hm. subst. by eexists. }
  rewrite Hpast in Hroots.
  destruct (webhook_reads_trust_roots untar uaString past m Hroots data Hdata) as (trusted' & Hread' & Hlook).
  unfold NewSigstoreKeysFromConfigMap in Hread. rewrite Hread in Hread'. injection Hread' as <-.
  assert (∀ n, entry (tr_resync keys w) n = m !! n) as Hentry by (intros n; unfold entry; by rewrite Hm).
  split.
  - intros n t sk Ht Hd Hn Hsk. apply Hlook. split; [done|]. exists t. destruct (Hobj n t Ht) as [Hname _].
    split; [done|]. split; [by apply keysFor_keys_of|]. pose proof (Hconv n t Ht) as Hk.
    unfold tr_converged in Hk. rewrite Hd in Hk. destruct Hk as (t' & _ & _ & _ & Hk). rewrite Hsk, Hname, Hentry in Hk.
    by destruct Hk.
  - intros n sk (_ & _ & _ & _ & Hsk)%Hlook. rewrite <-Hentry in Hsk. destruct (current w !! n) as [t|] eqn:Ht.
    2: { exfalso. destruct (Hrest n Ht) as [_ He]. rewrite He in Hsk.
         destruct (Howned n) as (o & Ho & _); [apply listed_entry; by eexists|]. by rewrite Ht in Ho. }
    exists t. split; [done|]. destruct (Hobj n t Ht) as [Hname _]. pose proof (Hconv n t Ht) as Hk.
    unfold tr_converged in Hk. destruct (deletion t); [destruct Hk as [Hk _]; rewrite Hname in Hk; congruence|].
    split; [done|]. destruct Hk as (t' & _ & _ & _ & Hk). rewrite Hname in Hk. destruct (keysFor t) as [sk'|err|]; [| |done]; destruct Hk as [He _].
    + left. rewrite He in Hsk. injection Hsk as Hsk. apply (f_equal parseSigstoreKeys) in Hsk.
      rewrite !parseSigstoreKeys_Marshal in Hsk. by injection Hsk as ->.
    + right. split; [by eexists|]. by rewrite <-He.
Qed.

End System.

(** * Two trust roots *)

Module ToyTrust.

#[local] Existing Instances ToyNames.names ToyParsers.parsers ToyText.toyText TrustRootSpec.ToyTrustRoot.tuf
  RFC6902.jsonPatch RFC6902.laws LivingConditions.conditionSets LivingConditions.laws
  TrustRootPublished.ToyKeysText.trustFormats TrustRootPublished.ToyKeysText.keysLaws ToyMain.logKeys
  ToyServer.errors ToyControllers.knative ToyControllers.knative_laws ToyControllers.error_laws.

Definition trustroot (name version : string) (spec : TrustRoot.TrustRootSpec) : TR := {|
  TrustRoot.tr_TypeMeta := {| Kind := "TrustRoot"; APIVersion := "policy.sigstore.dev/v1alpha1" |};
  TrustRoot.tr_ObjectMeta := {| om_Name := name; om_Namespace := ""; om_UID := "uid";
    om_ResourceVersion := version; om_Generation := 1; om_Labels := ∅; om_DeletionTimestamp := None; om_Finalizers := [] |};
  TrustRoot.tr_Spec := spec;
  TrustRoot.tr_Status := {| ObservedGeneration := 1; Conditions := [] |} |}.

(** One has a certificate authority, the other no keys at all. *)
Definition authority : TrustRoot.CertificateAuthority := {|
  TrustRoot.Subject := {| TrustRoot.Organization := "org"; TrustRoot.CommonName := "name" |};
  TrustRoot.URI := {| urlString := "https://fulcio.example.com" |};
  TrustRoot.CertChain := chainPEM [{| RawBytes := "certificate" |}] |}.
Definition good : TR := trustroot "good" "1" {|
  TrustRoot.spec_Remote := None; TrustRoot.spec_Repository := None;
  TrustRoot.spec_SigstoreKeys := Some {| TrustRoot.CertificateAuthorities := [authority]; TrustRoot.TLogs := [];
    TrustRoot.CTLogs := []; TrustRoot.TimeStampAuthorities := [] |} |}.
Definition bad : TR := trustroot "bad" "2" {|
  TrustRoot.spec_Remote := None; TrustRoot.spec_Repository := None; TrustRoot.spec_SigstoreKeys := None |}.

Definition set_meta (t : TR) (m : ObjectMeta) : TR :=
  {| TrustRoot.tr_TypeMeta := TrustRoot.tr_TypeMeta t; TrustRoot.tr_ObjectMeta := m; TrustRoot.tr_Spec := TrustRoot.tr_Spec t;
     TrustRoot.tr_Status := TrustRoot.tr_Status t |}.
#[export] Instance clients : Clients W TR := ToyServer.clients set_meta.
#[export] Instance server_laws fin accepted : ServerLaws fin accepted :=
  ToyServer.server_laws set_meta (λ _ _, eq_refl) (λ _ _, eq_refl) (λ _ _, eq_refl) fin accepted.
#[export] Instance quiet_server : QuietServer :=
  ToyServer.quiet_server set_meta (λ _ _, eq_refl) (λ _ _, eq_refl) (λ _ _, eq_refl).

Definition meets (w : W) : Reconcile.Meets := Published.ToySystem.fresh (configMap w).
Lemma tr_meets_current w : Published.current (configMap w) (meets w).
Proof. unfold Published.current, meets. destruct (configMap w); [done|]. by eexists. Qed.

Definition any (t : TR) : Prop := True.
Definition before : W := deliver (deliver (put "bad" (Some bad) (put "good" (Some good) start))).
Definition names : list string := ["good"; "bad"].
Definition after : W := TrustRootResync.tr_resync ToyMain.untar "" meets names before.

Lemma roots_run_before : runs any (trustroot_reconciler ToyMain.untar "" meets) before.
Proof.
  eapply runs_others; [eapply runs_others; [eapply runs_others; [eapply runs_others; [apply runs_start|]|]|]|].
  - apply (other_creates trustroot_FinalizerName any "good" good); try done.
    + split; [done|]. intros objs n o ->%list_elem_of_singleton. by rewrite lookup_empty.
    + apply not_elem_of_nil.
  - apply (other_creates trustroot_FinalizerName any "bad" bad); try done.
    + split; [done|]. intros objs n o [->| ->%list_elem_of_singleton]%elem_of_cons; [by rewrite lookup_empty|].
      change (({[ "good" := good ]} : gmap string TR) !! n = Some o → version o ≠ "2").
      by intros [_ <-]%lookup_singleton_Some.
    + apply not_elem_of_nil.
  - apply cache_advances. cbn. lia.
  - apply cache_advances. cbn. lia.
Qed.

Lemma roots_current : current before = {[ "bad" := bad; "good" := good ]}.
Proof. vm_compute. reflexivity. Qed.

Lemma current_forall (Q : string → TR → Prop) : Q "bad" bad → Q "good" good → ∀ n t, current before !! n = Some t → Q n t.
Proof.
  intros H1 H2. rewrite roots_current. change (map_Forall Q ({[ "bad" := bad; "good" := good ]} : gmap string TR)).
  apply map_Forall_insert_2; [done|]. by apply map_Forall_singleton.
Qed.

Definition published : gmap string string := default ∅ (configMap after).
Definition told : list (string * Data) :=
  [(SigstoreKeysConfigName, map_to_list published); (ImagePoliciesConfigName, map_to_list ToyProcess.live)].

Lemma tr_told_delivered : Forall (delivered [Some ToyProcess.live; None] (configMaps after)) told.
Proof.
  apply Forall_cons_2; [|apply Forall_cons_2; [|apply Forall_nil_2]].
  - right. split; [done|]. exists published. split; [|done]. apply (list_elem_of_lookup_2 _ 0). vm_compute. reflexivity.
  - left. split; [done|]. exists ToyProcess.live. split; [by left|done].
Qed.

(** The certificates of the authorities. *)
Definition chains (sk : SigstoreKeys) : list (option (list string)) :=
  (λ a, option_map (map RawBytes) (CertChain a)) <$> CertificateAuthorities sk.

End ToyTrust.

#[local] Existing Instances ToyNames.names ToyParsers.parsers ToyCerts.certs ToyCosign.types
  ToyCosign.cosign ToyText.toyText TrustRootSpec.ToyTrustRoot.tuf GM.ToyGM.lru_instance ListFieldErrors.fieldErrors
  PoliciesSpec.ToyWebhook.registry PoliciesSpec.ToyWebhook.host ToyValidator.resourceJSON
  ReconcileSpec.ToyCluster.kms RFC6902.jsonPatch RFC6902.laws LivingConditions.conditionSets LivingConditions.laws
  Published.ToySystem.meta Published.ToySystem.laws ToyStores.stores ToyStores.laws
  TrustRootPublished.ToyKeysText.trustFormats TrustRootPublished.ToyKeysText.keysLaws ToyMain.logKeys
  ToyServer.errors ToyControllers.knative ToyControllers.knative_laws
  ToyControllers.postProcess_laws ToyControllers.error_laws ToyTrust.clients ToyTrust.server_laws ToyTrust.quiet_server.

Lemma cluster_trust_roots_trusted_witness :
  ∃ st c trusted sk, changes (NewStore ToyProcess.parseURL) ToyTrust.told = Some st ∧ Load st = Some c ∧
    cfg_SigstoreKeysConfig c = Some trusted ∧ trusted !! "good" = Some sk ∧ trusted !! "bad" = None ∧
    ToyTrust.chains sk = [Some ["certificate"]].
Proof.
  destruct (cluster_trust_roots_trusted ToyMain.untar "" (λ _, "") ToyProcess.parseURL
    (λ u, match u with {| urlString := s |} => eq_refl end) Published.ToyRun.kms_parses ToyTrust.any
    (λ _ _ _ _ H, H) ToyTrust.meets ToyTrust.tr_meets_current ToyTrust.meets
    (λ w, conj (ToyTrust.tr_meets_current w) eq_refl) ToyTrust.before ToyTrust.names ToyTrust.names ToyTrust.roots_run_before)
    with (valid := passed ToyMain.untar ToyMain.unmarshalError Webhook.ValidResourceNames)
      (history := [Some ToyProcess.live; None]) (l := ToyTrust.told) (m := ToyTrust.published)
      (data := map_to_list ToyTrust.published) as (st & Hst & Hload).
  - reflexivity.
  - apply ToyTrust.current_forall; vm_compute; discriminate.
  - split; [apply (bool_decide_unpack _); vm_compute; reflexivity|]. intros n. rewrite ToyTrust.roots_current. split.
    + intros Hn. repeat (apply elem_of_cons in Hn as [->|Hn]; [by eexists|]). by apply elem_of_nil in Hn.
    + intros [t Ht]. rewrite <-ToyTrust.roots_current in Ht. revert n t Ht. apply ToyTrust.current_forall; set_solver.
  - repeat constructor; exists ""; by split.
  - apply passed_validated.
  - exact ToyMain.main_run.
  - exact ToyTrust.tr_told_delivered.
  - apply ToyMain.default_Some. vm_compute. reflexivity.
  - reflexivity.
  - reflexivity.
  - assert (is_Some (changes (NewStore ToyProcess.parseURL) ToyTrust.told ≫= Load)) as [c Hc]
      by (apply (bool_decide_unpack _); vm_compute; reflexivity).
    rewrite Hst in Hc. destruct (Hload c Hc) as (trusted & Htr & Hall & Honly).
    destruct (TrustRootResync.keysFor ToyMain.untar "" ToyTrust.good) as [sk|err|] eqn:Hk; [|vm_compute in Hk; discriminate Hk..].
    exists st, c, trusted, sk. split; [exact Hst|]. split; [exact Hc|]. split; [exact Htr|].
    split; [apply (Hall "good" ToyTrust.good sk); [rewrite ToyTrust.roots_current; reflexivity|reflexivity|discriminate|exact Hk]|].
    split.
    + destruct (trusted !! "bad") as [sk'|] eqn:Hbad; [|reflexivity]. exfalso.
      destruct (Honly "bad" sk' Hbad) as (t & Ht & _ & [Hkeys|[_ He]]); [|vm_compute in He; discriminate He].
      rewrite ToyTrust.roots_current in Ht. injection Ht as <-. vm_compute in Hkeys. discriminate Hkeys.
    + assert (He : (λ r, match r with Reconcile.Return sk => ToyTrust.chains sk | _ => [] end)
        (TrustRootResync.keysFor ToyMain.untar "" ToyTrust.good) = [Some ["certificate"]]) by (vm_compute; reflexivity).
      rewrite Hk in He. exact He.
Defined.
