(* ===== verification/Scheme.v ===== *)
(** The names of the API (pkg/apis/policy/register.go and the register.go of each
    version and of the duck types): groups, versions, kinds and resources, and what is
    registered with a scheme of apimachinery. *)

From S2P Require Import Prelude.
From S2P Require Import FieldErrors.
From S2P Require Import K8s.
From S2P Require Import Cosign.
From S2P Require GM.
From S2P Require PolicyTester.
From S2P Require Import Webhook.
From S2P Require Import Process.
From S2P Require Controllers.

#[local] Set Default Proof Using "Type*".

Definition GroupName : string := "policy.sigstore.dev".
Definition DuckGroupName : string := "duck.policy.sigstore.dev".

Record GroupVersion := { Group : string; Version : string }.
Record GroupKind := { gk_Group : string; gk_Kind : string }.
Record GroupResource := { gr_Group : string; gr_Resource : string }.

Definition ClusterImagePolicyResource : GroupResource :=
  {| gr_Group := GroupName; gr_Resource := "clusterimagepolicies" |}.
(** [schema.GroupResource.String]. *)
Definition GroupResource_String (r : GroupResource) : string :=
  if gr_Group r ==s "" then gr_Resource r else gr_Resource r +:+ "." +:+ gr_Group r.

Definition WithKind (gv : GroupVersion) (k : string) : PolicyTester.GroupVersionKind :=
  kind (Group gv) (Version gv) k.

(** A scheme: the names of the Go types by group, version and kind. *)
Definition scheme : Type := list (PolicyTester.GroupVersionKind * string).
(** [AddKnownTypes] registers each type under its own name. *)
Definition AddKnownTypes (gv : GroupVersion) (package : string) (types : list string) (s : scheme) : scheme :=
  s ++ ((λ t, (WithKind gv t, package +:+ "." +:+ t)) <$> types).

(** ** v1alpha1 *)

Definition alpha_SchemeGroupVersion : GroupVersion := {| Group := GroupName; Version := "v1alpha1" |}.
Definition alpha_Kind (k : string) : GroupKind := {| gk_Group := Group alpha_SchemeGroupVersion; gk_Kind := k |}.
Definition alpha_Resource (r : string) : GroupResource := {| gr_Group := Group alpha_SchemeGroupVersion; gr_Resource := r |}.
Definition alpha_addKnownTypes : scheme → scheme :=
  AddKnownTypes alpha_SchemeGroupVersion "v1alpha1" ["ClusterImagePolicy"; "ClusterImagePolicyList"; "TrustRoot"; "TrustRootList"].
Definition alpha_ClusterImagePolicy_GetGroupVersionKind := WithKind alpha_SchemeGroupVersion "ClusterImagePolicy".
Definition TrustRoot_GetGroupVersionKind := WithKind alpha_SchemeGroupVersion "TrustRoot".

(** ** v1beta1 *)

Definition beta_SchemeGroupVersion : GroupVersion := {| Group := GroupName; Version := "v1beta1" |}.
Definition beta_Kind (k : string) : GroupKind := {| gk_Group := Group beta_SchemeGroupVersion; gk_Kind := k |}.
Definition beta_Resource (r : string) : GroupResource := {| gr_Group := Group beta_SchemeGroupVersion; gr_Resource := r |}.
Definition beta_addKnownTypes : scheme → scheme :=
  AddKnownTypes beta_SchemeGroupVersion "v1beta1" ["ClusterImagePolicy"; "ClusterImagePolicyList"].
Definition beta_ClusterImagePolicy_GetGroupVersionKind := WithKind beta_SchemeGroupVersion "ClusterImagePolicy".

(** ** The duck types *)

Definition duck_SchemeGroupVersion : GroupVersion := {| Group := DuckGroupName; Version := "v1beta1" |}.
Definition duck_Kind (k : string) : GroupKind := {| gk_Group := Group duck_SchemeGroupVersion; gk_Kind := k |}.
Definition duck_Resource (r : string) : GroupResource := {| gr_Group := Group duck_SchemeGroupVersion; gr_Resource := r |}.
Definition duck_addKnownTypes : scheme → scheme :=
  AddKnownTypes duck_SchemeGroupVersion "duck" ["PodScalable"; "PodScalableList"].

(** ** Agreement *)

(** The Go type that the webhook of policies decodes a resource to. *)
Definition goType (r : PolicyResource) : string :=
  match r with
  | AlphaClusterImagePolicy => "v1alpha1.ClusterImagePolicy"
  | AlphaTrustRoot => "v1alpha1.TrustRoot"
  | BetaClusterImagePolicy => "v1beta1.ClusterImagePolicy"
  end.

(** The webhook of policies serves the kinds that the scheme knows, all but the lists
    and in the same types; and the finalizer of the controller of policies is the name
    of their resource, as is the name of the definition that conversion serves. *)
Lemma served_policies_registered `{F : FieldErrors} `{P : Parsers} `{T : CosignTypes} `{L : GM.LRU} (ctx : Context) :
  let s := beta_addKnownTypes (alpha_addKnownTypes []) in
  Forall (λ t, (t.1, goType t.2) ∈ s) typesCIP ∧
  Forall (λ t, t.1 ∈ typesCIP.*1 ∨ PolicyTester.gvk_Kind t.1 ∈ ["ClusterImagePolicyList"; "TrustRootList"]) s ∧
  typesCIP.*1 = [alpha_ClusterImagePolicy_GetGroupVersionKind; TrustRoot_GetGroupVersionKind;
                 beta_ClusterImagePolicy_GetGroupVersionKind] ∧
  Controllers.policy_finalizerName = GroupResource_String ClusterImagePolicyResource ∧
  cv_DefinitionName (newConversionController ctx) = GroupResource_String ClusterImagePolicyResource.
Proof. cbv zeta. split_and!; try done; repeat constructor; set_solver. Qed.
