(* ===== verification/Tester.v ===== *)
(** The command that checks an image against a policy (cmd/tester): its flags,
    the resource and the trust root it can be given, and its exit codes. *)

From S2P Require Import Prelude.
From S2P Require Import Names.
From S2P Require Import FieldErrors.
From S2P Require Import PCConfig.
From S2P Require Import K8s.
From S2P Require Import Encoding.
From S2P Require Import Common.
From S2P Require Import Oci.
From S2P Require Import SigstoreKeys.
From S2P Require Import Tuf.
From S2P Require TrustRoot.
From S2P Require Import TrustKeys.
From S2P Require Import WebhookTypes.
From S2P Require GM.
From S2P Require Import Cosign.
From S2P Require Import ImagePolicies.
From S2P Require Import CheckOpts.
From S2P Require Import Results.
From S2P Require Import Authority.
From S2P Require Import Gather.
From S2P Require Import Policies.
From S2P Require Import PoliciesSpec.
From S2P Require Import TrustRootReconcile.
From S2P Require TrustRootSpec.
From S2P Require Import PolicyTester.
From S2P Require Import PolicyTesterSpec.

#[local] Set Default Proof Using "Type*".

(** * trustroot.go *)

Section Keys.
Context `{LK : LogKeys} `{TP : TufPkg} `{TF : TrustFormats}.
Variable untar : string → result string Archive.
Variable uaString : string.

Definition GetKeysFromTrustRoot (tr : TrustRoot.TrustRoot) : result string SigstoreKeys :=
  let spec := TrustRoot.tr_Spec tr in
  match TrustRoot.spec_Remote spec with
  | Some remote =>
      client ← map_err (append "failed to initialize TUF client from remote: ")
        (ClientFromRemote uaString (urlString (TrustRoot.Mirror remote))
          (default "" (TrustRoot.rem_Root remote)) (TrustRoot.rem_Targets remote));
      GetSigstoreKeysFromTuf client ""
  | None =>
      match TrustRoot.spec_Repository spec with
      | Some repository =>
          client ← map_err (append "failed to initialize TUF client from remote: ")
            (ClientFromSerializedMirror (untar (TrustRoot.MirrorFS repository))
              (default "" (TrustRoot.repo_Root repository)) (TrustRoot.repo_Targets repository)
              TrustRoot.DefaultTUFRepoPrefix);
          GetSigstoreKeysFromTuf client ""
      | None =>
          match TrustRoot.spec_SigstoreKeys spec with
          | Some keys => ConvertSigstoreKeys keys
          | None => Err "provided trust root configuration is not supported"
          end
      end
  end.

Lemma addTargets_no_custom client targets ret : Forall (λ t, t.2 = None) targets →
  addTargets client targets ret = Ok ret.
Proof.
  induction targets as [|[n c] targets IH]; [done|]. intros [Hc H]%Forall_cons. cbn in Hc |- *. subst c. by apply IH.
Qed.

(** The command does not look for the target of the trusted root. For a remote
    TUF repository that has the target the reconciler reads, but no custom metadata
    on its targets, the reconciler finds the keys of the target and the command
    none at all. *)
Theorem tester_misses_trusted_root (tr : TrustRoot.TrustRoot) (remote : TrustRoot.Remote)
    (client : TUFClient) (data err : string) (sk : SigstoreKeys) (targets : list (string * option string))
    (Hremote : TrustRoot.spec_Remote (TrustRoot.tr_Spec tr) = Some remote)
    (Hrepo : TrustRoot.spec_Repository (TrustRoot.tr_Spec tr) = None)
    (Hclient : ClientFromRemote uaString (urlString (TrustRoot.Mirror remote))
       (default "" (TrustRoot.rem_Root remote)) (TrustRoot.rem_Targets remote) = Ok client)
    (Htarget : GetTarget client (targetName (TrustRoot.rem_TrustedRootTarget remote)) = Ok data)
    (Hdata : protojson_Unmarshal data = Ok sk)
    (Hnone : GetTarget client "" = Err err) (Herr : Contains err "not found" = true)
    (Htop : (GetTopLevelTargets client).2 = Ok targets) (Hcustom : Forall (λ t, t.2 = None) targets) :
  getSigstoreKeys untar uaString tr = Ok sk ∧
  GetKeysFromTrustRoot tr = Err "no certificate authorities found".
Proof.
  unfold getSigstoreKeys, GetKeysFromTrustRoot. rewrite Hremote, Hrepo.
  unfold getSigstoreKeysFromRemote. rewrite Hclient. cbn [map_err mbind result_bind].
  unfold GetSigstoreKeysFromTuf. rewrite Htarget, Hnone, Herr. cbn [negb]. rewrite Hdata. split; [done|].
  rewrite Htop. cbn [map_err mbind result_bind]. by rewrite (addTargets_no_custom _ _ _ Hcustom).
Qed.

End Keys.

(** * main.go *)

Record Flags := {
  f_policy : string; f_version : bool; f_image : string; f_resource : string;
  f_trustroot : string; f_logLevel : string; f_enableOCI11 : bool
}.

(** How the process ends: after its usage or its version; with [log.Fatal] and a
    message; with a panic; with the errors of the verification and the warnings; or well. *)
Inductive Outcome :=
  | Usage | Version | Fatal (msg : string) | Panicked | Failed (output : json) | Succeeded.
Definition exitCode (o : Outcome) : Z :=
  match o with Version | Succeeded => 0 | Usage | Fatal _ | Failed _ => 1 | Panicked => 2 end.

(** sigs.k8s.io/yaml for the fields of a resource and for a TrustRoot. *)
Class TesterFormats := {
  yaml_Object : string → result string (list (string * json));
  yaml_TrustRoot : string → result string TrustRoot.TrustRoot
}.

Definition lookupField (o : list (string * json)) (k : string) : option json :=
  '(_, kv) ← list_find (λ kv, kv.1 = k) o; Some kv.2.

Section Main.
Context `{N : NamePkg} `{F : FieldErrors} `{P : Parsers} `{J : JsonText} `{C : Certs}
  `{T : CosignTypes} `{G : !Cosign} `{L : GM.LRU} `{M : K8sMeta} `{R : !Registry} `{HO : Host}
  `{D : !Documents} `{LK : !LogKeys} `{TP : TufPkg} `{TF : TrustFormats} `{TM : TesterFormats}.
Variable ValidResourceNames : gset string.
Variable parseURL : string → result string URL.
Variable untar : string → result string Archive.
Variable uaString : string.
(** [authn.DefaultKeychain], and the trusted root of the TUF cache. *)
Variable DefaultKeychain : KeychainOptions.
Variable cachedRoot : result string TrustedRoot.

Definition validLogLevel (l : string) : bool :=
  (l ==s "debug") || (l ==s "info") || (l ==s "warn") || (l ==s "error").

Definition testerContext (f : Flags) : Ctx :=
  if f_enableOCI11 f then
    ToContext emptyCtx {| NoMatchPolicy := "deny"; FailOnEmptyAuthorities := true; EnableOCI11 := true |}
  else emptyCtx.

Definition testerVerification (f : Flags) : Verification :=
  {| v_NoMatchPolicy := "deny";
     v_Policies := Some [
       if HasPrefix (f_policy f) "https://" || HasPrefix (f_policy f) "http://"
       then {| src_Data := ""; src_Path := ""; src_URL := f_policy f |}
       else {| src_Data := ""; src_Path := f_policy f; src_URL := "" |}] |}.

(** No client of an HSM, and no cache. *)
Definition initialContext (f : Flags) : WebhookCtx :=
  {| wc_verify := {| vc_trust := {| tc_pcConfig := PCConfig.FromContextOrDefaults (testerContext f);
                                   tc_config := None; tufRoot := cachedRoot |};
                     vc_gmClient := None; vc_gmState := {| GM.calls := 0; GM.cache := None |} |};
     wc_cache := None; wc_spec := None; wc_objectMeta := None; wc_typeMeta := None |}.

(** The resource whose spec and metadata the policies can use. *)
Definition withResource (env : Sources) (path : string) (ctx : WebhookCtx) : result string WebhookCtx :=
  if path ==s "" then Ok ctx else
  raw ← os_ReadFile env path;
  uo ← yaml_Object raw;
  match lookupField uo "metadata" with
  | None => Err "kubernetes resource is missing metadata key"
  | Some m =>
  match lookupField uo "spec" with
  | None => Err "kubernetes resource is missing spec key"
  | Some spec =>
  match lookupField uo "kind" with
  | None => Err "kubernetes resource is missing kind key"
  | Some kind =>
  match lookupField uo "apiVersion" with
  | None => Err "kubernetes resource is missing apiVersion key"
  | Some apiVersion =>
      Ok (IncludeTypeMeta (IncludeSpec (IncludeObjectMeta ctx m) spec)
            (JObj [("apiVersion", apiVersion); ("kind", kind)]))
  end end end end.

(** The keys of a trust root, under its name; the default configuration has no
    policies. *)
Definition withTrustRoot (env : Sources) (path : string) (ctx : WebhookCtx) : result string WebhookCtx :=
  if path ==s "" then Ok ctx else
  raw ← os_ReadFile env path;
  tr ← yaml_TrustRoot raw;
  keys ← GetKeysFromTrustRoot untar uaString tr;
  let trust := vc_trust (wc_verify ctx) in
  Ok {| wc_verify :=
          {| vc_trust := {| tc_pcConfig := tc_pcConfig trust;
               tc_config := Some {|
                 cfg_ImagePolicyConfig := match tc_config trust with
                   | Some c => cfg_ImagePolicyConfig c | None => Some {| ImagePolicies.Policies := ∅ |} end;
                 cfg_SigstoreKeysConfig := Some {[ om_Name (TrustRoot.tr_ObjectMeta tr) := keys ]} |};
               tufRoot := tufRoot trust |};
             vc_gmClient := vc_gmClient (wc_verify ctx); vc_gmState := vc_gmState (wc_verify ctx) |};
        wc_cache := wc_cache ctx; wc_spec := wc_spec ctx; wc_objectMeta := wc_objectMeta ctx;
        wc_typeMeta := wc_typeMeta ctx |}.

(** [strings.Trim(s, newline)]. *)
Fixpoint trimNewlines (s : string) : string :=
  match s with
  | String "010" s' => trimNewlines s'
  | _ => s
  end.
Definition TrimNewlines (s : string) : string :=
  rev_string (trimNewlines (rev_string (trimNewlines s) "")) "".

Definition output (errs warnings : list string) : json :=
  JObj (match errs with [] => [] | _ => [("errors", JArr (JStr <$> errs))] end ++
        match warnings with [] => [] | _ => [("warnings", JArr (JStr <$> warnings))] end).

Definition main (depth : nat) (s : Schedule) (env env' : Sources) (f : Flags) : Outcome :=
  if negb (validLogLevel (f_logLevel f)) then Usage
  else if f_version f then Version
  else if (f_policy f ==s "") || (f_image f ==s "") then Usage else
  let v := testerVerification f in
  match Filter ErrorLevel (Verification_Validate ValidResourceNames env (testerContext f) v) with
  | Some errorFE => Fatal ("CIP is invalid: " +:+ FieldError_Error (Some errorFE))
  | None =>
  match ParseReference [] (f_image f) with
  | Err err => Fatal err
  | Ok ref =>
  match Compile ValidResourceNames parseURL env env' (testerContext f) v with
  | None => Panicked
  | Some (_, Err err) => Fatal (Error err)
  | Some (warnings, Ok vfy) =>
  match (withResource env (f_resource f) (initialContext f) ≫= withTrustRoot env (f_trustroot f)) with
  | Err err => Fatal err
  | Ok ctx =>
      match Verify depth s ctx vfy ref DefaultKeychain [] with
      | (ww, Some err) => Failed (output [TrimNewlines (Error err)] (warnings ++ ww))
      | (_, None) => Succeeded
      end
  end end end end.

Lemma loaded_no_cache env f1 f2 ctx ctx' :
  withResource env f1 ctx ≫= withTrustRoot env f2 = Ok ctx' → wc_cache ctx' = wc_cache ctx.
Proof.
  intros H. assert (∀ c, withResource env f1 ctx = Ok c → wc_cache c = wc_cache ctx) as H1.
  { intros c. unfold withResource. destruct (f1 ==s ""); [by intros [= <-]|].
    destruct (os_ReadFile env f1) as [raw|]; [|done]. cbn. destruct (yaml_Object raw) as [uo|]; [|done]. cbn.
    repeat (case_match; [|done]). intros [= <-].
    unfold IncludeTypeMeta, IncludeSpec, IncludeObjectMeta. by repeat case_match. }
  destruct (withResource env f1 ctx) as [c|]; [|done]. rewrite <-(H1 c eq_refl).
  cbn in H. unfold withTrustRoot in H. destruct (f2 ==s ""); [by injection H as <-|].
  destruct (os_ReadFile env f2) as [raw|]; [|done]. cbn in H.
  destruct (yaml_TrustRoot raw) as [tr|]; [|done]. cbn in H.
  destruct (GetKeysFromTrustRoot _ _ tr) as [keys|]; [|done]. cbn in H. by injection H as <-.
Qed.

(** C18: the command succeeds only for an image that is covered: it is a reference,
    its context and the policy were read, some compiled policy matches it, and
    every policy that matches it, is not in warn mode and has authorities has an
    authority that was satisfied, if cosign answers and nothing is cancelled. *)
Theorem tester_success (depth : nat) (s : Schedule) (env env' : Sources) (f : Flags) (Hs : NoCancel s)
    (Hmain : main depth s env env' f = Succeeded) :
  ∃ ref ww i ctx matches, ParseReference [] (f_image f) = Ok ref ∧
    Compile ValidResourceNames parseURL env env' (testerContext f) (testerVerification f) = Some (ww, Ok i) ∧
    withResource env (f_resource f) (initialContext f) ≫= withTrustRoot env (f_trustroot f) = Ok ctx ∧
    testerMatches s ctx i ref = (matches, None) ∧ matches ≠ ∅ ∧
    ∀ name p, matches !! name = Some p → Mode p ≠ "warn" → Authorities p ≠ [] →
      Forall (answers ctx "" ref [WithAuthFromKeychain DefaultKeychain]) (Authorities p) →
      ∃ a m, a ∈ Authorities p ∧ authoritySatisfied ctx "" ref [WithAuthFromKeychain DefaultKeychain] a m.
Proof.
  unfold main in Hmain. destruct (negb _); [done|]. destruct (f_version f); [done|].
  destruct (_ || _); [done|]. cbv zeta in Hmain. destruct (Filter _ _); [done|].
  destruct (ParseReference [] (f_image f)) as [ref|]; [|done].
  destruct (Compile _ _ _ _ _ _) as [[ww [i|]]|] eqn:Hi; [|done..].
  destruct (_ ≫= _) as [ctx|] eqn:Hctx; [|done].
  destruct (Verify depth s ctx i ref DefaultKeychain []) as [w [err|]] eqn:Hv; [done|].
  destruct (proj1 (Verify_None depth s ctx i ref DefaultKeychain [])) as (matches & Hm & Hu & Hall);
    [by rewrite Hv|].
  exists ref, ww, i, ctx, matches. split_and!; [done..| |].
  - intros Hempty. specialize (Hu Hempty). apply compiled_verification in Hi. rewrite Hi in Hu. set_solver.
  - intros name p Hp Hmode Hauth Hans.
    eapply surfaced_satisfied; [exact Hs| |exact Hmode|exact Hauth|exact Hans|exact (Hall name p Hp)].
    unfold cacheMiss. apply loaded_no_cache in Hctx. by rewrite Hctx.
Qed.

End Main.

(** * Concrete inputs *)

Module ToyMain.

#[local] Existing Instances ToyNames.names ToyParsers.parsers ToyMeta.meta ListFieldErrors.fieldErrors
  TrustRootSpec.ToyTrustRoot.formats.

(** A repository whose only target is the trusted root, without custom metadata. *)
#[export] Instance tuf : TufPkg := {|
  Client := ClientOptions;
  sigstoretuf_New o := if opt_Root o ==s "" then Err "no root" else Ok o;
  Client_GetTarget _ name := if name ==s "trusted_root.json" then Ok "root"
    else Err ("target " +:+ name +:+ " not found");
  tufconfig_New _ _ := Ok tt;
  updater_New _ := Ok tt;
  updater_Refresh _ := Ok [("trusted_root.json", None)]
|}.
#[export] Instance logKeys : LogKeys := {| keyKind _ := OtherKey; GetTransparencyLogID _ := Ok "id" |}.
#[export] Instance formats : TesterFormats :=
  {| yaml_Object _ := Err "no resource"; yaml_TrustRoot _ := Err "no trust root" |}.

Definition remote : TrustRoot.Remote :=
  {| TrustRoot.rem_Root := Some "root.json"; TrustRoot.Mirror := {| urlString := "https://tuf.example.com" |};
     TrustRoot.rem_Targets := "targets"; TrustRoot.rem_TrustedRootTarget := "" |}.
Definition trustroot : TrustRoot.TrustRoot :=
  {| TrustRoot.tr_TypeMeta := {| Kind := "TrustRoot"; APIVersion := "policy.sigstore.dev/v1alpha1" |};
     TrustRoot.tr_ObjectMeta := emptyObjectMeta;
     TrustRoot.tr_Spec := {| TrustRoot.spec_Remote := Some remote; TrustRoot.spec_Repository := None;
                             TrustRoot.spec_SigstoreKeys := None |};
     TrustRoot.tr_Status := {| ObservedGeneration := 0; Conditions := [] |} |}.

Definition flags : Flags :=
  {| f_policy := "policies.yaml"; f_version := false; f_image := "ghcr.io/org/app"; f_resource := "";
     f_trustroot := ""; f_logLevel := "info"; f_enableOCI11 := false |}.

End ToyMain.

#[local] Existing Instances ToyNames.names ToyParsers.parsers ToyCerts.certs ToyCosign.types
  ToyCosign.cosign ToyEnvelope.jsonText GM.ToyGM.lru_instance ToyMeta.meta
  ListFieldErrors.fieldErrors ToyWebhook.registry ToyWebhook.host ToyTester.documents
  TrustRootSpec.ToyTrustRoot.formats ToyMain.tuf ToyMain.logKeys ToyMain.formats.

Lemma tester_misses_trusted_root_witness :
  getSigstoreKeys (λ _, Err "no archive") "ua" ToyMain.trustroot = Ok emptyKeys ∧
  GetKeysFromTrustRoot (λ _, Err "no archive") "ua" ToyMain.trustroot = Err "no certificate authorities found".
Proof.
  destruct (ClientFromRemote "ua" "https://tuf.example.com" "root.json" "targets") as [client|] eqn:Hc;
    [|vm_compute in Hc; discriminate Hc].
  pose proof Hc as Hcl. vm_compute in Hcl. injection Hcl as <-.
  eapply (tester_misses_trusted_root (λ _, Err "no archive") "ua" ToyMain.trustroot ToyMain.remote _ "root"
    "target  not found" emptyKeys [("trusted_root.json", None)]); try exact Hc; try reflexivity.
  repeat constructor.
Defined.

Definition toyMain : Outcome :=
  main ∅ (λ s, Ok {| urlString := s |}) (λ _, Err "no archive") "ua" ToyWebhook.kc (Err "offline") 3
    ToyWebhook.inOrder ToyTester.env ToyTester.env ToyMain.flags.

Lemma tester_success_witness :
  exitCode toyMain = 0%Z ∧ ∃ ref ctx i matches, testerMatches ToyWebhook.inOrder ctx i ref = (matches, None) ∧
    (matches : gmap string ClusterImagePolicy) ≠ ∅.
Proof.
  assert (toyMain = Succeeded) as Hm by (vm_compute; reflexivity).
  split; [rewrite Hm; reflexivity|].
  destruct (tester_success ∅ (λ s, Ok {| urlString := s |}) (λ _, Err "no archive") "ua" ToyWebhook.kc (Err "offline") 3
    ToyWebhook.inOrder ToyTester.env ToyTester.env ToyMain.flags inOrder_NoCancel Hm)
    as (ref & ww & i & ctx & matches & _ & _ & _ & H & Hne & _).
  exists ref, ctx, i, matches. split; [exact H|exact Hne].
Defined.

(** An image that no policy covers. *)
Example uncovered_exits_1 :
  exitCode (main ∅ (λ s, Ok {| urlString := s |}) (λ _, Err "no archive") "ua" ToyWebhook.kc (Err "offline") 3
    ToyWebhook.inOrder ToyTester.env ToyTester.env
    {| f_policy := "policies.yaml"; f_version := false; f_image := "docker.io/library/app"; f_resource := "";
       f_trustroot := ""; f_logLevel := "info"; f_enableOCI11 := false |}) = 1%Z.
Proof. vm_compute. reflexivity. Qed.
